(** * Trinomial pricer: a shallow embedding of the lattice engine

    The development embeds [pricing_library/core] (market, option, pricing
    parameters, node), [pricing_library/models/tree.py] and
    [pricing_library/greeks/numerical_greeks.py].

    Numbers.  Python floats and NumPy [float64] scalars are IEEE binary64
    values; they are embedded as Rocq's primitive [float], whose arithmetic,
    comparisons, [abs] and [sqrt] are the IEEE operations (one NaN, which
    every comparison answers with [false]).  NumPy scalar arithmetic does not
    raise: [0/0] is NaN.  Where the two kinds of number behave differently
    in the code embedded here, in the quotients of the estimators of
    [numerical_greeks.py], a number carries its kind ([PyNum]).  Three
    library functions the sources call are taken as parameters of the
    development: [np_exp] (NumPy's exponential), [py_pow] (the [**]
    operator, which on Python floats may raise) and [timedelta_days] (the
    constructor [datetime.timedelta(days=x)] applied to a float, in
    microseconds).

    Dates.  A [datetime] is an integer count of microseconds, a [timedelta]
    likewise.

    The lattice.  Nodes are mutable Python objects that point to each other;
    the embedding keeps them in an arena (a list indexed by allocation order)
    and every method is a function in a state-and-error monad over it. *)

From Stdlib Require Import ZArith Floats Uint63 List Bool Lia.
From stdpp Require Import base option list.

Set Warnings "-inexact-float".

(** ** Outcomes of a call *)

Inductive exn : Type :=
  | ValueError
  | TypeError
  | AssertionError
  | RecursionError
  | ZeroDivisionError
  | ArithmeticError
  | OverflowError
  | AttributeError.

(** [OutOfFuel] stands for a loop that the given fuel could not finish; it is
    not a Python outcome. *)
Inductive res (A : Type) : Type :=
  | Ok (a : A)
  | Raise (e : exn)
  | OutOfFuel.
Arguments Ok {A} a.
Arguments Raise {A} e.
Arguments OutOfFuel {A}.

Definition res_bind {A B} (m : res A) (k : A -> res B) : res B :=
  match m with
  | Ok a => k a
  | Raise e => Raise e
  | OutOfFuel => OutOfFuel
  end.

(** A Python expression that may raise an arithmetic exception. *)
Definition arith (o : option float) : res float :=
  match o with
  | Some x => Ok x
  | None => Raise ArithmeticError
  end.

Declare Scope res_scope.
Delimit Scope res_scope with res.
Notation "'let?' x ':=' m 'in' k" := (res_bind m (fun x => k))
  (at level 10, x pattern, m at level 100, k at level 200) : res_scope.

(** ** Floats, dates and durations *)

Module Num.

(** [float(z)] for a Python integer, which has no bound: the nearest
    binary64 value, ties to even. *)
Definition of_Z (z : Z) : float :=
  SF2Prim (SpecFloat.binary_normalize prec emax z 0 false).

(** [a > b], [a >= b] of Python on floats. *)
Definition gtb (a b : float) : bool := PrimFloat.ltb b a.
Definition geb (a b : float) : bool := PrimFloat.leb b a.

(** Python's [max(a, b)] on two arguments: [b] when [b > a], else [a]. *)
Definition py_max (a b : float) : float := if gtb b a then b else a.

(** The quotient of two integers, [b] not zero, rounded once to the nearest
    binary64 value, ties to even: the quotient of the magnitudes is taken
    with 64 bits or more and a sticky bit, and rounded.  A zero has the sign
    of the divisor, as in CPython. *)
Definition round_quotient (a b : Z) : float :=
  let negative := xorb (a <? 0)%Z (b <? 0)%Z in
  let n := Z.abs a in
  let d := Z.abs b in
  let s := Z.max 0 (Z.log2 d - Z.log2 n + 64)%Z in
  let q := (n * 2 ^ s / d)%Z in
  let sticky := if ((n * 2 ^ s) mod d =? 0)%Z then 0%Z else 1%Z in
  let x := SF2Prim (SpecFloat.binary_normalize prec emax
                      (2 * q + sticky)%Z (- s - 1)%Z false) in
  if negative then PrimFloat.opp x else x.

(** [int / int]: true division, correctly rounded whatever the size of the
    operands.  (A quotient too large for a float, an [OverflowError] in
    Python, needs a numerator beyond any number of days that a [timedelta]
    holds; the embedding gives an infinity there.) *)
Definition int_truediv (a b : Z) : res float :=
  if (b =? 0)%Z then Raise ZeroDivisionError
  else Ok (round_quotient a b).

Definition is_nan (x : float) : bool := negb (PrimFloat.eqb x x).

End Num.

(** Python numbers and NumPy scalars.  The spot, the strike, the bumps and
    the literals of the sources are Python numbers; [np.exp] returns a NumPy
    scalar, and so does every operation with a NumPy operand.  A quotient
    tells them apart: a Python number divided by a zero Python number raises
    [ZeroDivisionError], a quotient with a NumPy operand is an infinity or a
    NaN.  The integer [0] that [max(x, 0)] may return behaves in these
    operations as the Python float [0.0] and is embedded as such. *)
Module PyNum.

Inductive kind : Type := Python | NumPy.

Record t : Type := mk { val : float; kind_of : kind }.

Definition py (x : float) : t := mk x Python.
Definition np (x : float) : t := mk x NumPy.

(** The kind of the result of a binary operation. *)
Definition join (a b : kind) : kind :=
  match a, b with
  | Python, Python => Python
  | _, _ => NumPy
  end.

Definition add (a b : t) : t :=
  mk (val a + val b)%float (join (kind_of a) (kind_of b)).
Definition sub (a b : t) : t :=
  mk (val a - val b)%float (join (kind_of a) (kind_of b)).
Definition mul (a b : t) : t :=
  mk (val a * val b)%float (join (kind_of a) (kind_of b)).

(** [a / b]. *)
Definition truediv (a b : t) : res t :=
  match join (kind_of a) (kind_of b) with
  | Python =>
      if PrimFloat.eqb (val b) 0 then Raise ZeroDivisionError
      else Ok (py (val a / val b)%float)
  | NumPy => Ok (np (val a / val b)%float)
  end.

(** [a != 0]. *)
Definition nonzero (a : t) : bool := negb (PrimFloat.eqb (val a) 0).

(** The float a computation returns, its kind forgotten. *)
Definition value (r : res t) : res float :=
  match r with
  | Ok x => Ok (val x)
  | Raise e => Raise e
  | OutOfFuel => OutOfFuel
  end.

End PyNum.

Declare Scope pynum_scope.
Delimit Scope pynum_scope with py.
Infix "+" := PyNum.add : pynum_scope.
Infix "-" := PyNum.sub : pynum_scope.
Infix "*" := PyNum.mul : pynum_scope.

Module Time.

Definition one_day : Z := 86400000000.

(** [timedelta.days] of a difference of two datetimes. *)
Definition days (td : Z) : Z := (td / one_day)%Z.

(** CPython's [_divide_and_round]: the quotient rounded to the nearest
    integer, ties to even; this is [timedelta / int]. *)
Definition divide_and_round (a b : Z) : Z :=
  let q := (a / b)%Z in
  let r := (2 * (a mod b))%Z in
  let greater_than_half := if (0 <? b)%Z then (b <? r)%Z else (r <? b)%Z in
  if greater_than_half || ((r =? b)%Z && (q mod 2 =? 1)%Z) then (q + 1)%Z
  else q.

(** [datetime(2099, 12, 31)], counted from 1970-01-01. *)
Definition far_future : Z := 4102358400000000.

(** [datetime.min] and [datetime.max]: the first microsecond of year 1 and
    the last of year 9999. *)
Definition min_datetime : Z := -62135596800000000.
Definition max_datetime : Z := 253402300799999999.

(** [timedelta(days=k)] for an integer [k]: beyond 999999999 days it is an
    [OverflowError]. *)
Definition timedelta_of_days (k : Z) : res Z :=
  if (Z.abs k <=? 999999999)%Z then Ok (k * one_day)%Z
  else Raise OverflowError.

(** [d + td] for a datetime and a timedelta: an [OverflowError] when the
    sum is not a datetime. *)
Definition datetime_add (d td : Z) : res Z :=
  let r := (d + td)%Z in
  if (min_datetime <=? r)%Z && (r <=? max_datetime)%Z then Ok r
  else Raise OverflowError.

(** [d + timedelta(days=k)]. *)
Definition days_later (d k : Z) : res Z :=
  match timedelta_of_days k with
  | Ok td => datetime_add d td
  | Raise e => Raise e
  | OutOfFuel => OutOfFuel
  end.

End Time.

(** ** core/market.py, core/option.py, core/pricing_parameters.py *)

Record Market : Type := mkMarket {
  s0 : float;
  rate : float;
  vol : float;
  dividend : float;
  ex_div_date : Z
}.

Definition Market_init (s0 rate vol dividend_amount : float)
    (ex_div_date : option Z) : res Market :=
  if PrimFloat.ltb s0 0 || PrimFloat.ltb vol 0 then Raise ValueError
  else Ok {| s0 := s0; rate := rate; vol := vol; dividend := dividend_amount;
             ex_div_date :=
               match ex_div_date with
               | Some d => if negb (PrimFloat.eqb dividend_amount 0) then d
                           else Time.far_future
               | None => Time.far_future
               end |}.

Inductive call_put_t : Type := call | put.
Inductive eur_am_t : Type := european | american.

Record Option_ : Type := mkOption {
  K : float;
  maturity : Z;
  call_put : call_put_t;
  eur_am : eur_am_t
}.

Definition payoff (o : Option_) (und_price : float) : float :=
  match call_put o with
  | call => Num.py_max (und_price - K o) 0
  | put => Num.py_max (K o - und_price) 0
  end.

Definition is_american (o : Option_) : bool :=
  match eur_am o with american => true | european => false end.

(** The difference that [payoff] compares with [0]. *)
Definition intrinsic (o : Option_) (und_price : float) : float :=
  match call_put o with
  | call => (und_price - K o)%float
  | put => (K o - und_price)%float
  end.

(** The kind of what [payoff] returns: the [0] of [max(..., 0)] is a Python
    number; the difference has the kind of [und_price], the strike being a
    Python number. *)
Definition payoff_kind (o : Option_) (und_price : PyNum.t) : PyNum.kind :=
  if Num.gtb 0 (intrinsic o (PyNum.val und_price)) then PyNum.Python
  else PyNum.kind_of und_price.

Record PricerParameters : Type := mkParams {
  pricing_date : Z;
  nb_steps : Z;
  pruning : bool;
  p_min : option float
}.

(** The dataclass defaults: [pruning=False], [p_min=1e-9]. *)
Definition PricerParameters_default (pricing_date nb_steps : Z)
    : PricerParameters :=
  mkParams pricing_date nb_steps false (Some 1e-9%float).

(** ** core/node.py: the node record and the arena *)

(** A node is addressed by its index in the arena. *)
Abbreviation id := nat (only parsing).

(** [prec_node] is [None] for a plain [Node] (the attribute does not exist)
    and [Some p] for a [TruncNode] whose attribute holds [p]. *)
Record Node : Type := mkNode {
  und_price : float;
  date : Z;
  opt_price : option float;
  p_up : float;
  p_mid : float;
  p_down : float;
  p_node : float;
  next_up : option id;
  next_mid : option id;
  next_down : option id;
  up_node : option id;
  down_node : option id;
  is_exerced : bool;
  prec_node : option (option id)
}.

(** [Node.__init__] and [TruncNode.__init__]. *)
Definition Node_init (und_price : float) (date : Z) : Node :=
  {| und_price := und_price; date := date; opt_price := None;
     p_up := 0; p_mid := 0; p_down := 0; p_node := 0;
     next_up := None; next_mid := None; next_down := None;
     up_node := None; down_node := None; is_exerced := false;
     prec_node := None |}.

Definition TruncNode_init (und_price : float) (date : Z)
    (prec : option id) : Node :=
  {| und_price := und_price; date := date; opt_price := None;
     p_up := 0; p_mid := 0; p_down := 0; p_node := 0;
     next_up := None; next_mid := None; next_down := None;
     up_node := None; down_node := None; is_exerced := false;
     prec_node := Some prec |}.

Definition is_TruncNode (n : Node) : bool :=
  match prec_node n with Some _ => true | None => false end.

(** Field assignments. *)
Definition set_opt_price (v : option float) (n : Node) : Node :=
  mkNode (und_price n) (date n) v (p_up n) (p_mid n) (p_down n) (p_node n)
    (next_up n) (next_mid n) (next_down n) (up_node n) (down_node n)
    (is_exerced n) (prec_node n).
Definition set_probas (u m d : float) (n : Node) : Node :=
  mkNode (und_price n) (date n) (opt_price n) u m d (p_node n)
    (next_up n) (next_mid n) (next_down n) (up_node n) (down_node n)
    (is_exerced n) (prec_node n).
Definition set_p_node (p : float) (n : Node) : Node :=
  mkNode (und_price n) (date n) (opt_price n) (p_up n) (p_mid n) (p_down n) p
    (next_up n) (next_mid n) (next_down n) (up_node n) (down_node n)
    (is_exerced n) (prec_node n).
Definition set_next_up (x : option id) (n : Node) : Node :=
  mkNode (und_price n) (date n) (opt_price n) (p_up n) (p_mid n) (p_down n)
    (p_node n) x (next_mid n) (next_down n) (up_node n) (down_node n)
    (is_exerced n) (prec_node n).
Definition set_next_mid (x : option id) (n : Node) : Node :=
  mkNode (und_price n) (date n) (opt_price n) (p_up n) (p_mid n) (p_down n)
    (p_node n) (next_up n) x (next_down n) (up_node n) (down_node n)
    (is_exerced n) (prec_node n).
Definition set_next_down (x : option id) (n : Node) : Node :=
  mkNode (und_price n) (date n) (opt_price n) (p_up n) (p_mid n) (p_down n)
    (p_node n) (next_up n) (next_mid n) x (up_node n) (down_node n)
    (is_exerced n) (prec_node n).
Definition set_up_node (x : option id) (n : Node) : Node :=
  mkNode (und_price n) (date n) (opt_price n) (p_up n) (p_mid n) (p_down n)
    (p_node n) (next_up n) (next_mid n) (next_down n) x (down_node n)
    (is_exerced n) (prec_node n).
Definition set_down_node (x : option id) (n : Node) : Node :=
  mkNode (und_price n) (date n) (opt_price n) (p_up n) (p_mid n) (p_down n)
    (p_node n) (next_up n) (next_mid n) (next_down n) (up_node n) x
    (is_exerced n) (prec_node n).
Definition set_is_exerced (b : bool) (n : Node) : Node :=
  mkNode (und_price n) (date n) (opt_price n) (p_up n) (p_mid n) (p_down n)
    (p_node n) (next_up n) (next_mid n) (next_down n) (up_node n)
    (down_node n) b (prec_node n).

Abbreviation heap := (list Node) (only parsing).

(** Computations that read and write the arena and may raise. *)
Definition M (A : Type) : Type := heap -> res (A * heap).

Definition ret {A} (a : A) : M A := fun h => Ok (a, h).
Definition bind {A B} (m : M A) (k : A -> M B) : M B :=
  fun h => match m h with
           | Ok (a, h') => k a h'
           | Raise e => Raise e
           | OutOfFuel => OutOfFuel
           end.
Definition raise {A} (e : exn) : M A := fun _ => Raise e.
Definition out_of_fuel {A} : M A := fun _ => OutOfFuel.
Definition lift {A} (r : res A) : M A :=
  fun h => match r with
           | Ok a => Ok (a, h)
           | Raise e => Raise e
           | OutOfFuel => OutOfFuel
           end.

Declare Scope M_scope.
Delimit Scope M_scope with M.
Notation "'let*' x ':=' m 'in' k" := (bind m (fun x => k))
  (at level 10, x pattern, m at level 100, k at level 200) : M_scope.
Notation "m ';;' k" := (bind m (fun _ => k))
  (at level 100, k at level 200, right associativity) : M_scope.

(** Reading an object through a reference; a reference always comes from an
    allocation, a dangling one is reported as [AttributeError]. *)
Definition get (i : id) : M Node :=
  fun h => match h !! i with
           | Some n => Ok (n, h)
           | None => Raise AttributeError
           end.

(** In-place update of the object behind a reference. *)
Definition modify (i : id) (f : Node -> Node) : M unit :=
  fun h => match h !! i with
           | Some n => Ok (tt, <[i := f n]> h)
           | None => Raise AttributeError
           end.

(** Object creation. *)
Definition alloc (n : Node) : M id :=
  fun h => Ok (length h, h ++ [n]).

(** The test [x is None]. *)
Definition is_none {A} (o : option A) : bool :=
  match o with None => true | Some _ => false end.

(** Attribute access on a value that may be [None]. *)
Definition deref (o : option id) : M id :=
  match o with
  | Some i => ret i
  | None => raise AttributeError
  end.

(** ** models/tree.py: the tree's own attributes *)

Record Tree : Type := mkTree {
  pricer_parameters : PricerParameters;
  market_data : Market;
  option_data : Option_;
  delta_t : float;
  df : float;
  alpha : float
}.

Section Engine.

(** NumPy's [exp]. *)
Variable np_exp : float -> float.
(** The power operator [x ** k] for an integer literal [k]; [None] when it
    raises. *)
Variable py_pow : float -> Z -> option float.
(** [datetime.timedelta(days=x)], in microseconds. *)
Variable timedelta_days : float -> Z.

Open Scope float_scope.

(** [Tree.__init__]. *)
Definition Tree_init (pp : PricerParameters) (mkt : Market) (opt : Option_)
    : res Tree :=
  (let? dt := Num.int_truediv (Time.days (maturity opt - pricing_date pp))
                              (nb_steps pp * 365) in
   Ok {| pricer_parameters := pp; market_data := mkt; option_data := opt;
         delta_t := dt;
         df := np_exp (- rate mkt * dt);
         alpha := np_exp (vol mkt * PrimFloat.sqrt (3 * dt)) |})%res.

Section Methods.

Variable tree : Tree.

Let pp := pricer_parameters tree.
Let mkt := market_data tree.

(** The date one step after [d]. *)
Definition next_date (d : Z) : Z :=
  (d + timedelta_days (delta_t tree * 365))%Z.

(** [Node.dividend_period]. *)
Definition dividend_tol : Z :=
  Time.divide_and_round
    (Time.divide_and_round Time.one_day (Z.max 1 (nb_steps pp))) 1000.

Definition dividend_period (n : Node) : bool :=
  let ex_date := ex_div_date mkt in
  let nd := next_date (date n) in
  let tol := dividend_tol in
  let after_start :=
    (date n <? ex_date)%Z && negb (Z.abs (date n - ex_date) <? tol)%Z in
  let before_or_equal_next :=
    (ex_date <? nd)%Z || (Z.abs (ex_date - nd) <? tol)%Z in
  after_start && before_or_equal_next.

(** [Node.forward_variance]; [expected_value] is its first component. *)
Definition expected_value (n : Node) : float :=
  let pure_forward := und_price n * np_exp (rate mkt * delta_t tree) in
  if dividend_period n then pure_forward - dividend mkt else pure_forward.

Definition forward_variance (n : Node) : res (float * float) :=
  (let expected_value := expected_value n in
   let? s2 := arith (py_pow (und_price n) 2) in
   let? v2 := arith (py_pow (vol mkt) 2) in
   let variance :=
     s2 * np_exp (2 * rate mkt * delta_t tree)
        * (np_exp (v2 * delta_t tree) - 1) in
   Ok (expected_value, variance))%res.

(** The two closed forms inside the [try] block of [Node.probas];
    [None] when an exception is raised there. *)
Definition CLOSE_EPS : float := 1e-12.
Definition PROB_TOL : float := 1e-10.

Definition simplified_formula : option (float * float * float) :=
  v2 ← py_pow (vol mkt) 2;
  a2 ← py_pow (alpha tree) (-2);
  let var_factor := np_exp (v2 * delta_t tree) - 1 in
  let denom := (1 - alpha tree) * (a2 - 1) in
  let p_down := var_factor / denom in
  let p_up := p_down / alpha tree in
  let p_mid := 1 - p_up - p_down in
  Some (p_up, p_mid, p_down).

Definition general_formula (expected_value variance sm : float)
    : option (float * float * float) :=
  sm2 ← py_pow sm 2;
  let variance_term :=
    (variance + (expected_value + sm) * (expected_value - sm)) / sm2 in
  let expected_term := (expected_value - sm) / sm in
  a2 ← py_pow (alpha tree) (-2);
  let denominator := (1 - alpha tree) * (a2 - 1) in
  let p_down :=
    (variance_term - (alpha tree + 1) * expected_term) / denominator in
  a1 ← py_pow (alpha tree) (-1);
  let p_up := (expected_term - (a1 - 1) * p_down) / (alpha tree - 1) in
  let p_mid := 1 - p_up - p_down in
  Some (p_up, p_mid, p_down).

Definition probas_try (n : Node) (expected_value variance sm : float)
    : option (float * float * float) :=
  if negb (dividend_period n)
     || PrimFloat.ltb (PrimFloat.abs (expected_value - sm)) CLOSE_EPS
  then simplified_formula
  else general_formula expected_value variance sm.

(** The two assertions after the [try] block. *)
Definition out_of_bounds (p : float) : bool :=
  PrimFloat.ltb p (- PROB_TOL) || Num.gtb p (1 + PROB_TOL).

Definition probas_check (p_up p_mid p_down : float) : res unit :=
  let p_sum := p_up + p_mid + p_down in
  if Num.gtb (PrimFloat.abs (p_sum - 1)) PROB_TOL then Raise AssertionError
  else if out_of_bounds p_up then Raise AssertionError
  else if out_of_bounds p_mid then Raise AssertionError
  else if out_of_bounds p_down then Raise AssertionError
  else Ok tt.

(** The guard [pruning and p_node < p_min]; comparing with [None] is a
    [TypeError]. *)
Definition below_floor (n : Node) : res bool :=
  if pruning pp then
    match p_min pp with
    | Some floor => Ok (PrimFloat.ltb (p_node n) floor)
    | None => Raise TypeError
    end
  else Ok false.

(** The guard [not pruning or p_node > p_min]. *)
Definition above_floor (n : Node) : res bool :=
  if pruning pp then
    match p_min pp with
    | Some floor => Ok (Num.gtb (p_node n) floor)
    | None => Raise TypeError
    end
  else Ok true.

Open Scope M_scope.

(** [Node.calc_up_node], [Node.calc_down_node]. *)
Definition calc_up_node (self : id) : M id :=
  let* n := get self in
  match up_node n with
  | Some u => ret u
  | None =>
      let* u := alloc (set_down_node (Some self)
                         (Node_init (und_price n * alpha tree) (date n))) in
      modify self (set_up_node (Some u));;
      ret u
  end.

Definition calc_down_node (self : id) : M id :=
  let* n := get self in
  match down_node n with
  | Some d => ret d
  | None =>
      let* d := alloc (set_up_node (Some self)
                         (Node_init (und_price n / alpha tree) (date n))) in
      modify self (set_down_node (Some d));;
      ret d
  end.

(** The two loops of [Node.find_next_mid]. *)
Fixpoint walk_up (fuel : nat) (forward : float) (c : id) : M id :=
  match fuel with
  | O => out_of_fuel
  | S fuel' =>
      let* n := get c in
      if Num.geb forward
           ((und_price n + und_price n * alpha tree) / 2)
      then let* u := calc_up_node c in walk_up fuel' forward u
      else ret c
  end.

Fixpoint walk_down (fuel : nat) (forward : float) (c : id) : M id :=
  match fuel with
  | O => out_of_fuel
  | S fuel' =>
      let* n := get c in
      if PrimFloat.leb forward
           ((und_price n + und_price n / alpha tree) / 2)
      then let* d := calc_down_node c in walk_down fuel' forward d
      else ret c
  end.

(** [Node.find_next_mid]. *)
Definition find_next_mid (fuel : nat) (self : id) (nCandidate : id)
    : M id :=
  let* n := get self in
  let* fv := lift (forward_variance n) in
  let forward := fst fv in
  let* c := walk_up fuel forward nCandidate in
  let* c := walk_down fuel forward c in
  modify self (set_next_mid (Some c));;
  ret c.

(** [Node.calc_next_mid]; the value returned is [self.next_mid]. *)
Definition calc_next_mid (fuel : nat) (self : id)
    (nCandidate : option id) : M (option id) :=
  let* n := get self in
  (if is_none (next_mid n) || dividend_period n then
     let* fv := lift (forward_variance n) in
     let next_value := fst fv in
     let nd := next_date (date n) in
     let* m := alloc (if is_TruncNode n
                      then TruncNode_init next_value nd (Some self)
                      else Node_init next_value nd) in
     modify self (set_next_mid (Some m));;
     (if dividend_period n then
        let c := match nCandidate with Some c => c | None => m end in
        let* _ := find_next_mid fuel self c in ret tt
      else ret tt)
   else ret tt);;
  let* n := get self in
  ret (next_mid n).

(** The statement [if self.next_mid is None: self.calc_next_mid()]. *)
Definition ensure_next_mid (fuel : nat) (self : id) (n : Node) : M unit :=
  if is_none (next_mid n)
  then let* _ := calc_next_mid fuel self None in ret tt
  else ret tt.

(** [Node.probas]. *)
Definition probas (fuel : nat) (self : id) : M unit :=
  let* n := get self in
  let* pruned := lift (below_floor n) in
  if pruned then modify self (set_probas 0 1 0)
  else
    let* fv := lift (forward_variance n) in
    ensure_next_mid fuel self n;;
    let* n := get self in
    let* mid := deref (next_mid n) in
    let* m := get mid in
    let sm := und_price m in
    match probas_try n (fst fv) (snd fv) sm with
    | None => modify self (set_probas 0 1 0)
    | Some (pu, pm, pd) =>
        lift (probas_check pu pm pd);;
        modify self (set_probas pu pm pd)
    end.

(** [Node.next_nodes_probas]. *)
Definition add_reach (self : id) (succ : option id) (p : float)
    : M unit :=
  match succ with
  | None => ret tt
  | Some x =>
      let* s := get self in
      let* m := get x in
      modify x (set_p_node (p_node m + p_node s * p))
  end.

Definition next_nodes_probas (self : id) : M unit :=
  let* n := get self in
  add_reach self (next_up n) (p_up n);;
  add_reach self (next_mid n) (p_mid n);;
  add_reach self (next_down n) (p_down n).

(** The two conditional expressions [self.next_up.price() if self.next_up is
    not None else 0.0] of [Node.price]. *)
Definition price_or_zero (price : id -> M float) (o : option id) : M float :=
  match o with
  | Some x => price x
  | None => ret 0
  end.

(** The end of [Node.price]: the discounted expectation, the early exercise,
    the cache. *)
Definition price_store (self : id) (price_up price_mid price_down : float)
    : M float :=
  let* n := get self in
  let value :=
    (price_up * p_up n + price_mid * p_mid n + price_down * p_down n)
    * df tree in
  let exercise := payoff (option_data tree) (und_price n) in
  if is_american (option_data tree) && Num.gtb exercise value
  then
    modify self (set_is_exerced true);;
    modify self (set_opt_price (Some exercise));;
    ret exercise
  else
    modify self (set_opt_price (Some value));;
    ret value.

(** [Node.price]; [depth] is the number of nested calls of [Node.price] the
    interpreter still has room for.  Only these calls are counted: the
    frames a call needs for what it calls itself ([payoff], [max],
    [is_american]) depend on the interpreter and are taken to fit. *)
Fixpoint price (depth : nat) (self : id) : M float :=
  match depth with
  | O => raise RecursionError
  | S depth' =>
      let* n := get self in
      match opt_price n with
      | Some v => ret v
      | None =>
          match next_mid n with
          | None =>
              let v := payoff (option_data tree) (und_price n) in
              modify self (set_opt_price (Some v));;
              ret v
          | Some mid =>
              let* price_up := price_or_zero (price depth') (next_up n) in
              let* price_down := price_or_zero (price depth') (next_down n) in
              let* price_mid := price depth' mid in
              price_store self price_up price_mid price_down
          end
      end
  end.

(** [Tree.build_triplet]. *)
Definition build_triplet (fuel : nat) (current_node : id)
    (nCandidate : option id) : M id :=
  let* nm := calc_next_mid fuel current_node nCandidate in
  modify current_node (set_next_mid nm);;
  let* n := get current_node in
  let* grow := lift (above_floor n) in
  (if grow then
     let* mid := deref (next_mid n) in
     let* u := calc_up_node mid in
     modify current_node (set_next_up (Some u));;
     let* n := get current_node in
     let* mid := deref (next_mid n) in
     let* d := calc_down_node mid in
     modify current_node (set_next_down (Some d))
   else ret tt);;
  probas fuel current_node;;
  next_nodes_probas current_node;;
  ret current_node.

(** The two [while] loops of [Tree.build_column]. *)
Fixpoint column_up (fuel loop : nat) (parent_node : id) : M unit :=
  match loop with
  | O => out_of_fuel
  | S loop' =>
      let* n := get parent_node in
      match up_node n with
      | None => ret tt
      | Some p =>
          let* pn := get p in
          let* d := deref (down_node pn) in
          let* dn := get d in
          let* grow := lift (above_floor dn) in
          (if grow then
             modify p (set_next_mid (next_up dn));;
             let* pn := get p in
             let* _ := build_triplet fuel p (next_mid pn) in ret tt
           else
             let* _ := build_triplet fuel p (next_up dn) in
             let* pn := get p in
             let* d := deref (down_node pn) in
             let* dn := get d in
             let* m := deref (next_mid pn) in
             modify m (set_down_node (next_mid dn));;
             let* pn := get p in
             let* d := deref (down_node pn) in
             let* dn := get d in
             let* dm := deref (next_mid dn) in
             modify dm (set_up_node (next_mid pn)));;
          column_up fuel loop' p
      end
  end.

Fixpoint column_down (fuel loop : nat) (parent_node : id) : M unit :=
  match loop with
  | O => out_of_fuel
  | S loop' =>
      let* n := get parent_node in
      match down_node n with
      | None => ret tt
      | Some p =>
          let* pn := get p in
          let* u := deref (up_node pn) in
          let* un := get u in
          let* grow := lift (above_floor un) in
          (if grow then
             modify p (set_next_mid (next_down un));;
             let* pn := get p in
             let* u := deref (up_node pn) in
             let* un := get u in
             let* _ := build_triplet fuel p (next_down un) in ret tt
           else
             let* _ := build_triplet fuel p (next_down un) in
             let* pn := get p in
             let* u := deref (up_node pn) in
             let* un := get u in
             let* m := deref (next_mid pn) in
             modify m (set_up_node (next_mid un));;
             let* pn := get p in
             let* u := deref (up_node pn) in
             let* un := get u in
             let* um := deref (next_mid un) in
             modify um (set_down_node (next_mid pn)));;
          column_down fuel loop' p
      end
  end.

(** [Tree.build_column]; the node returned is the trunk's [next_mid]. *)
Definition build_column (fuel : nat) (current_trunc_node : id) : M id :=
  let* parent_trunc_node := build_triplet fuel current_trunc_node None in
  column_up fuel fuel parent_trunc_node;;
  column_down fuel fuel parent_trunc_node;;
  let* n := get parent_trunc_node in
  deref (next_mid n).

(** The [for] loop of [Tree.make_tree]. *)
Fixpoint build_columns (fuel steps : nat) (current_trunc_node : id)
    : M id :=
  match steps with
  | O => ret current_trunc_node
  | S steps' =>
      let* next := build_column fuel current_trunc_node in
      build_columns fuel steps' next
  end.

(** [Tree.make_tree]; the pair returned is [(self.root, self.last)]. *)
Definition make_tree (fuel : nat) : M (id * id) :=
  if pruning pp && is_none (p_min pp) then raise ValueError
  else
    let* root := alloc (TruncNode_init (s0 mkt) (pricing_date pp) None) in
    modify root (set_p_node 1);;
    let* last := build_columns fuel (Z.to_nat (nb_steps pp)) root in
    ret (root, last).

(** [Tree.recursive_pricing]: a [RecursionError] is caught, a message is
    printed and the method ends without a [return], so its value is
    [None]. *)
Definition recursive_pricing (fuel depth : nat) : res (option float) :=
  match (let* rl := make_tree fuel in price depth (fst rl)) [] with
  | Ok (v, _) => Ok (Some v)
  | Raise RecursionError => Ok None
  | Raise e => Raise e
  | OutOfFuel => OutOfFuel
  end.

(** The loops of [Tree.backward_pricing]. *)
Fixpoint price_up_nodes (depth loop : nat) (current_node : id) : M unit :=
  match loop with
  | O => out_of_fuel
  | S loop' =>
      let* n := get current_node in
      match up_node n with
      | None => ret tt
      | Some u => let* _ := price depth u in price_up_nodes depth loop' u
      end
  end.

Fixpoint price_down_nodes (depth loop : nat) (current_node : id)
    : M unit :=
  match loop with
  | O => out_of_fuel
  | S loop' =>
      let* n := get current_node in
      match down_node n with
      | None => ret tt
      | Some d => let* _ := price depth d in price_down_nodes depth loop' d
      end
  end.

Fixpoint backward_columns (walk depth loop : nat)
    (current_trunc_node : id) : M id :=
  match loop with
  | O => out_of_fuel
  | S loop' =>
      let* n := get current_trunc_node in
      if (pricing_date pp <? date n)%Z then
        let* _ := price depth current_trunc_node in
        price_up_nodes depth walk current_trunc_node;;
        price_down_nodes depth walk current_trunc_node;;
        let* n := get current_trunc_node in
        match prec_node n with
        | None => raise AttributeError
        | Some prec =>
            let* prev := deref prec in
            backward_columns walk depth loop' prev
        end
      else ret current_trunc_node
  end.

(** [Tree.backward_pricing]; the value returned is the [opt_price]
    attribute of the node the walk stops at.  [fuel] bounds the loops of
    [make_tree], [walk] those of the method itself. *)
Definition backward_pricing (fuel walk depth : nat)
    : res (option float) :=
  match (let* rl := make_tree fuel in
         let* first := backward_columns walk depth walk (snd rl) in
         let* _ := price depth first in
         let* n := get first in
         ret (opt_price n)) [] with
  | Ok (v, _) => Ok v
  | Raise e => Raise e
  | OutOfFuel => OutOfFuel
  end.

(** The kind of the number the pricing methods return.  The price of a
    node is [Market.s0], a Python number, at the root; at every other node
    it is a product or a quotient with [alpha] or with [np.exp(...)], a
    NumPy scalar.  What [Node.price] caches is the payoff at a node without
    successor and at a node where early exercise won; it is the expectation
    times [df], a NumPy scalar, everywhere else. *)
Definition und_price_kind (root self : id) : PyNum.kind :=
  if Nat.eqb self root then PyNum.Python else PyNum.NumPy.

Definition cached_kind (root self : id) (n : Node) : PyNum.kind :=
  let exercise :=
    payoff_kind (option_data tree)
      (PyNum.mk (und_price n) (und_price_kind root self)) in
  match next_mid n with
  | None => exercise
  | Some _ => if is_exerced n then exercise else PyNum.NumPy
  end.

Definition recursive_pricing_kind (fuel depth : nat) : res PyNum.kind :=
  match (let* rl := make_tree fuel in
         let* _ := price depth (fst rl) in
         let* n := get (fst rl) in
         ret (cached_kind (fst rl) (fst rl) n)) [] with
  | Ok (k, _) => Ok k
  | Raise e => Raise e
  | OutOfFuel => OutOfFuel
  end.

Definition backward_pricing_kind (fuel walk depth : nat)
    : res PyNum.kind :=
  match (let* rl := make_tree fuel in
         let* first := backward_columns walk depth walk (snd rl) in
         let* _ := price depth first in
         let* n := get first in
         ret (cached_kind (fst rl) first n)) [] with
  | Ok (k, _) => Ok k
  | Raise e => Raise e
  | OutOfFuel => OutOfFuel
  end.

End Methods.

(** ** greeks/numerical_greeks.py *)

Section Greeks.

(** Bounds of the runs the estimators start: loop fuel and call depth. *)
Variables (fuel walk depth : nat).

Open Scope res_scope.

(** A price is a float; anything else fails in the arithmetic that
    follows. *)
Definition as_float (v : option float) : res float :=
  match v with Some x => Ok x | None => Raise TypeError end.

Inductive method_t : Type := backward | recursive.

(** [_price]: the number the chosen method returns, with its kind. *)
Definition price_with (method : method_t) (market : Market)
    (option : Option_) (pricing_date : Z) (n_steps : Z) : res PyNum.t :=
  let params := mkParams pricing_date n_steps true (Some 1e-7%float) in
  let? tree := Tree_init params market option in
  match method with
  | backward =>
      let? v := backward_pricing tree fuel walk depth in
      let? x := as_float v in
      let? k := backward_pricing_kind tree fuel walk depth in
      Ok (PyNum.mk x k)
  | recursive =>
      let? v := recursive_pricing tree fuel depth in
      let? x := as_float v in
      let? k := recursive_pricing_kind tree fuel depth in
      Ok (PyNum.mk x k)
  end.

Definition _price := price_with backward.

(** [Market(s0, rate, vol, dividend, ex_div_date)] as the estimators
    call it. *)
Definition bumped (s0 rate vol dividend : float) (mkt : Market)
    : res Market :=
  Market_init s0 rate vol dividend (Some (ex_div_date mkt)).

Definition delta (mkt : Market) (n_steps : Z) (pricing_date : Z)
    (opt : Option_) (h : float) : res PyNum.t :=
  let S0 := s0 mkt in
  let? up := bumped (S0 * (1 + h)) (rate mkt) (vol mkt) (dividend mkt) mkt in
  let? down :=
    bumped (S0 * (1 - h)) (rate mkt) (vol mkt) (dividend mkt) mkt in
  let? p_up := _price up opt pricing_date n_steps in
  let? p_down := _price down opt pricing_date n_steps in
  PyNum.truediv (p_up - p_down)%py (PyNum.py (S0 * 2 * h)).

Definition gamma (mkt : Market) (n_steps : Z) (pricing_date : Z)
    (opt : Option_) (h : float) : res PyNum.t :=
  let S0 := s0 mkt in
  let? up := bumped (S0 * (1 + h)) (rate mkt) (vol mkt) (dividend mkt) mkt in
  let? down :=
    bumped (S0 * (1 - h)) (rate mkt) (vol mkt) (dividend mkt) mkt in
  let? p_up := _price up opt pricing_date n_steps in
  let? p_mid := _price mkt opt pricing_date n_steps in
  let? p_down := _price down opt pricing_date n_steps in
  let? sq := arith (py_pow (S0 * h) 2) in
  PyNum.truediv (p_up - PyNum.py 2 * p_mid + p_down)%py (PyNum.py sq).

Definition vega (mkt : Market) (n_steps : Z) (pricing_date : Z)
    (opt : Option_) (h : float) : res PyNum.t :=
  let sigma := vol mkt in
  let? up :=
    bumped (s0 mkt) (rate mkt) (sigma * (1 + h)) (dividend mkt) mkt in
  let? down :=
    bumped (s0 mkt) (rate mkt) (sigma * (1 - h)) (dividend mkt) mkt in
  let? p_up := _price up opt pricing_date n_steps in
  let? p_down := _price down opt pricing_date n_steps in
  PyNum.truediv (p_up - p_down)%py (PyNum.py (2 * sigma * h)).

(** [theta]; [days] is an integer. *)
Definition theta (mkt : Market) (n_steps : Z) (pricing_date : Z)
    (opt : Option_) (days : Z) : res PyNum.t :=
  let? up_date := Time.days_later pricing_date days in
  let? p0 := _price mkt opt pricing_date n_steps in
  let? p1 := _price mkt opt up_date n_steps in
  PyNum.truediv (p1 - p0)%py (PyNum.py (Num.of_Z days)).

Definition rho (mkt : Market) (n_steps : Z) (pricing_date : Z)
    (opt : Option_) (h : float) : res PyNum.t :=
  let r := rate mkt in
  let? up := bumped (s0 mkt) (r + h) (vol mkt) (dividend mkt) mkt in
  let? down := bumped (s0 mkt) (r - h) (vol mkt) (dividend mkt) mkt in
  let? p_up := _price up opt pricing_date n_steps in
  let? p_down := _price down opt pricing_date n_steps in
  PyNum.truediv (p_up - p_down)%py (PyNum.py (2 * h)).

Definition vanna (mkt : Market) (n_steps : Z) (pricing_date : Z)
    (opt : Option_) (h_s h_sigma : float) : res PyNum.t :=
  let S0 := s0 mkt in
  let sigma := vol mkt in
  let at_ (s v : float) :=
    let? m := bumped s (rate mkt) v (dividend mkt) mkt in
    _price m opt pricing_date n_steps in
  let? p_pp := at_ (S0 * (1 + h_s)) (sigma * (1 + h_sigma)) in
  let? p_pm := at_ (S0 * (1 + h_s)) (sigma * (1 - h_sigma)) in
  let? p_mp := at_ (S0 * (1 - h_s)) (sigma * (1 + h_sigma)) in
  let? p_mm := at_ (S0 * (1 - h_s)) (sigma * (1 - h_sigma)) in
  PyNum.truediv (p_pp - p_pm - p_mp + p_mm)%py
    (PyNum.py (4 * S0 * h_s * sigma * h_sigma)).

Definition vomma (mkt : Market) (n_steps : Z) (pricing_date : Z)
    (opt : Option_) (h : float) : res PyNum.t :=
  let sigma := vol mkt in
  let at_ (v : float) :=
    let? m := bumped (s0 mkt) (rate mkt) v (dividend mkt) mkt in
    _price m opt pricing_date n_steps in
  let? p_up := at_ (sigma * (1 + h)) in
  let? p_down := at_ (sigma * (1 - h)) in
  let? p0 := _price mkt opt pricing_date n_steps in
  let? sq := arith (py_pow (sigma * h) 2) in
  PyNum.truediv (p_up - PyNum.py 2 * p0 + p_down)%py (PyNum.py sq).

(** The values a caller may pass positionally. *)
Inductive pyval : Type :=
  | PyMarket (m : Market)
  | PyInt (z : Z)
  | PyDate (d : Z)
  | PyOption (o : Option_)
  | PyFloat (f : float).

(** The keyword arguments the starred estimators look up. *)
Record kwargs_t : Type := mkKwargs {
  kw_days : option Z;
  kw_h : option float
}.

(** The [try] block that unpacks [args[0]] to [args[3]]; [None] when
    indexing raises. *)
Definition unpack (args : list pyval)
    : option (pyval * pyval * pyval * pyval) :=
  a0 ← args !! 0%nat; a1 ← args !! 1%nat;
  a2 ← args !! 2%nat; a3 ← args !! 3%nat;
  Some (a0, a1, a2, a3).

(** Using an argument at the type the body needs. *)
Definition as_market (v : pyval) : res Market :=
  match v with PyMarket m => Ok m | _ => Raise AttributeError end.
Definition as_int (v : pyval) : res Z :=
  match v with PyInt z => Ok z | _ => Raise TypeError end.
Definition as_date (v : pyval) : res Z :=
  match v with PyDate d => Ok d | _ => Raise TypeError end.
Definition as_option (v : pyval) : res Option_ :=
  match v with PyOption o => Ok o | _ => Raise AttributeError end.

Definition charm (args : list pyval) (kwargs : kwargs_t)
    : res PyNum.t :=
  match unpack args with
  | None => Ok (PyNum.py 0)
  | Some (a0, a1, a2, a3) =>
      let days := default 1%Z (kw_days kwargs) in
      let h := default 0.01%float (kw_h kwargs) in
      let? mkt := as_market a0 in
      let? n_steps := as_int a1 in
      let? pricing_date := as_date a2 in
      let? opt := as_option a3 in
      let? delta_now := delta mkt n_steps pricing_date opt h in
      let? later := Time.days_later pricing_date days in
      let? delta_later := delta mkt n_steps later opt h in
      PyNum.truediv (delta_later - delta_now)%py (PyNum.py (Num.of_Z days))
  end.

Definition speed (args : list pyval) (kwargs : kwargs_t)
    : res PyNum.t :=
  match unpack args with
  | None => Ok (PyNum.py 0)
  | Some (a0, a1, a2, a3) =>
      let h := default 0.01%float (kw_h kwargs) in
      let? mkt := as_market a0 in
      let S0 := s0 mkt in
      let eps := Num.py_max 1e-3 (S0 * h) in
      let? up :=
        bumped (S0 + eps) (rate mkt) (vol mkt) (dividend mkt) mkt in
      let? down :=
        bumped (S0 - eps) (rate mkt) (vol mkt) (dividend mkt) mkt in
      let? n_steps := as_int a1 in
      let? pricing_date := as_date a2 in
      let? opt := as_option a3 in
      let? g_up := gamma up n_steps pricing_date opt h in
      let? g_down := gamma down n_steps pricing_date opt h in
      PyNum.truediv (g_up - g_down)%py (PyNum.py (2 * eps))
  end.

Definition zomma (args : list pyval) (kwargs : kwargs_t)
    : res PyNum.t :=
  match unpack args with
  | None => Ok (PyNum.py 0)
  | Some (a0, a1, a2, a3) =>
      let h := default 0.01%float (kw_h kwargs) in
      let? mkt := as_market a0 in
      let sigma := vol mkt in
      let eps := Num.py_max 1e-4 (sigma * h) in
      let? up :=
        bumped (s0 mkt) (rate mkt) (sigma + eps) (dividend mkt) mkt in
      let? down :=
        bumped (s0 mkt) (rate mkt) (sigma - eps) (dividend mkt) mkt in
      let? n_steps := as_int a1 in
      let? pricing_date := as_date a2 in
      let? opt := as_option a3 in
      let? g_up := gamma up n_steps pricing_date opt h in
      let? g_down := gamma down n_steps pricing_date opt h in
      PyNum.truediv (g_up - g_down)%py (PyNum.py (2 * eps))
  end.

Definition lambda_elasticity (mkt : Market) (n_steps : Z)
    (pricing_date : Z) (opt : Option_) (h : float) : res PyNum.t :=
  let? V := _price mkt opt pricing_date n_steps in
  let? d := delta mkt n_steps pricing_date opt h in
  if PyNum.nonzero V then PyNum.truediv (d * PyNum.py (s0 mkt))%py V
  else Ok (PyNum.py 0).

Definition dividend_rho (args : list pyval) (kwargs : kwargs_t)
    : res PyNum.t :=
  match unpack args with
  | None => Ok (PyNum.py 0)
  | Some (a0, a1, a2, a3) =>
      let h := default 1e-2%float (kw_h kwargs) in
      let? mkt := as_market a0 in
      let base_div := dividend mkt in
      let? up :=
        bumped (s0 mkt) (rate mkt) (vol mkt) (base_div + h) mkt in
      let? down :=
        bumped (s0 mkt) (rate mkt) (vol mkt)
               (Num.py_max (base_div - h) 0) mkt in
      let? n_steps := as_int a1 in
      let? pricing_date := as_date a2 in
      let? opt := as_option a3 in
      let? p_up := _price up opt pricing_date n_steps in
      let? p_down := _price down opt pricing_date n_steps in
      PyNum.truediv (p_up - p_down)%py (PyNum.py (2 * h))
  end.

End Greeks.

End Engine.

(** ** Stand-ins for the library functions, to run the embedding

    The development is parametric in [np_exp], [py_pow] and
    [timedelta_days].  The functions below instantiate them so that the
    embedding can be evaluated on concrete inputs: [exp] by scaling and
    squaring of a Taylor polynomial (exact at [0], a few units in the last
    place elsewhere), [pow] by repeated multiplication, and the conversion of
    a number of days to microseconds by exact rounding to nearest, ties to
    even. *)

Module Ref.

Open Scope float_scope.

Fixpoint square_n (k : nat) (x : float) : float :=
  match k with
  | O => x
  | S k' => square_n k' (x * x)
  end.

Definition exp (x : float) : float :=
  let r := x / 1024 in
  let t := 1 + r * (1 + r / 2 * (1 + r / 3 * (1 + r / 4 * (1 + r / 5
               * (1 + r / 6 * (1 + r / 7 * (1 + r / 8))))))) in
  square_n 10 t.

Fixpoint pow_pos (x : float) (k : nat) : float :=
  match k with
  | O => 1
  | S k' => x * pow_pos x k'
  end.

(** NumPy scalars: never raises. *)
Definition pow_np (x : float) (k : Z) : option float :=
  Some (if (k <? 0)%Z then 1 / pow_pos x (Z.to_nat (- k))
        else pow_pos x (Z.to_nat k)).

Definition is_finite (x : float) : bool :=
  PrimFloat.ltb (PrimFloat.abs x) infinity.

(** Python floats: a zero base with a negative exponent and an overflow of
    finite operands raise. *)
Definition pow_py (x : float) (k : Z) : option float :=
  if (k <? 0)%Z && PrimFloat.eqb x 0 then None
  else
    let y := if (k <? 0)%Z then 1 / pow_pos x (Z.to_nat (- k))
             else pow_pos x (Z.to_nat k) in
    if is_finite x && negb (is_finite y) && negb (Num.is_nan y) then None
    else Some y.

(** The value [m * 2^e] times [k], rounded to the nearest integer. *)
Definition scale_round (m : positive) (e : Z) (k : Z) : Z :=
  if (0 <=? e)%Z then (Z.pos m * 2 ^ e * k)%Z
  else Time.divide_and_round (Z.pos m * k) (2 ^ (- e)).

Definition timedelta_days (x : float) : Z :=
  match Prim2SF x with
  | S754_finite s m e =>
      let v := scale_round m e Time.one_day in
      if s then (- v)%Z else v
  | _ => 0%Z
  end.

End Ref.

(** The tree and the two pricing methods at the stand-ins. *)
Definition ref_tree (pp : PricerParameters) (mkt : Market) (opt : Option_)
    : res Tree :=
  Tree_init Ref.exp pp mkt opt.

Definition ref_backward (fuel walk depth : nat) (t : Tree)
    : res (option float) :=
  backward_pricing Ref.exp Ref.pow_np Ref.timedelta_days t fuel walk depth.

Definition ref_recursive (fuel depth : nat) (t : Tree) : res (option float) :=
  recursive_pricing Ref.exp Ref.pow_np Ref.timedelta_days t fuel depth.


(** ** models/black_scholes.py

    The closed forms call [math.log], [math.exp], [math.sqrt] and SciPy's
    [norm.cdf] and [norm.pdf].  What is fixed of the first three is written
    out: [math.log] raises [ValueError] at and below zero, [math.sqrt] below
    zero, a division of Python floats raises [ZeroDivisionError] on a zero
    divisor.  The rest is taken as parameters: [math_ln] for the logarithm
    where it is defined, [math_exp] for [math.exp] ([None] where it raises
    [OverflowError]), [py_pow] for [**], [norm_cdf] and [norm_pdf].  The
    values SciPy returns are NumPy scalars, whose arithmetic does not
    raise. *)

From Stdlib Require String Ascii.

Module BlackScholes.

Import Ascii.

Section Formulas.

Variable math_ln : float -> float.
Variable math_exp : float -> option float.
Variable py_pow : float -> Z -> option float.
Variable norm_cdf : float -> float.
Variable norm_pdf : float -> float.

Open Scope float_scope.
Open Scope res_scope.

(** [a / b] on two Python floats. *)
Definition py_div (a b : float) : res float :=
  if PrimFloat.eqb b 0 then Raise ZeroDivisionError else Ok (a / b).

Definition math_log (x : float) : res float :=
  if PrimFloat.leb x 0 then Raise ValueError else Ok (math_ln x).

Definition math_sqrt (x : float) : res float :=
  if PrimFloat.ltb x 0 then Raise ValueError else Ok (PrimFloat.sqrt x).

(** [option_type.lower().startswith('c')]. *)
Definition starts_with_c (option_type : String.string) : bool :=
  match option_type with
  | String.String a _ => Ascii.eqb a "c"%char || Ascii.eqb a "C"%char
  | String.EmptyString => false
  end.

(** [_d1_d2]. *)
Definition _d1_d2 (S0 K T r sigma : float) : res (float * float) :=
  if PrimFloat.leb T 0 || PrimFloat.leb sigma 0
  then Ok (infinity, infinity)
  else
    let? q := py_div S0 K in
    let? l := math_log q in
    let? s2 := arith (py_pow sigma 2) in
    let? rt := math_sqrt T in
    let? d1 := py_div (l + (r + 0.5 * s2) * T) (sigma * rt) in
    let? rt' := math_sqrt T in
    let d2 := d1 - sigma * rt' in
    Ok (d1, d2).

Definition black_scholes_call_price (S0 K T r sigma : float) : res float :=
  if PrimFloat.leb T 0 then Ok (Num.py_max (S0 - K) 0)
  else
    let? d := _d1_d2 S0 K T r sigma in
    let? e := arith (math_exp (- r * T)) in
    Ok (S0 * norm_cdf (fst d) - K * e * norm_cdf (snd d)).

Definition black_scholes_put_price (S0 K T r sigma : float) : res float :=
  if PrimFloat.leb T 0 then Ok (Num.py_max (K - S0) 0)
  else
    let? d := _d1_d2 S0 K T r sigma in
    let? e := arith (math_exp (- r * T)) in
    Ok (K * e * norm_cdf (- snd d) - S0 * norm_cdf (- fst d)).

Definition delta (S0 K T r sigma : float) (option_type : String.string)
    : res float :=
  let? d := _d1_d2 S0 K T r sigma in
  if starts_with_c option_type then Ok (norm_cdf (fst d))
  else Ok (norm_cdf (fst d) - 1).

Definition gamma (S0 K T r sigma : float) : res float :=
  let? d := _d1_d2 S0 K T r sigma in
  if PrimFloat.leb T 0 || PrimFloat.leb sigma 0 then Ok 0
  else
    let? rt := math_sqrt T in
    Ok (norm_pdf (fst d) / (S0 * sigma * rt)).

Definition vega (S0 K T r sigma : float) : res float :=
  let? d := _d1_d2 S0 K T r sigma in
  if PrimFloat.leb T 0 then Ok 0
  else
    let? rt := math_sqrt T in
    Ok (S0 * norm_pdf (fst d) * rt).

Definition theta (S0 K T r sigma : float) (option_type : String.string)
    : res float :=
  if PrimFloat.leb T 0 then Ok 0
  else
    let? d := _d1_d2 S0 K T r sigma in
    let pdf_d1 := norm_pdf (fst d) in
    let? rt := math_sqrt T in
    let first := - (S0 * pdf_d1 * sigma) / (2 * rt) in
    let? second :=
      if starts_with_c option_type then
        let? e := arith (math_exp (- r * T)) in
        Ok (- r * K * e * norm_cdf (snd d))
      else
        let? e := arith (math_exp (- r * T)) in
        Ok (r * K * e * norm_cdf (- snd d)) in
    let theta_annual := first + second in
    Ok (theta_annual / 365).

Definition rho (S0 K T r sigma : float) (option_type : String.string)
    : res float :=
  if PrimFloat.leb T 0 then Ok 0
  else
    let? d := _d1_d2 S0 K T r sigma in
    if starts_with_c option_type then
      let? e := arith (math_exp (- r * T)) in
      Ok (K * T * e * norm_cdf (snd d))
    else
      let? e := arith (math_exp (- r * T)) in
      Ok (- K * T * e * norm_cdf (- snd d)).

Definition vomma (S0 K T r sigma : float) : res float :=
  if PrimFloat.leb T 0 || PrimFloat.eqb sigma 0 then Ok 0
  else
    let? d := _d1_d2 S0 K T r sigma in
    let? v := vega S0 K T r sigma in
    Ok (v * fst d * snd d / sigma).

(** The price the numeric estimators bump. *)
Definition price_of (option_type : String.string) (S K T r sig : float)
    : res float :=
  if starts_with_c option_type then black_scholes_call_price S K T r sig
  else black_scholes_put_price S K T r sig.

Definition vanna_numeric (S0 K T r sigma : float) (option_type : String.string)
    : res float :=
  let eps_s := Num.py_max 1e-4 (S0 * 1e-4) in
  let eps_sig := Num.py_max 1e-4 (sigma * 1e-4) in
  let? p_pp := price_of option_type (S0 + eps_s) K T r (sigma + eps_sig) in
  let? p_pm := price_of option_type (S0 + eps_s) K T r (sigma - eps_sig) in
  let? p_mp := price_of option_type (S0 - eps_s) K T r (sigma + eps_sig) in
  let? p_mm := price_of option_type (S0 - eps_s) K T r (sigma - eps_sig) in
  Ok ((p_pp - p_pm - p_mp + p_mm) / (4 * eps_s * eps_sig)).

Definition charm_numeric (S0 K T r sigma : float) (option_type : String.string)
    : res float :=
  let dt := 1 / 365 in
  if PrimFloat.leb T dt then Ok 0
  else
    let? d_now := delta S0 K T r sigma option_type in
    let? d_later := delta S0 K (T - dt) r sigma option_type in
    Ok (d_later - d_now).

Definition zomma_numeric (S0 K T r sigma : float) : res float :=
  let eps := Num.py_max 1e-4 (sigma * 1e-4) in
  let? g_up := gamma S0 K T r (sigma + eps) in
  let? g_down := gamma S0 K T r (sigma - eps) in
  Ok ((g_up - g_down) / (2 * eps)).

Definition speed_numeric (S0 K T r sigma : float) : res float :=
  let eps := Num.py_max 1e-3 (S0 * 1e-3) in
  let? c1 := black_scholes_call_price (S0 + 2 * eps) K T r sigma in
  let? c2 := black_scholes_call_price (S0 + eps) K T r sigma in
  let? c3 := black_scholes_call_price (S0 - eps) K T r sigma in
  let? c4 := black_scholes_call_price (S0 - 2 * eps) K T r sigma in
  let? e3 := arith (py_pow eps 3) in
  Ok ((c1 - 2 * c2 + 2 * c3 - c4) / (2 * e3)).

Definition lambda_elasticity (S0 K T r sigma : float)
    (option_type : String.string) : res float :=
  let? V := price_of option_type S0 K T r sigma in
  let? d := delta S0 K T r sigma option_type in
  Ok (if negb (PrimFloat.eqb V 0) then (d * S0) / V else 0).

(** [dividend_rho], whatever its arguments: a placeholder. *)
Definition dividend_rho : float := 0.

End Formulas.

(** The strings ['call'] (the default of [option_type]) and ['put']. *)
Definition call_type : String.string :=
  String.String "c"%char (String.String "a"%char (String.String "l"%char
    (String.String "l"%char String.EmptyString))).
Definition put_type : String.string :=
  String.String "p"%char (String.String "u"%char (String.String "t"%char
    String.EmptyString)).

End BlackScholes.
(** ** The closed forms as the specification words them *)

Module Spec.

Open Scope float_scope.






(** "pUp + pMid + pDown == 1 within 1e-10, each in [0,1] within tolerance". *)
Definition within (lo hi x : float) : bool :=
  PrimFloat.leb lo x && PrimFloat.leb x hi.

Definition valid_probabilities (pUp pMid pDown : float) : bool :=
  PrimFloat.leb (PrimFloat.abs (pUp + pMid + pDown - 1)) 1e-10
  && within (- 1e-10) (1 + 1e-10) pUp
  && within (- 1e-10) (1 + 1e-10) pMid
  && within (- 1e-10) (1 + 1e-10) pDown.

(** "F = S exp(rate deltaT), subtracting the dividend amount from F when a
    dividend falls strictly inside (date, date + deltaT]". *)
Definition in_step (date ex_date next : Z) : bool :=
  (date <? ex_date)%Z && (ex_date <=? next)%Z.

Definition forward_price (exp : float -> float)
    (S rate deltaT dividend : float) (dividendInPeriod : bool) : float :=
  if dividendInPeriod then S * exp (rate * deltaT) - dividend
  else S * exp (rate * deltaT).

(** "Var = S^2 exp(2 rate deltaT) (exp(volatility^2 deltaT) - 1)"; [S2] and
    [sigma2] are the two squares. *)
Definition variance (exp : float -> float) (S2 sigma2 rate deltaT : float)
    : float :=
  S2 * exp (2 * rate * deltaT) * (exp (sigma2 * deltaT) - 1).

(** The interval the code tests: both ends moved by the tolerance [tol]. *)
Definition in_step_within (tol date ex_date next : Z) : bool :=
  (date <? ex_date)%Z && (date + tol <=? ex_date)%Z
  && (ex_date <? next + tol)%Z.

(** "first derivative: (f(x+h) - f(x-h)) / 2h": the quantity [f] is sampled
    on both sides of [x], at the distance [h], and the difference of the two
    samples is divided by [2h]. *)
Definition central_first (f : float -> res float) (x h : float)
    : res float :=
  (let? f_plus := f (x + h) in
   let? f_minus := f (x - h) in
   Ok ((f_plus - f_minus) / (2 * h)))%res.

(** The same stencil with a step that is the fraction [h] of [x]: the
    samples are taken at [x (1 + h)] and [x (1 - h)], and the difference is
    divided by [2 x h]. *)
Definition central_first_relative (f : float -> res float) (x h : float)
    : res float :=
  (let? f_plus := f (x * (1 + h)) in
   let? f_minus := f (x * (1 - h)) in
   Ok ((f_plus - f_minus) / (2 * x * h)))%res.

(** "second derivative: (f(x+h) - 2 f(x) + f(x-h)) / h^2", with the step
    [x h]; [square] is the squaring, which may fail. *)
Definition central_second_relative (square : float -> res float)
    (f : float -> res float) (x h : float) : res float :=
  (let? f_plus := f (x * (1 + h)) in
   let? f_mid := f x in
   let? f_minus := f (x * (1 - h)) in
   let? h2 := square (x * h) in
   Ok ((f_plus - 2 * f_mid + f_minus) / h2))%res.

(** "cross terms: 4-point stencil divided by 4 h_a h_b", with the steps
    [a h_a] and [b h_b]. *)
Definition central_cross_relative (f : float -> float -> res float)
    (a b h_a h_b : float) : res float :=
  (let? f_pp := f (a * (1 + h_a)) (b * (1 + h_b)) in
   let? f_pm := f (a * (1 + h_a)) (b * (1 - h_b)) in
   let? f_mp := f (a * (1 - h_a)) (b * (1 + h_b)) in
   let? f_mm := f (a * (1 - h_a)) (b * (1 - h_b)) in
   Ok ((f_pp - f_pm - f_mp + f_mm) / (4 * a * h_a * b * h_b)))%res.

(** The one-sided difference of a quantity that depends on the number of
    days elapsed: its value [days] days later minus its value now, over
    [days]. *)
Definition forward_in_days (f : Z -> res float) (days : Z) : res float :=
  (let? f_later := f days in
   let? f_now := f 0%Z in
   Ok ((f_later - f_now) / Num.of_Z days))%res.

(** "Elasticity divides by the base price, returning 0 when the base price
    is exactly zero". *)
Definition elasticity (V delta S : float) : float :=
  if PrimFloat.eqb V 0 then 0 else delta * S / V.

(** The central first difference of a price seen as a function of the
    valuation date, with a step of [days] days. *)
Definition central_in_date (f : Z -> res float) (date days : Z)
    : res float :=
  (let? f_plus := f (date + days * Time.one_day)%Z in
   let? f_minus := f (date - days * Time.one_day)%Z in
   Ok ((f_plus - f_minus) / Num.of_Z (2 * days)))%res.

(** "recursivePricing() == backwardPricing() within 1e-9 relative
    tolerance": the difference is at most [1e-9] times the larger of the two
    magnitudes. *)
Definition same_price (a b : float) : bool :=
  PrimFloat.leb (PrimFloat.abs (a - b))
    (1e-9 * Num.py_max (PrimFloat.abs a) (PrimFloat.abs b)).

End Spec.

(** ** Vocabulary of the lattice proofs *)

(** What pricing leaves untouched in a node: everything but the cached price
    and the exercise flag. *)
Definition skeleton (n : Node) : Node :=
  set_is_exerced false (set_opt_price None n).

(** Two arenas that hold the same lattice. *)
Definition same_lattice (h h' : heap) : Prop :=
  skeleton <$> h = skeleton <$> h'.

Section Valuation.

Variable tree : Tree.

Open Scope float_scope.

(** The value [Node.price] stores in an interior node, from the prices of
    its successors. *)
Definition node_value (n : Node) (price_up price_mid price_down : float)
    : float :=
  let value :=
    (price_up * p_up n + price_mid * p_mid n + price_down * p_down n)
    * df tree in
  let exercise := payoff (option_data tree) (und_price n) in
  if is_american (option_data tree) && Num.gtb exercise value then exercise
  else value.

(** The price of a node computed from the lattice alone, without the cache,
    in at most [depth] nested calls. *)
Definition value_or_zero (value : id -> option float) (o : option id)
    : option float :=
  match o with
  | Some x => value x
  | None => Some 0
  end.

Fixpoint value (depth : nat) (h : heap) (i : id) : option float :=
  match depth with
  | O => None
  | S depth' =>
      n ← h !! i;
      match next_mid n with
      | None => Some (payoff (option_data tree) (und_price n))
      | Some mid =>
          price_up ← value_or_zero (value depth' h) (next_up n);
          price_down ← value_or_zero (value depth' h) (next_down n);
          price_mid ← value depth' h mid;
          Some (node_value n price_up price_mid price_down)
      end
  end.

(** Every cached price is the value of its node. *)
Definition cache_sound (h : heap) : Prop :=
  forall i n v,
    h !! i = Some n -> opt_price n = Some v ->
    exists depth, value depth h i = Some v.

(** What a successful call of [Node.price] on a successor gives. *)
Definition priced (h : heap) (o : option id) (v : float) (h' : heap)
    : Prop :=
  same_lattice h h' /\ cache_sound h'
  /\ exists d, value_or_zero (value d h) o = Some v.

End Valuation.

Section LatticeShape.

Variable timedelta_days : float -> Z.
Variable tree : Tree.

(** The duration of one step, [timedelta(days=delta_t * 365)]. *)
Definition step : Z := timedelta_days (delta_t tree * 365)%float.

(** The reference [o], when there is one, leads to a node dated [d]. *)
Definition linked (h : heap) (o : option id) (d : Z) : Prop :=
  forall x, o = Some x -> exists nx, h !! x = Some nx /\ date nx = d.

(** The lattice is layered by dates: no node is dated before the valuation
    date or after [last_date], and the forward links lead one step later. *)
Record layered_node (last_date : Z) (h : heap) (n : Node) : Prop := {
  layered_date :
    (pricing_date (pricer_parameters tree) <= date n <= last_date)%Z;
  layered_up : linked h (next_up n) (date n + step);
  layered_mid : linked h (next_mid n) (date n + step);
  layered_down : linked h (next_down n) (date n + step)
}.

Definition layered (last_date : Z) (h : heap) : Prop :=
  forall i n, h !! i = Some n -> layered_node last_date h n.

(** The node at [i] holds a cached price. *)
Definition cached (h : heap) (i : id) : Prop :=
  exists n v, h !! i = Some n /\ opt_price n = Some v.

(** A cached node has its middle successor cached. *)
Definition cache_closed (h : heap) : Prop :=
  forall i n m,
    h !! i = Some n -> opt_price n <> None -> next_mid n = Some m ->
    cached h m.

(** [t] is the trunk node [k] columns after [root]: each trunk node is the
    middle successor of the one before, and a [TruncNode] that points back
    to it. *)
Inductive trunk_path (h : heap) (root : id) : id -> nat -> Prop :=
  | trunk_root : trunk_path h root root 0
  | trunk_next t t' nt nt' k :
      trunk_path h root t k ->
      h !! t = Some nt -> next_mid nt = Some t' ->
      h !! t' = Some nt' -> prec_node nt' = Some (Some t) ->
      trunk_path h root t' (S k).

(** The neighbour links of a column go up and down a ranking: no walk along
    [up_node] or along [down_node] comes back to where it has been. *)
Definition ranked (rank : id -> Z) (h : heap) : Prop :=
  forall q n,
    h !! q = Some n ->
    (forall r, up_node n = Some r -> (rank q < rank r)%Z)
    /\ (forall r, down_node n = Some r -> (rank r < rank q)%Z).

(** What [make_tree] maintains, node by node: the layering, neighbours on
    the same date, references into the arena, no cached price, and outer
    successors only for the nodes whose reachability is above the floor. *)
Record node_wf (last_date : Z) (h : heap) (n : Node) : Prop := {
  wf_layered : layered_node last_date h n;
  wf_up : linked h (up_node n) (date n);
  wf_down : linked h (down_node n) (date n);
  wf_cache : opt_price n = None;
  wf_floor :
    next_up n <> None \/ next_down n <> None -> above_floor tree n = Ok true
}.

Definition lattice_wf (last_date : Z) (h : heap) : Prop :=
  forall i n, h !! i = Some n -> node_wf last_date h n.

(** The state of the lattice while [backward_pricing] walks it: layered up to
    [last_date], with a sound cache, neighbour links that follow a ranking
    bounded by [bound], and few enough columns for the [depth] allowed. *)
Record walking (last_date : Z) (depth : nat) (rank : id -> Z) (bound : Z)
    (h : heap) : Prop := {
  walking_layered : layered last_date h;
  walking_sound : cache_sound tree h;
  walking_ranked : ranked rank h;
  walking_bound :
    forall q, (q < length h)%nat -> (- bound <= rank q <= bound)%Z;
  walking_depth :
    forall q n,
      h !! q = Some n -> (last_date - date n < Z.of_nat depth * step)%Z;
  walking_up : forall q n, h !! q = Some n -> linked h (up_node n) (date n);
  walking_down :
    forall q n, h !! q = Some n -> linked h (down_node n) (date n)
}.

(** The lattice while a column is built: well formed up to the date of the
    new column, with ranked neighbour links. *)
Definition stage (next_col : Z) (rank : id -> Z) (h : heap) : Prop :=
  lattice_wf next_col h /\ ranked rank h.

(** The lattice is still in that state after a run, for a ranking that
    agrees with the former one on the nodes that existed. *)
Definition restaged (next_col : Z) (rank : id -> Z) (h h' : heap) : Prop :=
  exists rank',
    stage next_col rank' h'
    /\ forall q, (q < length h)%nat -> rank' q = rank q.

(** What [make_tree] hands to the pricing methods after [columns] steps: a
    well-formed lattice whose last column is dated [last_date], with its
    trunk from [root] to [last] and neighbour links that follow a ranking. *)
Record built (last_date : Z) (columns : nat) (h : heap) (root last : id)
    : Prop := {
  built_wf : lattice_wf last_date h;
  built_trunk : trunk_path h root last columns;
  built_root :
    exists nr,
      h !! root = Some nr
      /\ date nr = pricing_date (pricer_parameters tree);
  built_last_date :
    last_date
    = (pricing_date (pricer_parameters tree) + Z.of_nat columns * step)%Z;
  built_ranked : exists rank, ranked rank h
}.

End LatticeShape.

Section Construction.

Variable np_exp : float -> float.
Variable timedelta_days : float -> Z.
Variable tree : Tree.

Open Scope float_scope.

(** The price and the date of the trunk node of each column, as
    [make_tree] computes them: the root, then the forward price of the trunk
    node before, one step later. *)
Fixpoint trunk_state (k : nat) : float * Z :=
  match k with
  | O => (s0 (market_data tree), pricing_date (pricer_parameters tree))
  | S k' =>
      let n := Node_init (fst (trunk_state k')) (snd (trunk_state k')) in
      (expected_value np_exp timedelta_days tree n,
       next_date timedelta_days tree (date n))
  end.

(** Neither loop of [find_next_mid] moves away from a candidate whose price
    is the forward price itself. *)
Definition stays_put (forward : float) : bool :=
  negb (Num.geb forward ((forward + forward * alpha tree) / 2))
  && negb (PrimFloat.leb forward ((forward + forward / alpha tree) / 2)).

(** The trunk is regular: a step takes time, and where a dividend falls in
    the step of a trunk node, the refinement of its middle successor keeps
    the node just created. *)
Definition regular_column (k : nat) : bool :=
  let n := Node_init (fst (trunk_state k)) (snd (trunk_state k)) in
  negb (dividend_period timedelta_days tree n)
  || stays_put (expected_value np_exp timedelta_days tree n).

Definition regular_trunk : bool :=
  (0 <? step timedelta_days tree)%Z
  && forallb regular_column
       (seq 0 (Z.to_nat (nb_steps (pricer_parameters tree)))).

End Construction.

(** What the construction of a column leaves untouched in a node of that
    column: everything but the neighbour links and the reachability. *)
Definition core (n : Node) : Node :=
  set_up_node None (set_down_node None (set_p_node 0 n)).

(** What the construction of the next column leaves untouched in the node it
    starts from: everything but the successors and the probabilities. *)
Definition shell (n : Node) : Node :=
  set_next_up None (set_next_mid None (set_next_down None
    (set_probas 0 0 0 n))).

Section Frames.

(** From [h] to [h']: the arena has grown, the nodes dated [d] have kept
    their core, the others are as they were. *)
Definition extends (d : Z) (h h' : heap) : Prop :=
  (forall q n,
     h !! q = Some n ->
     exists n',
       h' !! q = Some n'
       /\ (date n = d -> core n' = core n)
       /\ (date n <> d -> n' = n))
  /\ (forall q n', h' !! q = Some n' -> h !! q = None -> date n' = d).

(** As [extends], except that the node at [p] has kept its shell only. *)
Definition evolves (d : Z) (p : id) (h h' : heap) : Prop :=
  (forall q n,
     h !! q = Some n ->
     exists n',
       h' !! q = Some n'
       /\ (date n = d -> core n' = core n)
       /\ (date n <> d -> q <> p -> n' = n)
       /\ (date n <> d -> q = p -> shell n' = shell n))
  /\ (forall q n', h' !! q = Some n' -> h !! q = None -> date n' = d).

(** The nodes from index [L] on have their neighbours from [L] on. *)
Definition region (L : nat) (h : heap) : Prop :=
  forall q n,
    h !! q = Some n -> (L <= q)%nat ->
    (forall r, up_node n = Some r -> (L <= r)%nat)
    /\ (forall r, down_node n = Some r -> (L <= r)%nat).

(** The nodes below index [L] have kept their neighbour links. *)
Definition old_links (L : nat) (h h' : heap) : Prop :=
  forall q n,
    h !! q = Some n -> (q < L)%nat ->
    exists n',
      h' !! q = Some n'
      /\ up_node n' = up_node n /\ down_node n' = down_node n.

End Frames.

Section Milestones.

Variable timedelta_days : float -> Z.
Variable tree : Tree.

(** Where the construction of the successors of the node at [p] stands:
    from [h] the arena has become [h'], in which [p] holds [np']. *)
Definition milestone (next_col : Z) (rank : id -> Z) (p : id)
    (h h' : heap) (np' : Node) : Prop :=
  evolves next_col p h h'
  /\ restaged timedelta_days tree next_col rank h h'
  /\ h' !! p = Some np'.

End Milestones.


Section Columns.

Variable np_exp : float -> float.
Variable timedelta_days : float -> Z.
Variable tree : Tree.

(** Where [build_column] stands while it builds the column dated [next_col]
    from the one dated [col], whose trunk node is [t]: [h0] is the arena it
    started from, [todo] tells the nodes it has yet to visit.  The lattice is
    well formed and ranked as at the start; the nodes that existed have kept
    their shell, and those of other columns or yet to visit are as they
    were; the trunk node has its middle successor, a [TruncNode] that points
    back to it and holds its forward price. *)
Record column_inv (col next_col : Z) (rank : id -> Z) (h0 : heap) (t : id)
    (todo : id -> Prop) (h : heap) : Prop := {
  column_staged : restaged timedelta_days tree next_col rank h0 h;
  column_shell :
    forall q n, h0 !! q = Some n ->
      exists n', h !! q = Some n' /\ shell n' = shell n;
  column_todo :
    forall q n, h0 !! q = Some n -> date n <> col \/ todo q ->
      h !! q = Some n;
  column_trunk :
    exists nt m nm,
      h !! t = Some nt /\ next_mid nt = Some m
      /\ h !! m = Some nm /\ prec_node nm = Some (Some t)
      /\ und_price nm = expected_value np_exp timedelta_days tree nt
      /\ date nm = next_col
}.

End Columns.

(** ** Vocabulary of the estimators *)

(** Two computations return the same float, when either of them returns. *)
Definition same_result (r s : res float) : Prop :=
  forall v, r = Ok v <-> s = Ok v.

(** A float that is not a zero. *)
Definition not_zero (d : float) : Prop := PrimFloat.eqb d 0 = false.

(** A market as its constructor leaves it: building it again from its own
    attributes gives it back. *)
Definition is_market (m : Market) : Prop :=
  Market_init (s0 m) (rate m) (vol m) (dividend m) (Some (ex_div_date m))
  = Ok m.

(** A date that [datetime] can hold. *)
Definition is_datetime (d : Z) : Prop :=
  (Time.min_datetime <= d <= Time.max_datetime)%Z.

Section Sampling.

Variable np_exp : float -> float.
Variable py_pow : float -> Z -> option float.
Variable timedelta_days : float -> Z.
Variables (fuel walk depth : nat).
Variables (mkt : Market) (n_steps : Z) (pricing_date : Z) (opt : Option_).

Open Scope res_scope.

(** The price the estimators sample, for a market and a valuation date. *)
Definition sampled_price (m : Market) (d : Z) : res float :=
  PyNum.value (_price np_exp py_pow timedelta_days fuel walk depth
                 m opt d n_steps).

(** The price as a function of one input, or of two, the others being those
    of [mkt] and [pricing_date]: the market is built anew with the
    perturbed input, as the estimators do. *)
Definition price_in_spot (s : float) : res float :=
  let? m := bumped s (rate mkt) (vol mkt) (dividend mkt) mkt in
  sampled_price m pricing_date.

Definition price_in_vol (v : float) : res float :=
  let? m := bumped (s0 mkt) (rate mkt) v (dividend mkt) mkt in
  sampled_price m pricing_date.

Definition price_in_rate (r : float) : res float :=
  let? m := bumped (s0 mkt) r (vol mkt) (dividend mkt) mkt in
  sampled_price m pricing_date.

Definition price_in_dividend (d : float) : res float :=
  let? m := bumped (s0 mkt) (rate mkt) (vol mkt) d mkt in
  sampled_price m pricing_date.

Definition price_in_spot_and_vol (s v : float) : res float :=
  let? m := bumped s (rate mkt) v (dividend mkt) mkt in
  sampled_price m pricing_date.

(** The price and Delta as functions of the number of days by which the
    valuation date is moved. *)
Definition price_in_days (k : Z) : res float :=
  let? d := Time.days_later pricing_date k in
  sampled_price mkt d.

Definition delta_in_days (h : float) (k : Z) : res float :=
  let? d := Time.days_later pricing_date k in
  PyNum.value (delta np_exp py_pow timedelta_days fuel walk depth
                 mkt n_steps d opt h).

(** Gamma as a function of the spot and of the volatility. *)
Definition gamma_in_spot (h : float) (s : float) : res float :=
  let? m := bumped s (rate mkt) (vol mkt) (dividend mkt) mkt in
  PyNum.value (gamma np_exp py_pow timedelta_days fuel walk depth
                 m n_steps pricing_date opt h).

Definition gamma_in_vol (h : float) (v : float) : res float :=
  let? m := bumped (s0 mkt) (rate mkt) v (dividend mkt) mkt in
  PyNum.value (gamma np_exp py_pow timedelta_days fuel walk depth
                 m n_steps pricing_date opt h).

(** The squaring [x ** 2] of a Python float. *)
Definition py_square (x : float) : res float := arith (py_pow x 2).

End Sampling.
(** ** Sample inputs

    Concrete markets, contracts and run parameters on which the statements
    below are evaluated. *)

Module Sample.

Open Scope float_scope.

(** [datetime(2025, 1, 1)] and [datetime(2026, 1, 1)]. *)
Definition d2025 : Z := 1735689600000000.
Definition d2026 : Z := 1767225600000000.

Definition market : Market := mkMarket 100 0.01 0.2 0 Time.far_future.
Definition call_2026 : Option_ := mkOption 100 d2026 call european.

(** The tree of [Tree(PricerParameters(2025-01-01, 10, pruning=True,
    p_min=0.5), Market(100, 0.01, 0.2), call)]. *)
Definition pruned_params : PricerParameters :=
  mkParams d2025 10 true (Some 0.5).

Definition pruned_tree : Tree :=
  mkTree pruned_params market call_2026 0.1
    (Ref.exp (- 0.01 * 0.1)) (Ref.exp (0.2 * PrimFloat.sqrt (3 * 0.1))).

(** A root-like node whose reachability was set to [0.1]. *)
Definition faint_node : Node :=
  set_p_node 0.1 (TruncNode_init 100 d2025 None).

(** [Market(100, 0.02, 0.30, dividend_amount=2.0, ex_div_date=2025-01-02)]
    on three steps: the first step holds the ex-dividend date. *)
Definition dividend_market : Market :=
  mkMarket 100 0.02 0.3 2 (d2025 + Time.one_day).
Definition three_steps : PricerParameters :=
  mkParams d2025 3 false (Some 1e-9).

Definition dividend_tree : Tree :=
  let dt := 365 / (3 * 365) in
  mkTree three_steps dividend_market call_2026 dt
    (Ref.exp (- 0.02 * dt)) (Ref.exp (0.3 * PrimFloat.sqrt (3 * dt))).

(** A root whose middle successor, at index 1, has the price [x]. *)
Definition root_with_mid : Node :=
  set_next_mid (Some 1%nat) (set_p_node 1 (TruncNode_init 100 d2025 None)).
Definition two_nodes (x : float) : heap :=
  [root_with_mid;
   Node_init x (next_date Ref.timedelta_days dividend_tree d2025)].

(** [Market(100, 0.02, 0.0)] on ten steps, and its root. *)
Definition flat_market : Market := mkMarket 100 0.02 0 0 Time.far_future.
Definition ten_steps : PricerParameters :=
  mkParams d2025 10 false (Some 1e-9).
Definition flat_tree : Tree :=
  let dt := 365 / (10 * 365) in
  mkTree ten_steps flat_market call_2026 dt
    (Ref.exp (- 0.02 * dt)) (Ref.exp (0 * PrimFloat.sqrt (3 * dt))).
Definition root_node : Node := set_p_node 1 (TruncNode_init 100 d2025 None).

(** A dividend whose ex-date is one second after the end of the single
    step from 2025-01-01 to 2026-01-01. *)
Definition late_dividend_market : Market :=
  mkMarket 100 0.05 0.2 2 (d2026 + 1000000).
Definition one_step : PricerParameters := mkParams d2025 1 false (Some 1e-9).
Definition late_dividend_tree : Tree :=
  let dt := 365 / (1 * 365) in
  mkTree one_step late_dividend_market call_2026 dt
    (Ref.exp (- 0.05 * dt)) (Ref.exp (0.2 * PrimFloat.sqrt (3 * dt))).

(** Pruning requested, no floor given. *)
Definition unfloored : PricerParameters := mkParams d2025 3 true None.

(** [Tree(PricerParameters(2025-01-01, 3), Market(100, 0.01, 0.2), call)]. *)
Definition three_step_tree : Tree :=
  let dt := 365 / (3 * 365) in
  mkTree three_steps market call_2026 dt
    (Ref.exp (- 0.01 * dt)) (Ref.exp (0.2 * PrimFloat.sqrt (3 * dt))).

(** The price [_price] returns for [market] and [call_2026] on one step, as a
    function of the valuation date. *)
Definition price_at (date : Z) : res float :=
  PyNum.value (_price Ref.exp Ref.pow_np Ref.timedelta_days 10 10 10
                 market call_2026 date 1).

(** A call that expires at noon on the valuation date, priced on one step:
    [Option(90, datetime(2025, 1, 1, 12), 'call', 'european')].  The
    constructor counts whole days, so [delta_t] is [0]. *)
Definition noon_call : Option_ :=
  mkOption 90 (d2025 + 43200000000) call european.
Definition noon_tree : Tree :=
  mkTree one_step market noon_call 0 1 1.

(** Six steps under pruning with floor [0.05], with the dividend of
    [dividend_market] in the first step. *)
Definition six_steps_pruned : PricerParameters :=
  mkParams d2025 6 true (Some 0.05).
Definition pruned_dividend_tree : Tree :=
  let dt := 365 / (6 * 365) in
  mkTree six_steps_pruned dividend_market call_2026 dt
    (Ref.exp (- 0.02 * dt)) (Ref.exp (0.3 * PrimFloat.sqrt (3 * dt))).

(** An American put on [market], on three steps. *)
Definition american_put : Option_ := mkOption 100 d2026 put american.
Definition american_tree : Tree :=
  let dt := 365 / (3 * 365) in
  mkTree three_steps market american_put dt
    (Ref.exp (- 0.01 * dt)) (Ref.exp (0.2 * PrimFloat.sqrt (3 * dt))).

(** The arena [make_tree] leaves for a tree, empty if it fails. *)
Definition lattice_of (t : Tree) : heap :=
  match make_tree Ref.exp Ref.pow_np Ref.timedelta_days t 30 [] with
  | Ok (_, h) => h
  | _ => []
  end.

(** The node at index [i] of an arena. *)
Definition node_at (h : heap) (i : id) : Node := nth i h root_node.

(** A run asked for with [nb_steps = -1]. *)
Definition no_steps : PricerParameters := mkParams d2025 (-1) false (Some 1e-9).
Definition no_steps_tree : Tree :=
  let dt := 365 / (-1 * 365) in
  mkTree no_steps market call_2026 dt
    (Ref.exp (- 0.01 * dt)) (Ref.exp (0.2 * PrimFloat.sqrt (3 * dt))).

(** A spot of half a thousandth. *)
Definition penny_market : Market := mkMarket 0.0005 0.01 0.2 0 Time.far_future.

(** [Market(0.0, 0.01, 0.2)]: a spot of zero. *)
Definition zero_spot_market : Market := mkMarket 0 0.01 0.2 0 Time.far_future.

(** [Market(100, 0.02, 0.3, 0.005, datetime(2025, 1, 2))]: a dividend
    smaller than the default bump of [dividend_rho]. *)
Definition small_dividend_market : Market :=
  mkMarket 100 0.02 0.3 0.005 (d2025 + Time.one_day).

(** Stand-ins for [math.log] and [math.exp] on which to run the closed
    forms: the values away from the cases the statements are about do not
    matter. *)
Definition ln_stub (x : float) : float := x - 1.
Definition exp_stub (x : float) : option float := Some (Ref.exp x).
Definition cdf_stub (x : float) : float :=
  if PrimFloat.ltb x 0 then 0 else 1.
Definition pdf_stub (x : float) : float := 0.

End Sample.

(** * Properties *)

(** ** Node.probas *)

Section ProbasFacts.

Variable np_exp : float -> float.
Variable py_pow : float -> Z -> option float.
Variable timedelta_days : float -> Z.
Variable tree : Tree.

Local Abbreviation probas_ := (probas np_exp py_pow timedelta_days tree).
Local Abbreviation forward_variance_ :=
  (forward_variance np_exp py_pow timedelta_days tree).
Local Abbreviation probas_try_ := (probas_try np_exp py_pow timedelta_days tree).
Local Abbreviation dividend_period_ := (dividend_period timedelta_days tree).

Open Scope float_scope.

(** [probas] on a node whose reachability is below the floor. *)
Lemma probas_pruned fuel self h n :
  h !! self = Some n ->
  below_floor tree n = Ok true ->
  probas_ fuel self h = Ok (tt, <[self := set_probas 0 1 0 n]> h).
Proof.
  intros Hn Hb. unfold probas, bind, get, lift, modify.
  rewrite Hn, Hb. cbn. now rewrite Hn.
Qed.

(** [probas] on a node above the floor: once the middle successor is there,
    the outcome is decided by the [try] block and the two assertions. *)
Lemma probas_unpruned fuel self h n fv h1 n1 mid m :
  h !! self = Some n ->
  below_floor tree n = Ok false ->
  forward_variance_ n = Ok fv ->
  ensure_next_mid np_exp py_pow timedelta_days tree fuel self n h
    = Ok (tt, h1) ->
  h1 !! self = Some n1 ->
  next_mid n1 = Some mid ->
  h1 !! mid = Some m ->
  probas_ fuel self h =
    match probas_try_ n1 (fst fv) (snd fv) (und_price m) with
    | None => Ok (tt, <[self := set_probas 0 1 0 n1]> h1)
    | Some (pu, pm, pd) =>
        match probas_check pu pm pd with
        | Ok _ => Ok (tt, <[self := set_probas pu pm pd n1]> h1)
        | Raise e => Raise e
        | OutOfFuel => OutOfFuel
        end
    end.
Proof.
  intros Hn Hb Hfv He Hn1 Hmid Hm.
  unfold probas, bind, get, lift, modify, ret, deref.
  rewrite Hn, Hb, Hfv. cbn. rewrite He. rewrite Hn1, Hmid. cbn. rewrite Hm.
  destruct (probas_try _ _ _ _ _ _ _ _) as [[[pu pm] pd]|]; cbn.
  - destruct (probas_check pu pm pd); cbn; try reflexivity.
    now rewrite Hn1.
  - now rewrite Hn1.
Qed.

(** When the node has its middle successor already, nothing is created. *)
Lemma ensure_next_mid_present fuel self n mid h :
  next_mid n = Some mid ->
  ensure_next_mid np_exp py_pow timedelta_days tree fuel self n h = Ok (tt, h).
Proof. intros H. unfold ensure_next_mid. now rewrite H. Qed.

End ProbasFacts.

Section ProbasClaims.

Variable np_exp : float -> float.
Variable py_pow : float -> Z -> option float.
Variable timedelta_days : float -> Z.
Variable tree : Tree.

Local Abbreviation probas_ := (probas np_exp py_pow timedelta_days tree).
Local Abbreviation forward_variance_ :=
  (forward_variance np_exp py_pow timedelta_days tree).
Local Abbreviation probas_try_ :=
  (probas_try np_exp py_pow timedelta_days tree).
Local Abbreviation dividend_period_ := (dividend_period timedelta_days tree).

Open Scope float_scope.

(** C3. When pruning is enabled and the node's reachability [p_node] is below
    the floor [p_min], [probas] stores exactly [(p_up, p_mid, p_down) =
    (0, 1, 0)], whatever the market data are: the call returns normally and
    changes nothing else. *)
Theorem C3_pruned_node_is_degenerate fuel self h n floor :
  h !! self = Some n ->
  pruning (pricer_parameters tree) = true ->
  p_min (pricer_parameters tree) = Some floor ->
  PrimFloat.ltb (p_node n) floor = true ->
  exists n',
    probas_ fuel self h = Ok (tt, <[self := n']> h)
    /\ n' = set_probas 0 1 0 n
    /\ <[self := n']> h !! self = Some n'
    /\ (p_up n', p_mid n', p_down n') = (0, 1, 0).
Proof.
  intros Hn Hp Hf Hlt. exists (set_probas 0 1 0 n).
  split; [|split; [reflexivity|split; [|reflexivity]]].
  - apply probas_pruned; [exact Hn|].
    unfold below_floor. now rewrite Hp, Hf, Hlt.
  - apply list_lookup_insert_eq. eapply lookup_lt_Some, Hn.
Qed.


(** C6. When evaluating the closed form raises (the [try] block of [probas]
    ends in its [except] clause), the node is given the degenerate branch
    [(0, 1, 0)] and [probas] returns normally: no exception reaches the
    caller. *)
Theorem C6_formula_error_is_recovered fuel self h n fv h1 n1 mid m :
  h !! self = Some n ->
  below_floor tree n = Ok false ->
  forward_variance_ n = Ok fv ->
  ensure_next_mid np_exp py_pow timedelta_days tree fuel self n h
    = Ok (tt, h1) ->
  h1 !! self = Some n1 ->
  next_mid n1 = Some mid ->
  h1 !! mid = Some m ->
  probas_try_ n1 (fst fv) (snd fv) (und_price m) = None ->
  exists n',
    probas_ fuel self h = Ok (tt, <[self := n']> h1)
    /\ n' = set_probas 0 1 0 n1
    /\ (p_up n', p_mid n', p_down n') = (0, 1, 0).
Proof.
  intros Hn Hb Hfv He Hn1 Hmid Hm Hnone.
  exists (set_probas 0 1 0 n1). split; [|split; reflexivity].
  rewrite (probas_unpruned np_exp py_pow timedelta_days tree
             fuel self h n fv h1 n1 mid m Hn Hb Hfv He Hn1 Hmid Hm).
  now rewrite Hnone.
Qed.

End ProbasClaims.

Lemma C3_witness :
  exists n',
    probas Ref.exp Ref.pow_np Ref.timedelta_days Sample.pruned_tree
      0 0 [Sample.faint_node] = Ok (tt, <[0%nat := n']> [Sample.faint_node])
    /\ n' = set_probas 0 1 0 Sample.faint_node
    /\ <[0%nat := n']> [Sample.faint_node] !! 0%nat = Some n'
    /\ (p_up n', p_mid n', p_down n') = (0, 1, 0)%float.
Proof.
  apply (C3_pruned_node_is_degenerate Ref.exp Ref.pow_np Ref.timedelta_days
           Sample.pruned_tree 0 0 [Sample.faint_node] Sample.faint_node
           0.5%float); reflexivity.
Defined.


Lemma C6_witness :
  exists n',
    probas Ref.exp Ref.pow_py Ref.timedelta_days Sample.dividend_tree
      0%nat 0%nat (Sample.two_nodes 1e200)
    = Ok (tt, <[0%nat := n']> (Sample.two_nodes 1e200))
    /\ n' = set_probas 0 1 0 Sample.root_with_mid
    /\ (p_up n', p_mid n', p_down n') = (0, 1, 0)%float.
Proof.
  eapply (C6_formula_error_is_recovered Ref.exp Ref.pow_py Ref.timedelta_days
            Sample.dividend_tree 0 0 (Sample.two_nodes 1e200)
            Sample.root_with_mid _ _ Sample.root_with_mid 1);
    reflexivity.
Defined.

(** C2 (evaluation at the failing input).  For [Market(100, 0.02, 0.0)] on
    ten steps, a valid input, [Tree.__init__] gives [alpha = 1]; [probas] on
    the root then divides zero by zero, the three probabilities are NaN, both
    assertions let them through and they are stored: the call returns
    normally with probabilities that are neither in [[0, 1]] nor of sum [1]. *)
Theorem C2_nan_probabilities_pass_the_assertions :
  Tree_init Ref.exp Sample.ten_steps Sample.flat_market Sample.call_2026
    = Ok Sample.flat_tree
  /\ exists h' n',
       probas Ref.exp Ref.pow_np Ref.timedelta_days Sample.flat_tree
         1 0 [Sample.root_node] = Ok (tt, h')
       /\ h' !! 0%nat = Some n'
       /\ Num.is_nan (p_up n') = true
       /\ Num.is_nan (p_mid n') = true
       /\ Num.is_nan (p_down n') = true
       /\ Spec.valid_probabilities (p_up n') (p_mid n') (p_down n') = false.
Proof.
  split; [vm_compute; reflexivity|].
  eexists _, _. split; [vm_compute; reflexivity|].
  split; [reflexivity|]. repeat split; vm_compute; reflexivity.
Qed.

(** ** Node.forward_variance and Node.dividend_period *)

Lemma divide_and_round_nonneg a b :
  (0 <= a)%Z -> (0 < b)%Z -> (0 <= Time.divide_and_round a b)%Z.
Proof.
  intros Ha Hb. unfold Time.divide_and_round.
  assert (0 <= a / b)%Z by (apply Z.div_pos; lia).
  destruct (_ || _); lia.
Qed.

Lemma dividend_tol_nonneg tree : (0 <= dividend_tol tree)%Z.
Proof.
  unfold dividend_tol. apply divide_and_round_nonneg; [|lia].
  apply divide_and_round_nonneg; [unfold Time.one_day|]; lia.
Qed.

Section ForwardClaims.

Variable np_exp : float -> float.
Variable py_pow : float -> Z -> option float.
Variable timedelta_days : float -> Z.
Variable tree : Tree.

Open Scope float_scope.

(** [dividend_period] tests the interval whose two ends are moved by the
    tolerance. *)
Lemma dividend_period_interval n :
  dividend_period timedelta_days tree n
  = Spec.in_step_within (dividend_tol tree) (date n)
      (ex_div_date (market_data tree))
      (next_date timedelta_days tree (date n)).
Proof.
  pose proof (dividend_tol_nonneg tree) as Htol.
  unfold dividend_period, Spec.in_step_within.
  set (tol := dividend_tol tree) in *.
  set (ex := ex_div_date (market_data tree)).
  set (nd := next_date timedelta_days tree (date n)).
  destruct (Z.ltb_spec (date n) ex), (Z.ltb_spec (Z.abs (date n - ex)) tol),
    (Z.ltb_spec ex nd), (Z.ltb_spec (Z.abs (ex - nd)) tol),
    (Z.leb_spec (date n + tol) ex), (Z.ltb_spec ex (nd + tol));
    cbn; try reflexivity; lia.
Qed.

(** C5 (amended).  [forward_variance] returns the forward price
    [S exp(rate deltaT)], less the dividend exactly when the ex-dividend date
    [ex] satisfies [date < ex], [date + tol <= ex] and
    [ex < date + deltaT + tol], where [tol] is a thousandth of a day divided
    by the number of steps; and it returns the variance
    [S^2 exp(2 rate deltaT) (exp(vol^2 deltaT) - 1)], in which the dividend
    does not appear. *)
Theorem C5_forward_variance n S2 sigma2 :
  py_pow (und_price n) 2 = Some S2 ->
  py_pow (vol (market_data tree)) 2 = Some sigma2 ->
  forward_variance np_exp py_pow timedelta_days tree n
  = Ok (Spec.forward_price np_exp (und_price n) (rate (market_data tree))
          (delta_t tree) (dividend (market_data tree))
          (Spec.in_step_within (dividend_tol tree) (date n)
             (ex_div_date (market_data tree))
             (next_date timedelta_days tree (date n))),
        Spec.variance np_exp S2 sigma2 (rate (market_data tree))
          (delta_t tree)).
Proof.
  intros HS Hv. unfold forward_variance, expected_value. rewrite HS, Hv. cbn.
  rewrite dividend_period_interval. reflexivity.
Qed.

End ForwardClaims.

Lemma C5_witness :
  forward_variance Ref.exp Ref.pow_np Ref.timedelta_days
    Sample.dividend_tree Sample.root_node
  = Ok (Spec.forward_price Ref.exp 100 0.02 (delta_t Sample.dividend_tree) 2
          (Spec.in_step_within (dividend_tol Sample.dividend_tree)
             Sample.d2025 (Sample.d2025 + Time.one_day)
             (next_date Ref.timedelta_days Sample.dividend_tree Sample.d2025)),
        Spec.variance Ref.exp (100 * (100 * 1))
          (vol Sample.dividend_market * (vol Sample.dividend_market * 1))
          0.02 (delta_t Sample.dividend_tree))%float.
Proof.
  apply (C5_forward_variance Ref.exp Ref.pow_np Ref.timedelta_days
           Sample.dividend_tree Sample.root_node); reflexivity.
Defined.

(** C5 (as stated) fails: the ex-dividend date below is one second after the
    end of the step, outside [(date, date + deltaT]], and the dividend is
    subtracted all the same. *)
Lemma C5_counterexample :
  let n := Sample.root_node in
  let t := Sample.late_dividend_tree in
  Tree_init Ref.exp Sample.one_step Sample.late_dividend_market
    Sample.call_2026 = Ok t
  /\ Spec.in_step (date n) (ex_div_date (market_data t))
       (next_date Ref.timedelta_days t (date n)) = false
  /\ exists F V,
       forward_variance Ref.exp Ref.pow_np Ref.timedelta_days t n = Ok (F, V)
       /\ F = (100 * Ref.exp (0.05 * 1) - 2)%float
       /\ F <> Spec.forward_price Ref.exp (und_price n)
                 (rate (market_data t)) (delta_t t) (dividend (market_data t))
                 (Spec.in_step (date n) (ex_div_date (market_data t))
                    (next_date Ref.timedelta_days t (date n))).
Proof.
  split; [vm_compute; reflexivity|]. split; [vm_compute; reflexivity|].
  eexists _, _. split; [vm_compute; reflexivity|].
  split; [vm_compute; reflexivity|].
  intros H.
  apply (f_equal (fun x => PrimFloat.eqb x 103.12710963761745%float)) in H.
  vm_compute in H. discriminate H.
Qed.

(** ** Tree.__init__, Tree.make_tree and the configuration error *)

Section ConfigurationClaims.

Variable np_exp : float -> float.
Variable py_pow : float -> Z -> option float.
Variable timedelta_days : float -> Z.

(** C7 (amended).  With pruning requested and no floor given, the constructor
    still succeeds (for a non-zero step count); it is [make_tree] that raises
    [ValueError], before any node exists, and so do both pricing methods: no
    lattice is built and no price is returned. *)
Theorem C7_missing_floor_fails_in_make_tree pp mkt opt :
  pruning pp = true ->
  p_min pp = None ->
  nb_steps pp <> 0%Z ->
  exists tree,
    Tree_init np_exp pp mkt opt = Ok tree
    /\ pricer_parameters tree = pp
    /\ forall fuel walk depth h,
         make_tree np_exp py_pow timedelta_days tree fuel h = Raise ValueError
         /\ recursive_pricing np_exp py_pow timedelta_days tree fuel depth
            = Raise ValueError
         /\ backward_pricing np_exp py_pow timedelta_days tree fuel walk depth
            = Raise ValueError.
Proof.
  intros Hp Hf Hn. unfold Tree_init, Num.int_truediv.
  destruct (Z.eqb_spec (nb_steps pp * 365) 0) as [E|_]; [lia|].
  cbn [res_bind].
  eexists. split; [reflexivity|]. split; [reflexivity|].
  intros fuel walk depth h.
  match goal with
  | |- make_tree _ _ _ ?t _ _ = _ /\ _ =>
      assert (Hm : forall h0,
                 make_tree np_exp py_pow timedelta_days t fuel h0
                 = Raise ValueError)
  end.
  { intros h0. unfold make_tree. cbn [pricer_parameters].
    now rewrite Hp, Hf. }
  split; [apply Hm|].
  unfold recursive_pricing, backward_pricing, bind.
  now rewrite !Hm.
Qed.

End ConfigurationClaims.

Lemma C7_witness :
  exists tree,
    Tree_init Ref.exp Sample.unfloored Sample.market Sample.call_2026
      = Ok tree
    /\ pricer_parameters tree = Sample.unfloored
    /\ forall fuel walk depth h,
         make_tree Ref.exp Ref.pow_np Ref.timedelta_days tree fuel h
           = Raise ValueError
         /\ recursive_pricing Ref.exp Ref.pow_np Ref.timedelta_days tree
              fuel depth = Raise ValueError
         /\ backward_pricing Ref.exp Ref.pow_np Ref.timedelta_days tree
              fuel walk depth = Raise ValueError.
Proof.
  apply (C7_missing_floor_fails_in_make_tree Ref.exp Ref.pow_np
           Ref.timedelta_days Sample.unfloored Sample.market
           Sample.call_2026); [reflexivity|reflexivity|discriminate].
Defined.

(** C7 (as stated) fails: constructing the engine with pruning and no floor
    does not fail. *)
Lemma C7_counterexample :
  pruning Sample.unfloored = true
  /\ p_min Sample.unfloored = None
  /\ exists tree,
       Tree_init Ref.exp Sample.unfloored Sample.market Sample.call_2026
         = Ok tree.
Proof. split; [reflexivity|]. split; [reflexivity|]. eexists. reflexivity. Qed.

(** ** Tree.recursive_pricing and the recursion limit *)

(** C8 (evaluation at the failing input).  On a three-step lattice the root
    is priced with four nested calls.  With fewer allowed,
    [recursive_pricing] ends normally with the value [None]: the
    [RecursionError] is caught inside the method and the caller has nothing
    to catch.  With at least four the price is returned, the one
    [backward_pricing] returns with two. *)
Theorem C8_exhaustion_is_swallowed :
  Tree_init Ref.exp Sample.three_steps Sample.market Sample.call_2026
    = Ok Sample.three_step_tree
  /\ ref_recursive 10 3 Sample.three_step_tree = Ok None
  /\ ref_recursive 10 3 Sample.three_step_tree <> Raise RecursionError
  /\ ref_recursive 10 4 Sample.three_step_tree
     = Ok (Some 7.8763532466461292%float)
  /\ ref_backward 10 10 2 Sample.three_step_tree
     = Ok (Some 7.8763532466461292%float).
Proof.
  split; [vm_compute; reflexivity|].
  assert (E : ref_recursive 10 3 Sample.three_step_tree = Ok None)
    by (vm_compute; reflexivity).
  split; [exact E|]. split; [rewrite E; discriminate|].
  split; vm_compute; reflexivity.
Qed.

(** ** greeks/numerical_greeks.py *)

(** Multiplication of floats commutes. *)
Lemma SFmul_comm x y : SFmul prec emax x y = SFmul prec emax y x.
Proof.
  destruct x as [sx|sx| |sx mx ex], y as [sy|sy| |sy my ey]; cbn;
    try reflexivity; try (now rewrite xorb_comm).
  now rewrite xorb_comm, Pos.mul_comm, Z.add_comm.
Qed.

Lemma float_mul_comm (x y : float) : (x * y = y * x)%float.
Proof.
  apply Prim2SF_inj. rewrite !FloatAxioms.mul_spec. apply SFmul_comm.
Qed.

(** A quotient by a Python float that is not a zero raises nothing. *)
Lemma value_truediv a d :
  not_zero d ->
  PyNum.value (PyNum.truediv a (PyNum.py d))
  = Ok (PyNum.val a / d)%float.
Proof.
  intros H. unfold PyNum.truediv, PyNum.join. cbn [PyNum.kind_of PyNum.val PyNum.py].
  destruct (PyNum.kind_of a); [rewrite H|]; reflexivity.
Qed.

(** When the two samples and the divisor round alike, the stencil with a
    relative step is the stencil "(f(x+h) - f(x-h)) / 2h" with the step
    [x h]. *)
Lemma central_first_relative_standard (f : float -> res float) x h :
  (x * (1 + h) = x + x * h)%float ->
  (x * (1 - h) = x - x * h)%float ->
  (2 * x * h = 2 * (x * h))%float ->
  Spec.central_first_relative f x h = Spec.central_first f x (x * h).
Proof.
  intros Hp Hm Hd. unfold Spec.central_first_relative, Spec.central_first.
  now rewrite Hp, Hm, Hd.
Qed.

Lemma same_result_refl r : same_result r r.
Proof. intros v. reflexivity. Qed.

(** Two computations that both fail return the same. *)
Lemma same_result_failed r s :
  (forall v, r <> Ok v) -> (forall v, s <> Ok v) -> same_result r s.
Proof. intros Hr Hs v. split; intros H; [now apply Hr in H|now apply Hs in H]. Qed.

(** A market the constructor returns is one it leaves as it is. *)
Lemma Market_init_is_market s r v d e m :
  Market_init s r v d e = Ok m -> is_market m.
Proof.
  unfold is_market, Market_init.
  destruct (PrimFloat.ltb s 0 || PrimFloat.ltb v 0) eqn:E; [discriminate|].
  intros H. injection H as <-. cbn [s0 vol rate dividend ex_div_date].
  rewrite E. f_equal. f_equal.
  destruct e as [x|]; destruct (negb (PrimFloat.eqb d 0)); reflexivity.
Qed.

Lemma days_later_now d : is_datetime d -> Time.days_later d 0 = Ok d.
Proof.
  intros [Hlo Hhi]. unfold Time.days_later, Time.timedelta_of_days,
    Time.datetime_add.
  change (Z.abs 0 <=? 999999999)%Z with true. cbv iota.
  change (0 * Time.one_day)%Z with 0%Z. rewrite Z.add_0_r.
  destruct (Z.leb_spec Time.min_datetime d); [|lia].
  destruct (Z.leb_spec d Time.max_datetime); [reflexivity|lia].
Qed.

Section GreeksClaims.

Variable np_exp : float -> float.
Variable py_pow : float -> Z -> option float.
Variable timedelta_days : float -> Z.
Variables (fuel walk depth : nat).

Local Abbreviation price_ :=
  (_price np_exp py_pow timedelta_days fuel walk depth).
Local Abbreviation delta_ :=
  (delta np_exp py_pow timedelta_days fuel walk depth).
Local Abbreviation gamma_ :=
  (gamma np_exp py_pow timedelta_days fuel walk depth).

Open Scope float_scope.

(** Indexing [args[3]] fails on fewer than four positional arguments. *)
Lemma unpack_short args : (length args < 4)%nat -> unpack args = None.
Proof.
  intros H. unfold unpack.
  destruct args as [|a0 [|a1 [|a2 [|a3 args]]]]; cbn in *;
    try reflexivity; lia.
Qed.

(** C10. Called with fewer than four positional arguments, [charm], [speed],
    [zomma] and [dividend_rho] return [0.0], a Python float, and raise
    nothing. *)
Theorem C10_short_argument_list_gives_zero args kwargs :
  (length args < 4)%nat ->
  charm np_exp py_pow timedelta_days fuel walk depth args kwargs
    = Ok (PyNum.py 0)
  /\ speed np_exp py_pow timedelta_days fuel walk depth args kwargs
     = Ok (PyNum.py 0)
  /\ zomma np_exp py_pow timedelta_days fuel walk depth args kwargs
     = Ok (PyNum.py 0)
  /\ dividend_rho np_exp py_pow timedelta_days fuel walk depth args kwargs
     = Ok (PyNum.py 0).
Proof.
  intros H. unfold charm, speed, zomma, dividend_rho.
  rewrite (unpack_short args H). repeat split.
Qed.

(** When [backward_pricing] returns, the kind of what it returns is
    defined: the two are read off the same run. *)
Lemma backward_pricing_kind_defined tree v :
  backward_pricing np_exp py_pow timedelta_days tree fuel walk depth = Ok v ->
  exists k,
    backward_pricing_kind np_exp py_pow timedelta_days tree fuel walk depth
    = Ok k.
Proof.
  unfold backward_pricing, backward_pricing_kind, bind.
  destruct (make_tree np_exp py_pow timedelta_days tree fuel [])
    as [[rl h]| |]; try discriminate.
  destruct (backward_columns tree walk depth walk (snd rl) h)
    as [[first h1]| |]; try discriminate.
  destruct (price tree depth first h1) as [[x h2]| |]; try discriminate.
  destruct (get first h2) as [[n h3]| |]; try discriminate.
  intros _. eexists. reflexivity.
Qed.

(** [_price] is [backward_pricing] on a tree with pruning enabled and the
    floor [1e-7]. *)
Lemma sampled_price_eq mkt n_steps pricing_date opt :
  sampled_price np_exp py_pow timedelta_days fuel walk depth n_steps opt
    mkt pricing_date
  = (let? tree := Tree_init np_exp
                    (mkParams pricing_date n_steps true (Some 1e-7)) mkt opt in
     let? v := backward_pricing np_exp py_pow timedelta_days tree
                 fuel walk depth in
     as_float v)%res.
Proof.
  unfold sampled_price, _price, price_with.
  destruct (Tree_init np_exp _ mkt opt) as [tree| |]; cbn; try reflexivity.
  destruct (backward_pricing np_exp py_pow timedelta_days tree fuel walk depth)
    as [v| |] eqn:E; cbn; try reflexivity.
  destruct (backward_pricing_kind_defined tree v E) as (k & ->).
  destruct v as [x|]; reflexivity.
Qed.


Variables (mkt : Market) (n_steps : Z) (pricing_date : Z) (opt : Option_).

Local Abbreviation price_of :=
  (sampled_price np_exp py_pow timedelta_days fuel walk depth n_steps opt).
Local Abbreviation in_spot :=
  (price_in_spot np_exp py_pow timedelta_days fuel walk depth
     mkt n_steps pricing_date opt).

(** Taking a computation apart, innermost step first. *)
Ltac scrutinee t :=
  lazymatch t with
  | res_bind ?m _ => scrutinee m
  | PyNum.value ?m => scrutinee m
  | _ => t
  end.

Ltac take_apart :=
  repeat match goal with
    | |- context [res_bind ?m _] =>
        let x := scrutinee m in
        lazymatch x with
        | Ok _ => fail
        | Raise _ => fail
        | OutOfFuel => fail
        | PyNum.truediv _ _ => fail
        | _ => destruct x eqn:?
        end; cbn [res_bind PyNum.value]
    | |- context [PyNum.value ?m] =>
        let x := scrutinee m in
        lazymatch x with
        | Ok _ => fail
        | Raise _ => fail
        | OutOfFuel => fail
        | PyNum.truediv _ _ => fail
        | _ => destruct x eqn:?
        end; cbn [res_bind PyNum.value]
    end.

Ltac both_failed :=
  apply same_result_failed; intros ?; discriminate.

Local Abbreviation in_vol :=
  (price_in_vol np_exp py_pow timedelta_days fuel walk depth
     mkt n_steps pricing_date opt).
Local Abbreviation in_rate :=
  (price_in_rate np_exp py_pow timedelta_days fuel walk depth
     mkt n_steps pricing_date opt).
Local Abbreviation in_dividend :=
  (price_in_dividend np_exp py_pow timedelta_days fuel walk depth
     mkt n_steps pricing_date opt).
Local Abbreviation in_spot_and_vol :=
  (price_in_spot_and_vol np_exp py_pow timedelta_days fuel walk depth
     mkt n_steps pricing_date opt).
Local Abbreviation in_days :=
  (price_in_days np_exp py_pow timedelta_days fuel walk depth
     mkt n_steps pricing_date opt).

Lemma value_truediv_by a b :
  PyNum.nonzero b = true ->
  PyNum.value (PyNum.truediv a b) = Ok (PyNum.val a / PyNum.val b).
Proof.
  unfold PyNum.nonzero, PyNum.truediv. intros H.
  apply negb_true_iff in H. rewrite H.
  now destruct (PyNum.join _ _).
Qed.

Lemma bumped_base m : is_market m ->
  bumped (s0 m) (rate m) (vol m) (dividend m) m = Ok m.
Proof. intros H. exact H. Qed.

Lemma delta_is_central h :
  not_zero (2 * s0 mkt * h) ->
  same_result
    (PyNum.value (delta np_exp py_pow timedelta_days fuel walk depth
                    mkt n_steps pricing_date opt h))
    (Spec.central_first_relative in_spot (s0 mkt) h).
Proof.
  intros Hd. rewrite (float_mul_comm 2 (s0 mkt)) in Hd.
  unfold delta, Spec.central_first_relative, price_in_spot, sampled_price.
  take_apart; try both_failed.
  rewrite value_truediv by exact Hd. cbn [PyNum.sub PyNum.val].
  rewrite (float_mul_comm 2 (s0 mkt)). apply same_result_refl.
Qed.

Lemma vega_is_central h :
  not_zero (2 * vol mkt * h) ->
  same_result
    (PyNum.value (vega np_exp py_pow timedelta_days fuel walk depth
                    mkt n_steps pricing_date opt h))
    (Spec.central_first_relative in_vol (vol mkt) h).
Proof.
  intros Hd.
  unfold vega, Spec.central_first_relative, price_in_vol, sampled_price.
  take_apart; try both_failed.
  rewrite value_truediv by exact Hd. apply same_result_refl.
Qed.

Lemma rho_is_central h :
  not_zero (2 * h) ->
  same_result
    (PyNum.value (rho np_exp py_pow timedelta_days fuel walk depth
                    mkt n_steps pricing_date opt h))
    (Spec.central_first in_rate (rate mkt) h).
Proof.
  intros Hd.
  unfold rho, Spec.central_first, price_in_rate, sampled_price.
  take_apart; try both_failed.
  rewrite value_truediv by exact Hd. apply same_result_refl.
Qed.

Lemma gamma_is_central m h :
  is_market m ->
  (forall h2, py_pow (s0 m * h) 2 = Some h2 -> not_zero h2) ->
  same_result
    (PyNum.value (gamma np_exp py_pow timedelta_days fuel walk depth
                    m n_steps pricing_date opt h))
    (Spec.central_second_relative (py_square py_pow)
       (price_in_spot np_exp py_pow timedelta_days fuel walk depth
          m n_steps pricing_date opt) (s0 m) h).
Proof.
  intros Hm Hd.
  unfold gamma, Spec.central_second_relative, price_in_spot, sampled_price,
    py_square.
  rewrite (bumped_base m Hm). cbn [res_bind].
  take_apart; try both_failed.
  match goal with
  | H : arith (py_pow _ 2) = Ok ?x |- _ =>
      assert (Hx : not_zero x)
        by (apply Hd; destruct (py_pow (s0 m * h) 2); [now injection H as ->|discriminate H])
  end.
  rewrite value_truediv by exact Hx. apply same_result_refl.
Qed.

Lemma vomma_is_central h :
  is_market mkt ->
  (forall h2, py_pow (vol mkt * h) 2 = Some h2 -> not_zero h2) ->
  same_result
    (PyNum.value (vomma np_exp py_pow timedelta_days fuel walk depth
                    mkt n_steps pricing_date opt h))
    (Spec.central_second_relative (py_square py_pow) in_vol (vol mkt) h).
Proof.
  intros Hm Hd.
  unfold vomma, Spec.central_second_relative, price_in_vol, sampled_price,
    py_square.
  rewrite (bumped_base mkt Hm). cbn [res_bind].
  take_apart; try both_failed.
  match goal with
  | H : arith (py_pow _ 2) = Ok ?x |- _ =>
      assert (Hx : not_zero x)
        by (apply Hd; destruct (py_pow (vol mkt * h) 2);
            [now injection H as ->|discriminate H])
  end.
  rewrite value_truediv by exact Hx. apply same_result_refl.
Qed.

Lemma vanna_is_central h_s h_sigma :
  not_zero (4 * s0 mkt * h_s * vol mkt * h_sigma) ->
  same_result
    (PyNum.value (vanna np_exp py_pow timedelta_days fuel walk depth
                    mkt n_steps pricing_date opt h_s h_sigma))
    (Spec.central_cross_relative in_spot_and_vol (s0 mkt) (vol mkt)
       h_s h_sigma).
Proof.
  intros Hd.
  unfold vanna, Spec.central_cross_relative, price_in_spot_and_vol,
    sampled_price.
  take_apart; try both_failed.
  rewrite value_truediv by exact Hd. apply same_result_refl.
Qed.

Lemma theta_is_one_sided days :
  is_datetime pricing_date ->
  not_zero (Num.of_Z days) ->
  same_result
    (PyNum.value (theta np_exp py_pow timedelta_days fuel walk depth
                    mkt n_steps pricing_date opt days))
    (Spec.forward_in_days in_days days).
Proof.
  intros Hdate Hd.
  unfold theta, Spec.forward_in_days, price_in_days, sampled_price.
  rewrite (days_later_now pricing_date Hdate). cbn [res_bind].
  take_apart; try both_failed.
  rewrite value_truediv by exact Hd. apply same_result_refl.
Qed.

Lemma lambda_is_a_ratio h :
  same_result
    (PyNum.value (lambda_elasticity np_exp py_pow timedelta_days
                    fuel walk depth mkt n_steps pricing_date opt h))
    (let? V := price_of mkt pricing_date in
     let? d := PyNum.value (delta np_exp py_pow timedelta_days
                              fuel walk depth mkt n_steps pricing_date opt h) in
     Ok (Spec.elasticity V d (s0 mkt)))%res.
Proof.
  unfold lambda_elasticity, sampled_price.
  destruct (_price np_exp py_pow timedelta_days fuel walk depth mkt opt
              pricing_date n_steps) as [V| |]; cbn [res_bind PyNum.value];
    try both_failed.
  destruct (delta np_exp py_pow timedelta_days fuel walk depth mkt n_steps
              pricing_date opt h) as [d| |]; cbn [res_bind PyNum.value];
    try both_failed.
  unfold Spec.elasticity.
  destruct (PyNum.nonzero V) eqn:E.
  - rewrite value_truediv_by by exact E.
    unfold PyNum.nonzero in E. apply negb_true_iff in E. rewrite E.
    apply same_result_refl.
  - unfold PyNum.nonzero in E. apply negb_false_iff in E. rewrite E.
    apply same_result_refl.
Qed.

Section Starred.

Variable kwargs : kwargs_t.

Local Abbreviation args :=
  [PyMarket mkt; PyInt n_steps; PyDate pricing_date; PyOption opt].
Local Abbreviation h := (default 0.01 (kw_h kwargs)).
Local Abbreviation days := (default 1%Z (kw_days kwargs)).

Lemma charm_is_one_sided :
  is_datetime pricing_date ->
  not_zero (Num.of_Z days) ->
  same_result
    (PyNum.value (charm np_exp py_pow timedelta_days fuel walk depth
                    args kwargs))
    (Spec.forward_in_days
       (delta_in_days np_exp py_pow timedelta_days fuel walk depth
          mkt n_steps pricing_date opt h) days).
Proof.
  intros Hdate Hd.
  unfold charm, Spec.forward_in_days, delta_in_days.
  cbn [unpack lookup]. cbn -[Time.days_later delta Num.of_Z].
  rewrite (days_later_now pricing_date Hdate). cbn [res_bind].
  take_apart; try both_failed.
  rewrite value_truediv by exact Hd. apply same_result_refl.
Qed.

Lemma speed_is_central :
  let eps := Num.py_max 1e-3 (s0 mkt * h) in
  not_zero (2 * eps) ->
  same_result
    (PyNum.value (speed np_exp py_pow timedelta_days fuel walk depth
                    args kwargs))
    (Spec.central_first
       (gamma_in_spot np_exp py_pow timedelta_days fuel walk depth
          mkt n_steps pricing_date opt h) (s0 mkt) eps).
Proof.
  intros eps Hd.
  unfold speed, Spec.central_first, gamma_in_spot.
  cbn [unpack lookup]. cbn -[gamma Num.py_max].
  fold eps.
  take_apart; try both_failed.
  rewrite value_truediv by exact Hd. apply same_result_refl.
Qed.

Lemma zomma_is_central :
  let eps := Num.py_max 1e-4 (vol mkt * h) in
  not_zero (2 * eps) ->
  same_result
    (PyNum.value (zomma np_exp py_pow timedelta_days fuel walk depth
                    args kwargs))
    (Spec.central_first
       (gamma_in_vol np_exp py_pow timedelta_days fuel walk depth
          mkt n_steps pricing_date opt h) (vol mkt) eps).
Proof.
  intros eps Hd.
  unfold zomma, Spec.central_first, gamma_in_vol.
  cbn [unpack lookup]. cbn -[gamma Num.py_max].
  fold eps.
  take_apart; try both_failed.
  rewrite value_truediv by exact Hd. apply same_result_refl.
Qed.

Lemma dividend_rho_is_central :
  let h := default 1e-2 (kw_h kwargs) in
  PrimFloat.ltb (dividend mkt - h) 0 = false ->
  not_zero (2 * h) ->
  same_result
    (PyNum.value (dividend_rho np_exp py_pow timedelta_days fuel walk depth
                    args kwargs))
    (Spec.central_first in_dividend (dividend mkt) h).
Proof.
  intros h' Hclamp Hd.
  unfold dividend_rho, Spec.central_first, price_in_dividend, sampled_price.
  cbn [unpack lookup]. cbn -[_price Num.py_max].
  fold h'. unfold Num.py_max, Num.gtb. rewrite Hclamp.
  take_apart; try both_failed.
  rewrite value_truediv by exact Hd. apply same_result_refl.
Qed.

End Starred.

(** C9 (amended).  Every price the estimators combine comes from
    [backward_pricing] on a tree with pruning enabled and the floor [1e-7].
    For a market as its constructor leaves it and a valuation date that is a
    [datetime], and whenever the divisor is not zero, an estimator returns
    exactly when its stencil over those prices does, and returns the same
    float: Delta and Vega are the central first difference with a relative
    step, Rho the central first difference with the step [h]; Gamma and
    Vomma are the central second difference with a relative step; Vanna is
    the four-point cross difference; Speed and Zomma are the central first
    difference of Gamma with a step that has a floor.  Theta and Charm are
    one-sided: the value [days] later minus the value now, over [days].
    Lambda is the ratio [Delta * S0 / V], or [0] when [V] is zero.
    Dividend-Rho is the central first difference in the dividend amount when
    [dividend - h] is not negative. *)
Theorem C9_estimators_and_their_stencils :
  is_market mkt ->
  is_datetime pricing_date ->
  (forall m d,
     sampled_price np_exp py_pow timedelta_days fuel walk depth n_steps opt
       m d
     = (let? tree := Tree_init np_exp
                       (mkParams d n_steps true (Some 1e-7)) m opt in
        let? v := backward_pricing np_exp py_pow timedelta_days tree
                    fuel walk depth in
        as_float v)%res)
  /\ (forall h,
        not_zero (2 * s0 mkt * h) ->
        same_result
          (PyNum.value (delta np_exp py_pow timedelta_days fuel walk depth
                          mkt n_steps pricing_date opt h))
          (Spec.central_first_relative in_spot (s0 mkt) h))
  /\ (forall h,
        not_zero (2 * vol mkt * h) ->
        same_result
          (PyNum.value (vega np_exp py_pow timedelta_days fuel walk depth
                          mkt n_steps pricing_date opt h))
          (Spec.central_first_relative in_vol (vol mkt) h))
  /\ (forall h,
        not_zero (2 * h) ->
        same_result
          (PyNum.value (rho np_exp py_pow timedelta_days fuel walk depth
                          mkt n_steps pricing_date opt h))
          (Spec.central_first in_rate (rate mkt) h))
  /\ (forall h,
        (forall h2, py_pow (s0 mkt * h) 2 = Some h2 -> not_zero h2) ->
        same_result
          (PyNum.value (gamma np_exp py_pow timedelta_days fuel walk depth
                          mkt n_steps pricing_date opt h))
          (Spec.central_second_relative (py_square py_pow) in_spot
             (s0 mkt) h))
  /\ (forall h,
        (forall h2, py_pow (vol mkt * h) 2 = Some h2 -> not_zero h2) ->
        same_result
          (PyNum.value (vomma np_exp py_pow timedelta_days fuel walk depth
                          mkt n_steps pricing_date opt h))
          (Spec.central_second_relative (py_square py_pow) in_vol
             (vol mkt) h))
  /\ (forall h_s h_sigma,
        not_zero (4 * s0 mkt * h_s * vol mkt * h_sigma) ->
        same_result
          (PyNum.value (vanna np_exp py_pow timedelta_days fuel walk depth
                          mkt n_steps pricing_date opt h_s h_sigma))
          (Spec.central_cross_relative in_spot_and_vol (s0 mkt) (vol mkt)
             h_s h_sigma))
  /\ (forall days,
        not_zero (Num.of_Z days) ->
        same_result
          (PyNum.value (theta np_exp py_pow timedelta_days fuel walk depth
                          mkt n_steps pricing_date opt days))
          (Spec.forward_in_days in_days days))
  /\ (forall h,
        same_result
          (PyNum.value (lambda_elasticity np_exp py_pow timedelta_days
                          fuel walk depth mkt n_steps pricing_date opt h))
          (let? V := price_of mkt pricing_date in
           let? d := PyNum.value
                       (delta np_exp py_pow timedelta_days fuel walk depth
                          mkt n_steps pricing_date opt h) in
           Ok (Spec.elasticity V d (s0 mkt)))%res)
  /\ (forall kwargs,
        let args := [PyMarket mkt; PyInt n_steps; PyDate pricing_date;
                     PyOption opt] in
        let h := default 0.01 (kw_h kwargs) in
        let days := default 1%Z (kw_days kwargs) in
        (not_zero (Num.of_Z days) ->
         same_result
           (PyNum.value (charm np_exp py_pow timedelta_days fuel walk depth
                           args kwargs))
           (Spec.forward_in_days
              (delta_in_days np_exp py_pow timedelta_days fuel walk depth
                 mkt n_steps pricing_date opt h) days))
        /\ (let eps := Num.py_max 1e-3 (s0 mkt * h) in
            not_zero (2 * eps) ->
            same_result
              (PyNum.value (speed np_exp py_pow timedelta_days
                              fuel walk depth args kwargs))
              (Spec.central_first
                 (gamma_in_spot np_exp py_pow timedelta_days fuel walk depth
                    mkt n_steps pricing_date opt h) (s0 mkt) eps))
        /\ (let eps := Num.py_max 1e-4 (vol mkt * h) in
            not_zero (2 * eps) ->
            same_result
              (PyNum.value (zomma np_exp py_pow timedelta_days
                              fuel walk depth args kwargs))
              (Spec.central_first
                 (gamma_in_vol np_exp py_pow timedelta_days fuel walk depth
                    mkt n_steps pricing_date opt h) (vol mkt) eps))
        /\ (let h := default 1e-2 (kw_h kwargs) in
            PrimFloat.ltb (dividend mkt - h) 0 = false ->
            not_zero (2 * h) ->
            same_result
              (PyNum.value (dividend_rho np_exp py_pow timedelta_days
                              fuel walk depth args kwargs))
              (Spec.central_first in_dividend (dividend mkt) h))).
Proof.
  intros Hm Hdate.
  split; [intros m d; apply sampled_price_eq|].
  split; [exact delta_is_central|].
  split; [exact vega_is_central|].
  split; [exact rho_is_central|].
  split; [intros h; apply gamma_is_central; exact Hm|].
  split; [intros h; apply vomma_is_central; exact Hm|].
  split; [exact vanna_is_central|].
  split; [intros days; apply theta_is_one_sided; exact Hdate|].
  split; [exact lambda_is_a_ratio|].
  intros kwargs args h days.
  split; [apply charm_is_one_sided; exact Hdate|].
  split; [apply speed_is_central|].
  split; [apply zomma_is_central|apply dividend_rho_is_central].
Qed.

End GreeksClaims.

Lemma C10_witness :
  charm Ref.exp Ref.pow_np Ref.timedelta_days 10 10 10
    [PyMarket Sample.market; PyInt 3; PyDate Sample.d2025] (mkKwargs None None)
    = Ok (PyNum.py 0)
  /\ speed Ref.exp Ref.pow_np Ref.timedelta_days 10 10 10
       [PyMarket Sample.market; PyInt 3; PyDate Sample.d2025]
       (mkKwargs None None) = Ok (PyNum.py 0)
  /\ zomma Ref.exp Ref.pow_np Ref.timedelta_days 10 10 10
       [PyMarket Sample.market; PyInt 3; PyDate Sample.d2025]
       (mkKwargs None None) = Ok (PyNum.py 0)
  /\ dividend_rho Ref.exp Ref.pow_np Ref.timedelta_days 10 10 10
       [PyMarket Sample.market; PyInt 3; PyDate Sample.d2025]
       (mkKwargs None None) = Ok (PyNum.py 0).
Proof.
  apply (C10_short_argument_list_gives_zero Ref.exp Ref.pow_np
           Ref.timedelta_days 10 10 10
           [PyMarket Sample.market; PyInt 3; PyDate Sample.d2025]
           (mkKwargs None None)).
  cbn. lia.
Defined.

(** The amended statement on [Market(100, 0.01, 0.2)] and three steps:
    what Delta, Gamma, Theta and Speed return is what their stencils give.
    At this input the relative step of Delta rounds like the step [1], and
    Delta is the stencil "(f(x+h) - f(x-h)) / 2h" as it is written. *)
Lemma C9_witness :
  let in_spot :=
    price_in_spot Ref.exp Ref.pow_np Ref.timedelta_days 10 10 10
      Sample.market 3 Sample.d2025 Sample.call_2026 in
  Spec.central_first_relative in_spot 100 0.01
    = Ok 0.73774059939097469%float
  /\ Spec.central_first in_spot 100 (100 * 0.01)
     = Ok 0.73774059939097469%float
  /\ Spec.central_second_relative (py_square Ref.pow_np) in_spot 100 0.01
     = Ok 0.0020201144811871075%float
  /\ Spec.forward_in_days
       (price_in_days Ref.exp Ref.pow_np Ref.timedelta_days 10 10 10
          Sample.market 3 Sample.d2025 Sample.call_2026) 1
     = Ok (-0.011619350312757959)%float
  /\ Spec.central_first
       (gamma_in_spot Ref.exp Ref.pow_np Ref.timedelta_days 10 10 10
          Sample.market 3 Sample.d2025 Sample.call_2026 0.01) 100 1
     = Ok (-0.20370214241915965)%float.
Proof.
  intros in_spot.
  destruct (C9_estimators_and_their_stencils Ref.exp Ref.pow_np
              Ref.timedelta_days 10 10 10 Sample.market 3 Sample.d2025
              Sample.call_2026)
    as (_ & Hdelta & _ & _ & Hgamma & _ & _ & Htheta & _ & Hstarred).
  - reflexivity.
  - unfold is_datetime, Time.min_datetime, Time.max_datetime, Sample.d2025.
    lia.
  - destruct (Hstarred (mkKwargs None None)) as (_ & Hspeed & _).
    assert (D : Spec.central_first_relative in_spot 100 0.01
                = Ok 0.73774059939097469%float).
    { apply (Hdelta 0.01%float); [reflexivity|vm_compute; reflexivity]. }
    split; [exact D|]. split; [|split; [|split]].
    + rewrite <- D. symmetry.
      apply central_first_relative_standard; reflexivity.
    + apply (Hgamma 0.01%float); [|vm_compute; reflexivity].
      intros h2 E. injection E as <-. reflexivity.
    + apply (Htheta 1%Z); [reflexivity|vm_compute; reflexivity].
    + apply Hspeed; [reflexivity|vm_compute; reflexivity].
Defined.

(** C9 (as stated) fails for Theta: the estimator's value is not the central
    first difference of the price in the valuation date.  Where the
    amended statement asks for a divisor that is not zero and for a
    dividend of [h] at least, the estimators are not their stencils
    either: at a spot of zero Delta of an American put, whose two sampled
    prices are payoffs, raises [ZeroDivisionError] where the stencil is NaN,
    and with a dividend below [h] Dividend-Rho samples the lower price at a
    dividend of zero. *)
Lemma C9_counterexample :
  (exists one_sided central,
     PyNum.value (theta Ref.exp Ref.pow_np Ref.timedelta_days 10 10 10
                    Sample.market 1 Sample.d2025 Sample.call_2026 1)
       = Ok one_sided
     /\ Spec.central_in_date Sample.price_at Sample.d2025 1 = Ok central
     /\ one_sided <> central)
  /\ (delta Ref.exp Ref.pow_np Ref.timedelta_days 10 10 10
        Sample.zero_spot_market 3 Sample.d2025 Sample.american_put 0.01
      = Raise ZeroDivisionError
      /\ exists central,
           Spec.central_first_relative
             (price_in_spot Ref.exp Ref.pow_np Ref.timedelta_days 10 10 10
                Sample.zero_spot_market 3 Sample.d2025 Sample.american_put)
             0 0.01 = Ok central)
  /\ (exists lopsided central,
        PyNum.value
          (dividend_rho Ref.exp Ref.pow_np Ref.timedelta_days 10 10 10
             [PyMarket Sample.small_dividend_market; PyInt 3;
              PyDate Sample.d2025; PyOption Sample.call_2026]
             (mkKwargs None None)) = Ok lopsided
        /\ Spec.central_first
             (price_in_dividend Ref.exp Ref.pow_np Ref.timedelta_days
                10 10 10 Sample.small_dividend_market 3 Sample.d2025
                Sample.call_2026) 0.005 0.01 = Ok central
        /\ lopsided <> central).
Proof.
  split; [|split].
  - eexists _, _. split; [vm_compute; reflexivity|].
    split; [vm_compute; reflexivity|].
    intros H.
    apply (f_equal (fun x => PrimFloat.eqb x (-0.010048142201471322)%float))
      in H.
    vm_compute in H. discriminate H.
  - split; [vm_compute; reflexivity|].
    eexists. vm_compute. reflexivity.
  - eexists _, _. split; [vm_compute; reflexivity|].
    split; [vm_compute; reflexivity|].
    intros H.
    apply (f_equal (fun x => PrimFloat.eqb x (-0.56280557563432865)%float))
      in H.
    vm_compute in H. discriminate H.
Qed.

(** ** The two pricing methods on the same lattice *)

(** Inversion of a successful run of [bind]. *)
Lemma bind_Ok {A B} (m : M A) (k : A -> M B) h b h' :
  bind m k h = Ok (b, h') ->
  exists a h1, m h = Ok (a, h1) /\ k a h1 = Ok (b, h').
Proof.
  unfold bind. destruct (m h) as [[a h1]| |]; try discriminate.
  intros H. now exists a, h1.
Qed.

Lemma get_Ok i h n h' : get i h = Ok (n, h') -> h !! i = Some n /\ h' = h.
Proof.
  unfold get. destruct (h !! i) as [m|]; [|discriminate].
  intros H. inversion H; subst. split; reflexivity.
Qed.

Lemma modify_Ok i f h u h' :
  modify i f h = Ok (u, h') ->
  exists n, h !! i = Some n /\ h' = <[i := f n]> h.
Proof.
  unfold modify. destruct (h !! i) as [n|]; [|discriminate].
  intros H. exists n. inversion H; subst. split; reflexivity.
Qed.

Lemma ret_Ok {A} (a b : A) h h' : ret a h = Ok (b, h') -> b = a /\ h' = h.
Proof. unfold ret. intros H. inversion H; subst. split; reflexivity. Qed.

(** Peeling the steps of a successful monadic run. *)
Ltac inv_run :=
  repeat match goal with
  | H : bind _ _ _ = Ok _ |- _ =>
      apply bind_Ok in H; destruct H as (? & ? & ? & H)
  | H : get _ _ = Ok _ |- _ => apply get_Ok in H; destruct H as [H ->]
  | H : modify _ _ _ = Ok _ |- _ =>
      apply modify_Ok in H; destruct H as (? & H & ->)
  | H : ret _ _ = Ok _ |- _ => apply ret_Ok in H; destruct H as [-> ->]
  | H : raise _ _ = Ok _ |- _ => discriminate H
  | H : out_of_fuel _ = Ok _ |- _ => discriminate H
  | H : _ = Ok _ |- _ => progress cbv zeta in H
  end.

(** Identifying the nodes read twice at the same place. *)
Ltac same_node Hn :=
  match type of Hn with
  | ?h !! ?i = Some ?n =>
      repeat match goal with
      | Hx : h !! i = Some ?m |- _ =>
          tryif constr_eq m n then fail
          else (rewrite Hn in Hx; injection Hx as <-)
      end
  end.

Section SameLattice.

Lemma skeleton_set_opt_price v n : skeleton (set_opt_price v n) = skeleton n.
Proof. reflexivity. Qed.

Lemma skeleton_set_is_exerced b n : skeleton (set_is_exerced b n) = skeleton n.
Proof. reflexivity. Qed.

Lemma same_lattice_refl h : same_lattice h h.
Proof. reflexivity. Qed.

Lemma same_lattice_trans h1 h2 h3 :
  same_lattice h1 h2 -> same_lattice h2 h3 -> same_lattice h1 h3.
Proof. unfold same_lattice. congruence. Qed.

Lemma same_lattice_sym h1 h2 : same_lattice h1 h2 -> same_lattice h2 h1.
Proof. unfold same_lattice. congruence. Qed.

Lemma same_lattice_lookup h h' i n :
  same_lattice h h' -> h !! i = Some n ->
  exists n', h' !! i = Some n' /\ skeleton n' = skeleton n.
Proof.
  intros E Hn. unfold same_lattice in E.
  assert (Hs : (skeleton <$> h') !! i = Some (skeleton n))
    by (rewrite <- E, list_lookup_fmap, Hn; reflexivity).
  rewrite list_lookup_fmap in Hs.
  destruct (h' !! i) as [n'|]; [|discriminate].
  exists n'. split; [reflexivity|]. cbn in Hs. congruence.
Qed.

Lemma same_lattice_length h h' : same_lattice h h' -> length h = length h'.
Proof.
  intros E. unfold same_lattice in E.
  rewrite <- (length_fmap skeleton h), E. apply length_fmap.
Qed.

Lemma same_lattice_insert h i n n' :
  h !! i = Some n -> skeleton n' = skeleton n ->
  same_lattice h (<[i := n']> h).
Proof.
  intros Hn Hs. unfold same_lattice.
  rewrite list_fmap_insert, Hs. symmetry. apply list_insert_id.
  now rewrite list_lookup_fmap, Hn.
Qed.

(** The fields of a node are read off its skeleton. *)
Lemma skeleton_fields n n' :
  skeleton n' = skeleton n ->
  und_price n' = und_price n /\ date n' = date n
  /\ p_up n' = p_up n /\ p_mid n' = p_mid n /\ p_down n' = p_down n
  /\ p_node n' = p_node n
  /\ next_up n' = next_up n /\ next_mid n' = next_mid n
  /\ next_down n' = next_down n
  /\ up_node n' = up_node n /\ down_node n' = down_node n
  /\ prec_node n' = prec_node n.
Proof.
  intros H. destruct n, n'. unfold skeleton in H. cbn in *.
  inversion H. repeat split; reflexivity.
Qed.

End SameLattice.

Section ValueFacts.

Variable tree : Tree.

Lemma value_eq d h i :
  value tree (S d) h i =
    (n ← h !! i;
     match next_mid n with
     | None => Some (payoff (option_data tree) (und_price n))
     | Some mid =>
         price_up ← value_or_zero (value tree d h) (next_up n);
         price_down ← value_or_zero (value tree d h) (next_down n);
         price_mid ← value tree d h mid;
         Some (node_value tree n price_up price_mid price_down)
     end).
Proof. reflexivity. Qed.

Lemma value_or_zero_ext (f g : id -> option float) o :
  (forall x, f x = g x) -> value_or_zero f o = value_or_zero g o.
Proof. intros E. destruct o; [apply E|reflexivity]. Qed.

Lemma value_or_zero_mono (f g : id -> option float) o v :
  (forall x w, f x = Some w -> g x = Some w) ->
  value_or_zero f o = Some v -> value_or_zero g o = Some v.
Proof. intros E. destruct o; [apply E|trivial]. Qed.

Lemma node_value_skeleton n n' vu vm vd :
  skeleton n' = skeleton n ->
  node_value tree n' vu vm vd = node_value tree n vu vm vd.
Proof.
  intros Hs. destruct (skeleton_fields n n' Hs)
    as (Hp & _ & Hu & Hm & Hd & _).
  unfold node_value. now rewrite Hp, Hu, Hm, Hd.
Qed.

(** The value of a node depends on the lattice only. *)
Lemma value_same_lattice depth : forall h h' i,
  same_lattice h h' -> value tree depth h i = value tree depth h' i.
Proof.
  induction depth as [|d IH]; intros h h' i E; [reflexivity|].
  rewrite !value_eq.
  destruct (h !! i) as [n|] eqn:Hn.
  - destruct (same_lattice_lookup h h' i n E Hn) as (n' & Hn' & Hs).
    rewrite Hn'. cbn [mbind option_bind].
    destruct (skeleton_fields n n' Hs)
      as (Hp & _ & _ & _ & _ & _ & Hnu & Hnm & Hnd & _).
    rewrite Hnu, Hnm, Hnd, Hp.
    destruct (next_mid n) as [mid|]; [|reflexivity].
    rewrite (IH h h' mid E).
    rewrite (value_or_zero_ext (value tree d h) (value tree d h') (next_up n))
      by (intros x; apply IH, E).
    rewrite (value_or_zero_ext (value tree d h) (value tree d h')
               (next_down n)) by (intros x; apply IH, E).
    destruct (value_or_zero _ (next_up n)); [|reflexivity].
    destruct (value_or_zero _ (next_down n)); [|reflexivity].
    destruct (value tree d h' mid); [|reflexivity].
    cbn. now rewrite (node_value_skeleton n n').
  - destruct (h' !! i) as [n'|] eqn:Hn'; [|reflexivity].
    destruct (same_lattice_lookup h' h i n' (same_lattice_sym _ _ E) Hn')
      as (n & Hn2 & _). congruence.
Qed.

Lemma value_S depth : forall h i v,
  value tree depth h i = Some v -> value tree (S depth) h i = Some v.
Proof.
  induction depth as [|d IH]; intros h i v H; [discriminate|].
  rewrite value_eq in H. rewrite (value_eq (S d)).
  destruct (h !! i) as [n|]; [|discriminate]. cbn [mbind option_bind] in *.
  destruct (next_mid n) as [mid|]; [|exact H].
  destruct (value_or_zero (value tree d h) (next_up n)) as [vu|] eqn:Eu;
    [|discriminate].
  destruct (value_or_zero (value tree d h) (next_down n)) as [vd|] eqn:Ed;
    [|discriminate].
  destruct (value tree d h mid) as [vm|] eqn:Em; [|discriminate].
  cbn [mbind option_bind] in H.
  rewrite (value_or_zero_mono _ (value tree (S d) h) _ _ (IH h) Eu).
  rewrite (value_or_zero_mono _ (value tree (S d) h) _ _ (IH h) Ed).
  rewrite (IH _ _ _ Em). exact H.
Qed.

Lemma value_mono d d' h i v :
  (d <= d')%nat -> value tree d h i = Some v -> value tree d' h i = Some v.
Proof.
  induction 1 as [|d' _ IH]; [trivial|]. intros H. apply value_S, IH, H.
Qed.

Lemma value_functional d d' h i v v' :
  value tree d h i = Some v -> value tree d' h i = Some v' -> v = v'.
Proof.
  intros H H'.
  apply (value_mono d (Nat.max d d')) in H; [|lia].
  apply (value_mono d' (Nat.max d d')) in H'; [|lia].
  congruence.
Qed.

End ValueFacts.

(** A run of [bind] from its two halves. *)
Lemma bind_run {A B} (m : M A) (k : A -> M B) h a h1 r :
  m h = Ok (a, h1) -> k a h1 = r -> bind m k h = r.
Proof. intros Hm Hk. unfold bind. now rewrite Hm. Qed.

Lemma get_run i h n : h !! i = Some n -> get i h = Ok (n, h).
Proof. intros H. unfold get. now rewrite H. Qed.

Lemma modify_run i f h n :
  h !! i = Some n -> modify i f h = Ok (tt, <[i := f n]> h).
Proof. intros H. unfold modify. now rewrite H. Qed.

Section PriceFacts.

Variable tree : Tree.

(** One step of [Node.price]. *)
Lemma price_eq d self :
  price tree (S d) self =
    (let* n := get self in
     match opt_price n with
     | Some v => ret v
     | None =>
         match next_mid n with
         | None =>
             let v := payoff (option_data tree) (und_price n) in
             modify self (set_opt_price (Some v));;
             ret v
         | Some mid =>
             let* price_up := price_or_zero (price tree d) (next_up n) in
             let* price_down := price_or_zero (price tree d) (next_down n) in
             let* price_mid := price tree d mid in
             price_store tree self price_up price_mid price_down
         end
     end)%M.
Proof. reflexivity. Qed.

(** [price_store] caches the node's value and changes nothing else. *)
Lemma price_store_Ok i vu vm vd h v h' :
  price_store tree i vu vm vd h = Ok (v, h') ->
  exists n n',
    h !! i = Some n /\ h' = <[i := n']> h
    /\ skeleton n' = skeleton n /\ opt_price n' = Some v
    /\ v = node_value tree n vu vm vd.
Proof.
  unfold price_store. intros H. inv_run.
  match goal with Hn : h !! i = Some ?m |- _ => rename m into n end.
  exists n. unfold node_value.
  destruct (is_american (option_data tree) && _); inv_run.
  - match goal with
    | Hx : <[i:=_]> h !! i = Some _, Hn : h !! i = Some n |- _ =>
        rewrite list_lookup_insert_eq in Hx by (eapply lookup_lt_Some, Hn);
        injection Hx as <-; same_node Hn
    end.
    rewrite list_insert_insert_eq.
    eexists. split; [eassumption|]. split; [reflexivity|]. repeat split.
  - match goal with Hn : h !! i = Some n |- _ => same_node Hn end.
    eexists. split; [eassumption|]. split; [reflexivity|]. repeat split.
Qed.

Lemma price_store_run i vu vm vd h n :
  h !! i = Some n ->
  exists v h', price_store tree i vu vm vd h = Ok (v, h').
Proof.
  intros Hn. unfold price_store.
  destruct (is_american (option_data tree)
            && Num.gtb (payoff (option_data tree) (und_price n))
                 ((vu * p_up n + vm * p_mid n + vd * p_down n) * df tree))
    eqn:Hb; eexists _, _.
  - eapply bind_run; [apply get_run, Hn|]. cbv zeta. rewrite Hb.
    eapply bind_run; [apply modify_run, Hn|].
    eapply bind_run; [|reflexivity].
    apply modify_run, list_lookup_insert_eq. eapply lookup_lt_Some, Hn.
  - eapply bind_run; [apply get_run, Hn|]. cbv zeta. rewrite Hb.
    eapply bind_run; [apply modify_run, Hn|]. reflexivity.
Qed.

Lemma cache_store h i n n' v d :
  h !! i = Some n -> skeleton n' = skeleton n -> opt_price n' = Some v ->
  value tree d h i = Some v ->
  cache_sound tree h ->
  same_lattice h (<[i := n']> h) /\ cache_sound tree (<[i := n']> h).
Proof.
  intros Hn Hs Hv Hd Hc.
  assert (E : same_lattice h (<[i := n']> h))
    by (eapply same_lattice_insert; eauto).
  split; [exact E|].
  intros j m w Hm Hw.
  destruct (decide (i = j)) as [<-|Hne].
  - rewrite list_lookup_insert_eq in Hm by (eapply lookup_lt_Some, Hn).
    inversion Hm; subst m. exists d.
    rewrite <- (value_same_lattice tree d h _ i E). congruence.
  - rewrite list_lookup_insert_ne in Hm by exact Hne.
    destruct (Hc j m w Hm Hw) as [d' Hd']. exists d'.
    now rewrite <- (value_same_lattice tree d' h _ j E).
Qed.

(** A successful call of [Node.price] keeps the lattice, returns the value
    of the node and leaves it cached. *)
Lemma price_spec depth : forall i h v h',
  cache_sound tree h ->
  price tree depth i h = Ok (v, h') ->
  same_lattice h h' /\ cache_sound tree h'
  /\ (exists d, value tree d h i = Some v)
  /\ (exists n', h' !! i = Some n' /\ opt_price n' = Some v).
Proof.
  induction depth as [|d IH]; intros i h v h' Hc H; [discriminate|].
  rewrite price_eq in H. apply bind_Ok in H.
  destruct H as (n & ? & Hn & H). apply get_Ok in Hn. destruct Hn as [Hn ->].
  destruct (opt_price n) as [c|] eqn:Hcache.
  { inv_run. split; [reflexivity|]. split; [exact Hc|].
    split; [exact (Hc i n _ Hn Hcache)|]. now exists n. }
  destruct (next_mid n) as [mid|] eqn:Hmid.
  2:{ inv_run. same_node Hn.
      set (v := payoff (option_data tree) (und_price n)).
      assert (Hv : value tree 1 h i = Some v)
        by (cbn; rewrite Hn; cbn; now rewrite Hmid).
      destruct (cache_store h i n (set_opt_price (Some v) n) v 1
                  Hn eq_refl eq_refl Hv Hc) as [E Hc'].
      split; [exact E|]. split; [exact Hc'|]. split; [now exists 1%nat|].
      exists (set_opt_price (Some v) n). split; [|reflexivity].
      apply list_lookup_insert_eq. eapply lookup_lt_Some, Hn. }
  apply bind_Ok in H. destruct H as (vu & h1 & Ru & H).
  apply bind_Ok in H. destruct H as (vd & h2 & Rd & H).
  apply bind_Ok in H. destruct H as (vm & h3 & Rm & H).
  assert (Sub : forall o h0 w h1,
             cache_sound tree h0 ->
             price_or_zero (price tree d) o h0 = Ok (w, h1) ->
             priced tree h0 o w h1).
  { intros [u|] h0 w h4 Hc0 Hr.
    - destruct (IH u h0 w h4 Hc0 Hr) as (E & Hc1 & Hd & _).
      split; [exact E|]. split; [exact Hc1|exact Hd].
    - cbn in Hr. inv_run. split; [reflexivity|]. split; [exact Hc0|].
      now exists 0%nat. }
  destruct (Sub _ _ _ _ Hc Ru) as (E1 & Hc1 & du & Hu).
  destruct (Sub _ _ _ _ Hc1 Rd) as (E2 & Hc2 & dd & Hd).
  destruct (IH _ _ _ _ Hc2 Rm) as (E3 & Hc3 & (dm & Hm) & _).
  clear Sub Ru Rd Rm.
  assert (E02 : same_lattice h h2) by (eapply same_lattice_trans; eauto).
  assert (E03 : same_lattice h h3) by (eapply same_lattice_trans; eauto).
  destruct (price_store_Ok _ _ _ _ _ _ _ H)
    as (n3 & n' & Hn3 & -> & Hs' & Hv' & ->).
  destruct (same_lattice_lookup h h3 i n E03 Hn) as (n3' & Hn3' & Hs3).
  same_node Hn3.
  rewrite (node_value_skeleton tree n n3 vu vm vd Hs3) in *.
  set (D := Nat.max du (Nat.max dd dm)).
  assert (Lu : (du <= D)%nat) by (unfold D; lia).
  assert (Ld : (dd <= D)%nat) by (unfold D; lia).
  assert (Lm : (dm <= D)%nat) by (unfold D; lia).
  assert (Hval : value tree (S D) h i
                 = Some (node_value tree n vu vm vd)).
  { rewrite value_eq, Hn. cbn [mbind option_bind]. rewrite Hmid.
    assert (Eu : value_or_zero (value tree D h) (next_up n) = Some vu).
    { eapply value_or_zero_mono; [|exact Hu].
      intros x w. now apply value_mono. }
    assert (Ed : value_or_zero (value tree D h) (next_down n) = Some vd).
    { eapply value_or_zero_mono; [|exact Hd].
      intros x w Hx. rewrite (value_same_lattice tree D h h1 _ E1).
      revert Hx. now apply value_mono. }
    assert (Em : value tree D h mid = Some vm).
    { rewrite (value_same_lattice tree D h h2 _ E02).
      revert Hm. now apply value_mono. }
    rewrite Eu, Ed, Em. reflexivity. }
  rewrite (value_same_lattice tree (S D) h h3 i E03) in Hval.
  destruct (cache_store h3 i n3 n' _ (S D) Hn3 Hs' Hv' Hval Hc3)
    as [E4 Hc4].
  split; [eapply same_lattice_trans; eauto|].
  split; [exact Hc4|].
  split; [exists (S D);
          now rewrite (value_same_lattice tree (S D) h h3 i E03)|].
  exists n'. split; [|exact Hv'].
  apply list_lookup_insert_eq. eapply lookup_lt_Some, Hn3.
Qed.

End PriceFacts.

Section PriceDepth.

Variable timedelta_days : float -> Z.
Variable tree : Tree.

Local Abbreviation step_ := (step timedelta_days tree).
Local Abbreviation layered_ := (layered timedelta_days tree).

Hypothesis step_pos : (0 < step_)%Z.

Lemma linked_same_lattice h h' o d :
  same_lattice h h' -> linked h o d -> linked h' o d.
Proof.
  intros E L x Hx. destruct (L x Hx) as (nx & Hnx & Hd).
  destruct (same_lattice_lookup h h' x nx E Hnx) as (nx' & Hnx' & Hs).
  exists nx'. split; [exact Hnx'|].
  destruct (skeleton_fields nx nx' Hs) as (_ & -> & _). exact Hd.
Qed.

Lemma layered_same_lattice D h h' :
  same_lattice h h' -> layered_ D h -> layered_ D h'.
Proof.
  intros E L i n' Hn'.
  destruct (same_lattice_lookup h' h i n' (same_lattice_sym _ _ E) Hn')
    as (n & Hn & Hs).
  destruct (skeleton_fields n' n Hs)
    as (_ & Hd & _ & _ & _ & _ & Hu & Hm & Hdn & _).
  destruct (L i n Hn) as [L1 L2 L3 L4].
  rewrite Hd, Hu, Hm, Hdn in *.
  split; [exact L1| | |]; eapply linked_same_lattice; eauto.
Qed.

(** On a layered lattice, [Node.price] returns as soon as the depth allowed
    covers the columns that remain after the node. *)
Lemma price_total D depth : forall i h n,
  layered_ D h -> cache_sound tree h ->
  h !! i = Some n ->
  (D - date n < Z.of_nat depth * step_)%Z ->
  exists v h', price tree depth i h = Ok (v, h').
Proof.
  induction depth as [|d IH]; intros i h n L Hc Hn Hd.
  { destruct (L i n Hn) as [[_ ?] _ _ _]. lia. }
  rewrite price_eq.
  destruct (opt_price n) as [c|] eqn:Hcache.
  { exists c, h. eapply bind_run; [apply get_run, Hn|].
    now rewrite Hcache. }
  destruct (next_mid n) as [mid|] eqn:Hmid.
  2:{ eexists _, _. eapply bind_run; [apply get_run, Hn|].
      rewrite Hcache, Hmid. cbv zeta.
      eapply bind_run; [apply modify_run, Hn|]. reflexivity. }
  destruct (L i n Hn) as [Ldate Lup Lmid Ldown].
  assert (Sub : forall o h0,
             same_lattice h h0 -> cache_sound tree h0 ->
             linked h o (date n + step_) ->
             exists w h1,
               price_or_zero (price tree d) o h0 = Ok (w, h1)
               /\ same_lattice h h1 /\ cache_sound tree h1).
  { intros [u|] h0 E0 Hc0 Lo.
    - destruct (linked_same_lattice h h0 _ _ E0 Lo u eq_refl)
        as (nu & Hnu & Hdu).
      destruct (IH u h0 nu (layered_same_lattice D h h0 E0 L) Hc0 Hnu)
        as (w & h1 & Hr); [lia|].
      exists w, h1. split; [exact Hr|].
      destruct (price_spec tree d u h0 w h1 Hc0 Hr) as (E1 & Hc1 & _).
      split; [eapply same_lattice_trans; eauto|exact Hc1].
    - exists 0%float, h0. repeat split; assumption. }
  destruct (Sub (next_up n) h (same_lattice_refl h) Hc Lup)
    as (vu & h1 & Ru & E1 & Hc1).
  destruct (Sub (next_down n) h1 E1 Hc1 Ldown)
    as (vd & h2 & Rd & E2 & Hc2).
  destruct (Sub (Some mid) h2 E2 Hc2) as (vm & h3 & Rm & E3 & Hc3);
    [now rewrite <- Hmid|].
  destruct (same_lattice_lookup h h3 i n E3 Hn) as (n3 & Hn3 & _).
  destruct (price_store_run tree i vu vm vd h3 n3 Hn3) as (v & h' & Hf).
  exists v, h'.
  eapply bind_run; [apply get_run, Hn|].
  rewrite Hcache, Hmid.
  eapply bind_run; [exact Ru|]. eapply bind_run; [exact Rd|].
  eapply bind_run; [exact Rm|]. exact Hf.
Qed.

Local Abbreviation cached_ := cached.

Lemma cached_insert h i n n' v :
  h !! i = Some n -> opt_price n' = Some v ->
  (forall j, cached h j -> cached (<[i := n']> h) j)
  /\ cached (<[i := n']> h) i.
Proof.
  intros Hn Hv.
  assert (Hi : cached (<[i := n']> h) i).
  { exists n', v. split; [|exact Hv].
    apply list_lookup_insert_eq. eapply lookup_lt_Some, Hn. }
  split; [|exact Hi].
  intros j (m & w & Hm & Hw). destruct (decide (i = j)) as [<-|Hne].
  - exact Hi.
  - exists m, w. split; [|exact Hw]. now rewrite list_lookup_insert_ne.
Qed.

(** The cached nodes after a call: those cached before, the node priced,
    and with each of them its middle successor. *)
Lemma price_closed depth : forall i h v h',
  cache_sound tree h -> cache_closed h ->
  price tree depth i h = Ok (v, h') ->
  cache_closed h' /\ (forall j, cached h j -> cached h' j) /\ cached h' i.
Proof.
  induction depth as [|d IH]; intros i h v h' Hc Hcl H; [discriminate|].
  rewrite price_eq in H. apply bind_Ok in H.
  destruct H as (n & ? & Hn & H). apply get_Ok in Hn. destruct Hn as [Hn ->].
  destruct (opt_price n) as [c|] eqn:Hcache.
  { inv_run. split; [exact Hcl|]. split; [trivial|]. now exists n, c. }
  assert (Store : forall h3 n3 n',
             same_lattice h h3 -> h3 !! i = Some n3 ->
             skeleton n' = skeleton n3 -> opt_price n' = Some v ->
             cache_closed h3 ->
             (forall m, next_mid n = Some m -> cached h3 m) ->
             cache_closed (<[i := n']> h3)
             /\ (forall j, cached h3 j -> cached (<[i := n']> h3) j)
             /\ cached (<[i := n']> h3) i).
  { intros h3 n3 n' E3 Hn3 Hs' Hv' Hcl3 Hmid.
    destruct (cached_insert h3 i n3 n' v Hn3 Hv') as [Mono Hi].
    split; [|split; assumption].
    intros j nj m Hnj Hcj Hm. destruct (decide (i = j)) as [<-|Hne].
    - rewrite list_lookup_insert_eq in Hnj by (eapply lookup_lt_Some, Hn3).
      injection Hnj as <-. apply Mono, Hmid.
      destruct (same_lattice_lookup h h3 i n E3 Hn) as (n3' & Hn3' & Hs3).
      same_node Hn3.
      destruct (skeleton_fields n3 n' Hs')
        as (_ & _ & _ & _ & _ & _ & _ & Hnm & _).
      destruct (skeleton_fields n n3 Hs3)
        as (_ & _ & _ & _ & _ & _ & _ & Hnm3 & _).
      congruence.
    - rewrite list_lookup_insert_ne in Hnj by exact Hne.
      apply Mono. eapply Hcl3; eauto. }
  destruct (next_mid n) as [mid|] eqn:Hmid.
  2:{ inv_run. same_node Hn.
      refine (Store h n (set_opt_price (Some _) n)
                (same_lattice_refl h) Hn eq_refl eq_refl Hcl _).
      discriminate. }
  apply bind_Ok in H. destruct H as (vu & h1 & Ru & H).
  apply bind_Ok in H. destruct H as (vd & h2 & Rd & H).
  apply bind_Ok in H. destruct H as (vm & h3 & Rm & H).
  assert (Sub : forall o h0 w h4,
             cache_sound tree h0 -> cache_closed h0 ->
             price_or_zero (price tree d) o h0 = Ok (w, h4) ->
             same_lattice h0 h4 /\ cache_sound tree h4 /\ cache_closed h4
             /\ (forall j, cached h0 j -> cached h4 j)
             /\ (forall u, o = Some u -> cached h4 u)).
  { intros [u|] h0 w h4 Hc0 Hcl0 Hr.
    - destruct (price_spec tree d u h0 w h4 Hc0 Hr) as (E & Hc4 & _).
      destruct (IH u h0 w h4 Hc0 Hcl0 Hr) as (Hcl4 & Mono & Hu).
      split; [exact E|]. split; [exact Hc4|]. split; [exact Hcl4|].
      split; [exact Mono|]. intros u' [= <-]. exact Hu.
    - cbn in Hr. inv_run.
      split; [reflexivity|]. split; [exact Hc0|]. split; [exact Hcl0|].
      split; [trivial|]. discriminate. }
  destruct (Sub _ _ _ _ Hc Hcl Ru) as (E1 & Hc1 & Hcl1 & M1 & _).
  destruct (Sub _ _ _ _ Hc1 Hcl1 Rd) as (E2 & Hc2 & Hcl2 & M2 & _).
  destruct (Sub (Some mid) _ _ _ Hc2 Hcl2 Rm) as (E3 & Hc3 & Hcl3 & M3 & Cm).
  destruct (price_store_Ok _ _ _ _ _ _ _ _ H)
    as (n3 & n' & Hn3 & -> & Hs' & Hv' & _).
  assert (E03 : same_lattice h h3)
    by (eapply same_lattice_trans; [|exact E3];
        eapply same_lattice_trans; eauto).
  destruct (Store h3 n3 n' E03 Hn3 Hs' Hv' Hcl3) as (C & M & Hi).
  { intros m [= <-]. now apply Cm. }
  split; [exact C|]. split; [|exact Hi].
  intros j Hj. apply M, M3, M2, M1, Hj.
Qed.

(** A node that a call caches lies fewer columns after the node priced than
    the depth allowed. *)
Lemma price_depth D depth : forall i h v h' ni j nj,
  layered_ D h -> cache_sound tree h ->
  price tree depth i h = Ok (v, h') ->
  h !! i = Some ni ->
  h !! j = Some nj -> opt_price nj = None -> cached h' j ->
  (date nj - date ni < Z.of_nat depth * step_)%Z.
Proof.
  induction depth as [|d IH]; intros i h v h' ni j nj L Hc H Hi Hj Hnone Hcj;
    [discriminate|].
  rewrite price_eq in H. apply bind_Ok in H.
  destruct H as (n & ? & Hn & H). apply get_Ok in Hn. destruct Hn as [Hn ->].
  same_node Hi.
  assert (Self : j = i -> (date nj - date ni < Z.of_nat (S d) * step_)%Z).
  { intros ->. same_node Hi. nia. }
  assert (Other : forall h3 n', j <> i -> cached (<[i := n']> h3) j ->
                                cached h3 j).
  { intros h3 n' Hne (m & w & Hm & Hw).
    rewrite list_lookup_insert_ne in Hm by congruence. now exists m, w. }
  assert (Not : ~ cached h j).
  { intros (m & w & Hm & Hw). congruence. }
  destruct (opt_price ni) as [c|] eqn:Hcache.
  { inv_run. contradiction. }
  destruct (next_mid ni) as [mid|] eqn:Hmid.
  2:{ inv_run. destruct (decide (j = i)) as [E|Hne]; [exact (Self E)|].
      exfalso. eapply Not, Other; eauto. }
  apply bind_Ok in H. destruct H as (vu & h1 & Ru & H).
  apply bind_Ok in H. destruct H as (vd & h2 & Rd & H).
  apply bind_Ok in H. destruct H as (vm & h3 & Rm & H).
  destruct (L i ni Hi) as [Ldate Lup Lmid Ldown].
  assert (Sub : forall o h0 w h4 nj0,
             same_lattice h h0 -> cache_sound tree h0 ->
             linked h o (date ni + step_) ->
             price_or_zero (price tree d) o h0 = Ok (w, h4) ->
             h0 !! j = Some nj0 -> opt_price nj0 = None -> cached h4 j ->
             (date nj - date ni < Z.of_nat (S d) * step_)%Z).
  { intros [u|] h0 w h4 nj0 E0 Hc0 Lo Hr Hj0 Hn0 Hc4.
    - destruct (linked_same_lattice h h0 _ _ E0 Lo u eq_refl)
        as (nu & Hnu & Hdu).
      pose proof (IH u h0 w h4 nu j nj0 (layered_same_lattice D h h0 E0 L)
                    Hc0 Hr Hnu Hj0 Hn0 Hc4) as Hlt.
      destruct (same_lattice_lookup h h0 j nj E0 Hj) as (nj0' & Hj0' & Hs).
      same_node Hj0.
      destruct (skeleton_fields nj nj0 Hs) as (_ & Hdate & _).
      lia.
    - cbn in Hr. inv_run. exfalso.
      destruct Hc4 as (m & w' & Hm & Hw). congruence. }
  assert (Run : forall o h0 w h4,
             cache_sound tree h0 ->
             price_or_zero (price tree d) o h0 = Ok (w, h4) ->
             same_lattice h0 h4 /\ cache_sound tree h4).
  { intros [u|] h0 w h4 Hc0 Hr.
    - destruct (price_spec tree d u h0 w h4 Hc0 Hr) as (E & Hc4 & _).
      now split.
    - cbn in Hr. inv_run. now split. }
  destruct (Run _ _ _ _ Hc Ru) as [E1 Hc1].
  destruct (Run _ _ _ _ Hc1 Rd) as [E12 Hc2].
  assert (E2 : same_lattice h h2) by (eapply same_lattice_trans; eauto).
  destruct (decide (j = i)) as [E|Hne]; [exact (Self E)|].
  destruct (price_store_Ok _ _ _ _ _ _ _ _ H)
    as (n3 & n' & Hn3 & -> & _).
  apply Other in Hcj; [|exact Hne].
  destruct (same_lattice_lookup h h1 j nj E1 Hj) as (nj1 & Hj1 & _).
  destruct (same_lattice_lookup h h2 j nj E2 Hj) as (nj2 & Hj2 & _).
  destruct (opt_price nj1) as [c1|] eqn:Hc1j.
  { eapply (Sub _ h _ h1 nj (same_lattice_refl h) Hc Lup Ru Hj Hnone).
    now exists nj1, c1. }
  destruct (opt_price nj2) as [c2|] eqn:Hc2j.
  { eapply (Sub _ h1 _ h2 nj1 E1 Hc1 Ldown Rd Hj1 Hc1j).
    now exists nj2, c2. }
  eapply (Sub (Some mid) h2 _ h3 nj2 E2 Hc2); eauto.
  now rewrite <- Hmid.
Qed.

End PriceDepth.

Section BackwardWalk.

Variable timedelta_days : float -> Z.
Variable tree : Tree.

Local Abbreviation step_ := (step timedelta_days tree).
Local Abbreviation layered_ := (layered timedelta_days tree).

Hypothesis step_pos : (0 < step_)%Z.

Lemma rank_bounded (rank : id -> Z) n :
  exists B, forall q, (q < n)%nat -> (- B <= rank q <= B)%Z.
Proof.
  induction n as [|n [B HB]].
  - exists 0%Z. intros q Hq. lia.
  - exists (Z.max B (Z.abs (rank n))). intros q Hq.
    destruct (decide (q = n)) as [->|Hne]; [lia|].
    specialize (HB q ltac:(lia)). lia.
Qed.

Lemma ranked_same_lattice rank h h' :
  same_lattice h h' -> ranked rank h -> ranked rank h'.
Proof.
  intros E R q n' Hn'.
  destruct (same_lattice_lookup h' h q n' (same_lattice_sym _ _ E) Hn')
    as (n & Hn & Hs).
  destruct (skeleton_fields n' n Hs)
    as (_ & _ & _ & _ & _ & _ & _ & _ & _ & Hu & Hd & _).
  rewrite <- Hu, <- Hd. exact (R q n Hn).
Qed.

Variables (D : Z) (depth : nat) (rank : id -> Z) (B : Z).

Local Abbreviation walking_ := (walking timedelta_days tree D depth rank B).

Lemma walking_same_lattice h h' :
  same_lattice h h' -> cache_sound tree h' -> walking_ h -> walking_ h'.
Proof.
  intros E Hc [W1 W2 W3 W4 W5 W6 W7].
  assert (Back : forall q n', h' !! q = Some n' ->
                   exists n, h !! q = Some n /\ skeleton n = skeleton n').
  { intros q n' Hn'.
    exact (same_lattice_lookup h' h q n' (same_lattice_sym _ _ E) Hn'). }
  split.
  - eapply layered_same_lattice; eauto.
  - exact Hc.
  - eapply ranked_same_lattice; eauto.
  - rewrite <- (same_lattice_length h h' E). exact W4.
  - intros q n' Hn'. destruct (Back q n' Hn') as (n & Hn & Hs).
    destruct (skeleton_fields n' n Hs) as (_ & Hd & _).
    rewrite <- Hd. eapply W5, Hn.
  - intros q n' Hn'. destruct (Back q n' Hn') as (n & Hn & Hs).
    destruct (skeleton_fields n' n Hs)
      as (_ & Hd & _ & _ & _ & _ & _ & _ & _ & Hu & _).
    rewrite <- Hd, <- Hu. eapply linked_same_lattice; eauto.
  - intros q n' Hn'. destruct (Back q n' Hn') as (n & Hn & Hs).
    destruct (skeleton_fields n' n Hs)
      as (_ & Hd & _ & _ & _ & _ & _ & _ & _ & _ & Hdn & _).
    rewrite <- Hd, <- Hdn. eapply linked_same_lattice; eauto.
Qed.

(** Pricing any node of the lattice being walked succeeds. *)
Lemma price_walking h i n :
  walking_ h -> h !! i = Some n ->
  exists v h',
    price tree depth i h = Ok (v, h') /\ walking_ h' /\ same_lattice h h'.
Proof.
  intros W Hn.
  destruct (price_total timedelta_days tree D depth i h n
              (walking_layered _ _ _ _ _ _ _ W)
              (walking_sound _ _ _ _ _ _ _ W) Hn
              (walking_depth _ _ _ _ _ _ _ W i n Hn)) as (v & h' & Hr).
  exists v, h'. split; [exact Hr|].
  destruct (price_spec tree depth i h v h' (walking_sound _ _ _ _ _ _ _ W) Hr)
    as (E & Hc & _).
  split; [|exact E]. eapply walking_same_lattice; eauto.
Qed.

(** The walk up a column ends: the rank grows at each node. *)
Lemma price_up_nodes_total walk : forall c h n,
  walking_ h -> h !! c = Some n ->
  (B - rank c < Z.of_nat walk)%Z ->
  exists h',
    price_up_nodes tree depth walk c h = Ok (tt, h')
    /\ walking_ h' /\ same_lattice h h'.
Proof.
  induction walk as [|w IH]; intros c h n W Hn Hw.
  { pose proof (walking_bound _ _ _ _ _ _ _ W c
                  (lookup_lt_Some _ _ _ Hn)). lia. }
  cbn [price_up_nodes].
  destruct (up_node n) as [u|] eqn:Hu.
  2:{ exists h. split; [|split; [exact W|reflexivity]].
      eapply bind_run; [apply get_run, Hn|]. now rewrite Hu. }
  destruct (walking_up _ _ _ _ _ _ _ W c n Hn u Hu) as (nu & Hnu & _).
  destruct (price_walking h u nu W Hnu) as (v & h1 & Hr & W1 & E1).
  destruct (same_lattice_lookup h h1 u nu E1 Hnu) as (nu1 & Hnu1 & _).
  destruct (walking_ranked _ _ _ _ _ _ _ W c n Hn) as [Rup _].
  destruct (IH u h1 nu1 W1 Hnu1) as (h' & Hr' & W' & E');
    [specialize (Rup u Hu); lia|].
  exists h'. split; [|split; [exact W'|eapply same_lattice_trans; eauto]].
  eapply bind_run; [apply get_run, Hn|]. rewrite Hu.
  eapply bind_run; [exact Hr|]. exact Hr'.
Qed.

Lemma price_down_nodes_total walk : forall c h n,
  walking_ h -> h !! c = Some n ->
  (rank c + B < Z.of_nat walk)%Z ->
  exists h',
    price_down_nodes tree depth walk c h = Ok (tt, h')
    /\ walking_ h' /\ same_lattice h h'.
Proof.
  induction walk as [|w IH]; intros c h n W Hn Hw.
  { pose proof (walking_bound _ _ _ _ _ _ _ W c
                  (lookup_lt_Some _ _ _ Hn)). lia. }
  cbn [price_down_nodes].
  destruct (down_node n) as [u|] eqn:Hu.
  2:{ exists h. split; [|split; [exact W|reflexivity]].
      eapply bind_run; [apply get_run, Hn|]. now rewrite Hu. }
  destruct (walking_down _ _ _ _ _ _ _ W c n Hn u Hu) as (nu & Hnu & _).
  destruct (price_walking h u nu W Hnu) as (v & h1 & Hr & W1 & E1).
  destruct (same_lattice_lookup h h1 u nu E1 Hnu) as (nu1 & Hnu1 & _).
  destruct (walking_ranked _ _ _ _ _ _ _ W c n Hn) as [_ Rdown].
  destruct (IH u h1 nu1 W1 Hnu1) as (h' & Hr' & W' & E');
    [specialize (Rdown u Hu); lia|].
  exists h'. split; [|split; [exact W'|eapply same_lattice_trans; eauto]].
  eapply bind_run; [apply get_run, Hn|]. rewrite Hu.
  eapply bind_run; [exact Hr|]. exact Hr'.
Qed.

End BackwardWalk.

Section BackwardColumns.

Variable timedelta_days : float -> Z.
Variable tree : Tree.

Local Abbreviation step_ := (step timedelta_days tree).
Local Abbreviation layered_ := (layered timedelta_days tree).
Local Abbreviation pd := (pricing_date (pricer_parameters tree)).

Hypothesis step_pos : (0 < step_)%Z.

Lemma trunk_path_same_lattice h h' root t k :
  same_lattice h h' -> trunk_path h root t k -> trunk_path h' root t k.
Proof.
  intros E T. induction T as [|t t' nt nt' k T IH Ht Hm Ht' Hp].
  - constructor.
  - destruct (same_lattice_lookup h h' t nt E Ht) as (mt & Hmt & Hs).
    destruct (same_lattice_lookup h h' t' nt' E Ht') as (mt' & Hmt' & Hs').
    destruct (skeleton_fields nt mt Hs)
      as (_ & _ & _ & _ & _ & _ & _ & Hnm & _).
    destruct (skeleton_fields nt' mt' Hs')
      as (_ & _ & _ & _ & _ & _ & _ & _ & _ & _ & _ & Hpr).
    eapply trunk_next; eauto; congruence.
Qed.

(** The trunk node [k] columns after the root is dated [k] steps after the
    valuation date. *)
Lemma trunk_path_date D h root t k nr :
  layered_ D h -> h !! root = Some nr -> date nr = pd ->
  trunk_path h root t k ->
  exists nt, h !! t = Some nt /\ date nt = (pd + Z.of_nat k * step_)%Z.
Proof.
  intros L Hr Hd T. induction T as [|t t' nt nt' k T IH Ht Hm Ht' Hp].
  - exists nr. split; [exact Hr|]. lia.
  - destruct IH as (mt & Hmt & Hdt). same_node Ht.
    destruct (L t nt Ht) as [_ _ Lmid _].
    destruct (Lmid t' Hm) as (mt' & Hmt' & Hdt'). same_node Ht'.
    exists nt'. split; [exact Ht'|]. lia.
Qed.

(** Along the trunk the cache is filled as far as the lattice goes. *)
Lemma cached_trunk h root t k :
  cache_closed h -> trunk_path h root t k -> cached h root -> cached h t.
Proof.
  intros C T Hr. induction T as [|t t' nt nt' k T IH Ht Hm Ht' Hp].
  - exact Hr.
  - destruct IH as (mt & v & Hmt & Hv). same_node Ht.
    eapply (C t); [eassumption| |eassumption]. congruence.
Qed.

Variables (D : Z) (depth : nat) (rank : id -> Z) (B : Z).

Local Abbreviation walking_ := (walking timedelta_days tree D depth rank B).

(** The walk back along the trunk prices every column and stops at the
    root. *)
Lemma backward_columns_total walk root loop : forall k t h nr,
  walking_ h ->
  h !! root = Some nr -> date nr = pd ->
  trunk_path h root t k ->
  (k < loop)%nat -> (2 * B < Z.of_nat walk)%Z ->
  exists h',
    backward_columns tree walk depth loop t h = Ok (root, h')
    /\ walking_ h' /\ same_lattice h h'.
Proof.
  induction loop as [|l IH]; intros k t h nr W Hr Hd T Hk Hw; [lia|].
  cbn [backward_columns].
  destruct (trunk_path_date D h root t k nr
              (walking_layered _ _ _ _ _ _ _ W) Hr Hd T) as (nt & Ht & Hdt).
  destruct T as [|t t' mt mt' k T Ht0 Hm Ht' Hp].
  { same_node Hr. exists h. split; [|split; [exact W|reflexivity]].
    eapply bind_run; [apply get_run, Hr|].
    replace (pd <? date nr)%Z with false by (symmetry; apply Z.ltb_ge; lia).
    reflexivity. }
  same_node Ht.
  assert (Hbound : (- B <= rank t' <= B)%Z)
    by (eapply (walking_bound _ _ _ _ _ _ _ W), lookup_lt_Some, Ht).
  destruct (price_walking timedelta_days tree D depth rank B
              h t' nt W Ht) as (v & h1 & R1 & W1 & E1).
  destruct (same_lattice_lookup h h1 t' nt E1 Ht) as (n1 & Hn1 & _).
  destruct (price_up_nodes_total timedelta_days tree D depth rank B
              walk t' h1 n1 W1 Hn1) as (h2 & R2 & W2 & E2); [lia|].
  destruct (same_lattice_lookup h1 h2 t' n1 E2 Hn1) as (n2 & Hn2 & _).
  destruct (price_down_nodes_total timedelta_days tree D depth
              rank B walk t' h2 n2 W2 Hn2) as (h3 & R3 & W3 & E3); [lia|].
  assert (E03 : same_lattice h h3)
    by (eapply same_lattice_trans; [|exact E3];
        eapply same_lattice_trans; eauto).
  destruct (same_lattice_lookup h h3 t' nt E03 Ht) as (n3 & Hn3 & Hs3).
  destruct (same_lattice_lookup h h3 root nr E03 Hr) as (nr3 & Hr3 & Hsr).
  destruct (skeleton_fields nt n3 Hs3)
    as (_ & _ & _ & _ & _ & _ & _ & _ & _ & _ & _ & Hprec).
  destruct (skeleton_fields nr nr3 Hsr) as (_ & Hdr & _).
  destruct (IH k t h3 nr3 W3 Hr3) as (h' & R' & W' & E');
    [congruence|eapply trunk_path_same_lattice; eauto|lia|exact Hw|].
  exists h'. split; [|split; [exact W'|eapply same_lattice_trans; eauto]].
  eapply bind_run; [apply get_run, Ht|].
  replace (pd <? date nt)%Z with true by (symmetry; apply Z.ltb_lt; nia).
  eapply bind_run; [exact R1|]. eapply bind_run; [exact R2|].
  eapply bind_run; [exact R3|]. eapply bind_run; [apply get_run, Hn3|].
  rewrite Hprec, Hp. exact R'.
Qed.

End BackwardColumns.

Section Agreement.

Variable timedelta_days : float -> Z.
Variable tree : Tree.

Local Abbreviation step_ := (step timedelta_days tree).
Local Abbreviation pd := (pricing_date (pricer_parameters tree)).

Hypothesis step_pos : (0 < step_)%Z.

Lemma lattice_wf_layered D h :
  lattice_wf timedelta_days tree D h -> layered timedelta_days tree D h.
Proof. intros W i n Hn. exact (wf_layered _ _ _ _ _ (W i n Hn)). Qed.

Lemma lattice_wf_cache_sound D h :
  lattice_wf timedelta_days tree D h -> cache_sound tree h.
Proof.
  intros W i n v Hn Hv. rewrite (wf_cache _ _ _ _ _ (W i n Hn)) in Hv.
  discriminate.
Qed.

Lemma lattice_wf_cache_closed D h :
  lattice_wf timedelta_days tree D h -> cache_closed h.
Proof.
  intros W i n m Hn Hv. now rewrite (wf_cache _ _ _ _ _ (W i n Hn)) in Hv.
Qed.

(** On the lattice [make_tree] builds, whatever [Node.price] returns at the
    root is what [backward_pricing] finds there, given enough fuel for its
    walks. *)
Lemma pricing_agree D N h root last depth v h1 :
  built timedelta_days tree D N h root last ->
  price tree depth root h = Ok (v, h1) ->
  exists W, forall walk, (W <= walk)%nat ->
    exists h',
      (let* first := backward_columns tree walk depth walk last in
       let* _ := price tree depth first in
       let* n := get first in
       ret (opt_price n))%M h = Ok (Some v, h').
Proof.
  intros [Wf T (nr & Hr & Hdr) HD (rank & R)] Hp.
  pose proof (lattice_wf_layered D h Wf) as L.
  pose proof (lattice_wf_cache_sound D h Wf) as Cs.
  pose proof (lattice_wf_cache_closed D h Wf) as Cc.
  destruct (price_spec tree depth root h v h1 Cs Hp)
    as (E1 & Cs1 & (dv & Hv) & _).
  (* the depth allowed covers the whole trunk *)
  assert (Hdepth : (N < depth)%nat).
  { destruct (trunk_path_date timedelta_days tree D h root last N nr
                L Hr Hdr T) as (nl & Hl & Hdl).
    destruct (price_closed tree depth root h v h1 Cs Cc Hp)
      as (Cc1 & _ & Cr).
    pose proof (cached_trunk h1 root last N Cc1
                  (trunk_path_same_lattice h h1 root last N E1 T) Cr) as Cl.
    pose proof (price_depth timedelta_days tree step_pos D depth root h v h1
                  nr last nl L Cs Hp Hr Hl
                  (wf_cache _ _ _ _ _ (Wf last nl Hl)) Cl) as Hlt.
    nia. }
  destruct (rank_bounded rank (length h)) as [B HB].
  assert (Wk : walking timedelta_days tree D depth rank B h).
  { split; try assumption.
    - intros q n Hn. destruct (L q n Hn) as [[? ?] _ _ _]. nia.
    - intros q n Hn. exact (wf_up _ _ _ _ _ (Wf q n Hn)).
    - intros q n Hn. exact (wf_down _ _ _ _ _ (Wf q n Hn)). }
  exists (Nat.max (S N) (S (Z.to_nat (2 * B)))). intros walk Hwalk.
  destruct (backward_columns_total timedelta_days tree step_pos D depth
              rank B walk root walk N last h nr Wk Hr Hdr T)
    as (h2 & R2 & W2 & E2); [lia|lia|].
  destruct (same_lattice_lookup h h2 root nr E2 Hr) as (nr2 & Hr2 & _).
  destruct (price_walking timedelta_days tree D depth rank B h2 root nr2
              W2 Hr2) as (v' & h3 & R3 & W3 & E3).
  destruct (price_spec tree depth root h2 v' h3
              (walking_sound _ _ _ _ _ _ _ W2) R3)
    as (_ & _ & (dv' & Hv') & (n3 & Hn3 & Hc3)).
  rewrite <- (value_same_lattice tree dv' h h2 root E2) in Hv'.
  pose proof (value_functional tree dv dv' h root v v' Hv Hv') as <-.
  exists h3.
  eapply bind_run; [exact R2|]. eapply bind_run; [exact R3|].
  eapply bind_run; [apply get_run, Hn3|]. now rewrite Hc3.
Qed.

End Agreement.

(** ** The construction of the lattice *)

Lemma core_fields n n' :
  core n' = core n ->
  und_price n' = und_price n /\ date n' = date n
  /\ opt_price n' = opt_price n
  /\ p_up n' = p_up n /\ p_mid n' = p_mid n /\ p_down n' = p_down n
  /\ next_up n' = next_up n /\ next_mid n' = next_mid n
  /\ next_down n' = next_down n
  /\ is_exerced n' = is_exerced n /\ prec_node n' = prec_node n.
Proof.
  intros H. destruct n, n'. unfold core in H. cbn in *.
  inversion H. repeat split; reflexivity.
Qed.

Lemma shell_fields n n' :
  shell n' = shell n ->
  und_price n' = und_price n /\ date n' = date n
  /\ opt_price n' = opt_price n /\ p_node n' = p_node n
  /\ up_node n' = up_node n /\ down_node n' = down_node n
  /\ is_exerced n' = is_exerced n /\ prec_node n' = prec_node n.
Proof.
  intros H. destruct n, n'. unfold shell in H. cbn in *.
  inversion H. repeat split; reflexivity.
Qed.

Section Frames.

Lemma extends_refl d h : extends d h h.
Proof.
  split.
  - intros q n Hn. exists n. repeat split; trivial.
  - intros q n' Hn' Hnone. congruence.
Qed.

Lemma extends_date d h h' q n :
  extends d h h' -> h !! q = Some n ->
  exists n', h' !! q = Some n' /\ date n' = date n.
Proof.
  intros [E _] Hn. destruct (E q n Hn) as (n' & Hn' & Hc & He).
  exists n'. split; [exact Hn'|].
  destruct (decide (date n = d)) as [Hd|Hd].
  - now destruct (core_fields n n' (Hc Hd)) as (_ & ? & _).
  - now rewrite (He Hd).
Qed.

Lemma extends_trans d h1 h2 h3 :
  extends d h1 h2 -> extends d h2 h3 -> extends d h1 h3.
Proof.
  intros E12 E23. split.
  - intros q n Hn.
    destruct (proj1 E12 q n Hn) as (n2 & Hn2 & Hc2 & He2).
    destruct (proj1 E23 q n2 Hn2) as (n3 & Hn3 & Hc3 & He3).
    destruct (extends_date d h1 h2 q n E12 Hn) as (n2' & Hn2' & Hd2).
    same_node Hn2.
    exists n3. split; [exact Hn3|]. split.
    + intros Hd. rewrite Hc3 by congruence. now apply Hc2.
    + intros Hd. rewrite He3 by congruence. now apply He2.
  - intros q n3 Hn3 Hnone.
    destruct (h2 !! q) as [n2|] eqn:Hn2.
    + pose proof (proj2 E12 q n2 Hn2 Hnone) as Hd2.
      destruct (proj1 E23 q n2 Hn2) as (n3' & Hn3' & Hc3 & _).
      same_node Hn3.
      now destruct (core_fields n2 n3 (Hc3 Hd2)) as (_ & -> & _).
    + exact (proj2 E23 q n3 Hn3 Hn2).
Qed.

Lemma extends_length d h h' : extends d h h' -> (length h <= length h')%nat.
Proof.
  intros [E _].
  destruct (decide (length h <= length h')%nat) as [|Hlt]; [trivial|].
  destruct (lookup_lt_is_Some_2 h (length h')) as [m Hm]; [lia|].
  destruct (E _ m Hm) as (n' & Hn' & _).
  apply lookup_lt_Some in Hn'. lia.
Qed.

Lemma extends_evolves d p h h' : extends d h h' -> evolves d p h h'.
Proof.
  intros [E N]. split; [|exact N].
  intros q n Hn. destruct (E q n Hn) as (n' & Hn' & Hc & He).
  exists n'. split; [exact Hn'|]. split; [exact Hc|].
  split; intros Hd _; now rewrite (He Hd).
Qed.

Lemma evolves_date d p h h' q n :
  evolves d p h h' -> h !! q = Some n ->
  exists n', h' !! q = Some n' /\ date n' = date n.
Proof.
  intros [E _] Hn. destruct (E q n Hn) as (n' & Hn' & Hc & He & Hs).
  exists n'. split; [exact Hn'|].
  destruct (decide (date n = d)) as [Hd|Hd].
  - now destruct (core_fields n n' (Hc Hd)) as (_ & ? & _).
  - destruct (decide (q = p)) as [Hq|Hq].
    + now destruct (shell_fields n n' (Hs Hd Hq)) as (_ & ? & _).
    + now rewrite (He Hd Hq).
Qed.

Lemma evolves_trans d p h1 h2 h3 :
  evolves d p h1 h2 -> evolves d p h2 h3 -> evolves d p h1 h3.
Proof.
  intros E12 E23. split.
  - intros q n Hn.
    destruct (proj1 E12 q n Hn) as (n2 & Hn2 & Hc2 & He2 & Hs2).
    destruct (proj1 E23 q n2 Hn2) as (n3 & Hn3 & Hc3 & He3 & Hs3).
    destruct (evolves_date d p h1 h2 q n E12 Hn) as (n2' & Hn2' & Hd2).
    same_node Hn2.
    exists n3. split; [exact Hn3|]. split; [|split].
    + intros Hd. rewrite Hc3 by congruence. now apply Hc2.
    + intros Hd Hq. rewrite He3 by congruence. now apply He2.
    + intros Hd Hq. rewrite Hs3 by congruence. now apply Hs2.
  - intros q n3 Hn3 Hnone.
    destruct (h2 !! q) as [n2|] eqn:Hn2.
    + pose proof (proj2 E12 q n2 Hn2 Hnone) as Hd2.
      destruct (proj1 E23 q n2 Hn2) as (n3' & Hn3' & Hc3 & _).
      same_node Hn3.
      now destruct (core_fields n2 n3 (Hc3 Hd2)) as (_ & -> & _).
    + exact (proj2 E23 q n3 Hn3 Hn2).
Qed.

End Frames.

Section WellFormed.

Variable timedelta_days : float -> Z.
Variable tree : Tree.

Local Abbreviation step_ := (step timedelta_days tree).
Local Abbreviation node_wf_ := (node_wf timedelta_days tree).
Local Abbreviation lattice_wf_ := (lattice_wf timedelta_days tree).

Lemma linked_kept h h' o d :
  (forall q m, h !! q = Some m ->
               exists m', h' !! q = Some m' /\ date m' = date m) ->
  linked h o d -> linked h' o d.
Proof.
  intros K L x Hx. destruct (L x Hx) as (nx & Hnx & Hd).
  destruct (K x nx Hnx) as (nx' & Hnx' & Hd').
  exists nx'. split; [exact Hnx'|congruence].
Qed.

Lemma node_wf_kept D h h' n :
  (forall q m, h !! q = Some m ->
               exists m', h' !! q = Some m' /\ date m' = date m) ->
  node_wf_ D h n -> node_wf_ D h' n.
Proof.
  intros K [[L1 L2 L3 L4] W2 W3 W4 W5].
  split; [split|..]; try assumption; eapply linked_kept; eauto.
Qed.

Lemma insert_keeps_dates (h : list Node) i n n' :
  h !! i = Some n -> date n' = date n ->
  forall q m, h !! q = Some m ->
              exists m', <[i := n']> h !! q = Some m' /\ date m' = date m.
Proof.
  intros Hn Hd q m Hm. destruct (decide (i = q)) as [<-|Hne].
  - exists n'. rewrite list_lookup_insert_eq by (eapply lookup_lt_Some, Hn).
    split; [reflexivity|congruence].
  - exists m. now rewrite list_lookup_insert_ne.
Qed.

Lemma app_keeps_dates (h : list Node) n :
  forall q m, h !! q = Some m ->
              exists m', (h ++ [n]) !! q = Some m' /\ date m' = date m.
Proof.
  intros q m Hm. exists m. split; [|reflexivity].
  rewrite lookup_app_l by (eapply lookup_lt_Some, Hm). exact Hm.
Qed.

(** Updating a node in place. *)
Lemma lattice_wf_insert D h i n n' :
  lattice_wf_ D h -> h !! i = Some n -> date n' = date n ->
  node_wf_ D (<[i := n']> h) n' ->
  lattice_wf_ D (<[i := n']> h).
Proof.
  intros W Hn Hd Hw q m Hm. destruct (decide (i = q)) as [<-|Hne].
  - rewrite list_lookup_insert_eq in Hm by (eapply lookup_lt_Some, Hn).
    now injection Hm as <-.
  - rewrite list_lookup_insert_ne in Hm by exact Hne.
    eapply node_wf_kept; [|exact (W q m Hm)].
    now apply insert_keeps_dates with (n := n).
Qed.

(** Creating a node. *)
Lemma lattice_wf_app D h n :
  lattice_wf_ D h -> node_wf_ D (h ++ [n]) n -> lattice_wf_ D (h ++ [n]).
Proof.
  intros W Hw q m Hm.
  destruct (decide (q < length h)%nat) as [Hlt|Hge].
  - rewrite lookup_app_l in Hm by exact Hlt.
    eapply node_wf_kept; [|exact (W q m Hm)]. apply app_keeps_dates.
  - rewrite lookup_app_r in Hm by lia.
    destruct (q - length h)%nat as [|k] eqn:Hk; cbn in Hm; [|discriminate].
    now injection Hm as <-.
Qed.

Lemma lattice_wf_mono D D' h :
  (D <= D')%Z -> lattice_wf_ D h -> lattice_wf_ D' h.
Proof.
  intros HD W q n Hn. destruct (W q n Hn) as [[L1 L2 L3 L4] W2 W3 W4 W5].
  split; [split|..]; try assumption. lia.
Qed.

(** A node of the last column has no successor yet. *)
Lemma no_successor_at_last D h q n :
  (0 < step_)%Z -> lattice_wf_ D h -> h !! q = Some n -> date n = D ->
  next_up n = None /\ next_mid n = None /\ next_down n = None.
Proof.
  intros Hs W Hn Hd. destruct (W q n Hn) as [[L1 L2 L3 L4] _ _ _ _].
  assert (No : forall o, linked h o (date n + step_) -> o = None).
  { intros [x|] L; [|reflexivity].
    destruct (L x eq_refl) as (nx & Hnx & Hdx).
    destruct (W x nx Hnx) as [[[_ ?] _ _ _] _ _ _ _]. lia. }
  repeat split; apply No; assumption.
Qed.

(** The neighbour links stay inside the arena. *)
Lemma neighbours_in_arena D h q n r :
  lattice_wf_ D h -> h !! q = Some n ->
  up_node n = Some r \/ down_node n = Some r -> (r < length h)%nat.
Proof.
  intros W Hn Hr. destruct (W q n Hn) as [_ W2 W3 _ _].
  destruct Hr as [Hr|Hr];
    [destruct (W2 r Hr) as (m & Hm & _)|destruct (W3 r Hr) as (m & Hm & _)];
    eapply lookup_lt_Some, Hm.
Qed.

End WellFormed.

Section NodeUpdates.

Variable timedelta_days : float -> Z.
Variable tree : Tree.

Local Abbreviation step_ := (step timedelta_days tree).
Local Abbreviation node_wf_ := (node_wf timedelta_days tree).

Lemma linked_None h d : linked h None d.
Proof. intros x Hx. discriminate. Qed.

Lemma linked_Some (h : list Node) x nx d :
  h !! x = Some nx -> date nx = d -> linked h (Some x) d.
Proof. intros Hx Hd y [= <-]. now exists nx. Qed.

(** A node just created, with no successor. *)
Lemma node_wf_fresh D h n :
  (pricing_date (pricer_parameters tree) <= date n <= D)%Z ->
  next_up n = None -> next_mid n = None -> next_down n = None ->
  opt_price n = None ->
  linked h (up_node n) (date n) -> linked h (down_node n) (date n) ->
  node_wf_ D h n.
Proof.
  intros Hd Hu Hm Hdn Ho Lu Ld.
  split; [split|..]; try assumption.
  - rewrite Hu. apply linked_None.
  - rewrite Hm. apply linked_None.
  - rewrite Hdn. apply linked_None.
  - rewrite Hu, Hdn. intros [?|?]; congruence.
Qed.

Lemma node_wf_set_up_node D h n o :
  node_wf_ D h n -> linked h o (date n) -> node_wf_ D h (set_up_node o n).
Proof. intros [[L1 L2 L3 L4] W2 W3 W4 W5] L. split; [split|..]; assumption. Qed.

Lemma node_wf_set_down_node D h n o :
  node_wf_ D h n -> linked h o (date n) -> node_wf_ D h (set_down_node o n).
Proof. intros [[L1 L2 L3 L4] W2 W3 W4 W5] L. split; [split|..]; assumption. Qed.

Lemma node_wf_set_next_mid D h n o :
  node_wf_ D h n -> linked h o (date n + step_) ->
  node_wf_ D h (set_next_mid o n).
Proof. intros [[L1 L2 L3 L4] W2 W3 W4 W5] L. split; [split|..]; assumption. Qed.

Lemma node_wf_set_next_up D h n o :
  node_wf_ D h n -> linked h o (date n + step_) ->
  above_floor tree n = Ok true ->
  node_wf_ D h (set_next_up o n).
Proof.
  intros [[L1 L2 L3 L4] W2 W3 W4 W5] L A.
  split; [split|..]; try assumption. intros _. exact A.
Qed.

Lemma node_wf_set_next_down D h n o :
  node_wf_ D h n -> linked h o (date n + step_) ->
  above_floor tree n = Ok true ->
  node_wf_ D h (set_next_down o n).
Proof.
  intros [[L1 L2 L3 L4] W2 W3 W4 W5] L A.
  split; [split|..]; try assumption. intros _. exact A.
Qed.

Lemma node_wf_set_probas D h n u m d :
  node_wf_ D h n -> node_wf_ D h (set_probas u m d n).
Proof. intros [[L1 L2 L3 L4] W2 W3 W4 W5]. split; [split|..]; assumption. Qed.

Lemma node_wf_set_p_node D h n p :
  node_wf_ D h n -> next_up n = None -> next_down n = None ->
  node_wf_ D h (set_p_node p n).
Proof.
  intros [[L1 L2 L3 L4] W2 W3 W4 W5] Hu Hd.
  split; [split|..]; try assumption. cbn. intros [?|?]; congruence.
Qed.

End NodeUpdates.

Lemma alloc_Ok (n : Node) h u h' :
  alloc n h = Ok (u, h') -> u = length h /\ h' = h ++ [n].
Proof. unfold alloc. intros H. inversion H. now split. Qed.

(** The arena after a creation followed by an update of an older node. *)
Lemma lookup_created (h : list Node) c nc' new q :
  (c < length h)%nat ->
  <[c := nc']> (h ++ [new]) !! q =
    if decide (q = c) then Some nc'
    else if decide (q = length h) then Some new
    else h !! q.
Proof.
  intros Hc. destruct (decide (q = c)) as [->|Hqc].
  - apply list_lookup_insert_eq. rewrite length_app. lia.
  - rewrite list_lookup_insert_ne by congruence.
    destruct (decide (q = length h)) as [->|Hql].
    + now apply list_lookup_middle.
    + destruct (decide (q < length h)%nat).
      * now apply lookup_app_l.
      * rewrite (proj2 (lookup_ge_None h q)) by lia.
        apply lookup_ge_None. rewrite length_app. cbn. lia.
Qed.

Section Neighbours.

Variable timedelta_days : float -> Z.
Variable tree : Tree.

Local Abbreviation step_ := (step timedelta_days tree).
Local Abbreviation node_wf_ := (node_wf timedelta_days tree).
Local Abbreviation lattice_wf_ := (lattice_wf timedelta_days tree).

(** A new neighbour at the end of a column: the lattice stays well formed,
    only the node it is attached to changes, and the ranking goes on. *)
Lemma attach_spec Dn rank h c nc new nc' (delta : Z) :
  lattice_wf_ Dn h -> ranked rank h ->
  h !! c = Some nc -> date nc = Dn ->
  (new = set_down_node (Some c) (Node_init (und_price new) Dn)
   /\ nc' = set_up_node (Some (length h)) nc /\ up_node nc = None
   /\ delta = 1%Z)
  \/ (new = set_up_node (Some c) (Node_init (und_price new) Dn)
      /\ nc' = set_down_node (Some (length h)) nc /\ down_node nc = None
      /\ delta = (-1)%Z) ->
  let h' := <[c := nc']> (h ++ [new]) in
  lattice_wf_ Dn h' /\ extends Dn h h'
  /\ ranked (fun q => if decide (q = length h) then (rank c + delta)%Z
                      else rank q) h'.
Proof.
  intros W R Hc Hd Shape h'.
  assert (Hlt : (c < length h)%nat) by (eapply lookup_lt_Some, Hc).
  assert (Look : forall q, h' !! q =
                   if decide (q = c) then Some nc'
                   else if decide (q = length h) then Some new
                   else h !! q)
    by (intros q; now apply lookup_created).
  assert (Kept : forall q m, h !! q = Some m ->
                   exists m', h' !! q = Some m' /\ date m' = date m).
  { intros q m Hm. rewrite Look. destruct (decide (q = c)) as [->|].
    - exists nc'. split; [reflexivity|]. same_node Hc.
      destruct Shape as [(_ & -> & _)|(_ & -> & _)]; reflexivity.
    - destruct (decide (q = length h)) as [->|].
      + apply lookup_lt_Some in Hm. lia.
      + now exists m. }
  assert (Hnew : date new = Dn /\ next_up new = None /\ next_mid new = None
                 /\ next_down new = None /\ opt_price new = None)
    by (destruct Shape as [(-> & _)|(-> & _)]; repeat split).
  destruct (W c nc Hc) as [[L1 L2 L3 L4] W2 W3 W4 W5].
  assert (Hc' : h' !! c = Some nc')
    by (rewrite Look; now destruct (decide (c = c))).
  assert (Hn' : h' !! length h = Some new).
  { rewrite Look. destruct (decide (length h = c)); [lia|].
    now destruct (decide (length h = length h)). }
  split; [|split].
  - (* well-formedness *)
    intros q m Hm. rewrite Look in Hm.
    destruct (decide (q = c)) as [->|Hqc].
    + injection Hm as <-.
      pose proof (node_wf_kept timedelta_days tree Dn h h' nc Kept
                    (W c nc Hc)) as K.
      destruct Shape as [(_ & -> & _)|(_ & -> & _)];
        [apply node_wf_set_up_node|apply node_wf_set_down_node];
        try exact K; eapply linked_Some; try exact Hn'; destruct Hnew;
        congruence.
    + destruct (decide (q = length h)) as [->|Hql].
      * injection Hm as <-. destruct Hnew as (Hd1 & Hu1 & Hm1 & Hd2 & Ho).
        assert (Lc : linked h' (Some c) Dn).
        { eapply linked_Some; [exact Hc'|].
          destruct (Kept c nc Hc) as (m' & Hm' & Hdm). congruence. }
        apply node_wf_fresh; try assumption.
        -- rewrite Hd1. lia.
        -- rewrite Hd1. destruct Shape as [(E & _)|(E & _)]; rewrite E; cbn;
             [apply linked_None|exact Lc].
        -- rewrite Hd1. destruct Shape as [(E & _)|(E & _)]; rewrite E; cbn;
             [exact Lc|apply linked_None].
      * eapply node_wf_kept; [exact Kept|exact (W q m Hm)].
  - (* frame *)
    split.
    + intros q m Hm. rewrite Look.
      destruct (decide (q = c)) as [->|Hqc].
      * same_node Hc. exists nc'. split; [reflexivity|].
        split; [|congruence]. intros _.
        destruct Shape as [(_ & -> & _)|(_ & -> & _)]; reflexivity.
      * destruct (decide (q = length h)) as [->|].
        -- apply lookup_lt_Some in Hm. lia.
        -- exists m. repeat split; trivial.
    + intros q m Hm Hnone. rewrite Look in Hm.
      destruct (decide (q = c)) as [->|]; [congruence|].
      destruct (decide (q = length h)); [|congruence].
      injection Hm as <-. now destruct Hnew.
  - (* ranking *)
    assert (Old : forall q m r, h !! q = Some m ->
                    up_node m = Some r \/ down_node m = Some r ->
                    r <> length h).
    { intros q m r Hm Hr.
      pose proof (neighbours_in_arena timedelta_days tree Dn h q m r W Hm Hr).
      lia. }
    set (rk := fun q => if decide (q = length h) then (rank c + delta)%Z
                        else rank q).
    assert (Rn : rk (length h) = (rank c + delta)%Z)
      by (unfold rk; destruct (decide (length h = length h)); congruence).
    assert (Ro : forall q, q <> length h -> rk q = rank q)
      by (intros q Hq; unfold rk; destruct (decide (q = length h));
          congruence).
    assert (Hcl : c <> length h) by lia.
    intros q m Hm. rewrite Look in Hm.
    destruct (decide (q = c)) as [->|Hqc].
    + injection Hm as <-. destruct (R c nc Hc) as [Ru Rd].
      rewrite (Ro c Hcl).
      destruct Shape as [(_ & -> & Hnone & ->)|(_ & -> & Hnone & ->)]; cbn;
        (split; intros r Hr).
      * injection Hr as <-. rewrite Rn. lia.
      * rewrite Ro by (eapply (Old c nc); eauto). now apply Rd.
      * rewrite Ro by (eapply (Old c nc); eauto). now apply Ru.
      * injection Hr as <-. rewrite Rn. lia.
    + destruct (decide (q = length h)) as [->|Hql].
      * injection Hm as <-. rewrite Rn.
        destruct Shape as [(E & _ & _ & ->)|(E & _ & _ & ->)]; rewrite E;
          cbn; (split; intros r Hr; try discriminate); injection Hr as <-;
          rewrite (Ro c Hcl); lia.
      * destruct (R q m Hm) as [Ru Rd]. rewrite (Ro q Hql).
        split; intros r Hr; rewrite Ro by (eapply (Old q m); eauto); auto.
Qed.

End Neighbours.

Section NeighbourCalls.

Variable timedelta_days : float -> Z.
Variable tree : Tree.

Local Abbreviation stage_ := (stage timedelta_days tree).
Local Abbreviation restaged_ := (restaged timedelta_days tree).

Lemma restaged_refl Dn rank h : stage_ Dn rank h -> restaged_ Dn rank h h.
Proof. intros S. exists rank. split; [exact S|reflexivity]. Qed.

(** Chaining two runs. *)
Lemma restaged_trans Dn rank h h1 h2 :
  (length h <= length h1)%nat ->
  restaged_ Dn rank h h1 ->
  (forall rank1, stage_ Dn rank1 h1 -> restaged_ Dn rank1 h1 h2) ->
  restaged_ Dn rank h h2.
Proof.
  intros Hlen (rank1 & S1 & A1) Next.
  destruct (Next rank1 S1) as (rank2 & S2 & A2).
  exists rank2. split; [exact S2|].
  intros q Hq. rewrite A2 by lia. now apply A1.
Qed.

(** [Node.calc_up_node] on a node of the column being built. *)
Lemma calc_up_node_spec Dn rank h c nc u h' :
  stage_ Dn rank h -> h !! c = Some nc -> date nc = Dn ->
  calc_up_node tree c h = Ok (u, h') ->
  extends Dn h h' /\ restaged_ Dn rank h h'
  /\ exists nu, h' !! u = Some nu /\ date nu = Dn.
Proof.
  intros [W R] Hc Hd H. unfold calc_up_node in H.
  apply bind_Ok in H. destruct H as (n & ? & Hn & H).
  apply get_Ok in Hn. destruct Hn as [Hn ->]. same_node Hc.
  destruct (up_node nc) as [u0|] eqn:Hup.
  - inv_run. split; [apply extends_refl|].
    split; [now apply restaged_refl|].
    destruct (wf_up _ _ _ _ _ (W c nc Hc) u0 Hup) as (nu & Hnu & Hdu).
    exists nu. split; [exact Hnu|congruence].
  - apply bind_Ok in H. destruct H as (u0 & h1 & Ha & H).
    apply alloc_Ok in Ha. destruct Ha as [-> ->].
    apply bind_Ok in H. destruct H as ([] & h2 & Hm & H).
    apply modify_Ok in Hm. destruct Hm as (nc1 & Hc1 & ->).
    apply ret_Ok in H. destruct H as [-> ->].
    rewrite lookup_app_l in Hc1 by (eapply lookup_lt_Some, Hc).
    same_node Hc.
    destruct (attach_spec timedelta_days tree Dn rank h c nc
                (set_down_node (Some c)
                   (Node_init (und_price nc * alpha tree) (date nc)))
                (set_up_node (Some (length h)) nc) 1 W R Hc Hd)
      as (W' & E' & R').
    { left. rewrite Hd. repeat split. exact Hup. }
    split; [exact E'|]. split.
    + eexists. split; [split; [exact W'|exact R']|].
      intros q Hq. cbn. destruct (decide (q = length h)); [lia|reflexivity].
    + eexists. split; [|shelve].
      rewrite lookup_created by (eapply lookup_lt_Some, Hc).
      destruct (decide (length h = c)) as [E|_];
        [apply lookup_lt_Some in Hc; lia|].
      destruct (decide (length h = length h)); [reflexivity|congruence].
      Unshelve. exact Hd.
Qed.

Lemma calc_down_node_spec Dn rank h c nc u h' :
  stage_ Dn rank h -> h !! c = Some nc -> date nc = Dn ->
  calc_down_node tree c h = Ok (u, h') ->
  extends Dn h h' /\ restaged_ Dn rank h h'
  /\ exists nu, h' !! u = Some nu /\ date nu = Dn.
Proof.
  intros [W R] Hc Hd H. unfold calc_down_node in H.
  apply bind_Ok in H. destruct H as (n & ? & Hn & H).
  apply get_Ok in Hn. destruct Hn as [Hn ->]. same_node Hc.
  destruct (down_node nc) as [u0|] eqn:Hup.
  - inv_run. split; [apply extends_refl|].
    split; [now apply restaged_refl|].
    destruct (wf_down _ _ _ _ _ (W c nc Hc) u0 Hup) as (nu & Hnu & Hdu).
    exists nu. split; [exact Hnu|congruence].
  - apply bind_Ok in H. destruct H as (u0 & h1 & Ha & H).
    apply alloc_Ok in Ha. destruct Ha as [-> ->].
    apply bind_Ok in H. destruct H as ([] & h2 & Hm & H).
    apply modify_Ok in Hm. destruct Hm as (nc1 & Hc1 & ->).
    apply ret_Ok in H. destruct H as [-> ->].
    rewrite lookup_app_l in Hc1 by (eapply lookup_lt_Some, Hc).
    same_node Hc.
    destruct (attach_spec timedelta_days tree Dn rank h c nc
                (set_up_node (Some c)
                   (Node_init (und_price nc / alpha tree) (date nc)))
                (set_down_node (Some (length h)) nc) (-1) W R Hc Hd)
      as (W' & E' & R').
    { right. rewrite Hd. repeat split. exact Hup. }
    split; [exact E'|]. split.
    + eexists. split; [split; [exact W'|exact R']|].
      intros q Hq. cbn. destruct (decide (q = length h)); [lia|reflexivity].
    + eexists. split; [|shelve].
      rewrite lookup_created by (eapply lookup_lt_Some, Hc).
      destruct (decide (length h = c)) as [E|_];
        [apply lookup_lt_Some in Hc; lia|].
      destruct (decide (length h = length h)); [reflexivity|congruence].
      Unshelve. exact Hd.
Qed.

End NeighbourCalls.

Section Walks.

Variable timedelta_days : float -> Z.
Variable tree : Tree.

Local Abbreviation stage_ := (stage timedelta_days tree).
Local Abbreviation restaged_ := (restaged timedelta_days tree).

Lemma old_links_refl L h : old_links L h h.
Proof. intros q n Hn _. now exists n. Qed.

Lemma old_links_trans L h1 h2 h3 :
  old_links L h1 h2 -> old_links L h2 h3 -> old_links L h1 h3.
Proof.
  intros O12 O23 q n Hn Hq.
  destruct (O12 q n Hn Hq) as (n2 & Hn2 & Hu2 & Hd2).
  destruct (O23 q n2 Hn2 Hq) as (n3 & Hn3 & Hu3 & Hd3).
  exists n3. split; [exact Hn3|]. split; congruence.
Qed.

(** [calc_up_node] and [calc_down_node] among the nodes from [L] on. *)
Lemma calc_up_node_region L h c u h' :
  (L <= c)%nat -> region L h ->
  calc_up_node tree c h = Ok (u, h') ->
  (L <= u)%nat /\ region L h' /\ old_links L h h'.
Proof.
  intros HL Rg H. unfold calc_up_node in H.
  apply bind_Ok in H. destruct H as (nc & ? & Hc & H).
  apply get_Ok in Hc. destruct Hc as [Hc ->].
  destruct (up_node nc) as [u0|] eqn:Hup.
  - inv_run. split; [|split; [exact Rg|apply old_links_refl]].
    now apply (proj1 (Rg c nc Hc HL)).
  - apply bind_Ok in H. destruct H as (u0 & h1 & Ha & H).
    apply alloc_Ok in Ha. destruct Ha as [-> ->].
    apply bind_Ok in H. destruct H as ([] & h2 & Hm & H).
    apply modify_Ok in Hm. destruct Hm as (nc1 & Hc1 & ->).
    apply ret_Ok in H. destruct H as [-> ->].
    pose proof (lookup_lt_Some _ _ _ Hc) as Hlt.
    rewrite lookup_app_l in Hc1 by exact Hlt. same_node Hc.
    split; [lia|]. split.
    + intros q m Hm Hq. rewrite lookup_created in Hm by exact Hlt.
      destruct (decide (q = c)) as [->|].
      * injection Hm as <-. cbn. destruct (Rg c nc Hc HL) as [_ Rd].
        split; [intros r [= <-]; lia|exact Rd].
      * destruct (decide (q = length h)) as [->|].
        -- injection Hm as <-. cbn.
           split; [discriminate|intros r [= <-]; lia].
        -- exact (Rg q m Hm Hq).
    + intros q m Hm Hq. exists m. rewrite lookup_created by exact Hlt.
      destruct (decide (q = c)); [lia|].
      destruct (decide (q = length h)); [lia|]. now split.
Qed.

Lemma calc_down_node_region L h c u h' :
  (L <= c)%nat -> region L h ->
  calc_down_node tree c h = Ok (u, h') ->
  (L <= u)%nat /\ region L h' /\ old_links L h h'.
Proof.
  intros HL Rg H. unfold calc_down_node in H.
  apply bind_Ok in H. destruct H as (nc & ? & Hc & H).
  apply get_Ok in Hc. destruct Hc as [Hc ->].
  destruct (down_node nc) as [u0|] eqn:Hup.
  - inv_run. split; [|split; [exact Rg|apply old_links_refl]].
    now apply (proj2 (Rg c nc Hc HL)).
  - apply bind_Ok in H. destruct H as (u0 & h1 & Ha & H).
    apply alloc_Ok in Ha. destruct Ha as [-> ->].
    apply bind_Ok in H. destruct H as ([] & h2 & Hm & H).
    apply modify_Ok in Hm. destruct Hm as (nc1 & Hc1 & ->).
    apply ret_Ok in H. destruct H as [-> ->].
    pose proof (lookup_lt_Some _ _ _ Hc) as Hlt.
    rewrite lookup_app_l in Hc1 by exact Hlt. same_node Hc.
    split; [lia|]. split.
    + intros q m Hm Hq. rewrite lookup_created in Hm by exact Hlt.
      destruct (decide (q = c)) as [->|].
      * injection Hm as <-. cbn. destruct (Rg c nc Hc HL) as [Ru _].
        split; [exact Ru|intros r [= <-]; lia].
      * destruct (decide (q = length h)) as [->|].
        -- injection Hm as <-. cbn.
           split; [intros r [= <-]; lia|discriminate].
        -- exact (Rg q m Hm Hq).
    + intros q m Hm Hq. exists m. rewrite lookup_created by exact Hlt.
      destruct (decide (q = c)); [lia|].
      destruct (decide (q = length h)); [lia|]. now split.
Qed.

(** The two loops of [find_next_mid], on the column being built. *)
Lemma walk_up_spec Dn fuel forward : forall rank h c nc c' h',
  stage_ Dn rank h -> h !! c = Some nc -> date nc = Dn ->
  walk_up tree fuel forward c h = Ok (c', h') ->
  extends Dn h h' /\ restaged_ Dn rank h h'
  /\ exists nc', h' !! c' = Some nc' /\ date nc' = Dn.
Proof.
  induction fuel as [|f IH]; intros rank h c nc c' h' S Hc Hd H;
    [discriminate|].
  cbn [walk_up] in H.
  apply bind_Ok in H. destruct H as (n & ? & Hn & H).
  apply get_Ok in Hn. destruct Hn as [Hn ->]. same_node Hc.
  destruct (Num.geb forward _).
  - apply bind_Ok in H. destruct H as (u & h1 & Hu & H).
    destruct (calc_up_node_spec timedelta_days tree Dn rank h c nc u h1
                S Hc Hd Hu) as (E1 & R1 & nu & Hnu & Hdu).
    split; [|split].
    + destruct R1 as (rank1 & S1 & _).
      destruct (IH rank1 h1 u nu c' h' S1 Hnu Hdu H) as (E2 & _).
      eapply extends_trans; eauto.
    + eapply restaged_trans; [eapply extends_length, E1|exact R1|].
      intros rank1 S1.
      now destruct (IH rank1 h1 u nu c' h' S1 Hnu Hdu H) as (_ & R2 & _).
    + destruct R1 as (rank1 & S1 & _).
      now destruct (IH rank1 h1 u nu c' h' S1 Hnu Hdu H) as (_ & _ & P).
  - inv_run. split; [apply extends_refl|].
    split; [now apply restaged_refl|]. now exists nc.
Qed.

Lemma walk_down_spec Dn fuel forward : forall rank h c nc c' h',
  stage_ Dn rank h -> h !! c = Some nc -> date nc = Dn ->
  walk_down tree fuel forward c h = Ok (c', h') ->
  extends Dn h h' /\ restaged_ Dn rank h h'
  /\ exists nc', h' !! c' = Some nc' /\ date nc' = Dn.
Proof.
  induction fuel as [|f IH]; intros rank h c nc c' h' S Hc Hd H;
    [discriminate|].
  cbn [walk_down] in H.
  apply bind_Ok in H. destruct H as (n & ? & Hn & H).
  apply get_Ok in Hn. destruct Hn as [Hn ->]. same_node Hc.
  destruct (PrimFloat.leb forward _).
  - apply bind_Ok in H. destruct H as (u & h1 & Hu & H).
    destruct (calc_down_node_spec timedelta_days tree Dn rank h c nc u h1
                S Hc Hd Hu) as (E1 & R1 & nu & Hnu & Hdu).
    split; [|split].
    + destruct R1 as (rank1 & S1 & _).
      destruct (IH rank1 h1 u nu c' h' S1 Hnu Hdu H) as (E2 & _).
      eapply extends_trans; eauto.
    + eapply restaged_trans; [eapply extends_length, E1|exact R1|].
      intros rank1 S1.
      now destruct (IH rank1 h1 u nu c' h' S1 Hnu Hdu H) as (_ & R2 & _).
    + destruct R1 as (rank1 & S1 & _).
      now destruct (IH rank1 h1 u nu c' h' S1 Hnu Hdu H) as (_ & _ & P).
  - inv_run. split; [apply extends_refl|].
    split; [now apply restaged_refl|]. now exists nc.
Qed.

Lemma walk_up_region L fuel forward : forall h c c' h',
  (L <= c)%nat -> region L h ->
  walk_up tree fuel forward c h = Ok (c', h') ->
  (L <= c')%nat /\ region L h' /\ old_links L h h'.
Proof.
  induction fuel as [|f IH]; intros h c c' h' HL Rg H; [discriminate|].
  cbn [walk_up] in H.
  apply bind_Ok in H. destruct H as (n & ? & Hn & H).
  apply get_Ok in Hn. destruct Hn as [Hn ->].
  destruct (Num.geb forward _).
  - apply bind_Ok in H. destruct H as (u & h1 & Hu & H).
    destruct (calc_up_node_region L h c u h1 HL Rg Hu) as (Lu & Rg1 & O1).
    destruct (IH h1 u c' h' Lu Rg1 H) as (Lc & Rg2 & O2).
    split; [exact Lc|]. split; [exact Rg2|eapply old_links_trans; eauto].
  - inv_run. split; [exact HL|]. split; [exact Rg|apply old_links_refl].
Qed.

Lemma walk_down_region L fuel forward : forall h c c' h',
  (L <= c)%nat -> region L h ->
  walk_down tree fuel forward c h = Ok (c', h') ->
  (L <= c')%nat /\ region L h' /\ old_links L h h'.
Proof.
  induction fuel as [|f IH]; intros h c c' h' HL Rg H; [discriminate|].
  cbn [walk_down] in H.
  apply bind_Ok in H. destruct H as (n & ? & Hn & H).
  apply get_Ok in Hn. destruct Hn as [Hn ->].
  destruct (PrimFloat.leb forward _).
  - apply bind_Ok in H. destruct H as (u & h1 & Hu & H).
    destruct (calc_down_node_region L h c u h1 HL Rg Hu) as (Lu & Rg1 & O1).
    destruct (IH h1 u c' h' Lu Rg1 H) as (Lc & Rg2 & O2).
    split; [exact Lc|]. split; [exact Rg2|eapply old_links_trans; eauto].
  - inv_run. split; [exact HL|]. split; [exact Rg|apply old_links_refl].
Qed.

End Walks.

Lemma lift_Ok {A} (r : res A) h a h' :
  lift r h = Ok (a, h') -> r = Ok a /\ h' = h.
Proof. unfold lift. destruct r; intros H; inversion H. now split. Qed.

Lemma deref_Ok o h i h' : deref o h = Ok (i, h') -> o = Some i /\ h' = h.
Proof.
  destruct o as [x|]; cbn; intros H; [|discriminate].
  apply ret_Ok in H. destruct H as [-> ->]. now split.
Qed.

Section Updates.

Variable timedelta_days : float -> Z.
Variable tree : Tree.

Local Abbreviation stage_ := (stage timedelta_days tree).
Local Abbreviation restaged_ := (restaged timedelta_days tree).
Local Abbreviation node_wf_ := (node_wf timedelta_days tree).

(** Updating in place a node whose neighbour links stay as they are. *)
Lemma update_links_kept Dn rank h i n n' :
  stage_ Dn rank h -> h !! i = Some n ->
  date n' = date n ->
  up_node n' = up_node n -> down_node n' = down_node n ->
  node_wf_ Dn h n' ->
  stage_ Dn rank (<[i := n']> h)
  /\ (forall L, region L h -> region L (<[i := n']> h))
  /\ (forall L, old_links L h (<[i := n']> h)).
Proof.
  intros [W R] Hn Hd Hu Hdn Hw.
  pose proof (lookup_lt_Some _ _ _ Hn) as Hlt.
  split; [split|split].
  - apply lattice_wf_insert with (n := n); try assumption.
    eapply node_wf_kept; [|exact Hw]. now apply insert_keeps_dates with (n := n).
  - intros q m Hm. destruct (decide (i = q)) as [<-|Hne].
    + rewrite list_lookup_insert_eq in Hm by exact Hlt. injection Hm as <-.
      rewrite Hu, Hdn. exact (R i n Hn).
    + rewrite list_lookup_insert_ne in Hm by exact Hne. exact (R q m Hm).
  - intros L Rg q m Hm Hq. destruct (decide (i = q)) as [<-|Hne].
    + rewrite list_lookup_insert_eq in Hm by exact Hlt. injection Hm as <-.
      rewrite Hu, Hdn. exact (Rg i n Hn Hq).
    + rewrite list_lookup_insert_ne in Hm by exact Hne. exact (Rg q m Hm Hq).
  - intros L q m Hm Hq. destruct (decide (i = q)) as [<-|Hne].
    + same_node Hn. exists n'.
      rewrite list_lookup_insert_eq by exact Hlt. now split.
    + exists m. rewrite list_lookup_insert_ne by exact Hne. now split.
Qed.

(** ... when the node is the one whose successors are being built ... *)
Lemma update_shell Dn h p np np' :
  h !! p = Some np -> date np <> Dn -> shell np' = shell np ->
  evolves Dn p h (<[p := np']> h).
Proof.
  intros Hn Hd Hs. pose proof (lookup_lt_Some _ _ _ Hn) as Hlt. split.
  - intros q m Hm. destruct (decide (p = q)) as [<-|Hne].
    + same_node Hn. exists np'.
      rewrite list_lookup_insert_eq by exact Hlt.
      split; [reflexivity|]. split; [congruence|]. split; [congruence|].
      intros _ _. exact Hs.
    + exists m. rewrite list_lookup_insert_ne by exact Hne.
      split; [exact Hm|]. split; [reflexivity|]. split; [reflexivity|].
      congruence.
  - intros q m Hm Hnone. destruct (decide (p = q)) as [<-|Hne];
      [congruence|].
    rewrite list_lookup_insert_ne in Hm by exact Hne. congruence.
Qed.

(** ... and when it is a node of the column being built. *)
Lemma update_core Dn h x nx nx' :
  h !! x = Some nx -> date nx = Dn -> core nx' = core nx ->
  extends Dn h (<[x := nx']> h).
Proof.
  intros Hn Hd Hc. pose proof (lookup_lt_Some _ _ _ Hn) as Hlt. split.
  - intros q m Hm. destruct (decide (x = q)) as [<-|Hne].
    + same_node Hn. exists nx'.
      rewrite list_lookup_insert_eq by exact Hlt.
      split; [reflexivity|]. split; [now intros _|congruence].
    + exists m. rewrite list_lookup_insert_ne by exact Hne.
      split; [exact Hm|]. split; reflexivity.
  - intros q m Hm Hnone. destruct (decide (x = q)) as [<-|Hne];
      [congruence|].
    rewrite list_lookup_insert_ne in Hm by exact Hne. congruence.
Qed.

End Updates.

Section ReachAndProbas.

Variable np_exp : float -> float.
Variable py_pow : float -> Z -> option float.
Variable timedelta_days : float -> Z.
Variable tree : Tree.

Local Abbreviation step_ := (step timedelta_days tree).
Local Abbreviation stage_ := (stage timedelta_days tree).
Local Abbreviation restaged_ := (restaged timedelta_days tree).
Local Abbreviation node_wf_ := (node_wf timedelta_days tree).

Hypothesis step_pos : (0 < step_)%Z.

(** [next_nodes_probas], one successor at a time. *)
Lemma add_reach_spec Dn rank h p o w h' :
  stage_ Dn rank h -> linked h o Dn ->
  add_reach p o w h = Ok (tt, h') ->
  extends Dn h h' /\ stage_ Dn rank h'
  /\ (forall L, region L h -> region L h')
  /\ (forall L, old_links L h h').
Proof.
  intros S Lo H. destruct o as [x|]; cbn in H.
  2:{ apply ret_Ok in H. destruct H as [_ ->].
      split; [apply extends_refl|]. split; [exact S|].
      split; [trivial|]. intros L. apply old_links_refl. }
  apply bind_Ok in H. destruct H as (s & ? & Hs & H).
  apply get_Ok in Hs. destruct Hs as [Hs ->].
  apply bind_Ok in H. destruct H as (m & ? & Hm & H).
  apply get_Ok in Hm. destruct Hm as [Hm ->].
  apply modify_Ok in H. destruct H as (m' & Hm' & ->). same_node Hm.
  destruct (Lo x eq_refl) as (nx & Hx & Hd). same_node Hm.
  destruct S as [W R].
  destruct (no_successor_at_last timedelta_days tree Dn h x m step_pos W Hm Hd)
    as (Hu & _ & Hdn).
  split; [eapply update_core; eauto|].
  apply (update_links_kept timedelta_days tree Dn rank h x m); try easy.
  apply node_wf_set_p_node; [exact (W x m Hm)|exact Hu|exact Hdn].
Qed.

Lemma next_nodes_probas_spec Dn rank h p np h' :
  stage_ Dn rank h -> h !! p = Some np -> (date np + step_)%Z = Dn ->
  next_nodes_probas p h = Ok (tt, h') ->
  extends Dn h h' /\ stage_ Dn rank h'
  /\ (forall L, region L h -> region L h')
  /\ (forall L, old_links L h h').
Proof.
  intros S Hp Hd H. unfold next_nodes_probas in H.
  apply bind_Ok in H. destruct H as (n & ? & Hn & H).
  apply get_Ok in Hn. destruct Hn as [Hn ->]. same_node Hp.
  apply bind_Ok in H. destruct H as ([] & h1 & H1 & H).
  apply bind_Ok in H. destruct H as ([] & h2 & H2 & H3).
  destruct (wf_layered _ _ _ _ _ (proj1 S p np Hp)) as [_ Lu Lm Ld].
  rewrite Hd in Lu, Lm, Ld.
  destruct (add_reach_spec Dn rank h p _ _ h1 S Lu H1)
    as (E1 & S1 & Rg1 & O1).
  assert (K1 : forall q m, h !! q = Some m ->
                 exists m', h1 !! q = Some m' /\ date m' = date m)
    by (intros q m; now apply extends_date with (d := Dn)).
  destruct (add_reach_spec Dn rank h1 p _ _ h2 S1
              (linked_kept h h1 _ _ K1 Lm) H2) as (E2 & S2 & Rg2 & O2).
  assert (K2 : forall q m, h !! q = Some m ->
                 exists m', h2 !! q = Some m' /\ date m' = date m).
  { intros q m Hm. apply extends_date with (d := Dn) (h := h); [|exact Hm].
    eapply extends_trans; eauto. }
  destruct (add_reach_spec Dn rank h2 p _ _ h' S2
              (linked_kept h h2 _ _ K2 Ld) H3) as (E3 & S3 & Rg3 & O3).
  split; [eapply extends_trans; [|exact E3]; eapply extends_trans; eauto|].
  split; [exact S3|]. split.
  - intros L Rg. now apply Rg3, Rg2, Rg1.
  - intros L. eapply old_links_trans; [|apply O3].
    eapply old_links_trans; [apply O1|apply O2].
Qed.

(** [probas] on a node that has its middle successor: the three
    probabilities are stored, nothing else changes. *)
Lemma probas_stores fuel h p np m h' :
  h !! p = Some np -> next_mid np = Some m ->
  probas np_exp py_pow timedelta_days tree fuel p h = Ok (tt, h') ->
  exists a b c, h' = <[p := set_probas a b c np]> h.
Proof.
  intros Hp Hm H. unfold probas in H.
  apply bind_Ok in H. destruct H as (n & ? & Hn & H).
  apply get_Ok in Hn. destruct Hn as [Hn ->]. same_node Hp.
  apply bind_Ok in H. destruct H as (pruned & ? & Hb & H).
  apply lift_Ok in Hb. destruct Hb as [Hb ->].
  destruct pruned.
  { apply modify_Ok in H. destruct H as (n' & Hn' & ->). same_node Hp.
    now exists 0%float, 1%float, 0%float. }
  apply bind_Ok in H. destruct H as (fv & ? & Hfv & H).
  apply lift_Ok in Hfv. destruct Hfv as [Hfv ->].
  apply bind_Ok in H. destruct H as ([] & h1 & He & H).
  rewrite (ensure_next_mid_present np_exp py_pow timedelta_days tree
             fuel p np m h Hm) in He.
  injection He as <-.
  apply bind_Ok in H. destruct H as (n' & ? & Hn' & H).
  apply get_Ok in Hn'. destruct Hn' as [Hn' ->]. same_node Hp.
  apply bind_Ok in H. destruct H as (mid & ? & Hd & H).
  apply deref_Ok in Hd. destruct Hd as [Hd ->].
  apply bind_Ok in H. destruct H as (nm & ? & Hnm & H).
  apply get_Ok in Hnm. destruct Hnm as [Hnm ->].
  destruct (probas_try _ _ _ _ _ _ _ _) as [[[a b] c]|].
  - apply bind_Ok in H. destruct H as ([] & ? & Hc & H).
    apply lift_Ok in Hc. destruct Hc as [Hc ->].
    apply modify_Ok in H. destruct H as (n' & Hn' & ->). same_node Hp.
    now exists a, b, c.
  - apply modify_Ok in H. destruct H as (n' & Hn' & ->). same_node Hp.
    now exists 0%float, 1%float, 0%float.
Qed.

End ReachAndProbas.

Section Milestones.

Variable timedelta_days : float -> Z.
Variable tree : Tree.

Local Abbreviation step_ := (step timedelta_days tree).
Local Abbreviation stage_ := (stage timedelta_days tree).
Local Abbreviation restaged_ := (restaged timedelta_days tree).
Local Abbreviation node_wf_ := (node_wf timedelta_days tree).
Local Abbreviation milestone_ := (milestone timedelta_days tree).

Lemma evolves_length d p h h' : evolves d p h h' -> (length h <= length h')%nat.
Proof.
  intros [E _].
  destruct (decide (length h <= length h')%nat) as [|Hlt]; [trivial|].
  destruct (lookup_lt_is_Some_2 h (length h')) as [m Hm]; [lia|].
  destruct (E _ m Hm) as (n' & Hn' & _).
  apply lookup_lt_Some in Hn'. lia.
Qed.

Lemma milestone_start Dn rank p h np :
  stage_ Dn rank h -> h !! p = Some np -> milestone_ Dn rank p h h np.
Proof.
  intros S Hp. split; [apply extends_evolves, extends_refl|].
  split; [now apply restaged_refl|exact Hp].
Qed.

(** A call that works on the column being built. *)
Lemma milestone_call Dn rank p h h1 np1 h2 :
  milestone_ Dn rank p h h1 np1 -> date np1 <> Dn ->
  (forall rank1, stage_ Dn rank1 h1 ->
                 extends Dn h1 h2 /\ restaged_ Dn rank1 h1 h2) ->
  milestone_ Dn rank p h h2 np1.
Proof.
  intros (E & R & Hp) Hd Call.
  assert (E12 : extends Dn h1 h2).
  { destruct R as (rank1 & S1 & _). now destruct (Call rank1 S1). }
  split; [eapply evolves_trans; [exact E|now apply extends_evolves]|].
  split.
  - eapply restaged_trans; [eapply evolves_length, E|exact R|].
    intros rank1 S1. now destruct (Call rank1 S1).
  - destruct (proj1 E12 p np1 Hp) as (n' & Hn' & _ & He).
    now rewrite (He Hd) in Hn'.
Qed.

(** An assignment to a successor or to the probabilities of the node. *)
Lemma milestone_update Dn rank p h h1 np1 np2 :
  milestone_ Dn rank p h h1 np1 -> date np1 <> Dn ->
  shell np2 = shell np1 ->
  (forall rank1, stage_ Dn rank1 h1 -> node_wf_ Dn h1 np2) ->
  milestone_ Dn rank p h (<[p := np2]> h1) np2.
Proof.
  intros (E & R & Hp) Hd Hs Hw.
  destruct (shell_fields np1 np2 Hs) as (_ & Hdate & _ & _ & Hu & Hdn & _).
  split; [eapply evolves_trans; [exact E|eapply update_shell; eauto]|].
  split.
  - destruct R as (rank1 & S1 & A1). exists rank1. split; [|exact A1].
    now apply (update_links_kept timedelta_days tree Dn rank1 h1 p np1 np2
                 S1 Hp Hdate Hu Hdn (Hw rank1 S1)).
  - apply list_lookup_insert_eq. eapply lookup_lt_Some, Hp.
Qed.

(** What a milestone tells about the nodes that were there at the start. *)
Lemma milestone_kept Dn rank p h h1 np1 :
  milestone_ Dn rank p h h1 np1 ->
  forall q m, h !! q = Some m ->
              exists m', h1 !! q = Some m' /\ date m' = date m.
Proof. intros (E & _) q m Hm. eapply evolves_date; eauto. Qed.

Lemma milestone_stage Dn rank p h h1 np1 :
  milestone_ Dn rank p h h1 np1 -> exists rank1, stage_ Dn rank1 h1.
Proof. intros (_ & (rank1 & S1 & _) & _). now exists rank1. Qed.

End Milestones.

Section MiddleSuccessor.

Variable np_exp : float -> float.
Variable py_pow : float -> Z -> option float.
Variable timedelta_days : float -> Z.
Variable tree : Tree.

Local Abbreviation step_ := (step timedelta_days tree).
Local Abbreviation stage_ := (stage timedelta_days tree).
Local Abbreviation restaged_ := (restaged timedelta_days tree).
Local Abbreviation node_wf_ := (node_wf timedelta_days tree).
Local Abbreviation milestone_ := (milestone timedelta_days tree).

Hypothesis step_pos : (0 < step_)%Z.

Lemma next_date_step d : next_date timedelta_days tree d = (d + step_)%Z.
Proof. reflexivity. Qed.

(** Creating a node of the column being built, without neighbours. *)
Lemma create_spec Dn rank h new :
  stage_ Dn rank h -> date new = Dn ->
  (pricing_date (pricer_parameters tree) <= Dn)%Z ->
  next_up new = None -> next_mid new = None -> next_down new = None ->
  opt_price new = None -> up_node new = None -> down_node new = None ->
  extends Dn h (h ++ [new]) /\ restaged_ Dn rank h (h ++ [new]).
Proof.
  intros [W R] Hd Hpd Hu Hm Hdn Ho Hup Hdown.
  assert (Look : forall q m, (h ++ [new]) !! q = Some m ->
                   h !! q = Some m \/ (q = length h /\ m = new)).
  { intros q m Hm'. destruct (decide (q < length h)%nat).
    - left. now rewrite lookup_app_l in Hm'.
    - right. rewrite lookup_app_r in Hm' by lia.
      destruct (q - length h)%nat as [|k] eqn:Hk; cbn in Hm';
        [|discriminate].
      injection Hm' as <-. split; [lia|reflexivity]. }
  split; [split|].
  - intros q m Hm'. exists m.
    rewrite lookup_app_l by (eapply lookup_lt_Some, Hm').
    repeat split; trivial.
  - intros q m Hm' Hnone. destruct (Look q m Hm') as [?|[_ ->]];
      [congruence|exact Hd].
  - exists rank. split; [split|reflexivity].
    + apply lattice_wf_app; [exact W|].
      apply node_wf_fresh; try assumption; try lia.
      * rewrite Hup. apply linked_None.
      * rewrite Hdown. apply linked_None.
    + intros q m Hm'. destruct (Look q m Hm') as [Hq|[_ ->]].
      * exact (R q m Hq).
      * rewrite Hup, Hdown. split; discriminate.
Qed.

Lemma set_next_mid_twice x y n :
  set_next_mid x (set_next_mid y n) = set_next_mid x n.
Proof. reflexivity. Qed.

Lemma set_next_mid_same n : set_next_mid (next_mid n) n = n.
Proof. now destruct n. Qed.

(** [Node.find_next_mid]. *)
Lemma find_next_mid_spec Dn rank fuel p c h0 h np nc c' h' :
  milestone_ Dn rank p h0 h np -> (date np + step_)%Z = Dn ->
  h !! c = Some nc -> date nc = Dn ->
  find_next_mid np_exp py_pow timedelta_days tree fuel p c h = Ok (c', h') ->
  milestone_ Dn rank p h0 h' (set_next_mid (Some c') np)
  /\ exists nc', h' !! c' = Some nc' /\ date nc' = Dn.
Proof.
  intros M Hd Hc Hdc H. unfold find_next_mid in H.
  assert (Hne : date np <> Dn) by lia.
  pose proof M as (_ & _ & Hp).
  apply bind_Ok in H. destruct H as (n & ? & Hn & H).
  apply get_Ok in Hn. destruct Hn as [Hn ->]. same_node Hp.
  apply bind_Ok in H. destruct H as (fv & ? & Hfv & H).
  apply lift_Ok in Hfv. destruct Hfv as [Hfv ->].
  apply bind_Ok in H. destruct H as (c1 & h1 & H1 & H).
  apply bind_Ok in H. destruct H as (c2 & h2 & H2 & H).
  apply bind_Ok in H. destruct H as ([] & h3 & H3 & H).
  apply ret_Ok in H. destruct H as [-> ->].
  (* the walk up *)
  assert (M1 : milestone_ Dn rank p h0 h1 np).
  { eapply milestone_call; [exact M|exact Hne|]. intros rank1 S1.
    destruct (walk_up_spec timedelta_days tree Dn fuel _ rank1 h c nc c1 h1
                S1 Hc Hdc H1) as (E & R & _). now split. }
  destruct (milestone_stage _ _ _ _ _ _ _ _ M) as (rk & Sk).
  destruct (walk_up_spec timedelta_days tree Dn fuel _ rk h c nc c1 h1
              Sk Hc Hdc H1) as (_ & _ & n1 & Hn1 & Hd1).
  (* the walk down *)
  assert (M2 : milestone_ Dn rank p h0 h2 np).
  { eapply milestone_call; [exact M1|exact Hne|]. intros rank1 S1.
    destruct (walk_down_spec timedelta_days tree Dn fuel _ rank1 h1 c1 n1
                c2 h2 S1 Hn1 Hd1 H2) as (E & R & _). now split. }
  destruct (milestone_stage _ _ _ _ _ _ _ _ M1) as (rk1 & Sk1).
  destruct (walk_down_spec timedelta_days tree Dn fuel _ rk1 h1 c1 n1 c2 h2
              Sk1 Hn1 Hd1 H2) as (_ & _ & n2 & Hn2 & Hd2).
  (* the assignment *)
  pose proof M2 as (_ & _ & Hp2).
  apply modify_Ok in H3. destruct H3 as (n3 & Hn3 & ->). same_node Hp2.
  split.
  - eapply milestone_update; [exact M2|exact Hne|reflexivity|].
    intros rank2 [W2 _]. apply node_wf_set_next_mid; [exact (W2 p np Hp2)|].
    rewrite Hd. eapply linked_Some; eauto.
  - destruct (decide (p = c2)) as [<-|Hpc].
    + same_node Hp2. lia.
    + exists n2. now rewrite list_lookup_insert_ne.
Qed.

Lemma milestone_floor Dn rank p h0 h np :
  milestone_ Dn rank p h0 h np ->
  (pricing_date (pricer_parameters tree) <= date np <= Dn)%Z.
Proof.
  intros (_ & (rk & [W _] & _) & Hp).
  exact (layered_date _ _ _ _ _ (wf_layered _ _ _ _ _ (W p np Hp))).
Qed.

(** [Node.calc_next_mid]. *)
Lemma calc_next_mid_spec Dn rank fuel p cand h0 h np o h' :
  milestone_ Dn rank p h0 h np -> (date np + step_)%Z = Dn ->
  linked h cand Dn ->
  calc_next_mid np_exp py_pow timedelta_days tree fuel p cand h
    = Ok (o, h') ->
  exists m nm,
    o = Some m
    /\ milestone_ Dn rank p h0 h' (set_next_mid (Some m) np)
    /\ h' !! m = Some nm /\ date nm = Dn.
Proof.
  intros M Hd Hcand H. unfold calc_next_mid in H.
  assert (Hne : date np <> Dn) by lia.
  pose proof (milestone_floor _ _ _ _ _ _ M) as Hpd.
  pose proof M as (_ & _ & Hp).
  apply bind_Ok in H. destruct H as (n & ? & Hn & H).
  apply get_Ok in Hn. destruct Hn as [Hn ->]. same_node Hp.
  apply bind_Ok in H. destruct H as ([] & h1 & H1 & H).
  apply bind_Ok in H. destruct H as (n' & ? & Hn' & H).
  apply get_Ok in Hn'. destruct Hn' as [Hn' ->].
  apply ret_Ok in H. destruct H as [-> ->].
  destruct (is_none (next_mid np) || dividend_period timedelta_days tree np)
    eqn:Hfresh.
  - apply bind_Ok in H1. destruct H1 as (fv & ? & Hfv & H1).
    apply lift_Ok in Hfv. destruct Hfv as [Hfv ->].
    cbv zeta in H1.
    apply bind_Ok in H1. destruct H1 as (m & h2 & Hm & H1).
    apply alloc_Ok in Hm. destruct Hm as [-> ->].
    apply bind_Ok in H1. destruct H1 as ([] & h3 & H3 & H1).
    apply modify_Ok in H3. destruct H3 as (n3 & Hn3 & ->).
    set (new := if is_TruncNode np
                then TruncNode_init (fst fv)
                       (next_date timedelta_days tree (date np)) (Some p)
                else Node_init (fst fv)
                       (next_date timedelta_days tree (date np))) in *.
    assert (Hnew : date new = Dn /\ next_up new = None
                   /\ next_mid new = None /\ next_down new = None
                   /\ opt_price new = None /\ up_node new = None
                   /\ down_node new = None).
    { unfold new. destruct (is_TruncNode np); cbn;
        rewrite next_date_step; repeat split; exact Hd. }
    destruct Hnew as (N1 & N2 & N3 & N4 & N5 & N6 & N7).
    assert (M1 : milestone_ Dn rank p h0 (h ++ [new]) np).
    { eapply milestone_call; [exact M|exact Hne|]. intros rank1 S1.
      apply create_spec; try assumption. lia. }
    pose proof M1 as (_ & _ & Hp1). same_node Hp1.
    assert (Hlen : (p < length h)%nat) by (eapply lookup_lt_Some, Hp).
    assert (Hm0 : (h ++ [new]) !! length h = Some new)
      by apply list_lookup_middle, eq_refl.
    assert (M2 : milestone_ Dn rank p h0
                   (<[p := set_next_mid (Some (length h)) np]> (h ++ [new]))
                   (set_next_mid (Some (length h)) np)).
    { eapply milestone_update; [exact M1|exact Hne|reflexivity|].
      intros rank2 [W2 _].
      apply node_wf_set_next_mid; [exact (W2 p np Hp1)|].
      rewrite Hd. eapply linked_Some; eauto. }
    assert (Hm2 : <[p := set_next_mid (Some (length h)) np]> (h ++ [new])
                    !! length h = Some new).
    { rewrite list_lookup_insert_ne by lia. exact Hm0. }
    destruct (dividend_period timedelta_days tree np) eqn:Hdiv.
    + apply bind_Ok in H1. destruct H1 as (c' & h4 & H4 & H1).
      apply ret_Ok in H1. destruct H1 as [_ ->].
      assert (Hc : exists nc,
                 <[p := set_next_mid (Some (length h)) np]> (h ++ [new])
                   !! match cand with Some c => c | None => length h end
                 = Some nc /\ date nc = Dn).
      { destruct cand as [c|]; [|now exists new].
        destruct (Hcand c eq_refl) as (nc & Hc & Hdc). exists nc.
        split; [|exact Hdc].
        rewrite list_lookup_insert_ne
          by (intros <-; rewrite Hp in Hc; congruence).
        rewrite lookup_app_l by (eapply lookup_lt_Some, Hc). exact Hc. }
      destruct Hc as (nc & Hc & Hdc).
      destruct (find_next_mid_spec _ _ _ _ _ _ _ _ _ _ _ M2 Hd Hc Hdc H4)
        as (M4 & nc' & Hc' & Hdc').
      pose proof M4 as (_ & _ & Hp4). same_node Hp4.
      exists c', nc'. repeat split; try assumption; apply M4.
    + apply ret_Ok in H1. destruct H1 as [_ ->].
      pose proof M2 as (_ & _ & Hp2). same_node Hp2.
      exists (length h), new. repeat split; try assumption; apply M2.
  - apply ret_Ok in H1. destruct H1 as [_ ->]. same_node Hp.
    apply orb_false_iff in Hfresh. destruct Hfresh as [Hsome _].
    destruct (next_mid np) as [m|] eqn:Hmid; [|discriminate].
    pose proof M as (_ & (rk & [W _] & _) & _).
    destruct (layered_mid _ _ _ _ _ (wf_layered _ _ _ _ _ (W p np Hp))
                m Hmid) as (nm & Hm & Hdm).
    exists m, nm. rewrite <- Hmid, set_next_mid_same.
    repeat split; try assumption; try apply M. lia.
Qed.

End MiddleSuccessor.

Section Triplet.

Variable np_exp : float -> float.
Variable py_pow : float -> Z -> option float.
Variable timedelta_days : float -> Z.
Variable tree : Tree.

Local Abbreviation step_ := (step timedelta_days tree).
Local Abbreviation stage_ := (stage timedelta_days tree).
Local Abbreviation restaged_ := (restaged timedelta_days tree).
Local Abbreviation node_wf_ := (node_wf timedelta_days tree).
Local Abbreviation milestone_ := (milestone timedelta_days tree).

Hypothesis step_pos : (0 < step_)%Z.

(** A node of the new column is still there, on its date, at the next
    milestone. *)
Lemma milestone_keeps Dn rank p h0 h np m nm :
  milestone_ Dn rank p h0 h np -> date np <> Dn ->
  h !! m = Some nm -> date nm = Dn ->
  m <> p /\ forall np', exists nm',
    <[p := np']> h !! m = Some nm' /\ date nm' = Dn.
Proof.
  intros (_ & _ & Hp) Hne Hm Hdm.
  assert (m <> p) by (intros ->; rewrite Hp in Hm; congruence).
  split; [assumption|]. intros np'. exists nm.
  now rewrite list_lookup_insert_ne.
Qed.

(** Replacing a node by one with the same neighbours. *)
Lemma insert_links_kept (h : heap) i n n' :
  h !! i = Some n ->
  up_node n' = up_node n -> down_node n' = down_node n ->
  (forall L, region L h -> region L (<[i := n']> h))
  /\ (forall L, old_links L h (<[i := n']> h)).
Proof.
  intros Hn Hu Hdn. pose proof (lookup_lt_Some _ _ _ Hn) as Hlt. split.
  - intros L Rg q m Hm Hq. destruct (decide (i = q)) as [<-|Hne].
    + rewrite list_lookup_insert_eq in Hm by exact Hlt. injection Hm as <-.
      rewrite Hu, Hdn. exact (Rg i n Hn Hq).
    + rewrite list_lookup_insert_ne in Hm by exact Hne. exact (Rg q m Hm Hq).
  - intros L q m Hm Hq. destruct (decide (i = q)) as [<-|Hne].
    + same_node Hn. exists n'.
      rewrite list_lookup_insert_eq by exact Hlt. now split.
    + exists m. rewrite list_lookup_insert_ne by exact Hne. now split.
Qed.

(** What [Tree.build_triplet] does once the middle successor is known. *)
Local Open Scope M_scope.

#[warnings="-inconsistent-scopes"]
Local Abbreviation triplet_tail fuel p nm :=
  (modify p (set_next_mid nm);;
   let* n := get p in
   let* grow := lift (above_floor tree n) in
   (if grow then
      let* mid := deref (next_mid n) in
      let* u := calc_up_node tree mid in
      modify p (set_next_up (Some u));;
      let* n := get p in
      let* mid := deref (next_mid n) in
      let* d := calc_down_node tree mid in
      modify p (set_next_down (Some d))
    else ret tt);;
   probas np_exp py_pow timedelta_days tree fuel p;;
   next_nodes_probas p;;
   ret p).

Lemma triplet_tail_spec Dn rank fuel p h0 h1 np m nm1 r h' :
  milestone_ Dn rank p h0 h1 (set_next_mid (Some m) np) ->
  (date np + step_)%Z = Dn ->
  h1 !! m = Some nm1 -> date nm1 = Dn ->
  triplet_tail fuel p (Some m) h1 = Ok (r, h') ->
  r = p
  /\ (exists np',
        milestone_ Dn rank p h0 h' np' /\ next_mid np' = Some m
        /\ p_node np' = p_node np)
  /\ (forall L, (L <= m)%nat -> region L h1 ->
                region L h' /\ old_links L h1 h').
Proof.
  intros M1 Hd Hm1 Hdm1 H.
  assert (Hne : date np <> Dn) by lia.
  pose proof M1 as (_ & _ & Hp1).
  apply bind_Ok in H. destruct H as ([] & h2 & H2 & H).
  apply modify_Ok in H2. destruct H2 as (n2 & Hn2 & ->). same_node Hp1.
  change (set_next_mid (Some m) (set_next_mid (Some m) np))
    with (set_next_mid (Some m) np) in H.
  rewrite (list_insert_id _ _ _ Hp1) in H.
  apply bind_Ok in H. destruct H as (n & ? & Hn & H).
  apply get_Ok in Hn. destruct Hn as [Hn ->]. same_node Hp1.
  apply bind_Ok in H. destruct H as (grow & ? & Hg & H).
  apply lift_Ok in Hg. destruct Hg as [Hg ->].
  apply bind_Ok in H. destruct H as ([] & h3 & H3 & H).
  apply bind_Ok in H. destruct H as ([] & h4 & H4 & H).
  apply bind_Ok in H. destruct H as ([] & h5 & H5 & H).
  apply ret_Ok in H. destruct H as [-> ->].
  split; [reflexivity|].
  assert (G : exists np3,
             milestone_ Dn rank p h0 h3 np3 /\ next_mid np3 = Some m
             /\ p_node np3 = p_node np /\ date np3 = date np
             /\ (forall L, (L <= m)%nat -> region L h1 ->
                           region L h3 /\ old_links L h1 h3)).
  { destruct grow.
    - apply bind_Ok in H3. destruct H3 as (mid & ? & Hmid & H3).
      apply deref_Ok in Hmid. destruct Hmid as [Hmid ->].
      cbn in Hmid. injection Hmid as <-.
      apply bind_Ok in H3. destruct H3 as (u & h6 & H6 & H3).
      assert (M6 : milestone_ Dn rank p h0 h6 (set_next_mid (Some m) np)).
      { eapply milestone_call; [exact M1|exact Hne|]. intros rank1 S1.
        destruct (calc_up_node_spec timedelta_days tree Dn rank1 h1 m nm1
                    u h6 S1 Hm1 Hdm1 H6) as (E & R & _). now split. }
      destruct (milestone_stage _ _ _ _ _ _ _ _ M1) as (rk1 & Sk1).
      destruct (calc_up_node_spec timedelta_days tree Dn rk1 h1 m nm1
                  u h6 Sk1 Hm1 Hdm1 H6) as (E6 & _ & nu & Hu & Hdu).
      destruct (extends_date _ _ _ _ _ E6 Hm1) as (nm6 & Hm6 & Hdm6).
      pose proof M6 as (_ & _ & Hp6).
      apply bind_Ok in H3. destruct H3 as ([] & h7 & H7 & H3).
      apply modify_Ok in H7. destruct H7 as (n7 & Hn7 & ->).
      same_node Hp6.
      set (np7 := set_next_up (Some u) (set_next_mid (Some m) np)) in *.
      assert (M7 : milestone_ Dn rank p h0 (<[p := np7]> h6) np7).
      { eapply milestone_update; [exact M6|exact Hne|reflexivity|].
        intros rank2 [W2 _].
        apply node_wf_set_next_up;
          [exact (W2 p _ Hp6)| |exact Hg].
        cbn. rewrite Hd. eapply linked_Some; eauto. }
      destruct (milestone_keeps _ _ _ _ _ _ _ _ M6 Hne Hm6
                  (eq_trans Hdm6 Hdm1)) as (Hmp & K).
      destruct (K np7) as (nm7 & Hm7 & Hdm7).
      pose proof M7 as (_ & _ & Hp7).
      apply bind_Ok in H3. destruct H3 as (n8 & ? & Hn8 & H3).
      apply get_Ok in Hn8. destruct Hn8 as [Hn8 ->]. same_node Hp7.
      apply bind_Ok in H3. destruct H3 as (mid & ? & Hmid & H3).
      apply deref_Ok in Hmid. destruct Hmid as [Hmid ->].
      cbn in Hmid. injection Hmid as <-.
      apply bind_Ok in H3. destruct H3 as (d & h9 & H9 & H3).
      assert (M9 : milestone_ Dn rank p h0 h9 np7).
      { eapply milestone_call; [exact M7|exact Hne|]. intros rank1 S1.
        destruct (calc_down_node_spec timedelta_days tree Dn rank1 _ m nm7
                    d h9 S1 Hm7 Hdm7 H9) as (E & R & _). now split. }
      destruct (milestone_stage _ _ _ _ _ _ _ _ M7) as (rk7 & Sk7).
      destruct (calc_down_node_spec timedelta_days tree Dn rk7 _ m nm7
                  d h9 Sk7 Hm7 Hdm7 H9) as (E9 & _ & nd & Hnd & Hdd).
      pose proof M9 as (_ & _ & Hp9).
      apply modify_Ok in H3. destruct H3 as (n10 & Hn10 & ->).
      same_node Hp9.
      exists (set_next_down (Some d) np7).
      split; [|split; [reflexivity|split; [reflexivity|
               split; [reflexivity|]]]].
      + eapply milestone_update; [exact M9|exact Hne|reflexivity|].
        intros rank2 [W2 _].
        apply node_wf_set_next_down; [exact (W2 p _ Hp9)| |exact Hg].
        cbn. rewrite Hd. eapply linked_Some; eauto.
      + intros L HL Rg1.
        destruct (calc_up_node_region tree L h1 m u h6 HL Rg1 H6)
          as (_ & Rg6 & O6).
        destruct (insert_links_kept h6 p _ np7 Hp6 eq_refl eq_refl)
          as (Rg7 & O7).
        destruct (calc_down_node_region tree L _ m d h9 HL
                    (Rg7 L Rg6) H9) as (_ & Rg9 & O9).
        destruct (insert_links_kept h9 p _ (set_next_down (Some d) np7)
                    Hp9 eq_refl eq_refl) as (Rg10 & O10).
        split; [exact (Rg10 L Rg9)|].
        eapply old_links_trans; [|apply O10].
        eapply old_links_trans; [|exact O9].
        eapply old_links_trans; [exact O6|apply O7].
    - apply ret_Ok in H3. destruct H3 as [_ ->].
      exists (set_next_mid (Some m) np).
      split; [exact M1|]. split; [reflexivity|]. split; [reflexivity|].
      split; [reflexivity|]. intros L _ Rg. split; [exact Rg|].
      apply old_links_refl. }
  destruct G as (np3 & M3 & Hmid3 & Hpn3 & Hd3 & Rg3).
  pose proof M3 as (_ & _ & Hp3).
  destruct (probas_stores _ _ _ _ _ _ _ _ _ _ Hp3 Hmid3 H4)
    as (a & b & c & ->).
  assert (Hne3 : date np3 <> Dn) by congruence.
  assert (M4 : milestone_ Dn rank p h0 (<[p := set_probas a b c np3]> h3)
                 (set_probas a b c np3)).
  { eapply milestone_update; [exact M3|exact Hne3|reflexivity|].
    intros rank2 [W2 _]. apply node_wf_set_probas. exact (W2 p _ Hp3). }
  pose proof M4 as (_ & _ & Hp4).
  destruct (insert_links_kept h3 p _ (set_probas a b c np3) Hp3
              eq_refl eq_refl) as (RgP & OP).
  split.
  2:{ intros L HL Rg1. destruct (Rg3 L HL Rg1) as (Rg & O).
      destruct (milestone_stage _ _ _ _ _ _ _ _ M4) as (rk4 & Sk4).
      assert (Hd4 : (date (set_probas a b c np3) + step_)%Z = Dn)
        by (cbn; rewrite Hd3; exact Hd).
      destruct (next_nodes_probas_spec timedelta_days tree step_pos Dn rk4
                  _ p _ h5 Sk4 Hp4 Hd4 H5) as (_ & _ & Rg5 & O5).
      split; [exact (Rg5 L (RgP L Rg))|].
      eapply old_links_trans; [exact O|].
      eapply old_links_trans; [apply OP|apply O5]. }
  exists (set_probas a b c np3). split; [|now split].
  eapply milestone_call; [exact M4|exact Hne3|]. intros rank1 S1.
  assert (Hd4 : (date (set_probas a b c np3) + step_)%Z = Dn)
    by (cbn; rewrite Hd3; exact Hd).
  destruct (next_nodes_probas_spec timedelta_days tree step_pos Dn rank1 _ p _ h5
              S1 Hp4 Hd4 H5) as (E & S5 & _).
  split; [exact E|]. exists rank1. now split.
Qed.

(** [Tree.build_triplet]. *)
Lemma build_triplet_spec Dn rank fuel p cand h0 h np r h' :
  milestone_ Dn rank p h0 h np -> (date np + step_)%Z = Dn ->
  linked h cand Dn ->
  build_triplet np_exp py_pow timedelta_days tree fuel p cand h
    = Ok (r, h') ->
  r = p
  /\ exists np' m,
       milestone_ Dn rank p h0 h' np' /\ next_mid np' = Some m
       /\ p_node np' = p_node np.
Proof.
  intros M Hd Hcand H. unfold build_triplet in H.
  apply bind_Ok in H. destruct H as (nm & h1 & H1 & H).
  destruct (calc_next_mid_spec np_exp py_pow timedelta_days tree step_pos
              _ _ _ _ _ _ _ _ _ _ M Hd Hcand H1)
    as (m & nm1 & -> & M1 & Hm1 & Hdm1).
  destruct (triplet_tail_spec _ _ _ _ _ _ _ _ _ _ _ M1 Hd Hm1 Hdm1 H)
    as (-> & (np' & M' & Hmid & Hpn) & _).
  split; [reflexivity|]. now exists np', m.
Qed.

End Triplet.

Section FreshSuccessor.

Variable np_exp : float -> float.
Variable py_pow : float -> Z -> option float.
Variable timedelta_days : float -> Z.
Variable tree : Tree.

Local Abbreviation expected_value_ := (expected_value np_exp timedelta_days tree).
Local Abbreviation dividend_period_ := (dividend_period timedelta_days tree).

Lemma forward_variance_fst n fv :
  forward_variance np_exp py_pow timedelta_days tree n = Ok fv ->
  fst fv = expected_value_ n.
Proof.
  unfold forward_variance. intros H.
  destruct (arith (py_pow (und_price n) 2)); cbn in H; try discriminate.
  destruct (arith (py_pow (vol (market_data tree)) 2)); cbn in H;
    try discriminate.
  now injection H as <-.
Qed.

Lemma region_start (h : heap) : region (length h) h.
Proof.
  intros q n Hn Hq. apply lookup_lt_Some in Hn. lia.
Qed.

(** [Node.find_next_mid] from a candidate of the fresh region. *)
Lemma find_next_mid_region L fuel p c h c' h' :
  (L <= c)%nat -> region L h ->
  find_next_mid np_exp py_pow timedelta_days tree fuel p c h = Ok (c', h') ->
  (L <= c')%nat /\ region L h' /\ old_links L h h'.
Proof.
  intros HL Rg H. unfold find_next_mid in H.
  apply bind_Ok in H. destruct H as (n & ? & Hn & H).
  apply get_Ok in Hn. destruct Hn as [Hn ->].
  apply bind_Ok in H. destruct H as (fv & ? & Hfv & H).
  apply lift_Ok in Hfv. destruct Hfv as [Hfv ->].
  apply bind_Ok in H. destruct H as (c1 & h1 & H1 & H).
  apply bind_Ok in H. destruct H as (c2 & h2 & H2 & H).
  apply bind_Ok in H. destruct H as ([] & h3 & H3 & H).
  apply ret_Ok in H. destruct H as [-> ->].
  apply modify_Ok in H3. destruct H3 as (n3 & Hn3 & ->).
  destruct (walk_up_region tree L fuel _ h c c1 h1 HL Rg H1)
    as (HL1 & Rg1 & O1).
  destruct (walk_down_region tree L fuel _ h1 c1 c2 h2 HL1 Rg1 H2)
    as (HL2 & Rg2 & O2).
  destruct (insert_links_kept h2 p n3 (set_next_mid (Some c2) n3) Hn3
              eq_refl eq_refl) as (Rg3 & O3).
  split; [exact HL2|]. split; [exact (Rg3 L Rg2)|].
  eapply old_links_trans; [|apply O3]. eapply old_links_trans; eauto.
Qed.

(** [Node.find_next_mid] from a candidate that holds the forward price
    itself, when neither loop moves away from it. *)
Lemma find_next_mid_stays fuel p c h np nc c' h' :
  h !! p = Some np -> h !! c = Some nc ->
  und_price nc = expected_value_ np ->
  stays_put tree (expected_value_ np) = true ->
  find_next_mid np_exp py_pow timedelta_days tree fuel p c h = Ok (c', h') ->
  c' = c /\ h' = <[p := set_next_mid (Some c) np]> h.
Proof.
  intros Hp Hc Hu Hs H. unfold find_next_mid in H.
  apply andb_true_iff in Hs. destruct Hs as [Hs1 Hs2].
  apply negb_true_iff in Hs1, Hs2.
  apply bind_Ok in H. destruct H as (n & ? & Hn & H).
  apply get_Ok in Hn. destruct Hn as [Hn ->]. same_node Hp.
  apply bind_Ok in H. destruct H as (fv & ? & Hfv & H).
  apply lift_Ok in Hfv. destruct Hfv as [Hfv ->].
  apply forward_variance_fst in Hfv. cbv zeta in H. rewrite Hfv in H.
  apply bind_Ok in H. destruct H as (c1 & h1 & H1 & H).
  assert (E1 : c1 = c /\ h1 = h).
  { destruct fuel as [|fuel']; [discriminate|]. cbn [walk_up] in H1.
    apply bind_Ok in H1. destruct H1 as (n1 & ? & Hn1 & H1).
    apply get_Ok in Hn1. destruct Hn1 as [Hn1 ->]. same_node Hc.
    rewrite Hu, Hs1 in H1. apply ret_Ok in H1. now destruct H1. }
  destruct E1 as [-> ->].
  apply bind_Ok in H. destruct H as (c2 & h2 & H2 & H).
  assert (E2 : c2 = c /\ h2 = h).
  { destruct fuel as [|fuel']; [discriminate|]. cbn [walk_down] in H2.
    apply bind_Ok in H2. destruct H2 as (n2 & ? & Hn2 & H2).
    apply get_Ok in Hn2. destruct Hn2 as [Hn2 ->]. same_node Hc.
    rewrite Hu, Hs2 in H2. apply ret_Ok in H2. now destruct H2. }
  destruct E2 as [-> ->].
  apply bind_Ok in H. destruct H as ([] & h3 & H3 & H).
  apply ret_Ok in H. destruct H as [-> ->].
  apply modify_Ok in H3. destruct H3 as (n3 & Hn3 & ->). same_node Hp.
  now split.
Qed.

(** [Node.calc_next_mid] without a candidate, on a node that has no middle
    successor yet: the successor is a node just created. *)
Lemma calc_next_mid_fresh fuel p h np o h' :
  h !! p = Some np -> next_mid np = None ->
  calc_next_mid np_exp py_pow timedelta_days tree fuel p None h
    = Ok (o, h') ->
  exists m,
    o = Some m /\ (length h <= m)%nat
    /\ region (length h) h' /\ old_links (length h) h h'.
Proof.
  intros Hp Hmid H. unfold calc_next_mid in H.
  assert (Hlen : (p < length h)%nat) by (eapply lookup_lt_Some, Hp).
  apply bind_Ok in H. destruct H as (n & ? & Hn & H).
  apply get_Ok in Hn. destruct Hn as [Hn ->]. same_node Hp.
  rewrite Hmid in H. cbn [is_none orb] in H.
  apply bind_Ok in H. destruct H as ([] & h1 & H1 & H).
  apply bind_Ok in H. destruct H as (n' & ? & Hn' & H).
  apply get_Ok in Hn'. destruct Hn' as [Hn' ->].
  apply ret_Ok in H. destruct H as [-> ->].
  apply bind_Ok in H1. destruct H1 as (fv & ? & Hfv & H1).
  apply lift_Ok in Hfv. destruct Hfv as [Hfv ->]. cbv zeta in H1.
  apply bind_Ok in H1. destruct H1 as (m & h2 & Hm & H1).
  apply alloc_Ok in Hm. destruct Hm as [-> ->].
  apply bind_Ok in H1. destruct H1 as ([] & h3 & H3 & H1).
  apply modify_Ok in H3. destruct H3 as (n3 & Hn3 & ->).
  rewrite lookup_app_l in Hn3 by exact Hlen. same_node Hp.
  set (new := if is_TruncNode np then _ else _) in *.
  assert (Hnew : up_node new = None /\ down_node new = None)
    by (unfold new; destruct (is_TruncNode np); now split).
  destruct Hnew as [Nu Nd].
  set (h2 := <[p := set_next_mid (Some (length h)) np]> (h ++ [new])) in *.
  assert (Rg2 : region (length h) h2).
  { intros q m Hm Hq. unfold h2 in Hm.
    rewrite lookup_created in Hm by exact Hlen.
    destruct (decide (q = p)); [lia|].
    destruct (decide (q = length h)).
    - injection Hm as <-. rewrite Nu, Nd. split; discriminate.
    - apply lookup_lt_Some in Hm. lia. }
  assert (O2 : old_links (length h) h h2).
  { intros q m Hm Hq. unfold h2. rewrite lookup_created by exact Hlen.
    destruct (decide (q = p)) as [->|].
    - same_node Hp. eexists. split; [reflexivity|now split].
    - destruct (decide (q = length h)); [lia|]. exists m. now split. }
  destruct (dividend_period_ np).
  - apply bind_Ok in H1. destruct H1 as (c' & h4 & H4 & H1).
    apply ret_Ok in H1. destruct H1 as [_ ->].
    destruct (find_next_mid_region (length h) fuel p _ h2 c' h4
                (le_n _) Rg2 H4) as (HL & Rg & O).
    unfold find_next_mid in H4.
    apply bind_Ok in H4. destruct H4 as (? & ? & _ & H4).
    apply bind_Ok in H4. destruct H4 as (? & ? & _ & H4).
    apply bind_Ok in H4. destruct H4 as (? & ? & _ & H4).
    apply bind_Ok in H4. destruct H4 as (c2 & h5 & _ & H4).
    apply bind_Ok in H4. destruct H4 as ([] & h6 & H6 & H4).
    apply ret_Ok in H4. destruct H4 as [-> ->].
    apply modify_Ok in H6. destruct H6 as (n6 & Hn6 & ->).
    rewrite list_lookup_insert_eq in Hn'
      by (eapply lookup_lt_Some, Hn6).
    injection Hn' as <-. exists c2.
    split; [reflexivity|]. split; [exact HL|]. split; [exact Rg|].
    eapply old_links_trans; eauto.
  - apply ret_Ok in H1. destruct H1 as [_ ->]. unfold h2 in Hn'.
    rewrite lookup_created in Hn' by exact Hlen.
    destruct (decide (p = p)); [|congruence]. injection Hn' as <-.
    exists (length h). split; [reflexivity|]. split; [lia|]. now split.
Qed.

(** The same on a trunk node of a regular column: the successor is the
    [TruncNode] created, which points back to the trunk node. *)
Lemma calc_next_mid_trunk fuel p h np o h' :
  h !! p = Some np -> is_TruncNode np = true -> next_mid np = None ->
  (dividend_period_ np = true ->
   stays_put tree (expected_value_ np) = true) ->
  calc_next_mid np_exp py_pow timedelta_days tree fuel p None h
    = Ok (o, h') ->
  o = Some (length h)
  /\ h' !! length h
     = Some (TruncNode_init (expected_value_ np)
               (next_date timedelta_days tree (date np)) (Some p)).
Proof.
  intros Hp Htr Hmid Hreg H. unfold calc_next_mid in H.
  assert (Hlen : (p < length h)%nat) by (eapply lookup_lt_Some, Hp).
  apply bind_Ok in H. destruct H as (n & ? & Hn & H).
  apply get_Ok in Hn. destruct Hn as [Hn ->]. same_node Hp.
  rewrite Hmid, Htr in H. cbn [is_none orb] in H.
  apply bind_Ok in H. destruct H as ([] & h1 & H1 & H).
  apply bind_Ok in H. destruct H as (n' & ? & Hn' & H).
  apply get_Ok in Hn'. destruct Hn' as [Hn' ->].
  apply ret_Ok in H. destruct H as [-> ->].
  apply bind_Ok in H1. destruct H1 as (fv & ? & Hfv & H1).
  apply lift_Ok in Hfv. destruct Hfv as [Hfv ->]. cbv zeta in H1.
  apply forward_variance_fst in Hfv. rewrite Hfv in H1.
  apply bind_Ok in H1. destruct H1 as (m & h2 & Hm & H1).
  apply alloc_Ok in Hm. destruct Hm as [-> ->].
  apply bind_Ok in H1. destruct H1 as ([] & h3 & H3 & H1).
  apply modify_Ok in H3. destruct H3 as (n3 & Hn3 & ->).
  rewrite lookup_app_l in Hn3 by exact Hlen. same_node Hp.
  set (new := TruncNode_init _ _ _) in *.
  set (h2 := <[p := set_next_mid (Some (length h)) np]> (h ++ [new])) in *.
  assert (Hp2 : h2 !! p = Some (set_next_mid (Some (length h)) np)).
  { unfold h2. rewrite lookup_created by exact Hlen.
    now destruct (decide (p = p)). }
  assert (Hm2 : h2 !! length h = Some new).
  { unfold h2. rewrite lookup_created by exact Hlen.
    destruct (decide (length h = p)); [lia|].
    now destruct (decide (length h = length h)). }
  destruct (dividend_period_ np) eqn:Hdiv.
  - apply bind_Ok in H1. destruct H1 as (c' & h4 & H4 & H1).
    apply ret_Ok in H1. destruct H1 as [_ ->].
    destruct (find_next_mid_stays fuel p (length h) h2 _ new c' h4
                Hp2 Hm2 eq_refl (Hreg eq_refl) H4) as [-> ->].
    rewrite list_lookup_insert_eq in Hn'
      by (eapply lookup_lt_Some, Hp2).
    injection Hn' as <-. split; [reflexivity|].
    rewrite list_lookup_insert_ne by lia. exact Hm2.
  - apply ret_Ok in H1. destruct H1 as [_ ->]. same_node Hp2.
    now split.
Qed.

End FreshSuccessor.

Section TripletCases.

Variable np_exp : float -> float.
Variable py_pow : float -> Z -> option float.
Variable timedelta_days : float -> Z.
Variable tree : Tree.

Local Abbreviation step_ := (step timedelta_days tree).
Local Abbreviation stage_ := (stage timedelta_days tree).
Local Abbreviation milestone_ := (milestone timedelta_days tree).
Local Abbreviation expected_value_ := (expected_value np_exp timedelta_days tree).
Local Abbreviation dividend_period_ := (dividend_period timedelta_days tree).

Hypothesis step_pos : (0 < step_)%Z.

(** [Tree.build_triplet] without a candidate, on a node that has no middle
    successor yet: what it creates is linked to nodes it creates only. *)
Lemma build_triplet_fresh Dn rank fuel p h0 h np r h' :
  milestone_ Dn rank p h0 h np -> (date np + step_)%Z = Dn ->
  next_mid np = None ->
  build_triplet np_exp py_pow timedelta_days tree fuel p None h
    = Ok (r, h') ->
  exists np' m,
    h' !! p = Some np' /\ next_mid np' = Some m /\ (length h <= m)%nat
    /\ region (length h) h' /\ old_links (length h) h h'.
Proof.
  intros M Hd Hmid H. unfold build_triplet in H.
  pose proof M as (_ & _ & Hp).
  apply bind_Ok in H. destruct H as (nm & h1 & H1 & H).
  destruct (calc_next_mid_spec np_exp py_pow timedelta_days tree step_pos
              _ _ _ _ _ _ _ _ _ _ M Hd (linked_None _ _) H1)
    as (m & nm1 & -> & M1 & Hm1 & Hdm1).
  destruct (calc_next_mid_fresh _ _ _ _ _ _ _ _ _ _ Hp Hmid H1)
    as (m' & [= <-] & HL & Rg1 & O1).
  destruct (triplet_tail_spec np_exp py_pow timedelta_days tree step_pos
              _ _ _ _ _ _ _ _ _ _ _ M1 Hd Hm1 Hdm1 H)
    as (-> & (np' & M' & Hmid' & _) & Rg).
  destruct (Rg _ HL Rg1) as (Rg' & O').
  exists np', m. split; [apply M'|]. split; [exact Hmid'|].
  split; [exact HL|]. split; [exact Rg'|].
  intros q n Hn Hq. destruct (O1 q n Hn Hq) as (n1 & Hn1 & Hu1 & Hdn1).
  destruct (O' q n1 Hn1 Hq) as (n2 & Hn2 & Hu2 & Hdn2).
  exists n2. split; [exact Hn2|]. split; congruence.
Qed.

(** [Tree.build_triplet] on the trunk node of a regular column. *)
Lemma build_triplet_trunk Dn rank fuel p h0 h np r h' :
  milestone_ Dn rank p h0 h np -> (date np + step_)%Z = Dn ->
  is_TruncNode np = true -> next_mid np = None ->
  (dividend_period_ np = true ->
   stays_put tree (expected_value_ np) = true) ->
  build_triplet np_exp py_pow timedelta_days tree fuel p None h
    = Ok (r, h') ->
  exists np' nm,
    h' !! p = Some np' /\ next_mid np' = Some (length h)
    /\ h' !! length h = Some nm /\ prec_node nm = Some (Some p)
    /\ und_price nm = expected_value_ np /\ date nm = Dn.
Proof.
  intros M Hd Htr Hmid Hreg H. unfold build_triplet in H.
  pose proof M as (_ & _ & Hp).
  apply bind_Ok in H. destruct H as (nm & h1 & H1 & H).
  destruct (calc_next_mid_spec np_exp py_pow timedelta_days tree step_pos
              _ _ _ _ _ _ _ _ _ _ M Hd (linked_None _ _) H1)
    as (m & nm1 & -> & M1 & Hm1 & Hdm1).
  destruct (calc_next_mid_trunk _ _ _ _ _ _ _ _ _ _ Hp Htr Hmid Hreg H1)
    as ([= ->] & Hnew).
  rewrite Hm1 in Hnew. injection Hnew as ->.
  destruct (milestone_stage _ _ _ _ _ _ _ _ M1) as (rk1 & Sk1).
  pose proof M1 as (_ & _ & Hp1).
  pose proof (milestone_start timedelta_days tree Dn rk1 p h1 _ Sk1 Hp1)
    as M1'.
  destruct (triplet_tail_spec np_exp py_pow timedelta_days tree step_pos
              _ _ _ _ _ _ _ _ _ _ _ M1' Hd Hm1 Hdm1 H)
    as (-> & (np' & M' & Hmid' & _) & _).
  destruct M' as ((Old & _) & _ & Hp').
  destruct (Old _ _ Hm1) as (nm' & Hm' & Hcore & _).
  apply core_fields in Hcore; [|exact Hdm1].
  destruct Hcore as (Eu & Ed & _ & _ & _ & _ & _ & _ & _ & _ & Eprec).
  exists np', nm'. split; [exact Hp'|]. split; [exact Hmid'|].
  split; [exact Hm'|]. split; [now rewrite Eprec|].
  split; [now rewrite Eu|]. now rewrite Ed.
Qed.

End TripletCases.

Section Relink.

Variable timedelta_days : float -> Z.
Variable tree : Tree.

Local Abbreviation lattice_wf_ := (lattice_wf timedelta_days tree).
Local Abbreviation node_wf_ := (node_wf timedelta_days tree).

(** Moving the ranks of the nodes from [L] on, all by the same amount, when
    no neighbour link crosses [L]. *)
Lemma ranked_shift L (s : Z) rank (h : heap) :
  ranked rank h -> region L h ->
  (forall q n, h !! q = Some n -> (q < L)%nat ->
     (forall r, up_node n = Some r -> (r < L)%nat)
     /\ (forall r, down_node n = Some r -> (r < L)%nat)) ->
  ranked (fun q => if decide (L <= q)%nat then (rank q + s)%Z else rank q) h.
Proof.
  intros R Rg Cl q n Hn. destruct (R q n Hn) as [Ru Rd].
  destruct (decide (L <= q)%nat) as [Hq|Hq].
  - destruct (Rg q n Hn Hq) as [Gu Gd]. split; intros r Hr.
    + specialize (Gu r Hr). specialize (Ru r Hr).
      destruct (decide (L <= r)%nat); lia.
    + specialize (Gd r Hr). specialize (Rd r Hr).
      destruct (decide (L <= r)%nat); lia.
  - destruct (Cl q n Hn ltac:(lia)) as [Cu Cd]. split; intros r Hr.
    + specialize (Cu r Hr). specialize (Ru r Hr).
      destruct (decide (L <= r)%nat); lia.
    + specialize (Cd r Hr). specialize (Rd r Hr).
      destruct (decide (L <= r)%nat); lia.
Qed.

(** Replacing a node by one whose neighbours respect the ranking. *)
Lemma ranked_insert rank (h : heap) i n' :
  ranked rank h ->
  (forall r, up_node n' = Some r -> (rank i < rank r)%Z) ->
  (forall r, down_node n' = Some r -> (rank r < rank i)%Z) ->
  ranked rank (<[i := n']> h).
Proof.
  intros R Hu Hd q m Hm. destruct (decide (i = q)) as [<-|Hne].
  - apply list_lookup_insert_Some in Hm.
    destruct Hm as [(_ & <- & _)|(Hne & _)]; [now split|congruence].
  - rewrite list_lookup_insert_ne in Hm by exact Hne. exact (R q m Hm).
Qed.

(** Making a node of the column under construction the neighbour of another
    one. *)
Lemma set_neighbour_spec Dn (h : heap) i n n' o :
  lattice_wf_ Dn h -> h !! i = Some n -> date n = Dn ->
  linked h o Dn ->
  n' = set_up_node o n \/ n' = set_down_node o n ->
  lattice_wf_ Dn (<[i := n']> h) /\ extends Dn h (<[i := n']> h).
Proof.
  intros W Hn Hd Lo Hn'.
  assert (Hd' : date n' = date n) by (destruct Hn' as [-> | ->]; reflexivity).
  assert (Hc : core n' = core n) by (destruct Hn' as [-> | ->]; reflexivity).
  split; [|eapply update_core; eauto].
  apply lattice_wf_insert with (n := n); try assumption.
  eapply node_wf_kept; [now apply insert_keeps_dates with (n := n)|].
  rewrite <- Hd in Lo.
  destruct Hn' as [-> | ->];
    [apply node_wf_set_up_node|apply node_wf_set_down_node];
    try assumption; exact (W i n Hn).
Qed.

End Relink.

Section RelinkStep.

Variable timedelta_days : float -> Z.
Variable tree : Tree.

Local Abbreviation step_ := (step timedelta_days tree).
Local Abbreviation stage_ := (stage timedelta_days tree).
Local Abbreviation restaged_ := (restaged timedelta_days tree).
Local Abbreviation lattice_wf_ := (lattice_wf timedelta_days tree).

(** The two assignments that end the pruned branch of a loop of
    [build_column]: the middle successor [m], which [build_triplet] has just
    created, and the middle successor [x] of the node visited before become
    neighbours.  The nodes created since [h] are linked among themselves
    only, so their ranks can be moved beyond those of the others. *)
Lemma relink_spec Dn rank (h h1 : heap) m nm1 nm' x nx1 nx' :
  stage_ Dn rank h -> restaged_ Dn rank h h1 ->
  region (length h) h1 -> old_links (length h) h h1 ->
  h1 !! m = Some nm1 -> date nm1 = Dn -> (length h <= m)%nat ->
  h1 !! x = Some nx1 -> date nx1 = Dn -> (x < length h)%nat ->
  (nm' = set_down_node (Some x) nm1 /\ nx' = set_up_node (Some m) nx1)
  \/ (nm' = set_up_node (Some x) nm1 /\ nx' = set_down_node (Some m) nx1) ->
  let h' := <[x := nx']> (<[m := nm']> h1) in
  extends Dn h1 h' /\ restaged_ Dn rank h h'.
Proof.
  intros [W R] (rank1 & [W1 R1] & Ag) Rg O Hm Hdm HL Hx Hdx Hxl Shape h'.
  assert (Hmx : m <> x) by lia.
  assert (Hm1 : (m < length h1)%nat) by (eapply lookup_lt_Some, Hm).
  assert (Hx1 : (x < length h1)%nat) by (eapply lookup_lt_Some, Hx).
  set (h2 := <[m := nm']> h1) in *.
  assert (Hx2 : h2 !! x = Some nx1)
    by (unfold h2; now rewrite list_lookup_insert_ne).
  assert (Hm2 : h2 !! m = Some nm')
    by (unfold h2; now rewrite list_lookup_insert_eq).
  assert (Hdm' : date nm' = Dn)
    by (destruct Shape as [[-> _]|[-> _]]; exact Hdm).
  (* the lattice *)
  destruct (set_neighbour_spec timedelta_days tree Dn h1 m nm1 nm' (Some x)
              W1 Hm Hdm (linked_Some _ _ _ _ Hx Hdx)) as (W2 & E2).
  { destruct Shape as [[-> _]|[-> _]]; [now right|now left]. }
  destruct (set_neighbour_spec timedelta_days tree Dn h2 x nx1 nx' (Some m)
              W2 Hx2 Hdx (linked_Some _ _ _ _ Hm2 Hdm')) as (W3 & E3).
  { destruct Shape as [[_ ->]|[_ ->]]; [now left|now right]. }
  split; [eapply extends_trans; eauto|].
  (* the ranking *)
  destruct (rank_bounded rank1 (length h1)) as (B & HB).
  assert (Cl : forall q n, h1 !! q = Some n -> (q < length h)%nat ->
                 (forall r, up_node n = Some r -> (r < length h)%nat)
                 /\ (forall r, down_node n = Some r -> (r < length h)%nat)).
  { intros q n Hn Hq.
    destruct (lookup_lt_is_Some_2 h q Hq) as (n0 & Hn0).
    destruct (O q n0 Hn0 Hq) as (n1 & Hn1 & Eu & Ed). same_node Hn.
    rewrite Eu, Ed. split; intros r Hr;
      eapply (neighbours_in_arena timedelta_days tree Dn h q n0 r W Hn0);
      [now left|now right]. }
  pose proof (HB m Hm1) as Bm. pose proof (HB x Hx1) as Bx.
  destruct Shape as [[-> ->]|[-> ->]].
  - set (rk := fun q => if decide (length h <= q)%nat
                        then (rank1 q + (2 * B + 1))%Z else rank1 q).
    pose proof (ranked_shift (length h) (2 * B + 1) rank1 h1 R1 Rg Cl)
      as Rs. fold rk in Rs.
    assert (Hlt : (rk x < rk m)%Z).
    { unfold rk. destruct (decide (length h <= x)%nat); [lia|].
      destruct (decide (length h <= m)%nat); lia. }
    exists rk. split; [split; [exact W3|]|].
    + apply ranked_insert; [apply ranked_insert; [exact Rs|..]|..]; cbn.
      * exact (proj1 (Rs m nm1 Hm)).
      * intros r [= <-]. exact Hlt.
      * intros r [= <-]. exact Hlt.
      * exact (proj2 (Rs x nx1 Hx)).
    + intros q Hq. unfold rk.
      destruct (decide (length h <= q)%nat); [lia|]. now apply Ag.
  - set (rk := fun q => if decide (length h <= q)%nat
                        then (rank1 q + (- (2 * B + 1)))%Z else rank1 q).
    pose proof (ranked_shift (length h) (- (2 * B + 1)) rank1 h1 R1 Rg Cl)
      as Rs. fold rk in Rs.
    assert (Hlt : (rk m < rk x)%Z).
    { unfold rk. destruct (decide (length h <= x)%nat); [lia|].
      destruct (decide (length h <= m)%nat); lia. }
    exists rk. split; [split; [exact W3|]|].
    + apply ranked_insert; [apply ranked_insert; [exact Rs|..]|..]; cbn.
      * intros r [= <-]. exact Hlt.
      * exact (proj2 (Rs m nm1 Hm)).
      * exact (proj1 (Rs x nx1 Hx)).
      * intros r [= <-]. exact Hlt.
    + intros q Hq. unfold rk.
      destruct (decide (length h <= q)%nat); [lia|]. now apply Ag.
Qed.

End RelinkStep.

Section ColumnSteps.

Variable np_exp : float -> float.
Variable py_pow : float -> Z -> option float.
Variable timedelta_days : float -> Z.
Variable tree : Tree.

Local Abbreviation step_ := (step timedelta_days tree).
Local Abbreviation stage_ := (stage timedelta_days tree).
Local Abbreviation restaged_ := (restaged timedelta_days tree).
Local Abbreviation lattice_wf_ := (lattice_wf timedelta_days tree).
Local Abbreviation node_wf_ := (node_wf timedelta_days tree).
Local Abbreviation milestone_ := (milestone timedelta_days tree).
Local Abbreviation build_triplet_ :=
  (build_triplet np_exp py_pow timedelta_days tree).

Hypothesis step_pos : (0 < step_)%Z.

Local Open Scope M_scope.

(** A node below the floor has no outer successor. *)
Lemma below_floor_no_outer D h n :
  node_wf_ D h n -> above_floor tree n = Ok false ->
  next_up n = None /\ next_down n = None.
Proof.
  intros W A. pose proof (wf_floor _ _ _ _ _ W) as F.
  destruct (next_up n), (next_down n); try (now split);
    (assert (above_floor tree n = Ok true)
       by (apply F; first [now left|now right]); congruence).
Qed.

(** One round of the first loop of [Tree.build_column], on the node [p]
    above the one visited before, [d]. *)
#[warnings="-inconsistent-scopes"]
Local Abbreviation climb fuel p dn grow :=
  (if grow then
     modify p (set_next_mid (next_up dn));;
     let* pn := get p in
     let* _ := build_triplet_ fuel p (next_mid pn) in ret tt
   else
     let* _ := build_triplet_ fuel p (next_up dn) in
     let* pn := get p in
     let* d := deref (down_node pn) in
     let* dn := get d in
     let* m := deref (next_mid pn) in
     modify m (set_down_node (next_mid dn));;
     let* pn := get p in
     let* d := deref (down_node pn) in
     let* dn := get d in
     let* dm := deref (next_mid dn) in
     modify dm (set_up_node (next_mid pn))).

Lemma climb_spec Dn rank fuel p d h pn dn grow h' :
  stage_ Dn rank h -> h !! p = Some pn -> (date pn + step_)%Z = Dn ->
  next_mid pn = None ->
  down_node pn = Some d -> h !! d = Some dn ->
  above_floor tree dn = Ok grow ->
  climb fuel p dn grow h = Ok (tt, h') ->
  exists np', milestone_ Dn rank p h h' np'.
Proof.
  intros S Hp Hd Hmid Hdown Hdn Hg H.
  assert (Hne : date pn <> Dn) by lia.
  pose proof S as [W R].
  assert (Hdd : date dn = date pn).
  { destruct (wf_down _ _ _ _ _ (W p pn Hp) d Hdown) as (dn' & Hdn' & E).
    same_node Hdn. exact E. }
  assert (Hdp : d <> p).
  { intros ->. pose proof (proj2 (R p pn Hp) p Hdown). lia. }
  pose proof (milestone_start timedelta_days tree Dn rank p h pn S Hp) as M0.
  destruct grow.
  - apply bind_Ok in H. destruct H as ([] & h1 & H1 & H).
    apply modify_Ok in H1. destruct H1 as (n1 & Hn1 & ->). same_node Hp.
    apply bind_Ok in H. destruct H as (n2 & ? & Hn2 & H).
    apply get_Ok in Hn2. destruct Hn2 as [Hn2 ->].
    apply bind_Ok in H. destruct H as (r & h3 & H3 & H).
    apply ret_Ok in H. destruct H as [_ ->].
    assert (Lk : linked h (next_up dn) Dn).
    { rewrite <- Hd, <- Hdd.
      exact (layered_up _ _ _ _ _ (wf_layered _ _ _ _ _ (W d dn Hdn))). }
    assert (M1 : milestone_ Dn rank p h
                   (<[p := set_next_mid (next_up dn) pn]> h)
                   (set_next_mid (next_up dn) pn)).
    { eapply milestone_update; [exact M0|exact Hne|reflexivity|].
      intros rank1 [W1 _]. apply node_wf_set_next_mid; [exact (W1 p pn Hp)|].
      now rewrite Hd. }
    pose proof M1 as (_ & _ & Hp1). same_node Hp1.
    assert (Lk1 : linked (<[p := set_next_mid (next_up dn) pn]> h)
                    (next_mid (set_next_mid (next_up dn) pn)) Dn).
    { cbn. eapply linked_kept; [|exact Lk].
      now apply insert_keeps_dates with (n := pn). }
    destruct (build_triplet_spec np_exp py_pow timedelta_days tree step_pos
                _ _ _ _ _ _ _ _ _ _ M1 Hd Lk1 H3)
      as (_ & np' & m & M' & _). now exists np'.
  - destruct (below_floor_no_outer _ _ _ (W d dn Hdn) Hg) as [Hnu _].
    rewrite Hnu in H.
    apply bind_Ok in H. destruct H as (r & h1 & H1 & H).
    destruct (build_triplet_spec np_exp py_pow timedelta_days tree step_pos
                _ _ _ _ _ _ _ _ _ _ M0 Hd (linked_None _ _) H1)
      as (_ & np' & m & M1 & Hmid' & _).
    destruct (build_triplet_fresh np_exp py_pow timedelta_days tree step_pos
                _ _ _ _ _ _ _ _ _ M0 Hd Hmid H1)
      as (np'' & m' & Hp'' & Hmid'' & HL & Rg1 & O1).
    pose proof M1 as (Ev1 & Rs1 & Hp1). same_node Hp1.
    rewrite Hmid' in Hmid''. injection Hmid'' as <-.
    destruct (proj1 Ev1 p pn Hp) as (np1 & Hnp1 & _ & _ & Sh).
    same_node Hp1. specialize (Sh Hne eq_refl).
    apply shell_fields in Sh.
    destruct Sh as (_ & Edate & _ & _ & _ & Edown & _).
    destruct (proj1 Ev1 d dn Hdn) as (dn1 & Hdn1 & _ & Same & _).
    rewrite (Same ltac:(lia) Hdp) in Hdn1.
    destruct Rs1 as (rank1 & [W1 R1] & Ag).
    destruct (layered_mid _ _ _ _ _ (wf_layered _ _ _ _ _ (W1 p np' Hp1))
                m Hmid') as (nm1 & Hm1 & Hdm1).
    rewrite Edate, Hd in Hdm1.
    assert (Hpm : p <> m)
      by (apply lookup_lt_Some in Hp; lia).
    assert (Hdm : d <> m)
      by (apply lookup_lt_Some in Hdn; lia).
    (* the run *)
    apply bind_Ok in H. destruct H as (n2 & ? & Hn2 & H).
    apply get_Ok in Hn2. destruct Hn2 as [Hn2 ->]. same_node Hp1.
    apply bind_Ok in H. destruct H as (d2 & ? & Hd2 & H).
    apply deref_Ok in Hd2. destruct Hd2 as [Hd2 ->].
    rewrite Edown, Hdown in Hd2. injection Hd2 as <-.
    apply bind_Ok in H. destruct H as (n3 & ? & Hn3 & H).
    apply get_Ok in Hn3. destruct Hn3 as [Hn3 ->]. same_node Hdn1.
    apply bind_Ok in H. destruct H as (m2 & ? & Hm2 & H).
    apply deref_Ok in Hm2. destruct Hm2 as [Hm2 ->].
    rewrite Hmid' in Hm2. injection Hm2 as <-.
    apply bind_Ok in H. destruct H as ([] & h2 & H2 & H).
    apply modify_Ok in H2. destruct H2 as (n4 & Hn4 & ->). same_node Hm1.
    apply bind_Ok in H. destruct H as (n5 & ? & Hn5 & H).
    apply get_Ok in Hn5. destruct Hn5 as [Hn5 ->].
    rewrite list_lookup_insert_ne in Hn5 by congruence. same_node Hp1.
    apply bind_Ok in H. destruct H as (d3 & ? & Hd3 & H).
    apply deref_Ok in Hd3. destruct Hd3 as [Hd3 ->].
    rewrite Edown, Hdown in Hd3. injection Hd3 as <-.
    apply bind_Ok in H. destruct H as (n6 & ? & Hn6 & H).
    apply get_Ok in Hn6. destruct Hn6 as [Hn6 ->].
    rewrite list_lookup_insert_ne in Hn6 by congruence. same_node Hdn1.
    apply bind_Ok in H. destruct H as (x & ? & Hx & H).
    apply deref_Ok in Hx. destruct Hx as [Hx ->].
    apply modify_Ok in H. destruct H as (nx & Hnx & ->).
    rewrite Hx, Hmid'.
    (* the successor of the node visited before *)
    destruct (layered_mid _ _ _ _ _ (wf_layered _ _ _ _ _ (W d dn Hdn))
                x Hx) as (nx0 & Hx0 & Hdx0).
    assert (Hxl : (x < length h)%nat) by (eapply lookup_lt_Some, Hx0).
    rewrite list_lookup_insert_ne in Hnx by lia.
    destruct (evolves_date _ _ _ _ _ _ Ev1 Hx0) as (nx1 & Hnx1 & Hdx1).
    same_node Hnx.
    assert (Hdx : date nx = Dn) by lia.
    assert (Hpx : p <> x)
      by (intros <-; rewrite Hp in Hx0; injection Hx0 as <-; lia).
    destruct (relink_spec timedelta_days tree Dn rank h h1 m nm1
                (set_down_node (Some x) nm1) x nx (set_up_node (Some m) nx)
                S (ex_intro _ rank1 (conj (conj W1 R1) Ag)) Rg1 O1
                Hm1 Hdm1 HL Hnx Hdx Hxl (or_introl (conj eq_refl eq_refl)))
      as (E & Rs).
    exists np'. split; [|split; [exact Rs|]].
    + eapply evolves_trans; [exact Ev1|]. apply extends_evolves, E.
    + rewrite !list_lookup_insert_ne by congruence. exact Hp1.
Qed.

(** One round of the second loop, on the node [p] below the one visited
    before, [d]. *)
#[warnings="-inconsistent-scopes"]
Local Abbreviation descend fuel p dn grow :=
  (if grow then
     modify p (set_next_mid (next_down dn));;
     let* pn := get p in
     let* u := deref (up_node pn) in
     let* un := get u in
     let* _ := build_triplet_ fuel p (next_down un) in ret tt
   else
     let* _ := build_triplet_ fuel p (next_down dn) in
     let* pn := get p in
     let* u := deref (up_node pn) in
     let* un := get u in
     let* m := deref (next_mid pn) in
     modify m (set_up_node (next_mid un));;
     let* pn := get p in
     let* u := deref (up_node pn) in
     let* un := get u in
     let* um := deref (next_mid un) in
     modify um (set_down_node (next_mid pn))).

Lemma descend_spec Dn rank fuel p d h pn dn grow h' :
  stage_ Dn rank h -> h !! p = Some pn -> (date pn + step_)%Z = Dn ->
  next_mid pn = None ->
  up_node pn = Some d -> h !! d = Some dn ->
  above_floor tree dn = Ok grow ->
  descend fuel p dn grow h = Ok (tt, h') ->
  exists np', milestone_ Dn rank p h h' np'.
Proof.
  intros S Hp Hd Hmid Hdown Hdn Hg H.
  assert (Hne : date pn <> Dn) by lia.
  pose proof S as [W R].
  assert (Hdd : date dn = date pn).
  { destruct (wf_up _ _ _ _ _ (W p pn Hp) d Hdown) as (dn' & Hdn' & E).
    same_node Hdn. exact E. }
  assert (Hdp : d <> p).
  { intros ->. pose proof (proj1 (R p pn Hp) p Hdown). lia. }
  pose proof (milestone_start timedelta_days tree Dn rank p h pn S Hp) as M0.
  destruct grow.
  - apply bind_Ok in H. destruct H as ([] & h1 & H1 & H).
    apply modify_Ok in H1. destruct H1 as (n1 & Hn1 & ->). same_node Hp.
    apply bind_Ok in H. destruct H as (n2 & ? & Hn2 & H).
    apply get_Ok in Hn2. destruct Hn2 as [Hn2 ->].
    rewrite list_lookup_insert_eq in Hn2 by (eapply lookup_lt_Some, Hp).
    injection Hn2 as <-.
    apply bind_Ok in H. destruct H as (u2 & ? & Hu2 & H).
    apply deref_Ok in Hu2. destruct Hu2 as [Hu2 ->].
    cbn in Hu2. rewrite Hdown in Hu2. injection Hu2 as <-.
    apply bind_Ok in H. destruct H as (n3 & ? & Hn3 & H).
    apply get_Ok in Hn3. destruct Hn3 as [Hn3 ->].
    rewrite list_lookup_insert_ne in Hn3 by congruence. same_node Hdn.
    apply bind_Ok in H. destruct H as (r & h3 & H3 & H).
    apply ret_Ok in H. destruct H as [_ ->].
    assert (Lk : linked h (next_down dn) Dn).
    { rewrite <- Hd, <- Hdd.
      exact (layered_down _ _ _ _ _ (wf_layered _ _ _ _ _ (W d dn Hdn))). }
    assert (M1 : milestone_ Dn rank p h
                   (<[p := set_next_mid (next_down dn) pn]> h)
                   (set_next_mid (next_down dn) pn)).
    { eapply milestone_update; [exact M0|exact Hne|reflexivity|].
      intros rank1 [W1 _]. apply node_wf_set_next_mid; [exact (W1 p pn Hp)|].
      now rewrite Hd. }
    pose proof M1 as (_ & _ & Hp1). same_node Hp1.
    assert (Lk1 : linked (<[p := set_next_mid (next_down dn) pn]> h)
                    (next_down dn) Dn).
    { eapply linked_kept; [|exact Lk].
      now apply insert_keeps_dates with (n := pn). }
    destruct (build_triplet_spec np_exp py_pow timedelta_days tree step_pos
                _ _ _ _ _ _ _ _ _ _ M1 Hd Lk1 H3)
      as (_ & np' & m & M' & _). now exists np'.
  - destruct (below_floor_no_outer _ _ _ (W d dn Hdn) Hg) as [_ Hnu].
    rewrite Hnu in H.
    apply bind_Ok in H. destruct H as (r & h1 & H1 & H).
    destruct (build_triplet_spec np_exp py_pow timedelta_days tree step_pos
                _ _ _ _ _ _ _ _ _ _ M0 Hd (linked_None _ _) H1)
      as (_ & np' & m & M1 & Hmid' & _).
    destruct (build_triplet_fresh np_exp py_pow timedelta_days tree step_pos
                _ _ _ _ _ _ _ _ _ M0 Hd Hmid H1)
      as (np'' & m' & Hp'' & Hmid'' & HL & Rg1 & O1).
    pose proof M1 as (Ev1 & Rs1 & Hp1). same_node Hp1.
    rewrite Hmid' in Hmid''. injection Hmid'' as <-.
    destruct (proj1 Ev1 p pn Hp) as (np1 & Hnp1 & _ & _ & Sh).
    same_node Hp1. specialize (Sh Hne eq_refl).
    apply shell_fields in Sh.
    destruct Sh as (_ & Edate & _ & _ & Edown & _).
    destruct (proj1 Ev1 d dn Hdn) as (dn1 & Hdn1 & _ & Same & _).
    rewrite (Same ltac:(lia) Hdp) in Hdn1.
    destruct Rs1 as (rank1 & [W1 R1] & Ag).
    destruct (layered_mid _ _ _ _ _ (wf_layered _ _ _ _ _ (W1 p np' Hp1))
                m Hmid') as (nm1 & Hm1 & Hdm1).
    rewrite Edate, Hd in Hdm1.
    assert (Hpm : p <> m)
      by (apply lookup_lt_Some in Hp; lia).
    assert (Hdm : d <> m)
      by (apply lookup_lt_Some in Hdn; lia).
    (* the run *)
    apply bind_Ok in H. destruct H as (n2 & ? & Hn2 & H).
    apply get_Ok in Hn2. destruct Hn2 as [Hn2 ->]. same_node Hp1.
    apply bind_Ok in H. destruct H as (d2 & ? & Hd2 & H).
    apply deref_Ok in Hd2. destruct Hd2 as [Hd2 ->].
    rewrite Edown, Hdown in Hd2. injection Hd2 as <-.
    apply bind_Ok in H. destruct H as (n3 & ? & Hn3 & H).
    apply get_Ok in Hn3. destruct Hn3 as [Hn3 ->]. same_node Hdn1.
    apply bind_Ok in H. destruct H as (m2 & ? & Hm2 & H).
    apply deref_Ok in Hm2. destruct Hm2 as [Hm2 ->].
    rewrite Hmid' in Hm2. injection Hm2 as <-.
    apply bind_Ok in H. destruct H as ([] & h2 & H2 & H).
    apply modify_Ok in H2. destruct H2 as (n4 & Hn4 & ->). same_node Hm1.
    apply bind_Ok in H. destruct H as (n5 & ? & Hn5 & H).
    apply get_Ok in Hn5. destruct Hn5 as [Hn5 ->].
    rewrite list_lookup_insert_ne in Hn5 by congruence. same_node Hp1.
    apply bind_Ok in H. destruct H as (d3 & ? & Hd3 & H).
    apply deref_Ok in Hd3. destruct Hd3 as [Hd3 ->].
    rewrite Edown, Hdown in Hd3. injection Hd3 as <-.
    apply bind_Ok in H. destruct H as (n6 & ? & Hn6 & H).
    apply get_Ok in Hn6. destruct Hn6 as [Hn6 ->].
    rewrite list_lookup_insert_ne in Hn6 by congruence. same_node Hdn1.
    apply bind_Ok in H. destruct H as (x & ? & Hx & H).
    apply deref_Ok in Hx. destruct Hx as [Hx ->].
    apply modify_Ok in H. destruct H as (nx & Hnx & ->).
    rewrite Hx, Hmid'.
    (* the successor of the node visited before *)
    destruct (layered_mid _ _ _ _ _ (wf_layered _ _ _ _ _ (W d dn Hdn))
                x Hx) as (nx0 & Hx0 & Hdx0).
    assert (Hxl : (x < length h)%nat) by (eapply lookup_lt_Some, Hx0).
    rewrite list_lookup_insert_ne in Hnx by lia.
    destruct (evolves_date _ _ _ _ _ _ Ev1 Hx0) as (nx1 & Hnx1 & Hdx1).
    same_node Hnx.
    assert (Hdx : date nx = Dn) by lia.
    assert (Hpx : p <> x)
      by (intros <-; rewrite Hp in Hx0; injection Hx0 as <-; lia).
    destruct (relink_spec timedelta_days tree Dn rank h h1 m nm1
                (set_up_node (Some x) nm1) x nx (set_down_node (Some m) nx)
                S (ex_intro _ rank1 (conj (conj W1 R1) Ag)) Rg1 O1
                Hm1 Hdm1 HL Hnx Hdx Hxl (or_intror (conj eq_refl eq_refl)))
      as (E & Rs).
    exists np'. split; [|split; [exact Rs|]].
    + eapply evolves_trans; [exact Ev1|]. apply extends_evolves, E.
    + rewrite !list_lookup_insert_ne by congruence. exact Hp1.
Qed.

End ColumnSteps.

Section ColumnLoops.

Variable np_exp : float -> float.
Variable py_pow : float -> Z -> option float.
Variable timedelta_days : float -> Z.
Variable tree : Tree.

Local Abbreviation step_ := (step timedelta_days tree).
Local Abbreviation stage_ := (stage timedelta_days tree).
Local Abbreviation restaged_ := (restaged timedelta_days tree).
Local Abbreviation lattice_wf_ := (lattice_wf timedelta_days tree).
Local Abbreviation node_wf_ := (node_wf timedelta_days tree).
Local Abbreviation milestone_ := (milestone timedelta_days tree).
Local Abbreviation column_inv_ := (column_inv np_exp timedelta_days tree).

Hypothesis step_pos : (0 < step_)%Z.

(** The column dated [Dk], with trunk node [t], in the arena [h0] that
    [build_column] starts from. *)
Variable Dk Dn : Z.
Variable rank0 : id -> Z.
Variable h0 : heap.
Variable t : id.
Variable nt0 : Node.

Hypothesis next_col : Dn = (Dk + step_)%Z.
Hypothesis wf0 : lattice_wf_ Dk h0.
Hypothesis ranked0 : ranked rank0 h0.
Hypothesis trunk0 : h0 !! t = Some nt0.
Hypothesis trunk_date : date nt0 = Dk.

Lemma old_date q n : h0 !! q = Some n -> (date n <= Dk)%Z.
Proof.
  intros Hn.
  apply (layered_date _ _ _ _ _ (wf_layered _ _ _ _ _ (wf0 q n Hn))).
Qed.

Lemma column_inv_length todo h :
  column_inv_ Dk Dn rank0 h0 t todo h -> (length h0 <= length h)%nat.
Proof.
  intros [_ Sh _ _].
  destruct (decide (length h0 <= length h)%nat) as [|Hlt]; [assumption|].
  destruct (lookup_lt_is_Some_2 h0 (length h) ltac:(lia)) as (n & Hn).
  destruct (Sh _ _ Hn) as (n' & Hn' & _).
  apply lookup_lt_Some in Hn'. lia.
Qed.

Lemma column_inv_weaken (todo todo' : id -> Prop) h :
  (forall q, todo' q -> todo q) ->
  column_inv_ Dk Dn rank0 h0 t todo h ->
  column_inv_ Dk Dn rank0 h0 t todo' h.
Proof.
  intros Sub [A Sh Td Tr]. split; try assumption.
  intros q n Hn [Hd|Hq]; apply Td; auto.
Qed.

(** A round on the node [p] of the column keeps the invariant. *)
Lemma column_inv_step (todo todo' : id -> Prop) rank h p pn0 h' np' :
  column_inv_ Dk Dn rank0 h0 t todo h ->
  (forall q, (q < length h0)%nat -> rank q = rank0 q) ->
  milestone_ Dn rank p h h' np' ->
  h0 !! p = Some pn0 -> date pn0 = Dk -> p <> t ->
  (forall q, todo' q -> todo q /\ q <> p) ->
  column_inv_ Dk Dn rank0 h0 t todo' h'.
Proof.
  intros Inv Ag (Ev & (rank' & S' & Ag') & Hp') Hp0 Hdp Hpt Sub.
  pose proof (column_inv_length _ _ Inv) as Hlen.
  destruct Inv as [_ Sh Td Tr]. split.
  - exists rank'. split; [exact S'|]. intros q Hq.
    rewrite Ag' by lia. now apply Ag.
  - intros q n Hn. destruct (Sh q n Hn) as (n1 & Hn1 & Sh1).
    destruct (proj1 Ev q n1 Hn1) as (n2 & Hn2 & _ & Same & Shell).
    pose proof (old_date q n Hn) as Hdq.
    pose proof (proj1 (proj2 (shell_fields _ _ Sh1))) as Hd1.
    exists n2. split; [exact Hn2|].
    destruct (decide (q = p)) as [->|Hqp].
    + rewrite Shell by lia. exact Sh1.
    + rewrite Same by (first [lia|assumption]). exact Sh1.
  - intros q n Hn Hq. pose proof (old_date q n Hn) as Hdq.
    assert (Hqp : q <> p).
    { destruct Hq as [Hq|Hq]; [|now apply Sub].
      intros ->. rewrite Hp0 in Hn. injection Hn as <-. lia. }
    assert (Hn1 : h !! q = Some n).
    { apply Td; [exact Hn|]. destruct Hq as [Hq|Hq]; [now left|].
      right. now apply Sub. }
    destruct (proj1 Ev q n Hn1) as (n2 & Hn2 & _ & Same & _).
    rewrite Same in Hn2 by (first [lia|assumption]). exact Hn2.
  - destruct Tr as (nt & m & nm & Ht & Hmid & Hm & Hprec & Hund & Hdm).
    destruct (Sh t nt0 trunk0) as (nt' & Ht' & Sh'). same_node Ht.
    pose proof (proj1 (proj2 (shell_fields _ _ Sh'))) as Hdt.
    destruct (proj1 Ev t nt Ht) as (nt2 & Ht2 & _ & Same & _).
    rewrite Same in Ht2 by (first [lia|congruence]).
    destruct (proj1 Ev m nm Hm) as (nm2 & Hm2 & Core & _).
    apply core_fields in Core; [|exact Hdm].
    destruct Core as (Eu & Ed & _ & _ & _ & _ & _ & _ & _ & _ & Ep).
    exists nt, m, nm2. repeat split; try assumption; congruence.
Qed.

(** A neighbour of a node of the column is a node of the column, which
    [build_column] has not visited if its rank tells so. *)
Lemma column_neighbour (todo : id -> Prop) h cur ncur0 ncur p :
  column_inv_ Dk Dn rank0 h0 t todo h ->
  h0 !! cur = Some ncur0 -> date ncur0 = Dk -> h !! cur = Some ncur ->
  up_node ncur = Some p \/ down_node ncur = Some p ->
  exists pn0,
    h0 !! p = Some pn0 /\ date pn0 = Dk /\ next_mid pn0 = None
    /\ (up_node ncur = Some p -> (rank0 cur < rank0 p)%Z)
    /\ (down_node ncur = Some p -> (rank0 p < rank0 cur)%Z)
    /\ (todo p -> h !! p = Some pn0).
Proof.
  intros Inv Hc0 Hdc Hc Hp. destruct (column_shell _ _ _ _ _ _ _ _ _ _ Inv
                                        cur ncur0 Hc0) as (n' & Hn' & Sh).
  same_node Hc. apply shell_fields in Sh.
  destruct Sh as (_ & _ & _ & _ & Eu & Ed & _). rewrite Eu, Ed in *.
  assert (Hin : exists pn0, h0 !! p = Some pn0 /\ date pn0 = Dk).
  { destruct Hp as [Hp|Hp].
    - destruct (wf_up _ _ _ _ _ (wf0 cur ncur0 Hc0) p Hp) as (pn0 & ? & ?).
      exists pn0. split; [assumption|congruence].
    - destruct (wf_down _ _ _ _ _ (wf0 cur ncur0 Hc0) p Hp) as (pn0 & ? & ?).
      exists pn0. split; [assumption|congruence]. }
  destruct Hin as (pn0 & Hp0 & Hdp). exists pn0.
  destruct (no_successor_at_last timedelta_days tree Dk h0 p pn0 step_pos
              wf0 Hp0 Hdp) as (_ & Hmid & _).
  split; [exact Hp0|]. split; [exact Hdp|]. split; [exact Hmid|].
  split; [exact (proj1 (ranked0 cur ncur0 Hc0) p)|].
  split; [exact (proj2 (ranked0 cur ncur0 Hc0) p)|].
  intros Hq. apply (column_todo _ _ _ _ _ _ _ _ _ _ Inv); [exact Hp0|].
  now right.
Qed.

(** The first loop of [Tree.build_column], from the node [cur] upwards. *)
Lemma column_up_spec fuel : forall loop cur ncur0 h h',
  column_inv_ Dk Dn rank0 h0 t
    (fun q => (rank0 cur < rank0 q)%Z \/ (rank0 q < rank0 t)%Z) h ->
  h0 !! cur = Some ncur0 -> date ncur0 = Dk -> (rank0 t <= rank0 cur)%Z ->
  column_up np_exp py_pow timedelta_days tree fuel loop cur h
    = Ok (tt, h') ->
  column_inv_ Dk Dn rank0 h0 t (fun q => (rank0 q < rank0 t)%Z) h'.
Proof.
  induction loop as [|loop IH]; intros cur ncur0 h h' Inv Hc0 Hdc Hrk H;
    [discriminate|].
  cbn [column_up] in H.
  apply bind_Ok in H. destruct H as (ncur & ? & Hc & H).
  apply get_Ok in Hc. destruct Hc as [Hc ->].
  destruct (up_node ncur) as [p|] eqn:Hup.
  2:{ apply ret_Ok in H. destruct H as [_ ->].
      eapply column_inv_weaken; [|exact Inv]. intros q Hq. now right. }
  destruct (column_neighbour _ _ _ _ _ _ Inv Hc0 Hdc Hc
              (or_introl Hup)) as (pn0 & Hp0 & Hdp & Hmid & Hlt & _ & Hp).
  specialize (Hlt Hup). specialize (Hp (or_introl Hlt)).
  apply bind_Ok in H. destruct H as (pn & ? & Hpn & H).
  apply get_Ok in Hpn. destruct Hpn as [Hpn ->]. same_node Hp.
  apply bind_Ok in H. destruct H as (d & ? & Hd & H).
  apply deref_Ok in Hd. destruct Hd as [Hd ->].
  apply bind_Ok in H. destruct H as (dn & ? & Hdn & H).
  apply get_Ok in Hdn. destruct Hdn as [Hdn ->].
  apply bind_Ok in H. destruct H as (grow & ? & Hg & H).
  apply lift_Ok in Hg. destruct Hg as [Hg ->].
  apply bind_Ok in H. destruct H as ([] & h1 & H1 & H).
  destruct (column_staged _ _ _ _ _ _ _ _ _ _ Inv) as (rank & S & Ag).
  destruct (climb_spec np_exp py_pow timedelta_days tree step_pos Dn rank
              fuel p d h pn0 dn grow h1 S Hp ltac:(lia) Hmid Hd Hdn Hg H1)
    as (np' & M).
  apply (IH p pn0 h1 h'); try assumption; [|lia].
  eapply column_inv_step; try eassumption.
  - intros ->. lia.
  - intros q Hq. split; [lia|]. intros ->. lia.
Qed.

(** The second loop, from the node [cur] downwards. *)
Lemma column_down_spec fuel : forall loop cur ncur0 h h',
  column_inv_ Dk Dn rank0 h0 t (fun q => (rank0 q < rank0 cur)%Z) h ->
  h0 !! cur = Some ncur0 -> date ncur0 = Dk -> (rank0 cur <= rank0 t)%Z ->
  column_down np_exp py_pow timedelta_days tree fuel loop cur h
    = Ok (tt, h') ->
  column_inv_ Dk Dn rank0 h0 t (fun _ => False) h'.
Proof.
  induction loop as [|loop IH]; intros cur ncur0 h h' Inv Hc0 Hdc Hrk H;
    [discriminate|].
  cbn [column_down] in H.
  apply bind_Ok in H. destruct H as (ncur & ? & Hc & H).
  apply get_Ok in Hc. destruct Hc as [Hc ->].
  destruct (down_node ncur) as [p|] eqn:Hdown.
  2:{ apply ret_Ok in H. destruct H as [_ ->].
      eapply column_inv_weaken; [|exact Inv]. intros q []. }
  destruct (column_neighbour _ _ _ _ _ _ Inv Hc0 Hdc Hc
              (or_intror Hdown)) as (pn0 & Hp0 & Hdp & Hmid & _ & Hlt & Hp).
  specialize (Hlt Hdown). specialize (Hp Hlt).
  apply bind_Ok in H. destruct H as (pn & ? & Hpn & H).
  apply get_Ok in Hpn. destruct Hpn as [Hpn ->]. same_node Hp.
  apply bind_Ok in H. destruct H as (d & ? & Hd & H).
  apply deref_Ok in Hd. destruct Hd as [Hd ->].
  apply bind_Ok in H. destruct H as (dn & ? & Hdn & H).
  apply get_Ok in Hdn. destruct Hdn as [Hdn ->].
  apply bind_Ok in H. destruct H as (grow & ? & Hg & H).
  apply lift_Ok in Hg. destruct Hg as [Hg ->].
  apply bind_Ok in H. destruct H as ([] & h1 & H1 & H).
  destruct (column_staged _ _ _ _ _ _ _ _ _ _ Inv) as (rank & S & Ag).
  destruct (descend_spec np_exp py_pow timedelta_days tree step_pos Dn rank
              fuel p d h pn0 dn grow h1 S Hp ltac:(lia) Hmid Hd Hdn Hg H1)
    as (np' & M).
  apply (IH p pn0 h1 h'); try assumption; [|lia].
  eapply column_inv_step; try eassumption.
  - intros ->. lia.
  - intros q Hq. split; [lia|]. intros ->. lia.
Qed.

Lemma dividend_period_ext n n' :
  date n' = date n ->
  dividend_period timedelta_days tree n'
  = dividend_period timedelta_days tree n.
Proof. intros E. unfold dividend_period. now rewrite E. Qed.

Lemma expected_value_ext n n' :
  und_price n' = und_price n -> date n' = date n ->
  expected_value np_exp timedelta_days tree n'
  = expected_value np_exp timedelta_days tree n.
Proof.
  intros Eu Ed. unfold expected_value.
  now rewrite (dividend_period_ext n n' Ed), Eu.
Qed.

(** [Tree.build_column] on the trunk node of a regular column. *)
Lemma build_column_inv fuel t' h' :
  is_TruncNode nt0 = true ->
  (dividend_period timedelta_days tree nt0 = true ->
   stays_put tree (expected_value np_exp timedelta_days tree nt0) = true) ->
  build_column np_exp py_pow timedelta_days tree fuel t h0 = Ok (t', h') ->
  column_inv_ Dk Dn rank0 h0 t (fun _ => False) h'
  /\ exists nt nm,
       h' !! t = Some nt /\ next_mid nt = Some t'
       /\ h' !! t' = Some nm /\ prec_node nm = Some (Some t)
       /\ und_price nm = expected_value np_exp timedelta_days tree nt0
       /\ date nm = Dn.
Proof.
  intros Htr Hreg H. unfold build_column in H.
  assert (S0 : stage_ Dn rank0 h0).
  { split; [|exact ranked0].
    apply lattice_wf_mono with (D := Dk); [lia|exact wf0]. }
  destruct (no_successor_at_last timedelta_days tree Dk h0 t nt0 step_pos
              wf0 trunk0 trunk_date) as (_ & Hmid & _).
  pose proof (milestone_start timedelta_days tree Dn rank0 t h0 nt0 S0
                trunk0) as M0.
  assert (Hd : (date nt0 + step_)%Z = Dn) by lia.
  apply bind_Ok in H. destruct H as (r & h1 & H1 & H).
  destruct (build_triplet_spec np_exp py_pow timedelta_days tree step_pos
              _ _ _ _ _ _ _ _ _ _ M0 Hd (linked_None _ _) H1)
    as (-> & np' & m & M1 & Hmid' & _).
  destruct (build_triplet_trunk np_exp py_pow timedelta_days tree step_pos
              _ _ _ _ _ _ _ _ _ M0 Hd Htr Hmid Hreg H1)
    as (np'' & nm & Hp'' & Hmid'' & Hm & Hprec & Hund & Hdm).
  pose proof M1 as (Ev1 & Rs1 & Hp1). same_node Hp1.
  rewrite Hmid' in Hmid''. injection Hmid'' as ->.
  destruct (proj1 Ev1 t nt0 trunk0) as (nt1 & Hnt1 & _ & _ & Sh).
  same_node Hp1. specialize (Sh ltac:(lia) eq_refl).
  pose proof (shell_fields _ _ Sh) as (Eund & Edate & _).
  assert (Inv1 : column_inv_ Dk Dn rank0 h0 t
                   (fun q => (rank0 t < rank0 q)%Z \/ (rank0 q < rank0 t)%Z)
                   h1).
  { split.
    - exact Rs1.
    - intros q n Hn. destruct (proj1 Ev1 q n Hn) as (n1 & Hn1 & _ & Same & Shell).
      pose proof (old_date q n Hn). exists n1. split; [exact Hn1|].
      destruct (decide (q = t)) as [->|Hqt].
      + apply Shell; [lia|reflexivity].
      + now rewrite Same by (first [lia|assumption]).
    - intros q n Hn Hq. pose proof (old_date q n Hn).
      assert (Hqt : q <> t).
      { destruct Hq as [Hq|Hq]; [|intros ->; lia].
        intros ->. rewrite trunk0 in Hn. injection Hn as <-. lia. }
      destruct (proj1 Ev1 q n Hn) as (n1 & Hn1 & _ & Same & _).
      now rewrite Same in Hn1 by (first [lia|assumption]).
    - exists np', (length h0), nm. repeat split; try assumption.
      rewrite Hund. symmetry. now apply expected_value_ext. }
  apply bind_Ok in H. destruct H as ([] & h2 & H2 & H).
  pose proof (column_up_spec fuel fuel t nt0 h1 h2 Inv1 trunk0 trunk_date
                (Z.le_refl _) H2) as Inv2.
  apply bind_Ok in H. destruct H as ([] & h3 & H3 & H).
  pose proof (column_down_spec fuel fuel t nt0 h2 h3 Inv2 trunk0 trunk_date
                (Z.le_refl _) H3) as Inv3.
  apply bind_Ok in H. destruct H as (nt & ? & Hnt & H).
  apply get_Ok in Hnt. destruct Hnt as [Hnt ->].
  apply deref_Ok in H. destruct H as [Hnext ->].
  split; [exact Inv3|].
  destruct (column_trunk _ _ _ _ _ _ _ _ _ _ Inv3)
    as (nt3 & m3 & nm3 & Ht3 & Hmid3 & Hm3 & Hprec3 & Hund3 & Hdm3).
  same_node Ht3. rewrite Hnext in Hmid3. injection Hmid3 as <-.
  destruct (column_shell _ _ _ _ _ _ _ _ _ _ Inv3 t nt0 trunk0)
    as (nt4 & Ht4 & Sh4). same_node Ht3.
  pose proof (shell_fields _ _ Sh4) as (Eund4 & Edate4 & _).
  exists nt3, nm3. repeat split; try assumption.
  rewrite Hund3. now apply expected_value_ext.
Qed.

End ColumnLoops.

Section Building.

Variable np_exp : float -> float.
Variable py_pow : float -> Z -> option float.
Variable timedelta_days : float -> Z.
Variable tree : Tree.

Local Abbreviation step_ := (step timedelta_days tree).
Local Abbreviation pd := (pricing_date (pricer_parameters tree)).
Local Abbreviation lattice_wf_ := (lattice_wf timedelta_days tree).
Local Abbreviation built_ := (built timedelta_days tree).
Local Abbreviation trunk_state_ := (trunk_state np_exp timedelta_days tree).
Local Abbreviation regular_column_ :=
  (regular_column np_exp timedelta_days tree).

Hypothesis step_pos : (0 < step_)%Z.

Lemma trunk_state_date k : snd (trunk_state_ k) = (pd + Z.of_nat k * step_)%Z.
Proof.
  induction k as [|k IH]; [cbn; lia|].
  cbn [trunk_state snd date Node_init]. rewrite IH.
  unfold next_date, step. lia.
Qed.

(** The trunk, up to a column before the one dated [Dk], in an arena where
    the nodes of these columns are as they were. *)
Lemma trunk_path_older D Dk (h h' : heap) root nr :
  lattice_wf_ D h -> h !! root = Some nr -> date nr = pd ->
  (forall q n, h !! q = Some n -> (date n < Dk)%Z -> h' !! q = Some n) ->
  forall t k,
    trunk_path h root t k -> (pd + Z.of_nat k * step_ < Dk)%Z ->
    trunk_path h' root t k.
Proof.
  intros W Hr Hdr Old t k P. induction P as [|t t' nt nt' k P IH Ht Hmid Ht' Hprec];
    intros Hk; [constructor|].
  assert (P' : trunk_path h root t' (S k)) by (econstructor; eauto).
  destruct (trunk_path_date timedelta_days tree D h root t k nr
              (lattice_wf_layered _ _ _ _ W) Hr Hdr P) as (n1 & Hn1 & Hd1).
  destruct (trunk_path_date timedelta_days tree D h root t' (S k) nr
              (lattice_wf_layered _ _ _ _ W) Hr Hdr P') as (n2 & Hn2 & Hd2).
  same_node Ht. same_node Ht'.
  apply trunk_next with (t := t) (nt := nt) (nt' := nt'); try assumption.
  - apply IH. lia.
  - apply Old; [exact Ht|lia].
  - apply Old; [exact Ht'|lia].
Qed.

(** The trunk up to the column dated [Dk] itself, whose trunk node still
    points back to the same node. *)
Lemma trunk_path_column D (h h' : heap) root nr t k nt nt' :
  lattice_wf_ D h -> h !! root = Some nr -> date nr = pd ->
  (forall q n, h !! q = Some n ->
               (date n < pd + Z.of_nat k * step_)%Z -> h' !! q = Some n) ->
  trunk_path h root t k ->
  h !! t = Some nt -> h' !! t = Some nt' -> prec_node nt' = prec_node nt ->
  trunk_path h' root t k.
Proof.
  intros W Hr Hdr Old P Ht Ht' Hprec.
  inversion P as [|tp t1 ntp nt1 j Pp Htp Hmid Ht1 Hprec1]; subst;
    [constructor|].
  same_node Ht.
  destruct (trunk_path_date timedelta_days tree D h root tp j nr
              (lattice_wf_layered _ _ _ _ W) Hr Hdr Pp) as (n1 & Hn1 & Hd1).
  same_node Htp.
  apply trunk_next with (t := tp) (nt := ntp) (nt' := nt'); try assumption.
  - eapply trunk_path_older; eauto. lia.
  - apply Old; [exact Htp|lia].
  - congruence.
Qed.

(** [Tree.build_column] takes a lattice built up to a regular column to a
    lattice built one column further. *)
Lemma build_column_built fuel k D h root t nt t' h' :
  built_ D k h root t ->
  h !! t = Some nt -> und_price nt = fst (trunk_state_ k) ->
  is_TruncNode nt = true -> regular_column_ k = true ->
  build_column np_exp py_pow timedelta_days tree fuel t h = Ok (t', h') ->
  built_ (D + step_) (S k) h' root t'
  /\ exists nt',
       h' !! t' = Some nt' /\ und_price nt' = fst (trunk_state_ (S k))
       /\ is_TruncNode nt' = true.
Proof.
  intros [W P (nr & Hr & Hdr) HD (rank & R)] Ht Hund Htr Hreg H.
  destruct (trunk_path_date timedelta_days tree D h root t k nr
              (lattice_wf_layered _ _ _ _ W) Hr Hdr P) as (n1 & Hn1 & Hdt).
  same_node Ht.
  set (N := Node_init (fst (trunk_state_ k)) (snd (trunk_state_ k))).
  assert (HdN : date nt = date N)
    by (cbn; rewrite trunk_state_date; exact Hdt).
  assert (Hreg' : dividend_period timedelta_days tree nt = true ->
                  stays_put tree (expected_value np_exp timedelta_days tree nt)
                  = true).
  { intros Hdiv. unfold regular_column in Hreg. fold N in Hreg.
    rewrite (dividend_period_ext timedelta_days tree nt N (eq_sym HdN))
      in Hreg.
    rewrite (expected_value_ext np_exp timedelta_days tree nt N
               (eq_sym Hund) (eq_sym HdN)) in Hreg.
    rewrite Hdiv in Hreg. exact Hreg. }
  destruct (build_column_inv np_exp py_pow timedelta_days tree step_pos
              D (D + step_)%Z rank h t nt eq_refl W R Ht
              ltac:(lia) fuel t' h' Htr Hreg' H)
    as (Inv & nt3 & nm & Ht3 & Hmid3 & Hm & Hprec & Hundm & Hdm).
  destruct Inv as [(rank' & [W' R'] & _) Sh Td _].
  destruct (Sh t nt Ht) as (nt4 & Ht4 & Sh4). same_node Ht3.
  pose proof (shell_fields _ _ Sh4) as (_ & _ & _ & _ & _ & _ & _ & Eprec).
  split; [split|].
  - exact W'.
  - apply trunk_next with (t := t) (nt := nt3) (nt' := nm); try assumption.
    apply (trunk_path_column D h h' root nr t k nt nt3 W Hr Hdr);
      [|exact P|exact Ht|exact Ht3|exact Eprec].
    intros q n Hn Hq. apply Td; [exact Hn|]. left. lia.
  - destruct (Sh root nr Hr) as (nr' & Hr' & Shr).
    pose proof (shell_fields _ _ Shr) as (_ & Ed & _).
    exists nr'. split; [exact Hr'|congruence].
  - rewrite HD. lia.
  - now exists rank'.
  - exists nm. split; [exact Hm|]. split.
    + rewrite Hundm. cbn [trunk_state fst]. fold N.
      apply expected_value_ext; [exact Hund|exact HdN].
    + unfold is_TruncNode. now rewrite Hprec.
Qed.

(** The loop of [Tree.make_tree], over regular columns. *)
Lemma build_columns_built fuel root : forall steps k D h t nt last h',
  built_ D k h root t ->
  h !! t = Some nt -> und_price nt = fst (trunk_state_ k) ->
  is_TruncNode nt = true ->
  (forall j, (k <= j < k + steps)%nat -> regular_column_ j = true) ->
  build_columns np_exp py_pow timedelta_days tree fuel steps t h
    = Ok (last, h') ->
  built_ (D + Z.of_nat steps * step_) (k + steps) h' root last.
Proof.
  induction steps as [|steps IH]; intros k D h t nt last h' B Ht Hund Htr Hreg H.
  - cbn in H. apply ret_Ok in H. destruct H as [-> ->].
    replace (D + Z.of_nat 0 * step_)%Z with D by lia.
    now replace (k + 0)%nat with k by lia.
  - cbn [build_columns] in H.
    apply bind_Ok in H. destruct H as (t1 & h1 & H1 & H).
    destruct (build_column_built fuel k D h root t nt t1 h1 B Ht Hund Htr
                (Hreg k ltac:(lia)) H1) as (B1 & nt1 & Ht1 & Hund1 & Htr1).
    replace (D + Z.of_nat (S steps) * step_)%Z
      with (D + step_ + Z.of_nat steps * step_)%Z by lia.
    replace (k + S steps)%nat with (S k + steps)%nat by lia.
    apply (IH (S k) _ h1 t1 nt1 last h' B1 Ht1 Hund1 Htr1); [|exact H].
    intros j Hj. apply Hreg. lia.
Qed.

(** [Tree.make_tree] on a regular trunk. *)
Lemma make_tree_built fuel root last h :
  regular_trunk np_exp timedelta_days tree = true ->
  make_tree np_exp py_pow timedelta_days tree fuel [] = Ok (root, last, h) ->
  built_ (pd + Z.of_nat (Z.to_nat (nb_steps (pricer_parameters tree)))
                 * step_)
         (Z.to_nat (nb_steps (pricer_parameters tree))) h root last.
Proof.
  intros Hreg H. unfold make_tree in H.
  apply andb_true_iff in Hreg. destruct Hreg as [_ Hreg].
  rewrite forallb_forall in Hreg.
  destruct (pruning (pricer_parameters tree)
            && is_none (p_min (pricer_parameters tree))); [discriminate|].
  apply bind_Ok in H. destruct H as (r & h1 & H1 & H).
  apply alloc_Ok in H1. destruct H1 as [-> ->].
  apply bind_Ok in H. destruct H as ([] & h2 & H2 & H).
  apply modify_Ok in H2. destruct H2 as (n2 & Hn2 & ->).
  cbn in Hn2. injection Hn2 as <-. cbn [app length insert] in H.
  apply bind_Ok in H. destruct H as (l & h3 & H3 & H).
  apply ret_Ok in H. destruct H as [Hrl ->].
  injection Hrl as Hroot Hlast. cbn in Hroot. subst root l.
  set (nr := set_p_node 1 (TruncNode_init (s0 (market_data tree)) pd None))
    in *.
  change (<[0%nat := nr]> [TruncNode_init (s0 (market_data tree)) pd None])
    with [nr] in H3.
  assert (Look : forall q n, [nr] !! q = Some n -> q = 0%nat /\ n = nr).
  { intros [|q] n Hn; cbn in Hn; [|discriminate].
    injection Hn as <-. now split. }
  assert (B0 : built_ pd 0 [nr] 0%nat 0%nat).
  { split.
    - intros q n Hn. destruct (Look q n Hn) as [-> ->].
      apply node_wf_fresh; cbn; try reflexivity; try lia;
        apply linked_None.
    - constructor.
    - exists nr. now split.
    - lia.
    - exists (fun _ => 0%Z). intros q n Hn.
      destruct (Look q n Hn) as [-> ->]. cbn. split; discriminate. }
  apply (build_columns_built fuel 0%nat _ 0%nat pd [nr] 0%nat nr last _ B0);
    try reflexivity; [|exact H3].
  intros j Hj. apply Hreg. apply in_seq. lia.
Qed.

End Building.

(** ** Tree.recursive_pricing and Tree.backward_pricing *)

Section PricingMethods.

Variable np_exp : float -> float.
Variable py_pow : float -> Z -> option float.
Variable timedelta_days : float -> Z.

(** X26.  For a tree built by the constructor, when every step takes time
    and the refinement of [find_next_mid] keeps the trunk on the nodes
    [calc_next_mid] creates ([regular_trunk]): if [recursive_pricing] returns
    a price, then [backward_pricing] returns, and returns the very same float
    (NaN when that price is NaN), as soon as its loops are allowed enough
    rounds.  Both methods read the prices [Node.price] caches on one
    lattice. *)
Theorem pricing_methods_agree_on_a_regular_trunk pp mkt opt tree fuel depth v :
  Tree_init np_exp pp mkt opt = Ok tree ->
  regular_trunk np_exp timedelta_days tree = true ->
  recursive_pricing np_exp py_pow timedelta_days tree fuel depth
    = Ok (Some v) ->
  exists W, forall walk, (W <= walk)%nat ->
    backward_pricing np_exp py_pow timedelta_days tree fuel walk depth
      = Ok (Some v).
Proof.
  intros _ Hreg H. unfold recursive_pricing in H.
  destruct ((let* rl := make_tree np_exp py_pow timedelta_days tree fuel in
             price tree depth (fst rl))%M []) as [[v' h1]|e|] eqn:Run;
    [|destruct e; discriminate|discriminate].
  injection H as ->.
  apply bind_Ok in Run. destruct Run as ([root last] & h & Hmk & Hp).
  cbn [fst] in Hp.
  assert (step_pos : (0 < step timedelta_days tree)%Z).
  { apply andb_true_iff in Hreg. destruct Hreg as [Hs _]. lia. }
  pose proof (make_tree_built np_exp py_pow timedelta_days tree step_pos
                fuel root last h Hreg Hmk) as B.
  destruct (pricing_agree timedelta_days tree step_pos _ _ h root last
              depth v h1 B Hp) as (W & HW).
  exists W. intros walk Hwalk. destruct (HW walk Hwalk) as (h' & Hb).
  unfold backward_pricing.
  rewrite (bind_run _ _ [] (root, last) h _ Hmk eq_refl).
  cbn [snd]. now rewrite Hb.
Qed.

End PricingMethods.

(** Six pruned steps with a dividend in the first one. *)
Lemma pricing_methods_agree_witness :
  exists W, forall walk, (W <= walk)%nat ->
    ref_backward 30 walk 30 Sample.pruned_dividend_tree
      = Ok (Some 11.160959950378107%float).
Proof.
  apply (pricing_methods_agree_on_a_regular_trunk Ref.exp Ref.pow_np
           Ref.timedelta_days Sample.six_steps_pruned Sample.dividend_market
           Sample.call_2026 Sample.pruned_dividend_tree 30 30);
    vm_compute; reflexivity.
Defined.

(** C1 (evaluation at the failing input).  For a contract that expires at
    noon on the valuation date the constructor finds no whole day:
    [delta_t = 0], so [alpha = 1] and the step is empty.  [probas] on the
    root divides zero by zero and the two assertions let the NaN
    probabilities through; [recursive_pricing] weighs the payoffs with them
    and returns NaN.  [backward_pricing] never enters its loop, because the
    last trunk node is dated like the root, and returns the payoff at that
    node, [10.0], not a price of the root.  The two results are not within
    [1e-9] of each other. *)
Theorem C1_pricing_methods_disagree_at_noon_maturity :
  let t := Sample.noon_tree in
  Tree_init Ref.exp Sample.one_step Sample.market Sample.noon_call = Ok t
  /\ (exists h root last nr nl,
        make_tree Ref.exp Ref.pow_np Ref.timedelta_days t 10 []
          = Ok (root, last, h)
        /\ h !! root = Some nr /\ h !! last = Some nl /\ root <> last
        /\ Num.is_nan (p_up nr) = true /\ Num.is_nan (p_mid nr) = true
        /\ Num.is_nan (p_down nr) = true
        /\ date nl = pricing_date Sample.one_step)
  /\ exists r b,
       ref_recursive 10 10 t = Ok (Some r)
       /\ ref_backward 10 10 10 t = Ok (Some b)
       /\ Num.is_nan r = true /\ b = 10%float
       /\ Spec.same_price r b = false.
Proof.
  split; [vm_compute; reflexivity|]. split.
  - eexists _, _, _, _, _. split; [vm_compute; reflexivity|].
    split; [reflexivity|]. split; [reflexivity|]. split; [discriminate|].
    repeat split; vm_compute; reflexivity.
  - eexists _, _. split; [vm_compute; reflexivity|].
    split; [vm_compute; reflexivity|].
    split; [vm_compute; reflexivity|].
    split; vm_compute; reflexivity.
Qed.
(** * Further properties of the code *)

(** ** Floats *)

Lemma ltb_irrefl (x : float) : PrimFloat.ltb x x = false.
Proof.
  rewrite FloatAxioms.ltb_spec. unfold SFltb, SFcompare.
  destruct (Prim2SF x) as [s|s| |s m e].
  - now destruct s.
  - now destruct s.
  - reflexivity.
  - destruct s; rewrite Z.compare_refl, Pos.compare_cont_refl; reflexivity.
Qed.

(** ** core/option.py *)

(** X1.  [Option.payoff] is never negative: for a call and for a put, and
    for every underlying price and strike (infinite or NaN included), the
    comparison [payoff < 0] is false. *)
Theorem payoff_never_negative (o : Option_) (und_price : float) :
  PrimFloat.ltb (payoff o und_price) 0 = false.
Proof.
  unfold payoff, Num.py_max, Num.gtb.
  destruct (call_put o).
  - destruct (PrimFloat.ltb (und_price - K o) 0) eqn:E; [reflexivity|exact E].
  - destruct (PrimFloat.ltb (K o - und_price) 0) eqn:E; [reflexivity|exact E].
Qed.

(** ** core/node.py: Node.price *)

Section PriceProperties.

Variable tree : Tree.

Lemma price_cached d i h n v :
  h !! i = Some n -> opt_price n = Some v ->
  price tree (S d) i h = Ok (v, h).
Proof.
  intros Hn Hv. rewrite price_eq. unfold bind, get. rewrite Hn, Hv.
  reflexivity.
Qed.

Lemma price_stores depth i h v h1 :
  price tree depth i h = Ok (v, h1) ->
  exists n1, h1 !! i = Some n1 /\ opt_price n1 = Some v.
Proof.
  intros H. destruct depth as [|d]; [discriminate|].
  rewrite price_eq in H.
  apply bind_Ok in H. destruct H as (n & ? & Hn & H).
  apply get_Ok in Hn. destruct Hn as [Hn ->].
  destruct (opt_price n) as [v0|] eqn:Hc.
  - apply ret_Ok in H. destruct H as [-> ->]. now exists n.
  - destruct (next_mid n) as [mid|].
    + apply bind_Ok in H. destruct H as (vu & h2 & _ & H).
      apply bind_Ok in H. destruct H as (vd & h3 & _ & H).
      apply bind_Ok in H. destruct H as (vm & h4 & _ & H).
      apply price_store_Ok in H.
      destruct H as (n4 & n' & Hn4 & -> & _ & Hv & _).
      exists n'. split; [|exact Hv].
      apply list_lookup_insert_eq. eapply lookup_lt_Some, Hn4.
    + cbv zeta in H.
      apply bind_Ok in H. destruct H as ([] & h2 & H2 & H).
      apply modify_Ok in H2. destruct H2 as (n2 & Hn2 & ->).
      apply ret_Ok in H. destruct H as [-> ->].
      eexists. split; [apply list_lookup_insert_eq; eapply lookup_lt_Some, Hn2|].
      reflexivity.
Qed.

(** X2.  [Node.price] caches: once a call on a node has returned a
    price, every later call on that node (with room for one call at least)
    returns the same price and leaves all the nodes as they are. *)
Theorem price_is_memoised depth i h v h1 d :
  price tree depth i h = Ok (v, h1) ->
  price tree (S d) i h1 = Ok (v, h1).
Proof.
  intros H. destruct (price_stores depth i h v h1 H) as (n1 & Hn1 & Hv).
  now apply price_cached with (n := n1).
Qed.

Lemma price_or_zero_Ok (f : id -> M float) o h v h' :
  price_or_zero f o h = Ok (v, h') ->
  (o = None /\ v = 0%float /\ h' = h)
  \/ (exists x, o = Some x /\ f x h = Ok (v, h')).
Proof.
  destruct o as [x|]; cbn; intros H.
  - right. now exists x.
  - left. apply ret_Ok in H. destruct H as [-> ->]. now split.
Qed.

Lemma price_keeps_lattice depth : forall i h v h',
  price tree depth i h = Ok (v, h') -> same_lattice h h'.
Proof.
  induction depth as [|d IH]; intros i h v h' H; [discriminate|].
  rewrite price_eq in H.
  apply bind_Ok in H. destruct H as (n & ? & Hn & H).
  apply get_Ok in Hn. destruct Hn as [Hn ->].
  destruct (opt_price n) as [v0|].
  { apply ret_Ok in H. destruct H as [_ ->]. apply same_lattice_refl. }
  destruct (next_mid n) as [mid|].
  - apply bind_Ok in H. destruct H as (vu & h2 & H2 & H).
    apply bind_Ok in H. destruct H as (vd & h3 & H3 & H).
    apply bind_Ok in H. destruct H as (vm & h4 & H4 & H).
    apply price_store_Ok in H.
    destruct H as (n4 & n' & Hn4 & -> & Hs & _).
    assert (E2 : same_lattice h h2).
    { apply price_or_zero_Ok in H2.
      destruct H2 as [(_ & _ & ->)|(x & _ & H2)];
        [apply same_lattice_refl|eapply IH, H2]. }
    assert (E3 : same_lattice h2 h3).
    { apply price_or_zero_Ok in H3.
      destruct H3 as [(_ & _ & ->)|(x & _ & H3)];
        [apply same_lattice_refl|eapply IH, H3]. }
    pose proof (IH _ _ _ _ H4) as E4.
    eapply same_lattice_trans; [exact E2|].
    eapply same_lattice_trans; [exact E3|].
    eapply same_lattice_trans; [exact E4|].
    now apply same_lattice_insert with (n := n4).
  - cbv zeta in H.
    apply bind_Ok in H. destruct H as ([] & h2 & H2 & H).
    apply modify_Ok in H2. destruct H2 as (n2 & Hn2 & ->).
    apply ret_Ok in H. destruct H as [_ ->].
    apply same_lattice_insert with (n := n2); [exact Hn2|].
    apply skeleton_set_opt_price.
Qed.

(** X3.  [Node.price] writes the cache and nothing else: it creates
    no node, and every node comes out with the underlying price, date,
    probabilities, reachability, successors, neighbours and predecessor it
    had; only [opt_price] and [is_exerced] may differ. *)
Theorem price_writes_the_cache_only depth i h v h' :
  price tree depth i h = Ok (v, h') ->
  length h' = length h
  /\ forall j n,
       h !! j = Some n ->
       exists n',
         h' !! j = Some n'
         /\ set_is_exerced (is_exerced n) (set_opt_price (opt_price n) n')
            = n.
Proof.
  intros H. pose proof (price_keeps_lattice _ _ _ _ _ H) as E.
  split; [symmetry; now apply same_lattice_length|].
  intros j n Hn. destruct (same_lattice_lookup _ _ _ _ E Hn) as (n' & Hn' & Hs).
  exists n'. split; [exact Hn'|].
  destruct n, n'. unfold skeleton in Hs. cbn in *. inversion Hs.
  reflexivity.
Qed.

(** X4.  Early exercise: for an American option, the price that
    [Node.price] computes for a node not yet priced is never below the
    payoff of immediate exercise at that node. *)
Theorem american_price_is_not_below_exercise depth i h n v h' :
  is_american (option_data tree) = true ->
  h !! i = Some n -> opt_price n = None ->
  price tree depth i h = Ok (v, h') ->
  PrimFloat.ltb v (payoff (option_data tree) (und_price n)) = false.
Proof.
  intros Ham Hn Hc H. destruct depth as [|d]; [discriminate|].
  rewrite price_eq in H.
  apply bind_Ok in H. destruct H as (n0 & ? & Hn0 & H).
  apply get_Ok in Hn0. destruct Hn0 as [Hn0 ->]. same_node Hn.
  rewrite Hc in H. destruct (next_mid n) as [mid|].
  - apply bind_Ok in H. destruct H as (vu & h2 & H2 & H).
    apply bind_Ok in H. destruct H as (vd & h3 & H3 & H).
    apply bind_Ok in H. destruct H as (vm & h4 & H4 & H).
    apply price_store_Ok in H.
    destruct H as (n4 & n' & Hn4 & -> & _ & _ & ->).
    assert (E : same_lattice h h4).
    { eapply same_lattice_trans; [|eapply price_keeps_lattice, H4].
      apply price_or_zero_Ok in H2, H3.
      destruct H2 as [(_ & _ & ->)|(x & _ & H2)];
        destruct H3 as [(_ & _ & ->)|(y & _ & H3)];
        repeat first [apply same_lattice_refl
                     |eapply price_keeps_lattice; eassumption
                     |eapply same_lattice_trans;
                      [eapply price_keeps_lattice; eassumption|]]. }
    destruct (same_lattice_lookup _ _ _ _ E Hn) as (n4' & Hn4' & Hs).
    same_node Hn4. apply skeleton_fields in Hs. destruct Hs as (<- & _).
    unfold node_value. rewrite Ham. cbn [andb]. unfold Num.gtb.
    match goal with
    | |- context [if PrimFloat.ltb ?a ?b then _ else _] =>
        destruct (PrimFloat.ltb a b) eqn:Hlt
    end; [apply ltb_irrefl|exact Hlt].
  - cbv zeta in H.
    apply bind_Ok in H. destruct H as ([] & h2 & _ & H).
    apply ret_Ok in H. destruct H as [-> _]. apply ltb_irrefl.
Qed.

Lemma reprice_trans (h1 h2 h3 : heap) :
  (forall j n, h1 !! j = Some n ->
     exists n', h2 !! j = Some n' /\ set_opt_price (opt_price n) n' = n) ->
  (forall j n, h2 !! j = Some n ->
     exists n', h3 !! j = Some n' /\ set_opt_price (opt_price n) n' = n) ->
  forall j n, h1 !! j = Some n ->
    exists n', h3 !! j = Some n' /\ set_opt_price (opt_price n) n' = n.
Proof.
  intros R12 R23 j n Hn. destruct (R12 j n Hn) as (n2 & Hn2 & E2).
  destruct (R23 j n2 Hn2) as (n3 & Hn3 & E3). exists n3.
  split; [exact Hn3|]. rewrite <- E2, <- E3. reflexivity.
Qed.

Lemma reprice_insert (h : heap) i ni v :
  h !! i = Some ni ->
  forall j n, h !! j = Some n ->
    exists n', <[i := set_opt_price v ni]> h !! j = Some n'
               /\ set_opt_price (opt_price n) n' = n.
Proof.
  intros Hi j n Hn. destruct (decide (i = j)) as [<-|Hne].
  - same_node Hi. eexists.
    split; [apply list_lookup_insert_eq; eapply lookup_lt_Some, Hi|].
    now destruct ni.
  - exists n. rewrite list_lookup_insert_ne by exact Hne.
    split; [exact Hn|now destruct n].
Qed.

Lemma european_price_frame depth : forall i h v h',
  is_american (option_data tree) = false ->
  price tree depth i h = Ok (v, h') ->
  forall j n, h !! j = Some n ->
    exists n', h' !! j = Some n' /\ set_opt_price (opt_price n) n' = n.
Proof.
  induction depth as [|d IH]; intros i h v h' Heu H; [discriminate|].
  assert (Refl : forall (h0 : heap) j n, h0 !! j = Some n ->
            exists n', h0 !! j = Some n'
                       /\ set_opt_price (opt_price n) n' = n)
    by (intros h0 j n Hn; exists n; split; [exact Hn|now destruct n]).
  assert (Sub : forall o h1 w h2,
            price_or_zero (price tree d) o h1 = Ok (w, h2) ->
            forall j n, h1 !! j = Some n ->
              exists n', h2 !! j = Some n'
                         /\ set_opt_price (opt_price n) n' = n).
  { intros o h1 w h2 Ho. apply price_or_zero_Ok in Ho.
    destruct Ho as [(_ & _ & ->)|(x & _ & Ho)];
      [apply Refl|exact (IH _ _ _ _ Heu Ho)]. }
  rewrite price_eq in H.
  apply bind_Ok in H. destruct H as (n & ? & Hn & H).
  apply get_Ok in Hn. destruct Hn as [Hn ->].
  destruct (opt_price n) as [v0|].
  { apply ret_Ok in H. destruct H as [_ ->]. apply Refl. }
  destruct (next_mid n) as [mid|].
  - apply bind_Ok in H. destruct H as (vu & h2 & H2 & H).
    apply bind_Ok in H. destruct H as (vd & h3 & H3 & H).
    apply bind_Ok in H. destruct H as (vm & h4 & H4 & H).
    unfold price_store in H. rewrite Heu in H. cbn [andb] in H.
    apply bind_Ok in H. destruct H as (n4 & ? & Hn4 & H).
    apply get_Ok in Hn4. destruct Hn4 as [Hn4 ->]. cbv zeta in H.
    apply bind_Ok in H. destruct H as ([] & h5 & H5 & H).
    apply modify_Ok in H5. destruct H5 as (n5 & Hn5 & ->).
    apply ret_Ok in H. destruct H as [_ ->].
    eapply reprice_trans; [exact (Sub _ _ _ _ H2)|].
    eapply reprice_trans; [exact (Sub _ _ _ _ H3)|].
    eapply reprice_trans; [exact (IH _ _ _ _ Heu H4)|].
    now apply reprice_insert.
  - cbv zeta in H.
    apply bind_Ok in H. destruct H as ([] & h2 & H2 & H).
    apply modify_Ok in H2. destruct H2 as (n2 & Hn2 & ->).
    apply ret_Ok in H. destruct H as [_ ->].
    now apply reprice_insert.
Qed.

(** X5.  Pricing a European option never marks a node as
    exercised: after [Node.price], every node is as it was, its cached price
    apart. *)
Theorem european_price_never_exercises depth i h v h' :
  is_american (option_data tree) = false ->
  price tree depth i h = Ok (v, h') ->
  forall j n,
    h !! j = Some n ->
    exists n',
      h' !! j = Some n' /\ is_exerced n' = is_exerced n
      /\ set_opt_price (opt_price n) n' = n.
Proof.
  intros Heu H j n Hn.
  destruct (european_price_frame depth i h v h' Heu H j n Hn)
    as (n' & Hn' & E).
  exists n'. split; [exact Hn'|]. split; [|exact E].
  rewrite <- E. reflexivity.
Qed.

End PriceProperties.

Lemma price_is_memoised_witness :
  exists v h1,
    price Sample.three_step_tree 4 0
      (Sample.lattice_of Sample.three_step_tree) = Ok (v, h1)
    /\ price Sample.three_step_tree 1 0 h1 = Ok (v, h1).
Proof.
  eexists _, _. split; [vm_compute; reflexivity|].
  apply (price_is_memoised Sample.three_step_tree 4 0
           (Sample.lattice_of Sample.three_step_tree) _ _ 0).
  vm_compute; reflexivity.
Defined.

Lemma price_writes_the_cache_only_witness :
  exists v h',
    price Sample.american_tree 4 0
      (Sample.lattice_of Sample.american_tree) = Ok (v, h')
    /\ length h' = length (Sample.lattice_of Sample.american_tree)
    /\ forall j n,
         Sample.lattice_of Sample.american_tree !! j = Some n ->
         exists n',
           h' !! j = Some n'
           /\ set_is_exerced (is_exerced n) (set_opt_price (opt_price n) n')
              = n.
Proof.
  eexists _, _. split; [vm_compute; reflexivity|].
  eapply (price_writes_the_cache_only Sample.american_tree 4 0
            (Sample.lattice_of Sample.american_tree)).
  vm_compute; reflexivity.
Defined.

Lemma american_price_is_not_below_exercise_witness :
  exists v h',
    price Sample.american_tree 4 0
      (Sample.lattice_of Sample.american_tree) = Ok (v, h')
    /\ PrimFloat.ltb v
         (payoff (option_data Sample.american_tree)
            (und_price
               (Sample.node_at (Sample.lattice_of Sample.american_tree) 0)))
       = false.
Proof.
  eexists _, _. split; [vm_compute; reflexivity|].
  match goal with
  | |- PrimFloat.ltb ?v _ = _ =>
      refine (american_price_is_not_below_exercise Sample.american_tree 4 0
                (Sample.lattice_of Sample.american_tree)
                (Sample.node_at (Sample.lattice_of Sample.american_tree) 0)
                v _ _ _ _ _)
  end; vm_compute; reflexivity.
Defined.

Lemma european_price_never_exercises_witness :
  exists v h',
    price Sample.three_step_tree 4 0
      (Sample.lattice_of Sample.three_step_tree) = Ok (v, h')
    /\ forall j n,
         Sample.lattice_of Sample.three_step_tree !! j = Some n ->
         exists n',
           h' !! j = Some n' /\ is_exerced n' = is_exerced n
           /\ set_opt_price (opt_price n) n' = n.
Proof.
  eexists _, _. split; [vm_compute; reflexivity|].
  refine (european_price_never_exercises Sample.three_step_tree 4 0
            (Sample.lattice_of Sample.three_step_tree) _ _ _ _);
    vm_compute; reflexivity.
Defined.

(** ** core/node.py: what Node.price computes *)

Section PriceValue.

Variable tree : Tree.

(** X6.  The cache is transparent: on a lattice where no node is
    priced yet, the price [Node.price] returns for a node is its
    backward-induction value [value], the payoff at a node without middle
    successor and otherwise the discounted expectation over the three
    successors (a missing outer successor counting for [0.0]), raised to the
    payoff where an American option is better exercised. *)
Theorem price_is_the_backward_induction_value depth i h v h' :
  forallb (fun n => is_none (opt_price n)) h = true ->
  price tree depth i h = Ok (v, h') ->
  exists d, value tree d h i = Some v.
Proof.
  intros Hfresh H. rewrite forallb_forall in Hfresh.
  assert (Cs : cache_sound tree h).
  { intros j n w Hn Hw.
    assert (Hin : In n h)
      by (eapply list_elem_of_In, list_elem_of_lookup_2, Hn).
    specialize (Hfresh n Hin). rewrite Hw in Hfresh. discriminate. }
  destruct (price_spec tree depth i h v h' Cs H) as (_ & _ & Hv & _).
  exact Hv.
Qed.

End PriceValue.

Lemma price_is_the_backward_induction_value_witness :
  exists d,
    value Sample.american_tree d (Sample.lattice_of Sample.american_tree) 0
    = Some 6.9367612146582625%float.
Proof.
  refine (price_is_the_backward_induction_value Sample.american_tree 4 0
            (Sample.lattice_of Sample.american_tree) _ _ _ _).
  - vm_compute; reflexivity.
  - vm_compute; reflexivity.
Defined.

(** ** core/node.py: neighbours of a node *)

Section NeighbourProperties.

Variable tree : Tree.

Open Scope float_scope.

Lemma calc_up_node_created c h n u h1 :
  h !! c = Some n -> up_node n = None ->
  calc_up_node tree c h = Ok (u, h1) ->
  u = length h
  /\ h1 = <[c := set_up_node (Some (length h)) n]>
            (h ++ [set_down_node (Some c)
                     (Node_init (und_price n * alpha tree) (date n))]).
Proof.
  intros Hn Hup H. unfold calc_up_node in H.
  apply bind_Ok in H. destruct H as (n0 & ? & Hn0 & H).
  apply get_Ok in Hn0. destruct Hn0 as [Hn0 ->]. same_node Hn.
  rewrite Hup in H.
  apply bind_Ok in H. destruct H as (u0 & h2 & Ha & H).
  apply alloc_Ok in Ha. destruct Ha as [-> ->].
  apply bind_Ok in H. destruct H as ([] & h3 & Hm & H).
  apply modify_Ok in Hm. destruct Hm as (n3 & Hn3 & ->).
  apply ret_Ok in H. destruct H as [-> ->].
  rewrite lookup_app_l in Hn3 by (eapply lookup_lt_Some, Hn).
  same_node Hn. now split.
Qed.

Lemma calc_down_node_created c h n d h1 :
  h !! c = Some n -> down_node n = None ->
  calc_down_node tree c h = Ok (d, h1) ->
  d = length h
  /\ h1 = <[c := set_down_node (Some (length h)) n]>
            (h ++ [set_up_node (Some c)
                     (Node_init (und_price n / alpha tree) (date n))]).
Proof.
  intros Hn Hdn H. unfold calc_down_node in H.
  apply bind_Ok in H. destruct H as (n0 & ? & Hn0 & H).
  apply get_Ok in Hn0. destruct Hn0 as [Hn0 ->]. same_node Hn.
  rewrite Hdn in H.
  apply bind_Ok in H. destruct H as (u0 & h2 & Ha & H).
  apply alloc_Ok in Ha. destruct Ha as [-> ->].
  apply bind_Ok in H. destruct H as ([] & h3 & Hm & H).
  apply modify_Ok in Hm. destruct Hm as (n3 & Hn3 & ->).
  apply ret_Ok in H. destruct H as [-> ->].
  rewrite lookup_app_l in Hn3 by (eapply lookup_lt_Some, Hn).
  same_node Hn. now split.
Qed.

(** X7.  When [calc_up_node] has to create the upper neighbour of
    a node, the node created holds the price multiplied by [alpha] on the
    same date, going down from it leads back to the node, and asking again
    for the upper neighbour returns the node created; nothing else is
    created or changed by these two calls.  The same holds for
    [calc_down_node], with the price divided by [alpha]. *)
Theorem created_neighbour_round_trip c h n :
  h !! c = Some n ->
  (up_node n = None ->
   forall u h1, calc_up_node tree c h = Ok (u, h1) ->
     calc_down_node tree u h1 = Ok (c, h1)
     /\ calc_up_node tree c h1 = Ok (u, h1)
     /\ length h1 = S (length h)
     /\ exists nu, h1 !! u = Some nu
                   /\ und_price nu = und_price n * alpha tree
                   /\ date nu = date n)
  /\ (down_node n = None ->
      forall d h1, calc_down_node tree c h = Ok (d, h1) ->
        calc_up_node tree d h1 = Ok (c, h1)
        /\ calc_down_node tree c h1 = Ok (d, h1)
        /\ length h1 = S (length h)
        /\ exists nd, h1 !! d = Some nd
                      /\ und_price nd = und_price n / alpha tree
                      /\ date nd = date n).
Proof.
  intros Hn. pose proof (lookup_lt_Some _ _ _ Hn) as Hlt. split.
  - intros Hup u h1 H.
    destruct (calc_up_node_created c h n u h1 Hn Hup H) as [-> ->].
    assert (Hu : forall x y, <[c := x]> (h ++ [y]) !! length h = Some y).
    { intros x y. rewrite lookup_created by exact Hlt.
      destruct (decide (length h = c)); [lia|].
      now destruct (decide (length h = length h)). }
    assert (Hc : forall x y, <[c := x]> (h ++ [y]) !! c = Some x).
    { intros x y. rewrite lookup_created by exact Hlt.
      now destruct (decide (c = c)). }
    split; [|split; [|split]].
    + unfold calc_down_node, bind, get. rewrite Hu. reflexivity.
    + unfold calc_up_node, bind, get. rewrite Hc. reflexivity.
    + rewrite length_insert, length_app. cbn. lia.
    + eexists. split; [apply Hu|]. now split.
  - intros Hdn d h1 H.
    destruct (calc_down_node_created c h n d h1 Hn Hdn H) as [-> ->].
    assert (Hu : forall x y, <[c := x]> (h ++ [y]) !! length h = Some y).
    { intros x y. rewrite lookup_created by exact Hlt.
      destruct (decide (length h = c)); [lia|].
      now destruct (decide (length h = length h)). }
    assert (Hc : forall x y, <[c := x]> (h ++ [y]) !! c = Some x).
    { intros x y. rewrite lookup_created by exact Hlt.
      now destruct (decide (c = c)). }
    split; [|split; [|split]].
    + unfold calc_up_node, bind, get. rewrite Hu. reflexivity.
    + unfold calc_down_node, bind, get. rewrite Hc. reflexivity.
    + rewrite length_insert, length_app. cbn. lia.
    + eexists. split; [apply Hu|]. now split.
Qed.

End NeighbourProperties.

Lemma created_neighbour_round_trip_witness :
  let h := [Sample.root_node] in
  (up_node Sample.root_node = None ->
   forall u h1, calc_up_node Sample.three_step_tree 0 h = Ok (u, h1) ->
     calc_down_node Sample.three_step_tree u h1 = Ok (0%nat, h1)
     /\ calc_up_node Sample.three_step_tree 0 h1 = Ok (u, h1)
     /\ length h1 = S (length h)
     /\ exists nu, h1 !! u = Some nu
                   /\ und_price nu
                      = (und_price Sample.root_node
                         * alpha Sample.three_step_tree)%float
                   /\ date nu = date Sample.root_node)
  /\ (down_node Sample.root_node = None ->
      forall d h1, calc_down_node Sample.three_step_tree 0 h = Ok (d, h1) ->
        calc_up_node Sample.three_step_tree d h1 = Ok (0%nat, h1)
        /\ calc_down_node Sample.three_step_tree 0 h1 = Ok (d, h1)
        /\ length h1 = S (length h)
        /\ exists nd, h1 !! d = Some nd
                      /\ und_price nd
                         = (und_price Sample.root_node
                            / alpha Sample.three_step_tree)%float
                      /\ date nd = date Sample.root_node).
Proof.
  apply (created_neighbour_round_trip Sample.three_step_tree 0
           [Sample.root_node] Sample.root_node).
  reflexivity.
Defined.

(** ** core/node.py: Node.find_next_mid *)

Section MiddleSearch.

Variable np_exp : float -> float.
Variable py_pow : float -> Z -> option float.
Variable timedelta_days : float -> Z.
Variable tree : Tree.

Open Scope float_scope.

Lemma walk_down_stops fuel forward : forall c h c' h',
  walk_down tree fuel forward c h = Ok (c', h') ->
  exists n',
    h' !! c' = Some n'
    /\ PrimFloat.leb forward
         ((und_price n' + und_price n' / alpha tree) / 2) = false.
Proof.
  induction fuel as [|fuel IH]; intros c h c' h' H; [discriminate|].
  cbn [walk_down] in H.
  apply bind_Ok in H. destruct H as (n & ? & Hn & H).
  apply get_Ok in Hn. destruct Hn as [Hn ->].
  destruct (PrimFloat.leb forward
              ((und_price n + und_price n / alpha tree) / 2)) eqn:Hle.
  - apply bind_Ok in H. destruct H as (d & h1 & _ & H). exact (IH _ _ _ _ H).
  - apply ret_Ok in H. destruct H as [-> ->]. now exists n.
Qed.

(** X8.  When [find_next_mid] returns, the node it returns is the
    middle successor of the node it was called on, and the forward price of
    that node is not at or below the midpoint between the price of the node
    returned and the price one notch lower, [(s + s / alpha) / 2]. *)
Theorem find_next_mid_stops_above_the_lower_midpoint fuel self cand h n c h' :
  h !! self = Some n ->
  find_next_mid np_exp py_pow timedelta_days tree fuel self cand h
    = Ok (c, h') ->
  exists ns nc,
    h' !! self = Some ns /\ next_mid ns = Some c
    /\ h' !! c = Some nc
    /\ PrimFloat.leb (expected_value np_exp timedelta_days tree n)
         ((und_price nc + und_price nc / alpha tree) / 2) = false.
Proof.
  intros Hs H. unfold find_next_mid in H.
  apply bind_Ok in H. destruct H as (n0 & ? & Hn0 & H).
  apply get_Ok in Hn0. destruct Hn0 as [Hn0 ->]. same_node Hs.
  apply bind_Ok in H. destruct H as (fv & ? & Hfv & H).
  apply lift_Ok in Hfv. destruct Hfv as [Hfv ->].
  apply forward_variance_fst in Hfv. cbv zeta in H. rewrite Hfv in H.
  apply bind_Ok in H. destruct H as (c1 & h1 & _ & H).
  apply bind_Ok in H. destruct H as (c2 & h2 & H2 & H).
  apply bind_Ok in H. destruct H as ([] & h3 & H3 & H).
  apply ret_Ok in H. destruct H as [-> ->].
  apply modify_Ok in H3. destruct H3 as (ns & Hns & ->).
  destruct (walk_down_stops _ _ _ _ _ _ H2) as (nc & Hnc & Hle).
  pose proof (lookup_lt_Some _ _ _ Hns) as Hlt.
  exists (set_next_mid (Some c2) ns).
  destruct (decide (self = c2)) as [<-|Hne].
  - same_node Hns. exists (set_next_mid (Some self) ns).
    rewrite list_lookup_insert_eq by exact Hlt. now repeat split.
  - exists nc. rewrite list_lookup_insert_eq by exact Hlt.
    rewrite list_lookup_insert_ne by exact Hne. now repeat split.
Qed.

End MiddleSearch.

Lemma find_next_mid_witness :
  exists ns nc h',
    find_next_mid Ref.exp Ref.pow_np Ref.timedelta_days Sample.dividend_tree
      10 0 1 (Sample.two_nodes 100) = Ok (1%nat, h')
    /\ h' !! 0%nat = Some ns /\ next_mid ns = Some 1%nat
    /\ h' !! 1%nat = Some nc
    /\ PrimFloat.leb
         (expected_value Ref.exp Ref.timedelta_days Sample.dividend_tree
            Sample.root_with_mid)
         ((und_price nc + und_price nc / alpha Sample.dividend_tree) / 2)
       = false.
Proof.
  assert (H : exists h',
             find_next_mid Ref.exp Ref.pow_np Ref.timedelta_days
               Sample.dividend_tree 10 0 1 (Sample.two_nodes 100)
             = Ok (1%nat, h'))
    by (eexists; vm_compute; reflexivity).
  destruct H as (h' & H).
  destruct (find_next_mid_stops_above_the_lower_midpoint Ref.exp Ref.pow_np
              Ref.timedelta_days Sample.dividend_tree 10 0 1
              (Sample.two_nodes 100) Sample.root_with_mid 1 h' eq_refl H)
    as (ns & nc & W).
  exists ns, nc, h'. split; [exact H|exact W].
Defined.

(** ** core/node.py: Node.find_next_mid on a candidate that fits *)

Section MiddleFits.

Variable np_exp : float -> float.
Variable py_pow : float -> Z -> option float.
Variable timedelta_days : float -> Z.
Variable tree : Tree.

Open Scope float_scope.

(** X9.  When the forward price of a node lies strictly between the
    two midpoints around the candidate, [(s + s / alpha) / 2] and
    [(s + s * alpha) / 2], [find_next_mid] returns the candidate at once: it
    becomes the middle successor, and no node is created or changed
    otherwise. *)
Theorem find_next_mid_keeps_a_candidate_that_fits fuel self cand h n nc fv :
  h !! self = Some n -> h !! cand = Some nc ->
  forward_variance np_exp py_pow timedelta_days tree n = Ok fv ->
  Num.geb (fst fv) ((und_price nc + und_price nc * alpha tree) / 2) = false ->
  PrimFloat.leb (fst fv) ((und_price nc + und_price nc / alpha tree) / 2)
  = false ->
  find_next_mid np_exp py_pow timedelta_days tree (S fuel) self cand h
  = Ok (cand, <[self := set_next_mid (Some cand) n]> h).
Proof.
  intros Hs Hc Hfv Hup Hdown.
  unfold find_next_mid, bind, get, lift. rewrite Hs, Hfv. cbv zeta.
  cbn [walk_up walk_down]. unfold bind, get, ret. rewrite Hc, Hup, Hc, Hdown.
  unfold modify. now rewrite Hs.
Qed.

End MiddleFits.

Lemma find_next_mid_keeps_a_candidate_witness :
  find_next_mid Ref.exp Ref.pow_np Ref.timedelta_days Sample.dividend_tree
    1 0 1 (Sample.two_nodes 100)
  = Ok (1%nat,
        <[0%nat := set_next_mid (Some 1%nat) Sample.root_with_mid]>
          (Sample.two_nodes 100)).
Proof.
  eapply (find_next_mid_keeps_a_candidate_that_fits Ref.exp Ref.pow_np
            Ref.timedelta_days Sample.dividend_tree 0 0 1
            (Sample.two_nodes 100) Sample.root_with_mid);
    vm_compute; reflexivity.
Defined.

(** ** core/node.py: Node.calc_next_mid and the node it creates *)

Section MiddleCreation.

Variable np_exp : float -> float.
Variable py_pow : float -> Z -> option float.
Variable timedelta_days : float -> Z.
Variable tree : Tree.

Lemma calc_up_node_grows c h u h' :
  calc_up_node tree c h = Ok (u, h') -> (length h <= length h')%nat.
Proof.
  unfold calc_up_node. intros H.
  apply bind_Ok in H. destruct H as (n & ? & Hn & H).
  apply get_Ok in Hn. destruct Hn as [Hn ->].
  destruct (up_node n).
  - apply ret_Ok in H. destruct H as [_ ->]. lia.
  - apply bind_Ok in H. destruct H as (x & h1 & Ha & H).
    apply alloc_Ok in Ha. destruct Ha as [-> ->].
    apply bind_Ok in H. destruct H as ([] & h2 & Hm & H).
    apply modify_Ok in Hm. destruct Hm as (m & _ & ->).
    apply ret_Ok in H. destruct H as [_ ->].
    rewrite length_insert, length_app. lia.
Qed.

Lemma calc_down_node_grows c h u h' :
  calc_down_node tree c h = Ok (u, h') -> (length h <= length h')%nat.
Proof.
  unfold calc_down_node. intros H.
  apply bind_Ok in H. destruct H as (n & ? & Hn & H).
  apply get_Ok in Hn. destruct Hn as [Hn ->].
  destruct (down_node n).
  - apply ret_Ok in H. destruct H as [_ ->]. lia.
  - apply bind_Ok in H. destruct H as (x & h1 & Ha & H).
    apply alloc_Ok in Ha. destruct Ha as [-> ->].
    apply bind_Ok in H. destruct H as ([] & h2 & Hm & H).
    apply modify_Ok in Hm. destruct Hm as (m & _ & ->).
    apply ret_Ok in H. destruct H as [_ ->].
    rewrite length_insert, length_app. lia.
Qed.

Lemma walk_up_grows fuel forward : forall c h c' h',
  walk_up tree fuel forward c h = Ok (c', h') -> (length h <= length h')%nat.
Proof.
  induction fuel as [|fuel IH]; intros c h c' h' H; [discriminate|].
  cbn [walk_up] in H.
  apply bind_Ok in H. destruct H as (n & ? & Hn & H).
  apply get_Ok in Hn. destruct Hn as [Hn ->].
  destruct (Num.geb _ _).
  - apply bind_Ok in H. destruct H as (u & h1 & H1 & H).
    apply calc_up_node_grows in H1. apply IH in H. lia.
  - apply ret_Ok in H. destruct H as [_ ->]. lia.
Qed.

Lemma walk_down_grows fuel forward : forall c h c' h',
  walk_down tree fuel forward c h = Ok (c', h') ->
  (length h <= length h')%nat.
Proof.
  induction fuel as [|fuel IH]; intros c h c' h' H; [discriminate|].
  cbn [walk_down] in H.
  apply bind_Ok in H. destruct H as (n & ? & Hn & H).
  apply get_Ok in Hn. destruct Hn as [Hn ->].
  destruct (PrimFloat.leb _ _).
  - apply bind_Ok in H. destruct H as (u & h1 & H1 & H).
    apply calc_down_node_grows in H1. apply IH in H. lia.
  - apply ret_Ok in H. destruct H as [_ ->]. lia.
Qed.

Lemma find_next_mid_grows fuel self c h c' h' :
  find_next_mid np_exp py_pow timedelta_days tree fuel self c h
    = Ok (c', h') ->
  (length h <= length h')%nat.
Proof.
  unfold find_next_mid. intros H.
  apply bind_Ok in H. destruct H as (n & ? & Hn & H).
  apply get_Ok in Hn. destruct Hn as [Hn ->].
  apply bind_Ok in H. destruct H as (fv & ? & Hfv & H).
  apply lift_Ok in Hfv. destruct Hfv as [Hfv ->]. cbv zeta in H.
  apply bind_Ok in H. destruct H as (c1 & h1 & H1 & H).
  apply bind_Ok in H. destruct H as (c2 & h2 & H2 & H).
  apply bind_Ok in H. destruct H as ([] & h3 & H3 & H).
  apply ret_Ok in H. destruct H as [_ ->].
  apply modify_Ok in H3. destruct H3 as (m & _ & ->).
  apply walk_up_grows in H1. apply walk_down_grows in H2.
  rewrite length_insert. lia.
Qed.

(** X10.  [calc_next_mid] keeps the middle successor a node has only
    outside a dividend period: there it returns it and touches nothing.  In
    a dividend period it creates a node each time it is called, even when
    the node has a middle successor and a candidate is given. *)
Theorem calc_next_mid_reuses_the_successor_outside_dividend_periods
    fuel self cand h n m :
  h !! self = Some n -> next_mid n = Some m ->
  (dividend_period timedelta_days tree n = false ->
   calc_next_mid np_exp py_pow timedelta_days tree fuel self cand h
   = Ok (Some m, h))
  /\ (dividend_period timedelta_days tree n = true ->
      forall o h',
        calc_next_mid np_exp py_pow timedelta_days tree fuel self cand h
        = Ok (o, h') ->
        (length h < length h')%nat).
Proof.
  intros Hn Hmid. split.
  - intros Hdiv. unfold calc_next_mid, bind, get, ret.
    rewrite Hn, Hmid, Hdiv. cbn. now rewrite Hn, Hmid.
  - intros Hdiv o h' H. unfold calc_next_mid in H.
    apply bind_Ok in H. destruct H as (n0 & ? & Hn0 & H).
    apply get_Ok in Hn0. destruct Hn0 as [Hn0 ->]. same_node Hn.
    rewrite Hdiv, orb_true_r in H.
    apply bind_Ok in H. destruct H as ([] & h1 & H1 & H).
    apply bind_Ok in H. destruct H as (n1 & ? & Hn1 & H).
    apply get_Ok in Hn1. destruct Hn1 as [Hn1 ->].
    apply ret_Ok in H. destruct H as [_ ->].
    apply bind_Ok in H1. destruct H1 as (fv & ? & Hfv & H1).
    apply lift_Ok in Hfv. destruct Hfv as [Hfv ->]. cbv zeta in H1.
    apply bind_Ok in H1. destruct H1 as (x & h2 & Ha & H1).
    apply alloc_Ok in Ha. destruct Ha as [-> ->].
    apply bind_Ok in H1. destruct H1 as ([] & h3 & H3 & H1).
    apply modify_Ok in H3. destruct H3 as (n3 & _ & ->).
    apply bind_Ok in H1. destruct H1 as (c' & h4 & H4 & H1).
    apply ret_Ok in H1. destruct H1 as [_ ->].
    apply find_next_mid_grows in H4.
    rewrite length_insert, length_app in H4. cbn in H4. lia.
Qed.

End MiddleCreation.

Lemma calc_next_mid_reuses_witness :
  (dividend_period Ref.timedelta_days Sample.dividend_tree
     Sample.root_with_mid = false ->
   calc_next_mid Ref.exp Ref.pow_np Ref.timedelta_days Sample.dividend_tree
     10 0 None (Sample.two_nodes 100)
   = Ok (Some 1%nat, Sample.two_nodes 100))
  /\ (dividend_period Ref.timedelta_days Sample.dividend_tree
        Sample.root_with_mid = true ->
      forall o h',
        calc_next_mid Ref.exp Ref.pow_np Ref.timedelta_days
          Sample.dividend_tree 10 0 None (Sample.two_nodes 100)
        = Ok (o, h') ->
        (length (Sample.two_nodes 100) < length h')%nat).
Proof.
  apply (calc_next_mid_reuses_the_successor_outside_dividend_periods
           Ref.exp Ref.pow_np Ref.timedelta_days Sample.dividend_tree
           10 0 None (Sample.two_nodes 100) Sample.root_with_mid 1);
    reflexivity.
Defined.

(** ** core/market.py with Node.dividend_period *)

Section NoDividend.

Variable np_exp : float -> float.
Variable timedelta_days : float -> Z.

Open Scope float_scope.

Lemma Market_init_far_future s r v d ex m :
  PrimFloat.eqb d 0 = true \/ ex = None ->
  Market_init s r v d ex = Ok m ->
  ex_div_date m = Time.far_future /\ rate m = r.
Proof.
  intros Hno H. unfold Market_init in H.
  destruct (PrimFloat.ltb s 0 || PrimFloat.ltb v 0); [discriminate|].
  injection H as <-. cbn. split; [|reflexivity].
  destruct Hno as [Hd| ->]; [|reflexivity].
  rewrite Hd. now destruct ex.
Qed.

(** X11.  A market built with a zero dividend amount, or without
    an ex-dividend date, gets the ex-date 2099-12-31 whatever was passed;
    so for every node whose step ends a tolerance before that day, the step
    is no dividend period and the forward price that [forward_variance]
    uses is the pure forward [S * exp(rate * delta_t)]. *)
Theorem market_without_dividend_has_no_dividend_step
    s r v d ex m tree n :
  PrimFloat.eqb d 0 = true \/ ex = None ->
  Market_init s r v d ex = Ok m ->
  market_data tree = m ->
  (next_date timedelta_days tree (date n) + dividend_tol tree
   <= Time.far_future)%Z ->
  dividend_period timedelta_days tree n = false
  /\ expected_value np_exp timedelta_days tree n
     = und_price n * np_exp (r * delta_t tree).
Proof.
  intros Hno Hm Htree Hdate.
  destruct (Market_init_far_future _ _ _ _ _ _ Hno Hm) as [Hex Hr].
  assert (Hdiv : dividend_period timedelta_days tree n = false).
  { rewrite dividend_period_interval. unfold Spec.in_step_within.
    rewrite Htree, Hex.
    destruct (Z.ltb_spec Time.far_future
                (next_date timedelta_days tree (date n)
                 + dividend_tol tree)); [lia|].
    apply andb_false_r. }
  split; [exact Hdiv|].
  unfold expected_value. rewrite Hdiv, Htree, Hr. reflexivity.
Qed.

End NoDividend.

Lemma market_without_dividend_witness :
  dividend_period Ref.timedelta_days Sample.three_step_tree Sample.root_node
  = false
  /\ expected_value Ref.exp Ref.timedelta_days Sample.three_step_tree
       Sample.root_node
     = (und_price Sample.root_node
        * Ref.exp (0.01 * delta_t Sample.three_step_tree))%float.
Proof.
  refine (market_without_dividend_has_no_dividend_step Ref.exp
            Ref.timedelta_days 100 0.01 0.2 0 (Some Sample.d2026)
            Sample.market Sample.three_step_tree Sample.root_node
            (or_introl eq_refl) eq_refl eq_refl _).
  apply Z.leb_le. vm_compute. reflexivity.
Defined.

(** ** core/node.py: the step that holds the ex-dividend date *)

Section DividendStep.

Variable timedelta_days : float -> Z.
Variable tree : Tree.

Local Abbreviation step_ := (step timedelta_days tree).
Local Abbreviation pd := (pricing_date (pricer_parameters tree)).
Local Abbreviation ex := (ex_div_date (market_data tree)).
Local Abbreviation tol := (dividend_tol tree).

(** X12.  The dividend is met in one step and one only: when a step
    takes time and the tolerance of [dividend_period] is not zero, the node
    dated [k] steps after the valuation date is in a dividend period exactly
    for [k = (ex_div_date - tol - pricing_date) // step]. *)
Theorem dividend_is_met_in_one_step n (k : Z) :
  (0 < step_)%Z -> (0 < tol)%Z ->
  date n = (pd + k * step_)%Z ->
  dividend_period timedelta_days tree n = true
  <-> k = ((ex - tol - pd) / step_)%Z.
Proof.
  intros Hstep Htol Hd. rewrite dividend_period_interval.
  unfold Spec.in_step_within, next_date. fold step_. rewrite Hd.
  rewrite !andb_true_iff, Z.ltb_lt, Z.leb_le, Z.ltb_lt.
  split.
  - intros [[_ Hlo] Hhi].
    apply Z.div_unique_pos with (r := (ex - tol - pd - k * step_)%Z); lia.
  - intros ->.
    pose proof (Z.mul_div_le (ex - tol - pd) step_ Hstep) as Hlo.
    pose proof (Z.mul_succ_div_gt (ex - tol - pd) step_ Hstep) as Hhi.
    repeat split; lia.
Qed.

End DividendStep.

Lemma dividend_is_met_in_one_step_witness :
  dividend_period Ref.timedelta_days Sample.dividend_tree Sample.root_node
  = true
  <-> 0%Z
      = ((ex_div_date (market_data Sample.dividend_tree)
          - dividend_tol Sample.dividend_tree
          - pricing_date (pricer_parameters Sample.dividend_tree))
         / step Ref.timedelta_days Sample.dividend_tree)%Z.
Proof.
  apply (dividend_is_met_in_one_step Ref.timedelta_days Sample.dividend_tree
           Sample.root_node 0); vm_compute; reflexivity.
Defined.

(** ** The pruning floor, in Tree.build_triplet and in Node.probas *)

Lemma SFcompare_Eq_sym x y :
  SFcompare x y = Some Eq -> SFcompare y x = Some Eq.
Proof.
  destruct x as [sx|sx| |sx mx ex], y as [sy|sy| |sy my ey]; cbn;
    try discriminate; try reflexivity;
    try (destruct sx, sy; cbn; (discriminate || reflexivity)).
  destruct sx, sy; try discriminate;
    destruct (Z.compare_spec ex ey) as [->| |]; try discriminate;
    rewrite Z.compare_refl; intros H;
    assert (E : mx = my)
      by (apply Pos.compare_eq;
          destruct (Pos.compare_cont Eq mx my) eqn:Hc;
          try discriminate; exact Hc);
    subst my; now rewrite Pos.compare_cont_refl.
Qed.

Lemma eqb_not_ltb (x y : float) :
  PrimFloat.eqb x y = true ->
  PrimFloat.ltb x y = false /\ PrimFloat.ltb y x = false.
Proof.
  rewrite FloatAxioms.eqb_spec, !FloatAxioms.ltb_spec. unfold SFeqb, SFltb.
  intros H.
  destruct (SFcompare (Prim2SF x) (Prim2SF y)) as [[| |]|] eqn:E;
    try discriminate.
  rewrite (SFcompare_Eq_sym _ _ E). now split.
Qed.

Section OnTheFloor.

Variable tree : Tree.

(** X13.  The two tests of the pruning floor leave a gap: for a node whose
    reachability equals [p_min], the test [p_node > p_min] that lets
    [build_triplet] create the outer successors is false, and so is the test
    [p_node < p_min] that makes [probas] store [(0, 1, 0)]. *)
Theorem node_on_the_floor_is_neither_grown_nor_pruned n floor :
  pruning (pricer_parameters tree) = true ->
  p_min (pricer_parameters tree) = Some floor ->
  PrimFloat.eqb (p_node n) floor = true ->
  above_floor tree n = Ok false /\ below_floor tree n = Ok false.
Proof.
  intros Hpr Hmin Heq. unfold above_floor, below_floor, Num.gtb.
  rewrite Hpr, Hmin. destruct (eqb_not_ltb _ _ Heq) as [-> ->]. now split.
Qed.

End OnTheFloor.

Lemma node_on_the_floor_witness :
  above_floor Sample.pruned_tree (set_p_node 0.5 Sample.root_node) = Ok false
  /\ below_floor Sample.pruned_tree (set_p_node 0.5 Sample.root_node)
     = Ok false.
Proof.
  apply (node_on_the_floor_is_neither_grown_nor_pruned Sample.pruned_tree
           (set_p_node 0.5 Sample.root_node) 0.5%float); reflexivity.
Defined.

(** ** models/tree.py: what Tree.make_tree builds *)

Section LatticeProperties.

Variable np_exp : float -> float.
Variable py_pow : float -> Z -> option float.
Variable timedelta_days : float -> Z.
Variable tree : Tree.

Local Abbreviation step_ := (step timedelta_days tree).
Local Abbreviation pp := (pricer_parameters tree).
Local Abbreviation columns := (Z.to_nat (nb_steps (pricer_parameters tree))).
Local Abbreviation last_date :=
  (pricing_date (pricer_parameters tree)
   + Z.of_nat (Z.to_nat (nb_steps (pricer_parameters tree)))
     * step timedelta_days tree)%Z.
Local Abbreviation built_ := (built timedelta_days tree).
Local Abbreviation trunk_state_ := (trunk_state np_exp timedelta_days tree).
Local Abbreviation regular_column_ :=
  (regular_column np_exp timedelta_days tree).
Local Abbreviation make_tree_ :=
  (make_tree np_exp py_pow timedelta_days tree).

Hypothesis regular : regular_trunk np_exp timedelta_days tree = true.

Lemma regular_step : (0 < step_)%Z.
Proof.
  apply andb_true_iff in regular. destruct regular as [Hs _]. lia.
Qed.

(** [build_column] keeps the shell of every node. *)
Lemma build_column_shell fuel k D h root t nt t' h' :
  built_ D k h root t ->
  h !! t = Some nt -> und_price nt = fst (trunk_state_ k) ->
  is_TruncNode nt = true -> regular_column_ k = true ->
  build_column np_exp py_pow timedelta_days tree fuel t h = Ok (t', h') ->
  forall q n, h !! q = Some n ->
    exists n', h' !! q = Some n' /\ shell n' = shell n.
Proof.
  intros [W P (nr & Hr & Hdr) HD (rank & R)] Ht Hund Htr Hreg H.
  destruct (trunk_path_date timedelta_days tree D h root t k nr
              (lattice_wf_layered _ _ _ _ W) Hr Hdr P) as (n1 & Hn1 & Hdt).
  same_node Ht.
  set (N := Node_init (fst (trunk_state_ k)) (snd (trunk_state_ k))).
  assert (HdN : date nt = date N)
    by (cbn; rewrite (trunk_state_date np_exp timedelta_days tree);
        exact Hdt).
  assert (Hreg' : dividend_period timedelta_days tree nt = true ->
                  stays_put tree (expected_value np_exp timedelta_days tree nt)
                  = true).
  { intros Hdiv. unfold regular_column in Hreg. fold N in Hreg.
    rewrite (dividend_period_ext timedelta_days tree nt N (eq_sym HdN))
      in Hreg.
    rewrite (expected_value_ext np_exp timedelta_days tree nt N
               (eq_sym Hund) (eq_sym HdN)) in Hreg.
    rewrite Hdiv in Hreg. exact Hreg. }
  destruct (build_column_inv np_exp py_pow timedelta_days tree regular_step
              D (D + step_)%Z rank h t nt eq_refl W R Ht
              ltac:(lia) fuel t' h' Htr Hreg' H) as (Inv & _).
  exact (column_shell _ _ _ _ _ _ _ _ _ _ Inv).
Qed.

Lemma build_columns_shell fuel root : forall steps k D h t nt last h',
  built_ D k h root t ->
  h !! t = Some nt -> und_price nt = fst (trunk_state_ k) ->
  is_TruncNode nt = true ->
  (forall j, (k <= j < k + steps)%nat -> regular_column_ j = true) ->
  build_columns np_exp py_pow timedelta_days tree fuel steps t h
    = Ok (last, h') ->
  forall q n, h !! q = Some n ->
    exists n', h' !! q = Some n' /\ shell n' = shell n.
Proof.
  induction steps as [|steps IH]; intros k D h t nt last h' B Ht Hund Htr Hreg H.
  - cbn in H. apply ret_Ok in H. destruct H as [_ ->].
    intros q n Hn. now exists n.
  - cbn [build_columns] in H.
    apply bind_Ok in H. destruct H as (t1 & h1 & H1 & H).
    destruct (build_column_built np_exp py_pow timedelta_days tree
                regular_step fuel k D h root t nt t1 h1 B Ht Hund Htr
                (Hreg k ltac:(lia)) H1) as (B1 & nt1 & Ht1 & Hund1 & Htr1).
    pose proof (build_column_shell fuel k D h root t nt t1 h1 B Ht Hund Htr
                  (Hreg k ltac:(lia)) H1) as Sh1.
    assert (Sh2 : forall q n, h1 !! q = Some n ->
                    exists n', h' !! q = Some n' /\ shell n' = shell n).
    { apply (IH (S k) _ h1 t1 nt1 last h' B1 Ht1 Hund1 Htr1); [|exact H].
      intros j Hj. apply Hreg. lia. }
    intros q n Hn. destruct (Sh1 q n Hn) as (n1 & Hn1 & E1).
    destruct (Sh2 q n1 Hn1) as (n2 & Hn2 & E2). exists n2.
    split; [exact Hn2|congruence].
Qed.

(** What [make_tree] returns, with the root as it is created. *)
Lemma make_tree_summary fuel root last h :
  make_tree_ fuel [] = Ok (root, last, h) ->
  built_ last_date columns h root last
  /\ root = 0%nat
  /\ exists nr,
       h !! root = Some nr
       /\ shell nr
          = shell (set_p_node 1 (TruncNode_init (s0 (market_data tree))
                                   (pricing_date pp) None)).
Proof.
  intros H.
  pose proof (make_tree_built np_exp py_pow timedelta_days tree regular_step
                fuel root last h regular H) as B.
  split; [exact B|].
  unfold make_tree in H.
  assert (Hreg := regular). apply andb_true_iff in Hreg.
  destruct Hreg as [_ Hreg]. rewrite forallb_forall in Hreg.
  destruct (pruning pp && is_none (p_min pp)); [discriminate|].
  apply bind_Ok in H. destruct H as (r & h1 & H1 & H).
  apply alloc_Ok in H1. destruct H1 as [-> ->].
  apply bind_Ok in H. destruct H as ([] & h2 & H2 & H).
  apply modify_Ok in H2. destruct H2 as (n2 & Hn2 & ->).
  cbn in Hn2. injection Hn2 as <-. cbn [app length insert] in H.
  apply bind_Ok in H. destruct H as (l & h3 & H3 & H).
  apply ret_Ok in H. destruct H as [Hrl ->].
  injection Hrl as Hroot Hlast. cbn in Hroot. subst root l.
  split; [reflexivity|].
  set (nr := set_p_node 1 (TruncNode_init (s0 (market_data tree))
                             (pricing_date pp) None)) in *.
  change (list_insert 0%nat nr
            [TruncNode_init (s0 (market_data tree)) (pricing_date pp) None])
    with [nr] in H3.
  assert (B0 : built_ (pricing_date pp) 0 [nr] 0%nat 0%nat).
  { split.
    - intros q n Hn. destruct q as [|q]; cbn in Hn; [|discriminate].
      injection Hn as <-.
      apply node_wf_fresh; cbn; try reflexivity; try lia;
        apply linked_None.
    - constructor.
    - exists nr. now split.
    - lia.
    - exists (fun _ => 0%Z). intros q n Hn.
      destruct q as [|q]; cbn in Hn; [|discriminate].
      injection Hn as <-. cbn. split; discriminate. }
  apply (build_columns_shell fuel 0%nat columns 0%nat (pricing_date pp) [nr]
           0%nat nr last h3 B0 eq_refl eq_refl eq_refl);
    [|exact H3|reflexivity].
  intros j Hj. apply Hreg. apply in_seq. lia.
Qed.

(** X14.  On a regular trunk, what [make_tree] leaves in [self.root]
    and [self.last]: the root holds the spot on the valuation date, with
    reachability [1.0], no neighbour and no predecessor; [last] is reached
    from the root by following [next_mid] once per step, each trunk node a
    [TruncNode] whose [prec_node] is the one before; and [last] is dated
    [nb_steps] steps after the valuation date and has no successor. *)
Theorem make_tree_trunk fuel root last h :
  make_tree_ fuel [] = Ok (root, last, h) ->
  trunk_path h root last columns
  /\ (exists nr,
        h !! root = Some nr
        /\ und_price nr = s0 (market_data tree)
        /\ date nr = pricing_date pp /\ p_node nr = 1%float
        /\ prec_node nr = Some None
        /\ up_node nr = None /\ down_node nr = None)
  /\ (exists nl,
        h !! last = Some nl /\ date nl = last_date
        /\ next_mid nl = None /\ is_TruncNode nl = true).
Proof.
  intros H. destruct (make_tree_summary fuel root last h H)
    as ([W P (nr0 & Hr0 & Hdr0) HD _] & -> & nr & Hr & Sh).
  same_node Hr. apply shell_fields in Sh.
  destruct Sh as (Eu & Ed & _ & Ep & Eup & Edn & _ & Eprec).
  split; [exact P|]. split.
  - exists nr. repeat split; assumption.
  - destruct (trunk_path_date timedelta_days tree _ h 0%nat last columns nr
                (lattice_wf_layered _ _ _ _ W) Hr Hdr0 P) as (nl & Hl & Hdl).
    destruct (no_successor_at_last timedelta_days tree _ h last nl
                regular_step W Hl Hdl) as (_ & Hmid & _).
    exists nl. split; [exact Hl|]. split; [exact Hdl|].
    split; [exact Hmid|].
    inversion P as [|t t' nt nt' k Pk Ht Hm Ht' Hprec]; subst.
    + same_node Hr. unfold is_TruncNode. now rewrite Eprec.
    + same_node Hl. unfold is_TruncNode. now rewrite Hprec.
Qed.

(** X15.  On a regular trunk, the lattice [make_tree] builds is
    layered by dates: every node is dated between the valuation date and
    [nb_steps] steps later, each of its successors exists and is dated one
    step after it, each of its neighbours exists and has its date, and no
    node holds a price yet. *)
Theorem make_tree_layers fuel root last h :
  make_tree_ fuel [] = Ok (root, last, h) ->
  forall i n,
    h !! i = Some n ->
    (pricing_date pp <= date n <= last_date)%Z
    /\ linked h (next_up n) (date n + step_)
    /\ linked h (next_mid n) (date n + step_)
    /\ linked h (next_down n) (date n + step_)
    /\ linked h (up_node n) (date n)
    /\ linked h (down_node n) (date n)
    /\ opt_price n = None.
Proof.
  intros H i n Hn.
  destruct (make_tree_summary fuel root last h H) as ([W _ _ _ _] & _).
  destruct (W i n Hn) as [[L1 L2 L3 L4] Wu Wd Wc _].
  repeat split; assumption || apply L1.
Qed.

(** X16.  On a regular trunk, [make_tree] respects the pruning floor:
    with pruning on, a node whose reachability is not above [p_min] has
    neither an upper nor a lower successor. *)
Theorem make_tree_prunes_below_the_floor fuel root last h floor i n :
  make_tree_ fuel [] = Ok (root, last, h) ->
  pruning pp = true -> p_min pp = Some floor ->
  h !! i = Some n -> Num.gtb (p_node n) floor = false ->
  next_up n = None /\ next_down n = None.
Proof.
  intros H Hpr Hmin Hn Hlow.
  destruct (make_tree_summary fuel root last h H) as ([W _ _ _ _] & _).
  apply (below_floor_no_outer timedelta_days tree _ h n (W i n Hn)).
  unfold above_floor. now rewrite Hpr, Hmin, Hlow.
Qed.

(** X17.  On a regular trunk, the neighbour links [make_tree] builds
    never loop: the nodes can be ranked so that [up_node] always leads to a
    higher rank and [down_node] to a lower one, so the walks of
    [backward_pricing] along a column end. *)
Theorem make_tree_neighbours_are_ranked fuel root last h :
  make_tree_ fuel [] = Ok (root, last, h) ->
  exists rank : id -> Z,
    ranked rank h
    /\ forall q n, h !! q = Some n -> up_node n <> Some q /\ down_node n <> Some q.
Proof.
  intros H.
  destruct (make_tree_summary fuel root last h H)
    as ([_ _ _ _ (rank & R)] & _).
  exists rank. split; [exact R|]. intros q n Hn.
  destruct (R q n Hn) as [Ru Rd]. split; intros E.
  - specialize (Ru q E). lia.
  - specialize (Rd q E). lia.
Qed.

End LatticeProperties.

Lemma make_tree_trunk_witness :
  let t := Sample.pruned_dividend_tree in
  let h := Sample.lattice_of t in
  trunk_path h 0 28 6
  /\ (exists nr,
        h !! 0%nat = Some nr
        /\ und_price nr = s0 (market_data t)
        /\ date nr = pricing_date (pricer_parameters t)
        /\ p_node nr = 1%float
        /\ prec_node nr = Some None
        /\ up_node nr = None /\ down_node nr = None)
  /\ (exists nl,
        h !! 28%nat = Some nl
        /\ date nl
           = (pricing_date (pricer_parameters t)
              + Z.of_nat 6 * step Ref.timedelta_days t)%Z
        /\ next_mid nl = None /\ is_TruncNode nl = true).
Proof.
  refine (make_tree_trunk Ref.exp Ref.pow_np Ref.timedelta_days
            Sample.pruned_dividend_tree _ 30 0 28
            (Sample.lattice_of Sample.pruned_dividend_tree) _);
    vm_compute; reflexivity.
Defined.

Lemma make_tree_layers_witness :
  let t := Sample.pruned_dividend_tree in
  let h := Sample.lattice_of t in
  let n := Sample.node_at h 7 in
  (pricing_date (pricer_parameters t) <= date n
   <= pricing_date (pricer_parameters t)
      + Z.of_nat 6 * step Ref.timedelta_days t)%Z
  /\ linked h (next_up n) (date n + step Ref.timedelta_days t)
  /\ linked h (next_mid n) (date n + step Ref.timedelta_days t)
  /\ linked h (next_down n) (date n + step Ref.timedelta_days t)
  /\ linked h (up_node n) (date n)
  /\ linked h (down_node n) (date n)
  /\ opt_price n = None.
Proof.
  refine (make_tree_layers Ref.exp Ref.pow_np Ref.timedelta_days
            Sample.pruned_dividend_tree _ 30 0 28
            (Sample.lattice_of Sample.pruned_dividend_tree) _ 7
            (Sample.node_at (Sample.lattice_of Sample.pruned_dividend_tree) 7)
            _);
    vm_compute; reflexivity.
Defined.

Lemma make_tree_prunes_witness :
  let n := Sample.node_at (Sample.lattice_of Sample.pruned_dividend_tree) 7 in
  next_up n = None /\ next_down n = None.
Proof.
  refine (make_tree_prunes_below_the_floor Ref.exp Ref.pow_np
            Ref.timedelta_days Sample.pruned_dividend_tree _ 30 0 28
            (Sample.lattice_of Sample.pruned_dividend_tree) 0.05%float 7
            (Sample.node_at (Sample.lattice_of Sample.pruned_dividend_tree) 7)
            _ _ _ _ _);
    vm_compute; reflexivity.
Defined.

Lemma make_tree_neighbours_witness :
  let h := Sample.lattice_of Sample.pruned_dividend_tree in
  exists rank : nat -> Z,
    ranked rank h
    /\ forall q n,
         h !! q = Some n -> up_node n <> Some q /\ down_node n <> Some q.
Proof.
  refine (make_tree_neighbours_are_ranked Ref.exp Ref.pow_np
            Ref.timedelta_days Sample.pruned_dividend_tree _ 30 0 28
            (Sample.lattice_of Sample.pruned_dividend_tree) _);
    vm_compute; reflexivity.
Defined.

(** ** models/tree.py: the recursion depth of Tree.recursive_pricing *)

Section DepthMonotone.

Variable tree : Tree.

(** A call of [Node.price] that returns with some room for nested calls
    returns the same with more room. *)
Lemma price_more_depth d : forall i h v h',
  price tree d i h = Ok (v, h') ->
  forall d', (d <= d')%nat -> price tree d' i h = Ok (v, h').
Proof.
  induction d as [|d IH]; intros i h v h' H d' Hd; [discriminate H|].
  destruct d' as [|d']; [lia|].
  assert (Hle : (d <= d')%nat) by lia.
  rewrite price_eq in H |- *.
  unfold bind in H |- *.
  destruct (get i h) as [[n h0]| |]; try discriminate H.
  destruct (opt_price n); [exact H|].
  destruct (next_mid n) as [mid|]; [|exact H].
  assert (Sub : forall o h1 x h2,
            price_or_zero (price tree d) o h1 = Ok (x, h2) ->
            price_or_zero (price tree d') o h1 = Ok (x, h2)).
  { intros [y|] h1 x h2 Hx; cbn in *; [|exact Hx].
    now apply (IH y h1 x h2 Hx d'). }
  destruct (price_or_zero (price tree d) (next_up n) h0)
    as [[vu h1]| |] eqn:Hu; try discriminate H.
  rewrite (Sub _ _ _ _ Hu).
  destruct (price_or_zero (price tree d) (next_down n) h1)
    as [[vd h2]| |] eqn:Hdn; try discriminate H.
  rewrite (Sub _ _ _ _ Hdn).
  destruct (price tree d mid h2) as [[vm h3]| |] eqn:Hmd;
    try discriminate H.
  now rewrite (IH mid h2 vm h3 Hmd d' Hle).
Qed.

End DepthMonotone.

Section RecursionDepth.

Variable np_exp : float -> float.
Variable py_pow : float -> Z -> option float.
Variable timedelta_days : float -> Z.
Variable tree : Tree.

Local Abbreviation step_ := (step timedelta_days tree).
Local Abbreviation pp := (pricer_parameters tree).
Local Abbreviation columns := (Z.to_nat (nb_steps (pricer_parameters tree))).
Local Abbreviation layered_ := (layered timedelta_days tree).
Local Abbreviation make_tree_ :=
  (make_tree np_exp py_pow timedelta_days tree).

(** On a layered lattice [Node.price] returns, or runs out of nested
    calls: nothing else can happen. *)
Lemma price_outcome D depth : forall i h n,
  layered_ D h -> h !! i = Some n ->
  (exists v h', price tree depth i h = Ok (v, h'))
  \/ price tree depth i h = Raise RecursionError.
Proof.
  induction depth as [|d IH]; intros i h n L Hn; [now right|].
  assert (Sub : forall o h1,
            same_lattice h h1 -> linked h o (date n + step_) ->
            (exists v h', price_or_zero (price tree d) o h1 = Ok (v, h')
                          /\ same_lattice h h')
            \/ price_or_zero (price tree d) o h1 = Raise RecursionError).
  { intros o h1 E Lo. destruct o as [x|]; cbn.
    - destruct (Lo x eq_refl) as (nx & Hx & _).
      destruct (same_lattice_lookup _ _ _ _ E Hx) as (nx1 & Hx1 & _).
      destruct (IH x h1 nx1 (layered_same_lattice _ _ _ _ _ E L) Hx1)
        as [(v & h' & Hp)|Hp]; [left|now right].
      exists v, h'. split; [exact Hp|].
      eapply same_lattice_trans; [exact E|].
      eapply price_keeps_lattice, Hp.
    - left. exists 0%float, h1. now split. }
  rewrite price_eq. unfold bind, get. rewrite Hn.
  destruct (opt_price n) as [v0|]; [left; now exists v0, h|].
  destruct (L i n Hn) as [_ Lu Lm Ld].
  destruct (next_mid n) as [mid|] eqn:Hmid.
  - destruct (Sub (next_up n) h (same_lattice_refl h) Lu)
      as [(vu & h2 & H2 & E2)|H2]; rewrite H2; [|now right].
    destruct (Sub (next_down n) h2 E2 Ld) as [(vd & h3 & H3 & E3)|H3];
      rewrite H3; [|now right].
    destruct (Sub (Some mid) h3 E3 Lm) as [(vm & h4 & H4 & E4)|H4];
      cbn in H4; rewrite H4; [|now right].
    destruct (same_lattice_lookup _ _ _ _ E4 Hn) as (n4 & Hn4 & _).
    destruct (price_store_run tree i vu vm vd h4 n4 Hn4) as (v & h5 & H5).
    left. now exists v, h5.
  - left. cbv zeta. unfold modify, ret. rewrite Hn. eauto.
Qed.

Hypothesis regular : regular_trunk np_exp timedelta_days tree = true.

(** X18.  On a regular trunk, once [make_tree] succeeds, pricing succeeds
    when the interpreter leaves room enough for nested calls: there are a
    nesting depth and a price such that, with that much room or more,
    [recursive_pricing] returns the price (not [None], and it raises
    nothing), and [backward_pricing] returns the same price once its loops
    are allowed enough rounds.  How many frames a call of [Node.price] needs
    for the calls it makes itself depends on the interpreter; no number is
    claimed here. *)
Theorem pricing_returns_with_enough_depth fuel root last h :
  make_tree_ fuel [] = Ok (root, last, h) ->
  exists D v,
    forall depth, (D <= depth)%nat ->
      recursive_pricing np_exp py_pow timedelta_days tree fuel depth
        = Ok (Some v)
      /\ exists W, forall walk, (W <= walk)%nat ->
           backward_pricing np_exp py_pow timedelta_days tree fuel walk depth
             = Ok (Some v).
Proof.
  intros Hmk.
  pose proof (regular_step np_exp timedelta_days tree regular) as step_pos.
  pose proof (make_tree_built np_exp py_pow timedelta_days tree step_pos
                fuel root last h regular Hmk) as B.
  pose proof B as [Wf _ (nr & Hr & Hdr) _ _].
  destruct (price_total timedelta_days tree _ (S columns) root h nr
              (lattice_wf_layered _ _ _ _ Wf)
              (lattice_wf_cache_sound _ _ _ _ Wf) Hr) as (v & h1 & Hp0).
  { rewrite Hdr. nia. }
  exists (S columns), v. intros depth Hdepth.
  pose proof (price_more_depth tree _ _ _ _ _ Hp0 depth Hdepth) as Hp.
  destruct (pricing_agree timedelta_days tree step_pos _ _ h root last
              depth v h1 B Hp) as (W & HW).
  split.
  - unfold recursive_pricing, bind. rewrite Hmk. cbn [fst]. now rewrite Hp.
  - exists W. intros walk Hwalk. destruct (HW walk Hwalk) as (h' & Hb).
    unfold backward_pricing.
    rewrite (bind_run _ _ [] (root, last) h _ Hmk eq_refl).
    cbn [snd]. now rewrite Hb.
Qed.

(** X19.  On a regular trunk, once [make_tree] succeeds, a recursion
    limit that allows no more nested calls of [Node.price] than there are
    steps is too low: [recursive_pricing] catches the [RecursionError] and
    returns [None]. *)
Theorem recursive_pricing_gives_none_without_depth fuel depth root last h :
  make_tree_ fuel [] = Ok (root, last, h) ->
  (depth <= columns)%nat ->
  recursive_pricing np_exp py_pow timedelta_days tree fuel depth = Ok None.
Proof.
  intros Hmk Hdepth.
  pose proof (regular_step np_exp timedelta_days tree regular) as step_pos.
  pose proof (make_tree_built np_exp py_pow timedelta_days tree step_pos
                fuel root last h regular Hmk) as B.
  pose proof B as [Wf P (nr & Hr & Hdr) _ _].
  pose proof (lattice_wf_layered _ _ _ _ Wf) as L.
  pose proof (lattice_wf_cache_sound _ _ _ _ Wf) as Cs.
  pose proof (lattice_wf_cache_closed _ _ _ _ Wf) as Cc.
  destruct (price_outcome _ depth root h nr L Hr) as [(v & h1 & Hp)|Hp].
  - exfalso.
    destruct (price_closed tree depth root h v h1 Cs Cc Hp)
      as (Cc1 & _ & Cr).
    pose proof (trunk_path_same_lattice h h1 root last columns
                  (price_keeps_lattice tree _ _ _ _ _ Hp) P) as P1.
    pose proof (cached_trunk h1 root last columns Cc1 P1 Cr) as Cl.
    destruct (trunk_path_date timedelta_days tree _ h root last columns nr
                L Hr Hdr P) as (nl & Hl & Hdl).
    pose proof (price_depth timedelta_days tree step_pos _ depth root h v h1
                  nr last nl L Cs Hp Hr Hl
                  (wf_cache _ _ _ _ _ (Wf last nl Hl)) Cl) as Hlt.
    rewrite Hdl, Hdr in Hlt. nia.
  - unfold recursive_pricing, bind. rewrite Hmk. cbn [fst]. now rewrite Hp.
Qed.

End RecursionDepth.

Lemma pricing_returns_with_enough_depth_witness :
  exists D v,
    forall depth, (D <= depth)%nat ->
      ref_recursive 30 depth Sample.pruned_dividend_tree = Ok (Some v)
      /\ exists W, forall walk, (W <= walk)%nat ->
           ref_backward 30 walk depth Sample.pruned_dividend_tree
             = Ok (Some v).
Proof.
  refine (pricing_returns_with_enough_depth Ref.exp Ref.pow_np
            Ref.timedelta_days Sample.pruned_dividend_tree _ 30 0 28
            (Sample.lattice_of Sample.pruned_dividend_tree) _);
    vm_compute; reflexivity.
Defined.

Lemma recursive_pricing_gives_none_witness :
  ref_recursive 30 6 Sample.pruned_dividend_tree = Ok None.
Proof.
  refine (recursive_pricing_gives_none_without_depth Ref.exp Ref.pow_np
            Ref.timedelta_days Sample.pruned_dividend_tree _ 30 6 0 28
            (Sample.lattice_of Sample.pruned_dividend_tree) _ _);
    [vm_compute; reflexivity|vm_compute; reflexivity|vm_compute; lia].
Defined.

(** ** models/tree.py: a tree without steps *)

Section NoSteps.

Variable np_exp : float -> float.
Variable py_pow : float -> Z -> option float.
Variable timedelta_days : float -> Z.
Variable tree : Tree.

Local Abbreviation pp := (pricer_parameters tree).

(** X20.  When [nb_steps] is not positive, the loop of [make_tree]
    builds no column, the lattice is the root alone, and both pricing
    methods return the payoff at the spot, unless pruning is asked for
    without a floor. *)
Theorem pricing_without_steps_is_the_payoff fuel walk depth :
  (nb_steps pp <= 0)%Z ->
  pruning pp && is_none (p_min pp) = false ->
  recursive_pricing np_exp py_pow timedelta_days tree fuel (S depth)
    = Ok (Some (payoff (option_data tree) (s0 (market_data tree))))
  /\ backward_pricing np_exp py_pow timedelta_days tree fuel (S walk)
       (S depth)
     = Ok (Some (payoff (option_data tree) (s0 (market_data tree)))).
Proof.
  intros Hn Hfloor.
  assert (Hcols : Z.to_nat (nb_steps pp) = 0%nat) by lia.
  assert (Hmk : make_tree np_exp py_pow timedelta_days tree fuel []
                = Ok (0%nat, 0%nat,
                      [set_p_node 1
                         (TruncNode_init (s0 (market_data tree))
                            (pricing_date pp) None)])).
  { unfold make_tree. rewrite Hfloor, Hcols. reflexivity. }
  split.
  - unfold recursive_pricing, bind. rewrite Hmk. reflexivity.
  - unfold backward_pricing, bind. rewrite Hmk. cbn.
    rewrite Z.ltb_irrefl. reflexivity.
Qed.

End NoSteps.

Lemma pricing_without_steps_witness :
  ref_recursive 5 1 Sample.no_steps_tree = Ok (Some 0%float)
  /\ ref_backward 5 1 1 Sample.no_steps_tree = Ok (Some 0%float).
Proof.
  refine (pricing_without_steps_is_the_payoff Ref.exp Ref.pow_np
            Ref.timedelta_days Sample.no_steps_tree 5 0 0 _ _);
    [vm_compute; discriminate|reflexivity].
Defined.

(** ** models/tree.py: the constructor *)

(** X21.  The constructor does not check the number of steps:
    with [nb_steps = 0] the quotient that defines [delta_t] raises
    [ZeroDivisionError], whatever the market and the contract. *)
Theorem Tree_init_with_zero_steps (np_exp : float -> float) pp mkt opt :
  nb_steps pp = 0%Z ->
  Tree_init np_exp pp mkt opt = Raise ZeroDivisionError.
Proof.
  intros H. unfold Tree_init, Num.int_truediv. rewrite H. reflexivity.
Qed.

Lemma Tree_init_with_zero_steps_witness :
  Tree_init Ref.exp (mkParams Sample.d2025 0 false (Some 1e-9%float))
    Sample.market Sample.call_2026
  = Raise ZeroDivisionError.
Proof.
  apply (Tree_init_with_zero_steps Ref.exp
           (mkParams Sample.d2025 0 false (Some 1e-9%float))
           Sample.market Sample.call_2026).
  reflexivity.
Defined.

(** ** greeks/numerical_greeks.py: bumps that leave the market's domain *)

Section GreeksEdges.

Variable np_exp : float -> float.
Variable py_pow : float -> Z -> option float.
Variable timedelta_days : float -> Z.
Variables (fuel walk depth : nat).

Open Scope float_scope.

Lemma bumped_outcome s r v d mkt :
  (exists m, bumped s r v d mkt = Ok m)
  \/ bumped s r v d mkt = Raise ValueError.
Proof.
  unfold bumped, Market_init.
  destruct (PrimFloat.ltb s 0 || PrimFloat.ltb v 0); [now right|left; eauto].
Qed.

Lemma bumped_negative_spot s r v d mkt :
  PrimFloat.ltb s 0 = true -> bumped s r v d mkt = Raise ValueError.
Proof. intros H. unfold bumped, Market_init. now rewrite H. Qed.

Lemma bumped_negative_vol s r v d mkt :
  PrimFloat.ltb v 0 = true -> bumped s r v d mkt = Raise ValueError.
Proof.
  intros H. unfold bumped, Market_init. rewrite H.
  now destruct (PrimFloat.ltb s 0).
Qed.

(** X22.  [speed] bumps the spot down by [eps = max(1e-3, S0 * h)];
    when that takes it below zero (with the default [h], every spot under
    [1e-3]), the constructor of the bumped market refuses it and [speed] raises
    [ValueError], whatever the option, the date and the number of steps. *)
Theorem speed_raises_on_a_low_spot mkt a1 a2 a3 kwargs :
  PrimFloat.ltb
    (s0 mkt - Num.py_max 1e-3 (s0 mkt * default 0.01 (kw_h kwargs))) 0
  = true ->
  speed np_exp py_pow timedelta_days fuel walk depth
    [PyMarket mkt; a1; a2; a3] kwargs
  = Raise ValueError.
Proof.
  intros Hlow. unfold speed. cbn [unpack lookup]. cbn.
  destruct (bumped_outcome
              (s0 mkt + Num.py_max 1e-3 (s0 mkt * default 0.01 (kw_h kwargs)))
              (rate mkt) (vol mkt) (dividend mkt) mkt) as [(m & ->)| ->];
    [|reflexivity].
  cbn. now rewrite bumped_negative_spot.
Qed.

(** X23.  [zomma] bumps the volatility down by
    [eps = max(1e-4, sigma * h)]; when that takes it below zero (with the
    default [h], every volatility under [1e-4], zero included), [zomma]
    raises [ValueError]. *)
Theorem zomma_raises_on_a_low_volatility mkt a1 a2 a3 kwargs :
  PrimFloat.ltb
    (vol mkt - Num.py_max 1e-4 (vol mkt * default 0.01 (kw_h kwargs))) 0
  = true ->
  zomma np_exp py_pow timedelta_days fuel walk depth
    [PyMarket mkt; a1; a2; a3] kwargs
  = Raise ValueError.
Proof.
  intros Hlow. unfold zomma. cbn [unpack lookup]. cbn.
  destruct (bumped_outcome (s0 mkt) (rate mkt)
              (vol mkt + Num.py_max 1e-4 (vol mkt * default 0.01 (kw_h kwargs)))
              (dividend mkt) mkt) as [(m & ->)| ->];
    [|reflexivity].
  cbn. now rewrite bumped_negative_vol.
Qed.

End GreeksEdges.

Lemma speed_raises_witness :
  speed Ref.exp Ref.pow_np Ref.timedelta_days 10 10 10
    [PyMarket Sample.penny_market; PyInt 3; PyDate Sample.d2025;
     PyOption Sample.call_2026] (mkKwargs None None)
  = Raise ValueError.
Proof.
  apply (speed_raises_on_a_low_spot Ref.exp Ref.pow_np Ref.timedelta_days
           10 10 10 Sample.penny_market).
  vm_compute; reflexivity.
Defined.

Lemma zomma_raises_witness :
  zomma Ref.exp Ref.pow_np Ref.timedelta_days 10 10 10
    [PyMarket Sample.flat_market; PyInt 3; PyDate Sample.d2025;
     PyOption Sample.call_2026] (mkKwargs None None)
  = Raise ValueError.
Proof.
  apply (zomma_raises_on_a_low_volatility Ref.exp Ref.pow_np
           Ref.timedelta_days 10 10 10 Sample.flat_market).
  vm_compute; reflexivity.
Defined.

(** ** models/black_scholes.py *)

Section BlackScholesProperties.

Variable math_ln : float -> float.
Variable math_exp : float -> option float.
Variable py_pow : float -> Z -> option float.
Variable norm_cdf : float -> float.
Variable norm_pdf : float -> float.

Local Abbreviation d1_d2 := (BlackScholes._d1_d2 math_ln py_pow).
Local Abbreviation bs_delta := (BlackScholes.delta math_ln py_pow norm_cdf).
Local Abbreviation bs_gamma := (BlackScholes.gamma math_ln py_pow norm_pdf).
Local Abbreviation bs_vega := (BlackScholes.vega math_ln py_pow norm_pdf).
Local Abbreviation bs_theta :=
  (BlackScholes.theta math_ln math_exp py_pow norm_cdf norm_pdf).
Local Abbreviation bs_rho :=
  (BlackScholes.rho math_ln math_exp py_pow norm_cdf).
Local Abbreviation bs_vomma := (BlackScholes.vomma math_ln py_pow norm_pdf).

Open Scope float_scope.

Lemma d1_d2_at_expiry S0 K T r sigma :
  PrimFloat.leb T 0 = true -> d1_d2 S0 K T r sigma = Ok (infinity, infinity).
Proof. intros H. unfold BlackScholes._d1_d2. now rewrite H. Qed.

(** X24.  At or after expiry ([T <= 0]) the Black-Scholes functions
    raise nothing, whatever the strike, the rate and the volatility (a zero
    strike and a negative volatility included): the call and the put are
    worth their payoff, gamma, vega, theta, rho and vomma are [0.0], and delta
    is the normal distribution function at infinity, less one for a put. *)
Theorem black_scholes_at_expiry S0 K T r sigma option_type :
  PrimFloat.leb T 0 = true ->
  BlackScholes.black_scholes_call_price math_ln math_exp py_pow norm_cdf
    S0 K T r sigma = Ok (Num.py_max (S0 - K) 0)
  /\ BlackScholes.black_scholes_put_price math_ln math_exp py_pow norm_cdf
       S0 K T r sigma = Ok (Num.py_max (K - S0) 0)
  /\ bs_delta S0 K T r sigma option_type
     = Ok (if BlackScholes.starts_with_c option_type
           then norm_cdf infinity else norm_cdf infinity - 1)
  /\ bs_gamma S0 K T r sigma = Ok 0
  /\ bs_vega S0 K T r sigma = Ok 0
  /\ bs_theta S0 K T r sigma option_type = Ok 0
  /\ bs_rho S0 K T r sigma option_type = Ok 0
  /\ bs_vomma S0 K T r sigma = Ok 0.
Proof.
  intros H. pose proof (d1_d2_at_expiry S0 K T r sigma H) as Hd.
  unfold BlackScholes.black_scholes_call_price,
    BlackScholes.black_scholes_put_price, BlackScholes.delta,
    BlackScholes.gamma, BlackScholes.vega, BlackScholes.theta,
    BlackScholes.rho, BlackScholes.vomma.
  rewrite Hd, H. cbn.
  repeat split. now destruct (BlackScholes.starts_with_c option_type).
Qed.

Lemma d1_d2_domain_error S0 K T r sigma :
  PrimFloat.leb T 0 = false -> PrimFloat.leb sigma 0 = false ->
  PrimFloat.eqb K 0 || PrimFloat.leb (S0 / K) 0 = true ->
  d1_d2 S0 K T r sigma
  = Raise (if PrimFloat.eqb K 0 then ZeroDivisionError else ValueError).
Proof.
  intros HT Hs Hbad. unfold BlackScholes._d1_d2, BlackScholes.py_div,
    BlackScholes.math_log.
  rewrite HT, Hs. cbn [orb].
  destruct (PrimFloat.eqb K 0); [reflexivity|].
  cbn in Hbad |- *. now rewrite Hbad.
Qed.

(** X25.  Before expiry and with a positive volatility, the
    Black-Scholes functions do not return a limit value for a zero strike
    or a zero spot: a zero strike raises [ZeroDivisionError] (in [S0 / K]),
    and a ratio [S0 / K] at or below zero raises [ValueError] (in
    [math.log]), in both prices and in delta, gamma, vega, theta and rho. *)
Theorem black_scholes_domain_errors S0 K T r sigma option_type :
  PrimFloat.leb T 0 = false -> PrimFloat.leb sigma 0 = false ->
  PrimFloat.eqb K 0 || PrimFloat.leb (S0 / K) 0 = true ->
  let e := if PrimFloat.eqb K 0 then ZeroDivisionError else ValueError in
  BlackScholes.black_scholes_call_price math_ln math_exp py_pow norm_cdf
    S0 K T r sigma = Raise e
  /\ BlackScholes.black_scholes_put_price math_ln math_exp py_pow norm_cdf
       S0 K T r sigma = Raise e
  /\ bs_delta S0 K T r sigma option_type = Raise e
  /\ bs_gamma S0 K T r sigma = Raise e
  /\ bs_vega S0 K T r sigma = Raise e
  /\ bs_theta S0 K T r sigma option_type = Raise e
  /\ bs_rho S0 K T r sigma option_type = Raise e.
Proof.
  intros HT Hs Hbad e.
  pose proof (d1_d2_domain_error S0 K T r sigma HT Hs Hbad) as Hd.
  fold e in Hd.
  unfold BlackScholes.black_scholes_call_price,
    BlackScholes.black_scholes_put_price, BlackScholes.delta,
    BlackScholes.gamma, BlackScholes.vega, BlackScholes.theta,
    BlackScholes.rho.
  rewrite Hd, HT. cbn. repeat split.
Qed.

End BlackScholesProperties.

Section BlackScholesSamples.

Open Scope float_scope.

Lemma black_scholes_at_expiry_witness :
  let call_price :=
    BlackScholes.black_scholes_call_price Sample.ln_stub Sample.exp_stub
      Ref.pow_py Sample.cdf_stub in
  let put_price :=
    BlackScholes.black_scholes_put_price Sample.ln_stub Sample.exp_stub
      Ref.pow_py Sample.cdf_stub in
  call_price 100 0 0 0.01 (-1) = Ok (Num.py_max (100 - 0) 0)
  /\ put_price 100 0 0 0.01 (-1) = Ok (Num.py_max (0 - 100) 0)
  /\ BlackScholes.delta Sample.ln_stub Ref.pow_py Sample.cdf_stub
       100 0 0 0.01 (-1) BlackScholes.put_type
     = Ok (if BlackScholes.starts_with_c BlackScholes.put_type
           then Sample.cdf_stub infinity else Sample.cdf_stub infinity - 1)
  /\ BlackScholes.gamma Sample.ln_stub Ref.pow_py Sample.pdf_stub
       100 0 0 0.01 (-1) = Ok 0
  /\ BlackScholes.vega Sample.ln_stub Ref.pow_py Sample.pdf_stub
       100 0 0 0.01 (-1) = Ok 0
  /\ BlackScholes.theta Sample.ln_stub Sample.exp_stub Ref.pow_py
       Sample.cdf_stub Sample.pdf_stub 100 0 0 0.01 (-1)
       BlackScholes.put_type = Ok 0
  /\ BlackScholes.rho Sample.ln_stub Sample.exp_stub Ref.pow_py
       Sample.cdf_stub 100 0 0 0.01 (-1) BlackScholes.put_type = Ok 0
  /\ BlackScholes.vomma Sample.ln_stub Ref.pow_py Sample.pdf_stub
       100 0 0 0.01 (-1) = Ok 0.
Proof.
  apply (black_scholes_at_expiry Sample.ln_stub Sample.exp_stub Ref.pow_py
           Sample.cdf_stub Sample.pdf_stub 100 0 0 0.01 (-1)
           BlackScholes.put_type).
  reflexivity.
Defined.

Lemma black_scholes_domain_errors_witness :
  BlackScholes.black_scholes_call_price Sample.ln_stub Sample.exp_stub
    Ref.pow_py Sample.cdf_stub 0 100 1 0.01 0.2 = Raise ValueError
  /\ BlackScholes.black_scholes_put_price Sample.ln_stub Sample.exp_stub
       Ref.pow_py Sample.cdf_stub 0 100 1 0.01 0.2 = Raise ValueError
  /\ BlackScholes.delta Sample.ln_stub Ref.pow_py Sample.cdf_stub
       0 100 1 0.01 0.2 BlackScholes.call_type = Raise ValueError
  /\ BlackScholes.gamma Sample.ln_stub Ref.pow_py Sample.pdf_stub
       0 100 1 0.01 0.2 = Raise ValueError
  /\ BlackScholes.vega Sample.ln_stub Ref.pow_py Sample.pdf_stub
       0 100 1 0.01 0.2 = Raise ValueError
  /\ BlackScholes.theta Sample.ln_stub Sample.exp_stub Ref.pow_py
       Sample.cdf_stub Sample.pdf_stub 0 100 1 0.01 0.2
       BlackScholes.call_type = Raise ValueError
  /\ BlackScholes.rho Sample.ln_stub Sample.exp_stub Ref.pow_py
       Sample.cdf_stub 0 100 1 0.01 0.2 BlackScholes.call_type
     = Raise ValueError.
Proof.
  apply (black_scholes_domain_errors Sample.ln_stub Sample.exp_stub
           Ref.pow_py Sample.cdf_stub Sample.pdf_stub 0 100 1 0.01 0.2
           BlackScholes.call_type); reflexivity.
Defined.

End BlackScholesSamples.
